(** * The model lifecycle managers of the MLX embedding server

    A shallow embedding of [src/mlx-server/server.py]: the model catalog
    and alias resolution, [ModelManager] (lazy loading, capacity
    eviction, idle eviction, the embedding cache and the embedding
    pipeline), [RerankerManager] (the rerank pipeline) and the
    per-model locking of [load_model] as an interleaving of tasks.

    Conventions.
    - A [str] is the sequence of the bytes of its UTF-8 encoding.
    - A Python [dict] whose iteration order the code observes
      ([models], [_last_used]) is an insertion-ordered association
      list; a [dict] only read by key ([model_status],
      [model_load_times], [_embedding_cache], [_token_ids]) is a
      [gmap string _].
    - [time.time()] returns a float.  A reading, and every duration
      computed from readings, is held as its multiple of
      [TICKS_PER_SECOND] (see there), an integer; the clock is part of
      the world and only moves forward.
    - The inference engine ([mlx_lm.load], the tokenizer, the forward
      pass) is an oracle record [Engine]; a float32 array is the list of
      its bit patterns and a relevance score is a float: a rational
      number or NaN.
    - A raised exception is a value of [PyExc]; every operation returns
      the world it leaves behind together with its result, since Python
      keeps the mutations made before a raise. *)

From Stdlib Require Import ZArith QArith List String Ascii Bool Permutation Sorted Lia.
From Stdlib Require DecimalString.
From stdpp Require Import gmap strings list fin_maps.

Open Scope string_scope.
Open Scope Z_scope.

(** ** Strings *)

Module PyStr.

(** A Python [str] is held as the bytes of its UTF-8 encoding; a
    character of the ASCII range is one byte below 128, and the bytes of
    any other character are all 128 or above. *)
Definition is_byte (n : nat) (c : ascii) : bool := (nat_of_ascii c =? n)%nat.

(** [str.lower] on the ASCII range. *)
Definition lower_ascii (c : ascii) : ascii :=
  let n := nat_of_ascii c in
  if ((65 <=? n)%nat && (n <=? 90)%nat)%bool then ascii_of_nat (n + 32) else c.

(** The lower case of U+0130: [i] followed by U+0307 (bytes CC 87). *)
Definition dotted_i : string :=
  String "i" (String (ascii_of_nat 204) (String (ascii_of_nat 135) EmptyString)).

(** [str.lower], as far as the code can observe it.  The code only
    compares lower-cased text with ASCII strings (the alias tables, the
    patterns of the log filter), so what counts is where ASCII
    characters come out.  They come out of the ASCII letters, and of the
    two other characters whose lower case has an ASCII letter in it:
    U+212A KELVIN SIGN (bytes E2 84 AA), whose lower case is [k], and
    U+0130 (bytes C4 B0), whose lower case is [i] followed by U+0307.
    The lower case of any other character outside ASCII lies outside
    ASCII; such a character stands for its lower case here. *)
Fixpoint lower (s : string) : string :=
  match s with
  | EmptyString => EmptyString
  | String c r =>
      let plain := String (lower_ascii c) (lower r) in
      match r with
      | String c1 r1 =>
          if is_byte 196 c && is_byte 176 c1 then dotted_i +:+ lower r1
          else
            match r1 with
            | String c2 r2 =>
                if is_byte 226 c && is_byte 132 c1 && is_byte 170 c2
                then String "k" (lower r2)
                else plain
            | EmptyString => plain
            end
      | EmptyString => plain
      end
  end.

(** [s.startswith(p)] *)
Fixpoint startswith (s p : string) {struct p} : bool :=
  match p with
  | EmptyString => true
  | String c p' =>
      match s with
      | EmptyString => false
      | String d s' => Ascii.eqb c d && startswith s' p'
      end
  end.

(** [c in s] for a single character. *)
Fixpoint contains_char (c : ascii) (s : string) : bool :=
  match s with
  | EmptyString => false
  | String d r => if Ascii.eqb c d then true else contains_char c r
  end.

(** [str(b)] for a bool, as an f-string renders it. *)
Definition of_bool (b : bool) : string := if b then "True" else "False".

(** [repr] of a list of plain strings, as [list(d.keys())] prints. *)
Fixpoint repr_items (l : list string) : string :=
  match l with
  | [] => EmptyString
  | [x] => "'" +:+ x +:+ "'"
  | x :: r => "'" +:+ x +:+ "', " +:+ repr_items r
  end.

Definition repr_list (l : list string) : string := "[" +:+ repr_items l +:+ "]".

End PyStr.

(** ** Insertion-ordered dictionaries *)

Module OD.

Section Ops.
Context {V : Type}.

Definition t := list (string * V).

Fixpoint get (k : string) (d : list (string * V)) : option V :=
  match d with
  | [] => None
  | (k', v) :: r => if String.eqb k k' then Some v else get k r
  end.

Definition mem (k : string) (d : list (string * V)) : bool :=
  match get k d with Some _ => true | None => false end.

(** [d[k] = v]: an existing key keeps its position, a new key goes last. *)
Fixpoint set (k : string) (v : V) (d : list (string * V)) : list (string * V) :=
  match d with
  | [] => [(k, v)]
  | (k', v') :: r => if String.eqb k k' then (k, v) :: r else (k', v') :: set k v r
  end.

(** [del d[k]] (the callers check membership first). *)
Fixpoint del (k : string) (d : list (string * V)) : list (string * V) :=
  match d with
  | [] => []
  | (k', v') :: r => if String.eqb k k' then r else (k', v') :: del k r
  end.

Definition keys (d : list (string * V)) : list string := map fst d.

End Ops.

End OD.

(** ** The catalog *)

Definition DEFAULT_MODEL : string := "mlx-community/Qwen3-Embedding-0.6B-4bit-DWQ".
Definition DEFAULT_RERANKER_MODEL : string := "Qwen/Qwen3-Reranker-0.6B".
Definition DEFAULT_MAX_LENGTH : Z := 8192.
Definition DEFAULT_IDLE_TTL_SECONDS : Z := 300.

Record ModelInfo := {
  alias : list string;
  embedding_dim : Z;
  description : string
}.

Record RerankerInfo := {
  rr_alias : list string;
  max_length : Z;
  rr_description : string
}.

Definition AVAILABLE_MODELS : list (string * ModelInfo) :=
  [ ("mlx-community/Qwen3-Embedding-0.6B-4bit-DWQ",
     {| alias := ["small"; "0.6b"; "default"];
        embedding_dim := 1024;
        description := "Small 0.6B parameter model, fast and efficient (default)" |});
    ("mlx-community/Qwen3-Embedding-4B-4bit-DWQ",
     {| alias := ["medium"; "4b"];
        embedding_dim := 2560;
        description := "Medium 4B parameter model, balanced performance" |});
    ("mlx-community/Qwen3-Embedding-8B-4bit-DWQ",
     {| alias := ["large"; "8b"];
        embedding_dim := 4096;
        description := "Large 8B parameter model, higher quality (requires 32GB+ RAM)" |});
    ("mlx-community/embeddinggemma-300m-4bit",
     {| alias := ["embeddinggemma"; "gemma"; "gemma-300m"];
        embedding_dim := 768;
        description := "Google EmbeddingGemma 308M, 50% smaller than Qwen3-0.6B, MRL dimension support (768/512/256/128)" |}) ].

Definition AVAILABLE_RERANKER_MODELS : list (string * RerankerInfo) :=
  [ ("Qwen/Qwen3-Reranker-0.6B",
     {| rr_alias := ["reranker-small"; "reranker-0.6b"; "reranker-default"];
        max_length := 8192;
        rr_description := "Small 0.6B reranker, fast cross-encoder scoring (~1.5GB)" |});
    ("Qwen/Qwen3-Reranker-4B",
     {| rr_alias := ["reranker-medium"; "reranker-4b"];
        max_length := 8192;
        rr_description := "Medium 4B reranker, balanced quality (~8GB)" |});
    ("Qwen/Qwen3-Reranker-8B",
     {| rr_alias := ["reranker-large"; "reranker-8b"];
        max_length := 8192;
        rr_description := "Large 8B reranker, highest quality (~16GB)" |}) ].

(** The two module-level loops that fill the alias tables: every alias,
    lower-cased, is bound to its model; a later binding overwrites. *)
Definition build_aliases {I : Type} (aliases_of : I -> list string)
    (catalog : list (string * I)) : list (string * string) :=
  fold_left
    (fun tbl entry =>
       fold_left (fun tbl' a => OD.set (PyStr.lower a) (fst entry) tbl')
                 (aliases_of (snd entry)) tbl)
    catalog [].

Definition MODEL_ALIASES : list (string * string) :=
  Eval vm_compute in build_aliases alias AVAILABLE_MODELS.

Definition RERANKER_ALIASES : list (string * string) :=
  Eval vm_compute in build_aliases rr_alias AVAILABLE_RERANKER_MODELS.

(** ** Exceptions and results *)

Inductive PyExc :=
| ValueError (msg : string)
| KeyError (key : string)
| RuntimeError (msg : string)
| RuntimeErrorFrom (msg : string) (cause : PyExc)
| EngineError (msg : string).

Definition exc_str (e : PyExc) : string :=
  match e with
  | ValueError m => m
  | KeyError k => "'" +:+ k +:+ "'"
  | RuntimeError m => m
  | RuntimeErrorFrom m _ => m
  | EngineError m => m
  end.

Inductive result (A : Type) :=
| Ok (a : A)
| Raise (e : PyExc).
Arguments Ok {A} a.
Arguments Raise {A} e.

Inductive ModelStatus := LOADING | READY | ERROR | UNLOADED.

Definition ModelStatus_eqb (a b : ModelStatus) : bool :=
  match a, b with
  | LOADING, LOADING | READY, READY | ERROR, ERROR | UNLOADED, UNLOADED => true
  | _, _ => false
  end.

(** ** Time

    The floats between 2^30 and 2^31, where [time.time()] has been since
    2004 and stays until 2038, are the multiples of 2^-22.  A reading of
    the clock is held as the number of these ticks.  Differences of
    readings, and their differences with whole numbers of seconds, are
    multiples of 2^-22 again and far below 2^53 ticks, so the float
    operations on them are exact, and the integers here follow them. *)
Definition TICKS_PER_SECOND : Z := 4194304.

(** The float of an [int] number of seconds. *)
Definition ticks (n : Z) : Z := n * TICKS_PER_SECOND.

(** [int(x)] for a float: the fractional part is cut off, towards zero. *)
Definition py_int (x : Z) : Z := Z.quot x TICKS_PER_SECOND.

(** A duration of [n] seconds, for the sample engines and runs. *)
Definition secs (n : N) : N := (n * 4194304)%N.

(** ** Configuration, the engine oracle and the process state *)

Record ServerConfig := {
  model_name : string;
  max_text_length : nat;
  lazy_load : bool;
  idle_ttl_seconds : Z
}.

Definition default_config : ServerConfig :=
  {| model_name := DEFAULT_MODEL;
     max_text_length := Z.to_nat DEFAULT_MAX_LENGTH;
     lazy_load := true;
     idle_ttl_seconds := DEFAULT_IDLE_TTL_SECONDS |}.

(** The [(model, tokenizer)] pair that [load] returns, as an opaque id. *)
Definition Handle := nat.

(** A float32 array, as the list of its bit patterns. *)
Definition ndarray := list Z.

Inductive LoadOutcome :=
| Loaded (h : Handle) (has_model_attr : bool)
| LoadRaises (e : PyExc).

(** A float as the scoring loop can produce it.  The score is
    [yes_exp / (yes_exp + no_exp)] for the exponentials of the two
    logits less their maximum: a number between 0 and 1, or NaN when a
    logit is NaN or both are infinite.  NaN is a value, not an
    exception. *)
Inductive PyFloat :=
| Finite (q : Q)
| NaN.

Definition is_nan (x : PyFloat) : bool :=
  match x with NaN => true | Finite _ => false end.

(** [a <= b] on floats: false as soon as one of them is NaN. *)
Definition float_le (a b : PyFloat) : bool :=
  match a, b with
  | Finite x, Finite y => Qle_bool x y
  | _, _ => false
  end.

(** What the code asks of [mlx_lm] and [mlx.core].  The [nat] argument
    of [eng_load] and [eng_embed] is the number of earlier calls, so two
    calls on equal arguments may answer differently.  The three [_time]
    fields say how long a call takes, in ticks.  The last field is
    asked of Python itself: the order in which [list.sort] leaves a list
    when one of the keys is NaN, which the language does not define; see
    [sort_desc]. *)
Record Engine := {
  eng_load : string -> nat -> LoadOutcome;
  eng_load_time : string -> nat -> N;
  eng_encode : Handle -> string -> list nat;
  eng_embed : Handle -> list nat -> bool -> nat -> result ndarray;
  eng_embed_time : Handle -> list nat -> N;
  eng_token_ids : Handle -> result (nat * nat);
  eng_score : Handle -> list nat -> nat * nat -> result PyFloat;
  eng_score_time : Handle -> list nat -> N;
  sort_with_nan : list PyFloat -> list nat
}.

(** The two managers. *)
Inductive Family := Embedding | Reranker.

Definition Family_eqb (a b : Family) : bool :=
  match a, b with
  | Embedding, Embedding | Reranker, Reranker => true
  | _, _ => false
  end.

(** Ghost record of what happened, newest first. *)
Inductive Event :=
| EvLoad (f : Family) (k : string)
| EvStored (f : Family) (k : string) (h : Handle)
| EvForward (k : string) (tokens : list nat)
| EvStamp (k : string) (t : Z)
| EvCacheHit (k text : string) (t : Z)
| EvCacheMiss (k text : string) (t : Z)
| EvUnload (f : Family) (k : string) (t : Z)
| EvIdleUnload (k : string) (t : Z).

Record ModelManager := {
  config : ServerConfig;
  models : list (string * Handle);
  model_status : gmap string ModelStatus;
  model_load_times : gmap string Z;
  _locks : gmap string bool;
  _embedding_cache : gmap string ndarray;
  _global_lock : bool;
  max_loaded_models : nat;
  _last_used : list (string * Z)
}.

Record RerankerManager := {
  r_models : list (string * Handle);
  r_model_status : gmap string ModelStatus;
  r_model_load_times : gmap string Z;
  r_locks : gmap string bool;
  r_global_lock : bool;
  r_last_used : list (string * Z);
  _token_ids : gmap string (nat * nat);
  r_max_loaded_models : nat
}.

Record World := {
  model_manager : ModelManager;
  reranker_manager : RerankerManager;
  clock : Z;
  trace : list Event
}.

(** [ModelManager.__init__] and [RerankerManager.__init__] *)
Definition ModelManager_init (cfg : ServerConfig) : ModelManager :=
  {| config := cfg; models := []; model_status := ∅; model_load_times := ∅;
     _locks := ∅; _embedding_cache := ∅; _global_lock := false;
     max_loaded_models := 2; _last_used := [] |}.

Definition RerankerManager_init : RerankerManager :=
  {| r_models := []; r_model_status := ∅; r_model_load_times := ∅;
     r_locks := ∅; r_global_lock := false; r_last_used := [];
     _token_ids := ∅; r_max_loaded_models := 1 |}.

Definition World_init (cfg : ServerConfig) (t0 : Z) : World :=
  {| model_manager := ModelManager_init cfg;
     reranker_manager := RerankerManager_init;
     clock := t0; trace := [] |}.

(** Field updates. *)
Definition set_models (f : list (string * Handle) -> list (string * Handle))
    (m : ModelManager) : ModelManager :=
  {| config := config m; models := f (models m); model_status := model_status m;
     model_load_times := model_load_times m; _locks := _locks m;
     _embedding_cache := _embedding_cache m; _global_lock := _global_lock m;
     max_loaded_models := max_loaded_models m; _last_used := _last_used m |}.

Definition set_model_status (f : gmap string ModelStatus -> gmap string ModelStatus)
    (m : ModelManager) : ModelManager :=
  {| config := config m; models := models m; model_status := f (model_status m);
     model_load_times := model_load_times m; _locks := _locks m;
     _embedding_cache := _embedding_cache m; _global_lock := _global_lock m;
     max_loaded_models := max_loaded_models m; _last_used := _last_used m |}.

Definition set_model_load_times (f : gmap string Z -> gmap string Z)
    (m : ModelManager) : ModelManager :=
  {| config := config m; models := models m; model_status := model_status m;
     model_load_times := f (model_load_times m); _locks := _locks m;
     _embedding_cache := _embedding_cache m; _global_lock := _global_lock m;
     max_loaded_models := max_loaded_models m; _last_used := _last_used m |}.

Definition set_locks (f : gmap string bool -> gmap string bool)
    (m : ModelManager) : ModelManager :=
  {| config := config m; models := models m; model_status := model_status m;
     model_load_times := model_load_times m; _locks := f (_locks m);
     _embedding_cache := _embedding_cache m; _global_lock := _global_lock m;
     max_loaded_models := max_loaded_models m; _last_used := _last_used m |}.

Definition set_embedding_cache (f : gmap string ndarray -> gmap string ndarray)
    (m : ModelManager) : ModelManager :=
  {| config := config m; models := models m; model_status := model_status m;
     model_load_times := model_load_times m; _locks := _locks m;
     _embedding_cache := f (_embedding_cache m); _global_lock := _global_lock m;
     max_loaded_models := max_loaded_models m; _last_used := _last_used m |}.

Definition set_global_lock (b : bool) (m : ModelManager) : ModelManager :=
  {| config := config m; models := models m; model_status := model_status m;
     model_load_times := model_load_times m; _locks := _locks m;
     _embedding_cache := _embedding_cache m; _global_lock := b;
     max_loaded_models := max_loaded_models m; _last_used := _last_used m |}.

Definition set_last_used (f : list (string * Z) -> list (string * Z))
    (m : ModelManager) : ModelManager :=
  {| config := config m; models := models m; model_status := model_status m;
     model_load_times := model_load_times m; _locks := _locks m;
     _embedding_cache := _embedding_cache m; _global_lock := _global_lock m;
     max_loaded_models := max_loaded_models m; _last_used := f (_last_used m) |}.

Definition on_mm (f : ModelManager -> ModelManager) (w : World) : World :=
  {| model_manager := f (model_manager w); reranker_manager := reranker_manager w;
     clock := clock w; trace := trace w |}.

Definition on_rm (f : RerankerManager -> RerankerManager) (w : World) : World :=
  {| model_manager := model_manager w; reranker_manager := f (reranker_manager w);
     clock := clock w; trace := trace w |}.

(** Time passes: the clock only moves forward. *)
Definition advance (d : N) (w : World) : World :=
  {| model_manager := model_manager w; reranker_manager := reranker_manager w;
     clock := clock w + Z.of_N d; trace := trace w |}.

Definition emit (e : Event) (w : World) : World :=
  {| model_manager := model_manager w; reranker_manager := reranker_manager w;
     clock := clock w; trace := e :: trace w |}.

Definition is_load (e : Event) : bool :=
  match e with EvLoad _ _ => true | _ => false end.

Definition is_load_of (f : Family) (k : string) (e : Event) : bool :=
  match e with EvLoad f' k' => Family_eqb f f' && String.eqb k k' | _ => false end.

Definition is_forward (e : Event) : bool :=
  match e with EvForward _ _ => true | _ => false end.

Definition count_events (p : Event -> bool) (w : World) : nat :=
  length (List.filter p (trace w)).

(** ** ModelManager *)

Definition status_is (st : ModelStatus) (o : option ModelStatus) : bool :=
  match o with Some s => ModelStatus_eqb s st | None => false end.

(** [model_name in self.models and self.model_status.get(model_name) == READY] *)
Definition is_ready (k : string) (m : ModelManager) : bool :=
  OD.mem k (models m) && status_is READY (model_status m !! k).

Definition unknown_model_msg (model_identifier : string) : string :=
  "Unknown model: " +:+ model_identifier +:+ ". Available: "
  +:+ PyStr.repr_list (OD.keys AVAILABLE_MODELS).

Definition _resolve_model_name (cfg : ServerConfig)
    (model_identifier : option string) : result string :=
  match model_identifier with
  | None => Ok (model_name cfg)
  | Some EmptyString => Ok (model_name cfg)
  | Some ident =>
      let model_lower := PyStr.lower ident in
      match OD.get model_lower MODEL_ALIASES with
      | Some k => Ok k
      | None =>
          if OD.mem ident AVAILABLE_MODELS then Ok ident
          else Raise (ValueError (unknown_model_msg ident))
      end
  end.

Definition _update_last_used (k : string) (w : World) : World :=
  emit (EvStamp k (clock w))
       (on_mm (set_last_used (OD.set k (clock w))) w).

(** The keys of the embedding cache that [_unload_model] deletes. *)
Definition cache_keys_to_remove (k : string) (c : gmap string ndarray) : list string :=
  List.filter (fun key => PyStr.startswith key (k +:+ ":")) (map fst (map_to_list c)).

Definition purge_cache (k : string) (c : gmap string ndarray) : gmap string ndarray :=
  fold_left (fun c' key => delete key c') (cache_keys_to_remove k c) c.

Definition _unload_model (k : string) (w : World) : World :=
  if negb (OD.mem k (models (model_manager w))) then w
  else
    let w := on_mm (set_models (OD.del k)) w in
    let w := on_mm (set_model_status (insert k UNLOADED)) w in
    let w := on_mm (set_embedding_cache (purge_cache k)) w in
    emit (EvUnload Embedding k (clock w)) w.

Definition _manage_memory (new_model : string) (w : World) : World :=
  let m := model_manager w in
  if (max_loaded_models m <=? length (models m))%nat then
    let models_to_evict :=
      List.filter (fun k => negb (String.eqb k new_model)) (OD.keys (models m)) in
    match models_to_evict with
    | evict_model :: _ => _unload_model evict_model w
    | [] => w
    end
  else w.

(** [tokenizer.encode] followed by the truncation to [max_text_length]. *)
Definition encode_truncated (E : Engine) (cfg : ServerConfig) (h : Handle)
    (text : string) : list nat :=
  let tokens := eng_encode E h text in
  if (max_text_length cfg <? length tokens)%nat
  then firstn (max_text_length cfg) tokens else tokens.

(** One forward pass with mean pooling (and normalisation when asked). *)
Definition forward_pass (E : Engine) (k : string) (h : Handle) (text : string)
    (normalize : bool) (w : World) : World * result ndarray :=
  let tokens := encode_truncated E (config (model_manager w)) h text in
  let n := count_events is_forward w in
  let w := advance (eng_embed_time E h tokens) (emit (EvForward k tokens) w) in
  (w, eng_embed E h tokens normalize n).

(** [_warmup]: two forward passes; any exception is logged and dropped. *)
Fixpoint warmup_texts (E : Engine) (k : string) (h : Handle)
    (test_texts : list string) (w : World) : World :=
  match test_texts with
  | [] => w
  | text :: rest =>
      match forward_pass E k h text false w with
      | (w', Ok _) => warmup_texts E k h rest w'
      | (w', Raise _) => w'
      end
  end.

Definition _warmup (E : Engine) (k : string) (w : World) : World :=
  match OD.get k (models (model_manager w)) with
  | Some h => warmup_texts E k h ["warmup"; "test"] w
  | None => w
  end.

(** The pieces of [load_model] that run under the model's lock. *)
Definition begin_load (k : string) (w : World) : World :=
  on_mm (set_model_status (insert k LOADING)) w.

Definition call_load (E : Engine) (f : Family) (k : string) (w : World)
    : World * LoadOutcome :=
  let n := count_events is_load w in
  (advance (eng_load_time E k n) (emit (EvLoad f k) w), eng_load E k n).

Definition fail_load (k : string) (e : PyExc) (w : World) : World * result string :=
  (on_mm (set_model_status (insert k ERROR)) w,
   Raise (RuntimeErrorFrom ("Model loading failed: " +:+ exc_str e) e)).

Definition store_model (k : string) (h : Handle) (w : World) : World :=
  emit (EvStored Embedding k h) (on_mm (set_models (OD.set k h)) w).

Definition finish_load (k : string) (start_time : Z) (w : World) : World :=
  let w := on_mm (set_model_load_times (insert k (clock w - start_time))) w in
  let w := on_mm (set_model_status (insert k READY)) w in
  _update_last_used k w.

Definition ensure_lock (k : string) (locks : gmap string bool) : gmap string bool :=
  match locks !! k with
  | Some _ => locks
  | None => <[k := false]> locks
  end.

(** The [try] block up to the store into [self.models]: the call of
    [load] and the check of what it returned; [Some e] when it raised. *)
Definition mm_load (E : Engine) (k : string) (w : World) : World * option PyExc :=
  match call_load E Embedding k w with
  | (w, LoadRaises e) => (w, Some e)
  | (w, Loaded h false) =>
      (w, Some (ValueError "Invalid model architecture: missing 'model' attribute"))
  | (w, Loaded h true) => (store_model k h w, None)
  end.

(** [load_model] run by one task while no other task holds a lock: both
    [async with] blocks are entered at once and left on exit. *)
Definition load_model (E : Engine) (ident : option string) (w : World)
    : World * result string :=
  match _resolve_model_name (config (model_manager w)) ident with
  | Raise e => (w, Raise e)
  | Ok k =>
      if is_ready k (model_manager w) then (w, Ok k)
      else
        let w := on_mm (set_locks (ensure_lock k)) w in
        if is_ready k (model_manager w) then (w, Ok k)
        else
          let w := begin_load k w in
          let start_time := clock w in
          let w := _manage_memory k w in
          match mm_load E k w with
          | (w, Some e) => fail_load k e w
          | (w, None) =>
              let w := _warmup E k w in
              (finish_load k start_time w, Ok k)
          end
  end.

(** ** The embedding pipeline *)

Definition fingerprint (k text : string) (normalize : bool) : string :=
  k +:+ ":" +:+ text +:+ ":" +:+ PyStr.of_bool normalize.

Definition CACHE_CAPACITY : nat := 1000.

(** [if len(self._embedding_cache) < 1000: self._embedding_cache[key] = e] *)
Definition cache_put (key : string) (e : ndarray) (c : gmap string ndarray)
    : gmap string ndarray :=
  if (size c <? CACHE_CAPACITY)%nat then <[key := e]> c else c.

Fixpoint embed_texts (E : Engine) (k : string) (h : Handle) (normalize : bool)
    (texts : list string) (w : World) : World * result (list ndarray) :=
  match texts with
  | [] => (w, Ok [])
  | text :: rest =>
      let cache_key := fingerprint k text normalize in
      match _embedding_cache (model_manager w) !! cache_key with
      | Some e =>
          match embed_texts E k h normalize rest
                  (emit (EvCacheHit k text (clock w)) w) with
          | (w', Ok es) => (w', Ok (e :: es))
          | (w', Raise x) => (w', Raise x)
          end
      | None =>
          match forward_pass E k h text normalize w with
          | (w1, Raise x) => (w1, Raise x)
          | (w1, Ok e) =>
              let w2 := on_mm (set_embedding_cache (cache_put cache_key e)) w1 in
              match embed_texts E k h normalize rest
                      (emit (EvCacheMiss k text (clock w2)) w2) with
              | (w', Ok es) => (w', Ok (e :: es))
              | (w', Raise x) => (w', Raise x)
              end
          end
      end
  end.

Definition not_ready_msg (k : string) : string := "Model " +:+ k +:+ " not ready".

Definition generate_embeddings (E : Engine) (texts : list string)
    (ident : option string) (normalize : bool) (w : World)
    : World * result (list ndarray * string * Z) :=
  match load_model E ident w with
  | (w, Raise e) => (w, Raise e)
  | (w, Ok k) =>
      let w := _update_last_used k w in
      if negb (status_is READY (model_status (model_manager w) !! k))
      then (w, Raise (RuntimeError (not_ready_msg k)))
      else
        match texts with
        | [] =>
            match OD.get k AVAILABLE_MODELS with
            | None => (w, Raise (KeyError k))
            | Some info => (w, Ok ([], k, embedding_dim info))
            end
        | _ =>
            match OD.get k (models (model_manager w)) with
            | None => (w, Raise (KeyError k))
            | Some h =>
                match OD.get k AVAILABLE_MODELS with
                | None => (w, Raise (KeyError k))
                | Some info =>
                    match embed_texts E k h normalize texts w with
                    | (w', Raise x) => (w', Raise x)
                    | (w', Ok es) => (w', Ok (es, k, embedding_dim info))
                    end
                end
            end
        end
  end.

(** ** The idle-eviction loop *)

(** [min(60, idle_ttl_seconds // 2)] *)
Definition check_interval (cfg : ServerConfig) : Z :=
  Z.min 60 (idle_ttl_seconds cfg / 2).

(** The scan in the body of [_ttl_checker_loop]. *)
Definition models_to_unload (w : World) : list (string * Z) :=
  let now := clock w in
  let m := model_manager w in
  flat_map
    (fun item =>
       let '(name, last_used) := item in
       if OD.mem name (models m) then
         let idle_time := now - last_used in
         if ticks (idle_ttl_seconds (config m)) <=? idle_time
         then [(name, idle_time)] else []
       else [])
    (_last_used m).

Definition unload_idle (w : World) (item : string * Z) : World :=
  let w := _unload_model (fst item) w in
  let w := on_mm (set_last_used (OD.del (fst item))) w in
  emit (EvIdleUnload (fst item) (clock w)) w.

Definition ttl_check (w : World) : World :=
  fold_left unload_idle (models_to_unload w) w.

(** One turn of the loop: the sleep (at least [check_interval] seconds,
    [late] ticks more) and then the scan.  [start_ttl_checker] starts
    the loop only for a positive TTL. *)
Definition ttl_iteration (late : N) (w : World) : World :=
  let cfg := config (model_manager w) in
  if 0 <? idle_ttl_seconds cfg then
    ttl_check (advance (Z.to_N (ticks (check_interval cfg)) + late) w)
  else w.

(** ** Status report *)

(** What [get_status] reports.  [load_time] is a float, held in ticks;
    [idle_seconds] and [ttl_remaining_seconds] are [int]. *)
Record StatusEntry := {
  se_status : ModelStatus;
  se_embedding_dim : Z;
  se_load_time : option Z;
  se_aliases : list string;
  se_description : string;
  se_idle_seconds : option Z;
  se_ttl_remaining_seconds : option Z
}.

Inductive StatusReport :=
| OneModel (st : ModelStatus) (name : string) (dim : Z) (load_time : option Z)
           (descr : string)
| AllModels (loaded_models : list string) (default_model : string)
            (cache_size : nat) (entries : list (string * StatusEntry)).

Definition status_or_unloaded (o : option ModelStatus) : ModelStatus :=
  match o with Some s => s | None => UNLOADED end.

(** The entry of one model in the report of all models.  [idle_time]
    and [remaining_ttl] are floats; each is cut to an [int] on its own
    when it is stored in the entry. *)
Definition status_entry (w : World) (name : string) (info : ModelInfo) : StatusEntry :=
  let m := model_manager w in
  let now := clock w in
  let idle_time :=
    match OD.get name (_last_used m) with
    | Some lu => if OD.mem name (models m) then Some (now - lu) else None
    | None => None
    end in
  {| se_status := status_or_unloaded (model_status m !! name);
     se_embedding_dim := embedding_dim info;
     se_load_time := model_load_times m !! name;
     se_aliases := alias info;
     se_description := description info;
     se_idle_seconds :=
       match idle_time with
       | Some i => Some (py_int i)
       | None => None
       end;
     se_ttl_remaining_seconds :=
       match idle_time with
       | Some i =>
           let remaining_ttl := Z.max 0 (ticks (idle_ttl_seconds (config m)) - i) in
           Some (py_int remaining_ttl)
       | None => None
       end |}.

Definition get_status (ident : option string) (w : World) : result StatusReport :=
  let m := model_manager w in
  match ident with
  | Some (String c r) =>
      match _resolve_model_name (config m) ident with
      | Raise e => Raise e
      | Ok k =>
          match OD.get k AVAILABLE_MODELS with
          | None => Raise (KeyError k)
          | Some info =>
              Ok (OneModel (status_or_unloaded (model_status m !! k)) k
                    (embedding_dim info) (model_load_times m !! k) (description info))
          end
      end
  | _ =>
      Ok (AllModels (OD.keys (models m)) (model_name (config m))
            (size (_embedding_cache m))
            (map (fun entry => (fst entry, status_entry w (fst entry) (snd entry)))
                 AVAILABLE_MODELS))
  end.

(** ** RerankerManager *)

Definition r_set_models (f : list (string * Handle) -> list (string * Handle))
    (m : RerankerManager) : RerankerManager :=
  {| r_models := f (r_models m); r_model_status := r_model_status m;
     r_model_load_times := r_model_load_times m; r_locks := r_locks m;
     r_global_lock := r_global_lock m; r_last_used := r_last_used m;
     _token_ids := _token_ids m; r_max_loaded_models := r_max_loaded_models m |}.

Definition r_set_model_status (f : gmap string ModelStatus -> gmap string ModelStatus)
    (m : RerankerManager) : RerankerManager :=
  {| r_models := r_models m; r_model_status := f (r_model_status m);
     r_model_load_times := r_model_load_times m; r_locks := r_locks m;
     r_global_lock := r_global_lock m; r_last_used := r_last_used m;
     _token_ids := _token_ids m; r_max_loaded_models := r_max_loaded_models m |}.

Definition r_set_model_load_times (f : gmap string Z -> gmap string Z)
    (m : RerankerManager) : RerankerManager :=
  {| r_models := r_models m; r_model_status := r_model_status m;
     r_model_load_times := f (r_model_load_times m); r_locks := r_locks m;
     r_global_lock := r_global_lock m; r_last_used := r_last_used m;
     _token_ids := _token_ids m; r_max_loaded_models := r_max_loaded_models m |}.

Definition r_set_locks (f : gmap string bool -> gmap string bool)
    (m : RerankerManager) : RerankerManager :=
  {| r_models := r_models m; r_model_status := r_model_status m;
     r_model_load_times := r_model_load_times m; r_locks := f (r_locks m);
     r_global_lock := r_global_lock m; r_last_used := r_last_used m;
     _token_ids := _token_ids m; r_max_loaded_models := r_max_loaded_models m |}.

Definition r_set_global_lock (b : bool) (m : RerankerManager) : RerankerManager :=
  {| r_models := r_models m; r_model_status := r_model_status m;
     r_model_load_times := r_model_load_times m; r_locks := r_locks m;
     r_global_lock := b; r_last_used := r_last_used m;
     _token_ids := _token_ids m; r_max_loaded_models := r_max_loaded_models m |}.

Definition r_set_last_used (f : list (string * Z) -> list (string * Z))
    (m : RerankerManager) : RerankerManager :=
  {| r_models := r_models m; r_model_status := r_model_status m;
     r_model_load_times := r_model_load_times m; r_locks := r_locks m;
     r_global_lock := r_global_lock m; r_last_used := f (r_last_used m);
     _token_ids := _token_ids m; r_max_loaded_models := r_max_loaded_models m |}.

Definition r_set_token_ids (f : gmap string (nat * nat) -> gmap string (nat * nat))
    (m : RerankerManager) : RerankerManager :=
  {| r_models := r_models m; r_model_status := r_model_status m;
     r_model_load_times := r_model_load_times m; r_locks := r_locks m;
     r_global_lock := r_global_lock m; r_last_used := r_last_used m;
     _token_ids := f (_token_ids m); r_max_loaded_models := r_max_loaded_models m |}.

Definition r_is_ready (k : string) (m : RerankerManager) : bool :=
  OD.mem k (r_models m) && status_is READY (r_model_status m !! k).

Definition unknown_reranker_msg (model_identifier : string) : string :=
  "Unknown reranker model: " +:+ model_identifier +:+ ". Available: "
  +:+ PyStr.repr_list (OD.keys AVAILABLE_RERANKER_MODELS).

Definition r_resolve_model_name (model_identifier : option string) : result string :=
  match model_identifier with
  | None => Ok DEFAULT_RERANKER_MODEL
  | Some EmptyString => Ok DEFAULT_RERANKER_MODEL
  | Some ident =>
      let model_lower := PyStr.lower ident in
      match OD.get model_lower RERANKER_ALIASES with
      | Some k => Ok k
      | None =>
          if OD.mem ident AVAILABLE_RERANKER_MODELS then Ok ident
          else Raise (ValueError (unknown_reranker_msg ident))
      end
  end.

Definition r_unload_model (k : string) (w : World) : World :=
  if negb (OD.mem k (r_models (reranker_manager w))) then w
  else
    let w := on_rm (r_set_models (OD.del k)) w in
    let w := on_rm (r_set_token_ids (delete k)) w in
    let w := on_rm (r_set_model_status (insert k UNLOADED)) w in
    emit (EvUnload Reranker k (clock w)) w.

Definition r_manage_memory (new_model : string) (w : World) : World :=
  let m := reranker_manager w in
  if (r_max_loaded_models m <=? length (r_models m))%nat then
    let models_to_evict :=
      List.filter (fun k => negb (String.eqb k new_model)) (OD.keys (r_models m)) in
    match models_to_evict with
    | evict_model :: _ => r_unload_model evict_model w
    | [] => w
    end
  else w.

Definition dquote : string := String (ascii_of_nat 34) EmptyString.
Definition nl : string := String (ascii_of_nat 10) EmptyString.

Definition SYSTEM_PROMPT : string :=
  "Judge whether the Document meets the requirements based on the Query and the Instruct provided. Note that the answer can only be "
  +:+ dquote +:+ "yes" +:+ dquote +:+ " or " +:+ dquote +:+ "no" +:+ dquote +:+ ".".

Definition DEFAULT_INSTRUCTION : string :=
  "Given a search query, retrieve relevant code or documentation that answers the query".

Definition _format_pair (query document : string) (instruction : option string)
    : string :=
  let instruction :=
    match instruction with Some i => i | None => DEFAULT_INSTRUCTION end in
  "<|im_start|>system" +:+ nl +:+ SYSTEM_PROMPT +:+ "<|im_end|>" +:+ nl
  +:+ "<|im_start|>user" +:+ nl
  +:+ "<Instruct>: " +:+ instruction +:+ nl
  +:+ "<Query>: " +:+ query +:+ nl
  +:+ "<Document>: " +:+ document +:+ nl
  +:+ "<|im_end|>" +:+ nl
  +:+ "<|im_start|>assistant" +:+ nl
  +:+ "<think>" +:+ nl +:+ nl +:+ "</think>" +:+ nl +:+ nl.

(** [_warmup] of the reranker: one forward pass on a test pair, at most
    512 tokens; any exception is logged and dropped. *)
Definition r_warmup (E : Engine) (k : string) (w : World) : World :=
  let m := reranker_manager w in
  match OD.get k (r_models m), _token_ids m !! k with
  | Some h, Some _ =>
      let tokens :=
        firstn 512 (eng_encode E h (_format_pair "warmup query" "warmup document" None)) in
      advance (eng_score_time E h tokens) w
  | _, _ => w
  end.

Definition r_store_model (k : string) (h : Handle) (ids : nat * nat) (w : World)
    : World :=
  let w := on_rm (r_set_token_ids (insert k ids)) w in
  emit (EvStored Reranker k h) (on_rm (r_set_models (OD.set k h)) w).

Definition r_fail_load (k : string) (e : PyExc) (w : World) : World * result string :=
  (on_rm (r_set_model_status (insert k ERROR)) w,
   Raise (RuntimeErrorFrom ("Reranker loading failed: " +:+ exc_str e) e)).

Definition r_finish_load (k : string) (start_time : Z) (w : World) : World :=
  let w := on_rm (r_set_model_load_times (insert k (clock w - start_time))) w in
  let w := on_rm (r_set_model_status (insert k READY)) w in
  on_rm (r_set_last_used (OD.set k (clock w))) w.

(** The [try] block up to the store into [self.models]: the call of
    [load], the ids of the two answer tokens and the two stores. *)
Definition rm_load (E : Engine) (k : string) (w : World) : World * option PyExc :=
  match call_load E Reranker k w with
  | (w, LoadRaises e) => (w, Some e)
  | (w, Loaded h _) =>
      match eng_token_ids E h with
      | Raise e => (w, Some e)
      | Ok ids => (r_store_model k h ids w, None)
      end
  end.

(** [RerankerManager.load_model] run by one task while no other task
    holds a lock. *)
Definition r_load_model (E : Engine) (ident : option string) (w : World)
    : World * result string :=
  match r_resolve_model_name ident with
  | Raise e => (w, Raise e)
  | Ok k =>
      if r_is_ready k (reranker_manager w) then (w, Ok k)
      else
        let w := on_rm (r_set_locks (ensure_lock k)) w in
        if r_is_ready k (reranker_manager w) then (w, Ok k)
        else
          let w := on_rm (r_set_model_status (insert k LOADING)) w in
          let start_time := clock w in
          let w := r_manage_memory k w in
          match rm_load E k w with
          | (w, Some e) => r_fail_load k e w
          | (w, None) =>
              let w := r_warmup E k w in
              (r_finish_load k start_time w, Ok k)
          end
  end.

(** ** The rerank pipeline *)

(** One scored document: [(original_index, score, document)]. *)
Definition Scored : Type := nat * PyFloat * string.

Definition sc_index (r : Scored) : nat := fst (fst r).
Definition sc_score (r : Scored) : PyFloat := snd (fst r).
Definition sc_doc (r : Scored) : string := snd r.

(** The body of the scoring loop for one document: formatting,
    tokenising, truncating, the forward pass and the softmax over the
    two logits; a raise anywhere in it gives the score [0.0]. *)
Definition score_document (E : Engine) (h : Handle) (ids : nat * nat)
    (max_len : Z) (query : string) (instruction : option string)
    (idx : nat) (doc : string) (w : World) : World * Scored :=
  let formatted := _format_pair query doc instruction in
  let tokens := eng_encode E h formatted in
  let tokens :=
    if max_len <? Z.of_nat (length tokens) then firstn (Z.to_nat max_len) tokens
    else tokens in
  let w := advance (eng_score_time E h tokens) w in
  match eng_score E h tokens ids with
  | Ok score => (w, (idx, score, doc))
  | Raise _ => (w, (idx, Finite 0, doc))
  end.

(** [for idx, doc in enumerate(documents)], from index [idx] on. *)
Fixpoint score_documents (E : Engine) (h : Handle) (ids : nat * nat)
    (max_len : Z) (query : string) (instruction : option string)
    (idx : nat) (documents : list string) (w : World) : World * list Scored :=
  match documents with
  | [] => (w, [])
  | doc :: rest =>
      let '(w1, r) := score_document E h ids max_len query instruction idx doc w in
      let '(w2, rs) :=
        score_documents E h ids max_len query instruction (S idx) rest w1 in
      (w2, r :: rs)
  end.

(** [results.sort(key=lambda x: x[1], reverse=True)].  Python's sort is
    stable, also with [reverse=True], and on keys that [<] orders a
    stable sort has one possible outcome: the insertion sort below
    computes it. *)
Fixpoint insert_desc (x : Scored) (l : list Scored) : list Scored :=
  match l with
  | [] => [x]
  | y :: r =>
      if float_le (sc_score y) (sc_score x) then x :: y :: r
      else y :: insert_desc x r
  end.

(** The element of [l] at index [n] taken out of [l]. *)
Fixpoint take_out {A : Type} (n : nat) (l : list A) {struct l} : option (A * list A) :=
  match l with
  | [] => None
  | x :: r =>
      match n with
      | O => Some (x, r)
      | S n' =>
          match take_out n' r with
          | Some (y, r') => Some (y, x :: r')
          | None => None
          end
      end
  end.

(** [l] in another order: the element at the first index of [picks]
    goes first, then the element of the rest at the second index, and
    so on (an index out of range is passed over); what is left at the
    end keeps its order.  Every list of indices gives a permutation of
    [l], and every permutation of [l] comes from some list of
    indices. *)
Fixpoint arrange {A : Type} (picks : list nat) (l : list A) : list A :=
  match picks with
  | [] => l
  | n :: picks' =>
      match take_out n l with
      | Some (y, r) => y :: arrange picks' r
      | None => arrange picks' l
      end
  end.

(** When a key is NaN, [<] is false on every pair with it and no longer
    orders the keys; [list.sort] still returns and leaves the list
    permuted, in an order that depends on the algorithm of the
    interpreter at hand.  That order is the oracle's. *)
Definition sort_desc (E : Engine) (l : list Scored) : list Scored :=
  if existsb (fun r => is_nan (sc_score r)) l
  then arrange (sort_with_nan E (map sc_score l)) l
  else fold_right insert_desc [] l.

(** [if top_k is not None and top_k > 0: results = results[:top_k]] *)
Definition apply_top_k (top_k : option Z) (results : list Scored) : list Scored :=
  match top_k with
  | Some k => if 0 <? k then firstn (Z.to_nat k) results else results
  | None => results
  end.

Definition rerank (E : Engine) (query : string) (documents : list string)
    (ident : option string) (instruction : option string) (top_k : option Z)
    (w : World) : World * result (list Scored) :=
  match r_load_model E ident w with
  | (w, Raise e) => (w, Raise e)
  | (w, Ok k) =>
      let w := on_rm (r_set_last_used (OD.set k (clock w))) w in
      match documents with
      | [] => (w, Ok [])
      | _ =>
          let m := reranker_manager w in
          match OD.get k (r_models m) with
          | None => (w, Raise (KeyError k))
          | Some h =>
              match _token_ids m !! k with
              | None => (w, Raise (KeyError k))
              | Some ids =>
                  match OD.get k AVAILABLE_RERANKER_MODELS with
                  | None => (w, Raise (KeyError k))
                  | Some info =>
                      let '(w', results) :=
                        score_documents E h ids (max_length info) query instruction
                                        0 documents w in
                      (w', Ok (apply_top_k top_k (sort_desc E results)))
                  end
              end
          end
      end
  end.

(** ** Runs of requests, one after the other

    Between two suspension points a coroutine runs alone.  [load_model]
    suspends only where it waits for a lock, and nothing else in
    [generate_embeddings] or in the body of the idle loop suspends, so a
    history of the process is a sequence of whole operations. *)

Inductive Op :=
| OpLoad (ident : option string)
| OpEmbed (texts : list string) (ident : option string) (normalize : bool)
| OpRerank (query : string) (documents : list string) (ident : option string)
           (instruction : option string) (top_k : option Z)
| OpTtl (late : N)
| OpWait (d : N).

Definition exec (E : Engine) (o : Op) (w : World) : World :=
  match o with
  | OpLoad ident => fst (load_model E ident w)
  | OpEmbed texts ident normalize => fst (generate_embeddings E texts ident normalize w)
  | OpRerank query documents ident instruction top_k =>
      fst (rerank E query documents ident instruction top_k w)
  | OpTtl late => ttl_iteration late w
  | OpWait d => advance d w
  end.

Definition run (E : Engine) (ops : list Op) (w : World) : World :=
  fold_left (fun w o => exec E o w) ops w.

(** ** Concurrent callers of [load_model]

    The two managers share the shape of [load_model]; [LoadOps] is what
    differs.  A task is a program point of [load_model]; a scheduler
    picks which task takes its next step.  Every [await] and every
    [async with] is taken as a point where another task may run, which
    includes the schedules of the event loop. *)

Record LoadOps := {
  op_family : Family;
  op_resolve : World -> option string -> result string;
  op_models : World -> list (string * Handle);
  op_status : World -> gmap string ModelStatus;
  op_locks : World -> gmap string bool;
  op_global_lock : World -> bool;
  op_set_locks : (gmap string bool -> gmap string bool) -> World -> World;
  op_set_global_lock : bool -> World -> World;
  op_begin_load : string -> World -> World;
  op_manage_memory : string -> World -> World;
  op_load : Engine -> string -> World -> World * option PyExc;
  op_warmup : Engine -> string -> World -> World;
  op_finish_load : string -> Z -> World -> World;
  op_fail_load : string -> PyExc -> World -> World * result string
}.

Definition embedding_ops : LoadOps :=
  {| op_family := Embedding;
     op_resolve := fun w => _resolve_model_name (config (model_manager w));
     op_models := fun w => models (model_manager w);
     op_status := fun w => model_status (model_manager w);
     op_locks := fun w => _locks (model_manager w);
     op_global_lock := fun w => _global_lock (model_manager w);
     op_set_locks := fun f => on_mm (set_locks f);
     op_set_global_lock := fun b => on_mm (set_global_lock b);
     op_begin_load := begin_load;
     op_manage_memory := _manage_memory;
     op_load := mm_load;
     op_warmup := _warmup;
     op_finish_load := finish_load;
     op_fail_load := fail_load |}.

Definition reranker_ops : LoadOps :=
  {| op_family := Reranker;
     op_resolve := fun _ => r_resolve_model_name;
     op_models := fun w => r_models (reranker_manager w);
     op_status := fun w => r_model_status (reranker_manager w);
     op_locks := fun w => r_locks (reranker_manager w);
     op_global_lock := fun w => r_global_lock (reranker_manager w);
     op_set_locks := fun f => on_rm (r_set_locks f);
     op_set_global_lock := fun b => on_rm (r_set_global_lock b);
     op_begin_load := fun k => on_rm (r_set_model_status (insert k LOADING));
     op_manage_memory := r_manage_memory;
     op_load := rm_load;
     op_warmup := r_warmup;
     op_finish_load := r_finish_load;
     op_fail_load := r_fail_load |}.

Inductive LoadPc :=
| AtStart (ident : option string)
| AtGlobalLock (k : string)
| InGlobalLock (k : string)
| AtModelLock (k : string)
| InModelLock (k : string)
| AtManage (k : string) (start_time : Z)
| AtLoad (k : string) (start_time : Z)
| AtWarmup (k : string) (start_time : Z)
| AtFinish (k : string) (start_time : Z)
| Returned (r : result string).

Definition op_is_ready (ops : LoadOps) (k : string) (w : World) : bool :=
  OD.mem k (op_models ops w) && status_is READY (op_status ops w !! k).

(** Leaving [async with self._locks[k]]. *)
Definition release (ops : LoadOps) (k : string) (w : World) : World :=
  op_set_locks ops (insert k false) w.

(** The next step of a task; [None] when it waits for a lock or has
    returned. *)
Definition load_step (ops : LoadOps) (E : Engine) (pc : LoadPc) (w : World)
    : option (LoadPc * World) :=
  match pc with
  | AtStart ident =>
      match op_resolve ops w ident with
      | Raise e => Some (Returned (Raise e), w)
      | Ok k =>
          if op_is_ready ops k w then Some (Returned (Ok k), w)
          else Some (AtGlobalLock k, w)
      end
  | AtGlobalLock k =>
      if op_global_lock ops w then None
      else Some (InGlobalLock k, op_set_global_lock ops true w)
  | InGlobalLock k =>
      Some (AtModelLock k,
            op_set_global_lock ops false (op_set_locks ops (ensure_lock k) w))
  | AtModelLock k =>
      match op_locks ops w !! k with
      | None => Some (Returned (Raise (KeyError k)), w)
      | Some true => None
      | Some false => Some (InModelLock k, op_set_locks ops (insert k true) w)
      end
  | InModelLock k =>
      if op_is_ready ops k w then Some (Returned (Ok k), release ops k w)
      else Some (AtManage k (clock w), op_begin_load ops k w)
  | AtManage k start_time => Some (AtLoad k start_time, op_manage_memory ops k w)
  | AtLoad k start_time =>
      match op_load ops E k w with
      | (w', None) => Some (AtWarmup k start_time, w')
      | (w', Some e) =>
          let '(w'', r) := op_fail_load ops k e w' in
          Some (Returned r, release ops k w'')
      end
  | AtWarmup k start_time => Some (AtFinish k start_time, op_warmup ops E k w)
  | AtFinish k start_time =>
      Some (Returned (Ok k), release ops k (op_finish_load ops k start_time w))
  | Returned _ => None
  end.

Record Sys := {
  world : World;
  tasks : list LoadPc
}.

Definition spawn (idents : list (option string)) (w : World) : Sys :=
  {| world := w; tasks := map AtStart idents |}.

(** Task [i] is given the processor for one step. *)
Definition sched_step (ops : LoadOps) (E : Engine) (s : Sys) (i : nat) : Sys :=
  match tasks s !! i with
  | Some pc =>
      match load_step ops E pc (world s) with
      | Some (pc', w') => {| world := w'; tasks := <[i := pc']> (tasks s) |}
      | None => s
      end
  | None => s
  end.

Definition run_sched (ops : LoadOps) (E : Engine) (sched : list nat) (s : Sys) : Sys :=
  fold_left (sched_step ops E) sched s.

Definition is_stored_of (f : Family) (k : string) (e : Event) : bool :=
  match e with
  | EvStored f' k' _ => Family_eqb f f' && String.eqb k k'
  | _ => false
  end.

(** How often a manager called [load(k)], and how often the model was
    stored; [loads_of] is for the embedding manager. *)
Definition family_loads_of (f : Family) (k : string) (w : World) : nat :=
  count_events (is_load_of f k) w.
Definition loads_of (k : string) (w : World) : nat := family_loads_of Embedding k w.
Definition good_loads_of (f : Family) (k : string) (w : World) : nat :=
  count_events (is_stored_of f k) w.

(** ** Notions used in the statements *)

(** The model that [_manage_memory] evicts, if any. *)
Definition victim (new_model : string) (m : ModelManager) : option string :=
  if (max_loaded_models m <=? length (models m))%nat then
    head (List.filter (fun k => negb (String.eqb k new_model)) (OD.keys (models m)))
  else None.

(** The cache of the embedding manager, and its bound. *)
Definition cache_of (w : World) : gmap string ndarray :=
  _embedding_cache (model_manager w).

Definition cache_bounded (w : World) : Prop :=
  (size (cache_of w) <= CACHE_CAPACITY)%nat.

(** ** Sample engines and worlds *)

(** An engine on which everything succeeds: the n-th load returns the
    handle [n], a text is encoded as its length, the n-th forward pass
    returns the one-element array [n], a load takes 5 seconds and a
    forward pass 1 second. *)
Definition sample_engine : Engine :=
  {| eng_load := fun _ n => Loaded n true;
     eng_load_time := fun _ _ => secs 5;
     eng_encode := fun _ s => [String.length s];
     eng_embed := fun _ _ _ n => Ok [Z.of_nat n];
     eng_embed_time := fun _ _ => secs 1;
     eng_token_ids := fun _ => Ok (1%nat, 2%nat);
     eng_score := fun _ tokens _ =>
       match tokens with
       | [n] => if Nat.even n then Ok (Finite (1 # 2)) else Ok (Finite (1 # 4))
       | _ => Ok (Finite 0)
       end;
     eng_score_time := fun _ _ => secs 1;
     sort_with_nan := fun _ => [] |}.

(** An engine whose [load] always raises. *)
Definition failing_engine : Engine :=
  {| eng_load := fun _ _ => LoadRaises (EngineError "no such repository");
     eng_load_time := fun _ _ => secs 5;
     eng_encode := fun _ s => [String.length s];
     eng_embed := fun _ _ _ n => Ok [Z.of_nat n];
     eng_embed_time := fun _ _ => secs 1;
     eng_token_ids := fun _ => Ok (1%nat, 2%nat);
     eng_score := fun _ _ _ => Ok (Finite 0);
     eng_score_time := fun _ _ => secs 1;
     sort_with_nan := fun _ => [] |}.

Definition sample_world : World := World_init default_config 100.

(** A thousand distinct two-letter texts. *)
Definition thousand_texts : list string :=
  map (fun n => String (ascii_of_nat (n / 32 + 48))
                  (String (ascii_of_nat (n mod 32 + 48)) EmptyString))
      (seq 0 1000).

(** The world after one request that embeds them all: the cache is full. *)
Definition full_cache_world : World :=
  fst (generate_embeddings sample_engine thousand_texts None true sample_world).

Definition MEDIUM_MODEL : string := "mlx-community/Qwen3-Embedding-4B-4bit-DWQ".
Definition LARGE_MODEL : string := "mlx-community/Qwen3-Embedding-8B-4bit-DWQ".

(** Two models resident, each with entries in the cache. *)
Definition two_model_world : World :=
  run sample_engine
    [OpEmbed ["a"; "b"] (Some "small") true; OpEmbed ["a"] (Some "medium") false]
    sample_world.

(** A model is evicted: its handle is gone and its status is UNLOADED. *)
Definition evicted (k : string) (w : World) : Prop :=
  OD.get k (models (model_manager w)) = None
  /\ model_status (model_manager w) !! k = Some UNLOADED.

(** Every resident model is READY, and no key occurs twice. *)
Definition slots_ok (w : World) : Prop :=
  NoDup (OD.keys (models (model_manager w)))
  /\ forall k, OD.mem k (models (model_manager w)) = true ->
               model_status (model_manager w) !! k = Some READY.

(** The key that an operation asks [load_model] for, if any. *)
Definition op_key (cfg : ServerConfig) (o : Op) : option string :=
  match o with
  | OpLoad ident | OpEmbed _ ident _ =>
      match _resolve_model_name cfg ident with
      | Ok k => Some k
      | Raise _ => None
      end
  | _ => None
  end.

(** Nothing of [k] moved between [w] and [w']: it is still not resident,
    its status and the number of its loads are the same. *)
Definition untouched (k : string) (w w' : World) : Prop :=
  OD.get k (models (model_manager w')) = None
  /\ model_status (model_manager w') !! k = model_status (model_manager w) !! k
  /\ loads_of k w' = loads_of k w
  /\ config (model_manager w') = config (model_manager w).

(** A configuration whose default model is not in the catalog. *)
Definition odd_config : ServerConfig :=
  {| model_name := "acme/tiny-embedder";
     max_text_length := Z.to_nat DEFAULT_MAX_LENGTH;
     lazy_load := true;
     idle_ttl_seconds := DEFAULT_IDLE_TTL_SECONDS |}.

(** [a >= b] and [a == b] on floats, as Python has them: neither holds
    when one of the two is NaN. *)
Definition float_ge (a b : PyFloat) : Prop :=
  match a, b with
  | Finite x, Finite y => (y <= x)%Q
  | _, _ => False
  end.





(** No key twice among the reranker's models, and every resident model
    has its two token ids. *)
Definition r_slots_ok (w : World) : Prop :=
  NoDup (OD.keys (r_models (reranker_manager w)))
  /\ forall k, OD.mem k (r_models (reranker_manager w)) = true ->
               is_Some (_token_ids (reranker_manager w) !! k).

Definition sample_documents : list string := ["aa"; "b"; "cc"; "d"].

(** ** Time *)

(** Events that neither stamp a model nor report an idle unload. *)
Definition quiet (e : Event) : bool :=
  match e with
  | EvStamp _ _ | EvIdleUnload _ _ => false
  | _ => true
  end.

(** Every idle unload in the trace comes at least [ttl] ticks after
    every earlier stamp of the same model (the trace is newest first). *)
Fixpoint idle_ok (ttl : Z) (tr : list Event) : Prop :=
  match tr with
  | [] => True
  | e :: r =>
      match e with
      | EvIdleUnload k t' => forall t, In (EvStamp k t) r -> ttl <= t' - t
      | _ => True
      end
      /\ idle_ok ttl r
  end.

Definition last_used_of (w : World) : list (string * Z) := _last_used (model_manager w).
(** The idle TTL of the configuration, as the float that [idle_time]
    is compared with. *)
Definition ttl_of (w : World) : Z :=
  ticks (idle_ttl_seconds (config (model_manager w))).

Record time_ok (w : World) : Prop := {
  time_nodup : NoDup (OD.keys (last_used_of w));
  time_past : forall k lu, OD.get k (last_used_of w) = Some lu -> lu <= clock w;
  time_stamps : forall k t, In (EvStamp k t) (trace w) ->
                  t <= clock w
                  /\ forall lu, OD.get k (last_used_of w) = Some lu -> t <= lu;
  time_idle : idle_ok (ttl_of w) (trace w)
}.

(** A stretch of execution during which time may pass and quiet events
    may happen, but no stamp is taken and no idle unload is decided. *)
Definition quiet_step (w w' : World) : Prop :=
  clock w <= clock w'
  /\ last_used_of w' = last_used_of w
  /\ config (model_manager w') = config (model_manager w)
  /\ exists evs, trace w' = (evs ++ trace w)%list /\ forallb quiet evs = true.

(** Three hundred texts: at one second each, five minutes of inference. *)
Definition three_hundred_texts : list string := firstn 300 thousand_texts.

(** What the embedding manager's invariants look at: its own state and
    its own loads. *)
Definition same_embedding_side (w w' : World) : Prop :=
  model_manager w' = model_manager w
  /\ forall k, loads_of k w' = loads_of k w.

(** ** Single flight *)

(** The program points at which a task holds the lock of its model. *)
Definition in_cs (pc : LoadPc) : bool :=
  match pc with
  | InModelLock _ | AtManage _ _ | AtLoad _ _ | AtWarmup _ _ | AtFinish _ _ => true
  | _ => false
  end.

(** The program points after the model has been stored. *)
Definition is_post (pc : LoadPc) : bool :=
  match pc with
  | AtWarmup _ _ | AtFinish _ _ => true
  | _ => false
  end.

(** What the proof of single flight needs from the pieces of a manager's
    [load_model], for a key [k]: each piece touches only what the source
    shows it touching. *)
Record LoadLaws (ops : LoadOps) : Prop := {
  law_set_locks : forall g w,
    op_resolve ops (op_set_locks ops g w) = op_resolve ops w
    /\ op_locks ops (op_set_locks ops g w) = g (op_locks ops w)
    /\ op_models ops (op_set_locks ops g w) = op_models ops w
    /\ op_status ops (op_set_locks ops g w) = op_status ops w
    /\ trace (op_set_locks ops g w) = trace w;
  law_set_global : forall b w,
    op_resolve ops (op_set_global_lock ops b w) = op_resolve ops w
    /\ op_locks ops (op_set_global_lock ops b w) = op_locks ops w
    /\ op_models ops (op_set_global_lock ops b w) = op_models ops w
    /\ op_status ops (op_set_global_lock ops b w) = op_status ops w
    /\ trace (op_set_global_lock ops b w) = trace w;
  law_begin : forall k w,
    op_resolve ops (op_begin_load ops k w) = op_resolve ops w
    /\ op_locks ops (op_begin_load ops k w) = op_locks ops w
    /\ op_models ops (op_begin_load ops k w) = op_models ops w
    /\ op_status ops (op_begin_load ops k w) = <[k := LOADING]> (op_status ops w)
    /\ trace (op_begin_load ops k w) = trace w;
  law_manage : forall k w,
    op_resolve ops (op_manage_memory ops k w) = op_resolve ops w
    /\ op_locks ops (op_manage_memory ops k w) = op_locks ops w
    /\ OD.get k (op_models ops (op_manage_memory ops k w)) = OD.get k (op_models ops w)
    /\ op_status ops (op_manage_memory ops k w) !! k = op_status ops w !! k
    /\ good_loads_of (op_family ops) k (op_manage_memory ops k w)
       = good_loads_of (op_family ops) k w;
  law_load : forall E k w,
    op_resolve ops (fst (op_load ops E k w)) = op_resolve ops w
    /\ op_locks ops (fst (op_load ops E k w)) = op_locks ops w
    /\ op_status ops (fst (op_load ops E k w)) = op_status ops w
    /\ match snd (op_load ops E k w) with
       | None =>
           OD.mem k (op_models ops (fst (op_load ops E k w))) = true
           /\ good_loads_of (op_family ops) k (fst (op_load ops E k w))
              = S (good_loads_of (op_family ops) k w)
       | Some _ =>
           op_models ops (fst (op_load ops E k w)) = op_models ops w
           /\ good_loads_of (op_family ops) k (fst (op_load ops E k w))
              = good_loads_of (op_family ops) k w
       end;
  law_warmup : forall E k w,
    op_resolve ops (op_warmup ops E k w) = op_resolve ops w
    /\ op_locks ops (op_warmup ops E k w) = op_locks ops w
    /\ op_models ops (op_warmup ops E k w) = op_models ops w
    /\ op_status ops (op_warmup ops E k w) = op_status ops w
    /\ good_loads_of (op_family ops) k (op_warmup ops E k w)
       = good_loads_of (op_family ops) k w;
  law_finish : forall k t w,
    op_resolve ops (op_finish_load ops k t w) = op_resolve ops w
    /\ op_locks ops (op_finish_load ops k t w) = op_locks ops w
    /\ op_models ops (op_finish_load ops k t w) = op_models ops w
    /\ op_status ops (op_finish_load ops k t w) = <[k := READY]> (op_status ops w)
    /\ good_loads_of (op_family ops) k (op_finish_load ops k t w)
       = good_loads_of (op_family ops) k w;
  law_fail : forall k e w,
    op_resolve ops (fst (op_fail_load ops k e w)) = op_resolve ops w
    /\ op_locks ops (fst (op_fail_load ops k e w)) = op_locks ops w
    /\ op_models ops (fst (op_fail_load ops k e w)) = op_models ops w
    /\ op_status ops (fst (op_fail_load ops k e w)) = <[k := ERROR]> (op_status ops w)
    /\ trace (fst (op_fail_load ops k e w)) = trace w
    /\ exists m, snd (op_fail_load ops k e w) = Raise (RuntimeErrorFrom m e);
  law_calls_manage : forall k w,
    family_loads_of (op_family ops) k (op_manage_memory ops k w)
    = family_loads_of (op_family ops) k w;
  law_calls_load : forall E k w,
    family_loads_of (op_family ops) k (fst (op_load ops E k w))
    = S (family_loads_of (op_family ops) k w);
  law_calls_warmup : forall E k w,
    family_loads_of (op_family ops) k (op_warmup ops E k w)
    = family_loads_of (op_family ops) k w;
  law_calls_finish : forall k t w,
    family_loads_of (op_family ops) k (op_finish_load ops k t w)
    = family_loads_of (op_family ops) k w
}.

(** What holds of one caller of [load_model] for key [k], at its program
    point, in a system that started with [g0] stores of [k]. *)
Definition task_ok (ops : LoadOps) (k : string) (g0 : nat) (w : World)
    (pc : LoadPc) : Prop :=
  match pc with
  | AtStart ident => op_resolve ops w ident = Ok k
  | AtGlobalLock k' | InGlobalLock k' => k' = k
  | AtModelLock k' => k' = k /\ is_Some (op_locks ops w !! k)
  | InModelLock k' => k' = k /\ op_locks ops w !! k = Some true
  | AtManage k' _ | AtLoad k' _ =>
      k' = k /\ op_locks ops w !! k = Some true
      /\ op_status ops w !! k = Some LOADING
      /\ good_loads_of (op_family ops) k w = g0
  | AtWarmup k' _ | AtFinish k' _ =>
      k' = k /\ op_locks ops w !! k = Some true
      /\ op_status ops w !! k = Some LOADING
      /\ OD.mem k (op_models ops w) = true
      /\ good_loads_of (op_family ops) k w = S g0
  | Returned r =>
      (r = Ok k /\ op_is_ready ops k w = true)
      \/ exists m c, r = Raise (RuntimeErrorFrom m c)
  end.

Record single_flight (ops : LoadOps) (k : string) (g0 : nat) (s : Sys) : Prop := {
  sf_tasks : forall i pc, tasks s !! i = Some pc -> task_ok ops k g0 (world s) pc;
  sf_excl : forall i j pc pc',
      tasks s !! i = Some pc -> tasks s !! j = Some pc' ->
      in_cs pc = true -> in_cs pc' = true -> i = j;
  sf_good :
      good_loads_of (op_family ops) k (world s) = g0
      \/ (good_loads_of (op_family ops) k (world s) = S g0
          /\ (op_is_ready ops k (world s) = true
              \/ exists i pc, tasks s !! i = Some pc /\ is_post pc = true))
}.

(** A caller that got an exception. *)
Definition has_raised (pc : LoadPc) : bool :=
  match pc with
  | Returned (Raise _) => true
  | _ => false
  end.

Definition raised_count (s : Sys) : nat := length (List.filter has_raised (tasks s)).

(** Every call of [load(k)] since the start either stored the model or
    sent an exception to its caller: with [l0] calls and [g0] stores at
    the start, calls = l0 + (stores - g0) + callers that raised. *)
Definition accounted (ops : LoadOps) (k : string) (l0 g0 : nat) (s : Sys) : Prop :=
  (family_loads_of (op_family ops) k (world s) + g0
   = l0 + good_loads_of (op_family ops) k (world s) + raised_count s)%nat.

(** An engine whose [load] raises at its first call and succeeds afterwards,
    as a download does when the network comes back. *)
Definition flaky_engine : Engine :=
  {| eng_load := fun _ n =>
       match n with
       | O => LoadRaises (EngineError "connection reset")
       | S _ => Loaded n true
       end;
     eng_load_time := fun _ _ => secs 5;
     eng_encode := fun _ s => [String.length s];
     eng_embed := fun _ _ _ n => Ok [Z.of_nat n];
     eng_embed_time := fun _ _ => secs 1;
     eng_token_ids := fun _ => Ok (1%nat, 2%nat);
     eng_score := fun _ _ _ => Ok (Finite 0);
     eng_score_time := fun _ _ => secs 1;
     sort_with_nan := fun _ => [] |}.

(** Two callers of [load_model]: the first takes the lock of the key, the
    second passes the fast path and waits for that lock, the first
    finishes, then the second runs. *)
Definition waiting_schedule : list nat :=
  [0; 0; 0; 0; 0; 1; 1; 1; 1; 1; 0; 0; 0; 0; 1; 1; 1; 1; 1; 1]%nat.

(** The schedule of the event loop for two callers: nothing that
    [load_model] awaits gives the processor away, so the first caller runs
    to its end before the second starts. *)
Definition serial_schedule : list nat :=
  [0; 0; 0; 0; 0; 0; 0; 0; 0; 1; 1; 1; 1; 1; 1; 1; 1; 1]%nat.

(** What freedom from deadlock needs of the pieces: only the two lock
    steps write the global lock. *)
Record LockLaws (ops : LoadOps) : Prop := {
  lock_set_global : forall b w,
    op_global_lock ops (op_set_global_lock ops b w) = b;
  lock_set_locks : forall g w,
    op_global_lock ops (op_set_locks ops g w) = op_global_lock ops w;
  lock_begin : forall k w,
    op_global_lock ops (op_begin_load ops k w) = op_global_lock ops w;
  lock_manage : forall k w,
    op_global_lock ops (op_manage_memory ops k w) = op_global_lock ops w;
  lock_load : forall E k w,
    op_global_lock ops (fst (op_load ops E k w)) = op_global_lock ops w;
  lock_warmup : forall E k w,
    op_global_lock ops (op_warmup ops E k w) = op_global_lock ops w;
  lock_finish : forall k t w,
    op_global_lock ops (op_finish_load ops k t w) = op_global_lock ops w;
  lock_fail : forall k e w,
    op_global_lock ops (fst (op_fail_load ops k e w)) = op_global_lock ops w
}.

Definition in_global (pc : LoadPc) : bool :=
  match pc with
  | InGlobalLock _ => true
  | _ => false
  end.

(** A lock that is held is held by a task that can take a step. *)
Record locks_owned (ops : LoadOps) (k : string) (s : Sys) : Prop := {
  lo_global :
    op_global_lock ops (world s) = true ->
    exists i pc, tasks s !! i = Some pc /\ in_global pc = true;
  lo_model :
    op_locks ops (world s) !! k = Some true ->
    exists i pc, tasks s !! i = Some pc /\ in_cs pc = true
}.

(** How far a caller has come, and the steps all callers have left. *)
Definition rank (pc : LoadPc) : nat :=
  match pc with
  | AtStart _ => 0
  | AtGlobalLock _ => 1
  | InGlobalLock _ => 2
  | AtModelLock _ => 3
  | InModelLock _ => 4
  | AtManage _ _ => 5
  | AtLoad _ _ => 6
  | AtWarmup _ _ => 7
  | AtFinish _ _ => 8
  | Returned _ => 9
  end.

Definition todo (l : list LoadPc) : nat :=
  fold_right (fun pc n => (9 - rank pc + n)%nat) 0%nat l.

Definition has_returned (pc : LoadPc) : bool :=
  match pc with
  | Returned _ => true
  | _ => false
  end.

(** One caller alone: nine steps take it through [load_model]. *)
Definition solo_schedule : list nat := [0; 0; 0; 0; 0; 0; 0; 0; 0]%nat.

(** * The rest of the server *)

(** ** More of Python's [str]

    As in [PyStr], a string is the sequence of the bytes of its UTF-8
    encoding.  A pattern or a separator of ASCII characters occurs in a
    string exactly where its bytes occur in the bytes of the string. *)

Module PyText.

(** [pat in s] *)
Fixpoint contains (s pat : string) : bool :=
  match s with
  | EmptyString => PyStr.startswith s pat
  | String _ r => PyStr.startswith s pat || contains r pat
  end.

(** [s.split(sep)] for a separator of one character: never an empty
    list, the empty string gives one empty piece. *)
Fixpoint split (sep : ascii) (s : string) : list string :=
  match s with
  | EmptyString => [EmptyString]
  | String c r =>
      if Ascii.eqb c sep then EmptyString :: split sep r
      else
        match split sep r with
        | piece :: rest => String c piece :: rest
        | [] => [String c EmptyString]
        end
  end.

(** [sep.join(l)] *)
Fixpoint join (sep : string) (l : list string) : string :=
  match l with
  | [] => EmptyString
  | [x] => x
  | x :: r => x +:+ sep +:+ join sep r
  end.

(** The characters for which [str.isspace] holds.  In the ASCII range:
    tab, line feed, vertical tab, form feed, carriage return, the four
    separators 0x1c..0x1f and the space. *)
Definition isspace_char (c : ascii) : bool :=
  let n := nat_of_ascii c in
  ((9 <=? n)%nat && (n <=? 13)%nat) || ((28 <=? n)%nat && (n <=? 32)%nat).

(** U+0085 and U+00A0, two bytes each: C2 85 and C2 A0. *)
Definition isspace_2 (c c1 : ascii) : bool :=
  PyStr.is_byte 194 c && (PyStr.is_byte 133 c1 || PyStr.is_byte 160 c1).

(** The whitespace of three bytes: U+1680 (E1 9A 80), U+2000..U+200A
    (E2 80 80 .. E2 80 8A), U+2028, U+2029 and U+202F (E2 80 A8,
    E2 80 A9, E2 80 AF), U+205F (E2 81 9F) and U+3000 (E3 80 80). *)
Definition isspace_3 (c c1 c2 : ascii) : bool :=
  let n2 := nat_of_ascii c2 in
  (PyStr.is_byte 225 c && PyStr.is_byte 154 c1 && PyStr.is_byte 128 c2)
  || (PyStr.is_byte 226 c && PyStr.is_byte 128 c1
      && (((128 <=? n2)%nat && (n2 <=? 138)%nat)
          || PyStr.is_byte 168 c2 || PyStr.is_byte 169 c2 || PyStr.is_byte 175 c2))
  || (PyStr.is_byte 226 c && PyStr.is_byte 129 c1 && PyStr.is_byte 159 c2)
  || (PyStr.is_byte 227 c && PyStr.is_byte 128 c1 && PyStr.is_byte 128 c2).

(** Every character of [s] is whitespace. *)
Fixpoint all_space (s : string) : bool :=
  match s with
  | EmptyString => true
  | String c r =>
      if isspace_char c then all_space r
      else
        match r with
        | String c1 r1 =>
            if isspace_2 c c1 then all_space r1
            else
              match r1 with
              | String c2 r2 => if isspace_3 c c1 c2 then all_space r2 else false
              | EmptyString => false
              end
        | EmptyString => false
        end
  end.

(** [s.isspace()]: at least one character, and all of them whitespace. *)
Definition isspace (s : string) : bool :=
  match s with
  | EmptyString => false
  | _ => all_space s
  end.

(** [str(n)] for a natural number. *)
Definition of_nat (n : nat) : string := DecimalString.NilEmpty.string_of_uint (Nat.to_uint n).

(** [c * n] for a one-character string. *)
Fixpoint repeat_char (c : ascii) (n : nat) : string :=
  match n with
  | O => EmptyString
  | S n' => String c (repeat_char c n')
  end.

End PyText.

(** ** Log filters *)

Definition HEALTH_PATTERNS : list string :=
  ["/health"; "health check"; "health_check"].

(** The loop of [HealthCheckFilter.filter] over the patterns left. *)
Fixpoint no_pattern_in (msg : string) (patterns : list string) : bool :=
  match patterns with
  | [] => true
  | pattern :: rest =>
      if PyText.contains msg pattern then false else no_pattern_in msg rest
  end.

(** [HealthCheckFilter.filter]: [false] drops the record. *)
Definition HealthCheckFilter_filter (message : string) : bool :=
  let msg := PyStr.lower message in
  no_pattern_in msg HEALTH_PATTERNS.

(** [UvicornHealthFilter.filter] *)
Definition UvicornHealthFilter_filter (message : string) : bool :=
  if PyText.contains message "/health" then false else true.

(** [s] with its ASCII letters in lower case, byte by byte: two strings
    with the same image differ in the case of ASCII letters only. *)
Fixpoint ascii_lower (s : string) : string :=
  match s with
  | EmptyString => EmptyString
  | String c r => String (PyStr.lower_ascii c) (ascii_lower r)
  end.

(** Every character of [s] is in the ASCII range. *)
Fixpoint all_ascii (s : string) : bool :=
  match s with
  | EmptyString => true
  | String c r => (nat_of_ascii c <? 128)%nat && all_ascii r
  end.

(** U+212A KELVIN SIGN, the bytes E2 84 AA. *)
Definition KELVIN_SIGN : string :=
  String (ascii_of_nat 226) (String (ascii_of_nat 132)
    (String (ascii_of_nat 170) EmptyString)).

(** ** Request validators *)

(** The string of the given bytes. *)
Definition of_bytes (l : list nat) : string :=
  fold_right (fun n s => String (ascii_of_nat n) s) EmptyString l.

(** The characters for which [str.isspace] holds, each as its bytes:
    U+0009..U+000D, U+001C..U+001F, U+0020, U+0085, U+00A0, U+1680,
    U+2000..U+200A, U+2028, U+2029, U+202F, U+205F and U+3000. *)
Definition WHITESPACE : list string :=
  map of_bytes
    [ [9]; [10]; [11]; [12]; [13]; [28]; [29]; [30]; [31]; [32];
      [194; 133]; [194; 160];
      [225; 154; 128];
      [226; 128; 128]; [226; 128; 129]; [226; 128; 130]; [226; 128; 131];
      [226; 128; 132]; [226; 128; 133]; [226; 128; 134]; [226; 128; 135];
      [226; 128; 136]; [226; 128; 137]; [226; 128; 138];
      [226; 128; 168]; [226; 128; 169]; [226; 128; 175];
      [226; 129; 159];
      [227; 128; 128] ]%nat.

(** U+00A0 NO-BREAK SPACE *)
Definition NO_BREAK_SPACE : string := of_bytes [194; 160]%nat.

(** The strings of [l], one after the other. *)
Definition concat_str (l : list string) : string :=
  fold_right String.append EmptyString l.

(** [not v or v.isspace()] *)
Definition is_blank (v : string) : bool :=
  match v with
  | EmptyString => true
  | _ => PyText.isspace v
  end.

(** [EmbedRequest.validate_text] *)
Definition validate_text (v : string) : result string :=
  if is_blank v then Raise (ValueError "Text cannot be empty or whitespace only")
  else Ok v.

(** [RerankRequest.validate_query] *)
Definition validate_query (v : string) : result string :=
  if is_blank v then Raise (ValueError "Query cannot be empty or whitespace only")
  else Ok v.

(** [for i, text in enumerate(v)] of the two list validators, from index
    [i] on; [what] is "Text" or "Document". *)
Fixpoint validate_items (what : string) (i : nat) (v : list string) : option PyExc :=
  match v with
  | [] => None
  | text :: rest =>
      if is_blank text then
        Some (ValueError (what +:+ " at index " +:+ PyText.of_nat i
                          +:+ " cannot be empty or whitespace only"))
      else validate_items what (S i) rest
  end.

(** [BatchEmbedRequest.validate_texts] *)
Definition validate_texts (v : list string) : result (list string) :=
  match v with
  | [] => Raise (ValueError "Text list cannot be empty")
  | _ =>
      match validate_items "Text" 0 v with
      | Some e => Raise e
      | None => Ok v
      end
  end.

(** [RerankRequest.validate_documents] *)
Definition validate_documents (v : list string) : result (list string) :=
  match v with
  | [] => Raise (ValueError "Documents list cannot be empty")
  | _ =>
      match validate_items "Document" 0 v with
      | Some e => Raise e
      | None => Ok v
      end
  end.

(** ** The configuration dataclass *)

Definition MIN_BATCH_SIZE : Z := 1.

(** The fields of [ServerConfig] as the generated [__init__] leaves
    them; [cors_origins] is [None] unless the caller gave a list. *)
Record ConfigFields := {
  cf_model_name : string;
  cf_max_batch_size : Z;
  cf_max_text_length : Z;
  cf_port : Z;
  cf_host : string;
  cf_enable_cors : bool;
  cf_cors_origins : option (list string);
  cf_models_dir : string;
  cf_lazy_load : bool;
  cf_idle_ttl_seconds : Z
}.

Definition set_cors_origins (origins : list string) (c : ConfigFields) : ConfigFields :=
  {| cf_model_name := cf_model_name c; cf_max_batch_size := cf_max_batch_size c;
     cf_max_text_length := cf_max_text_length c; cf_port := cf_port c;
     cf_host := cf_host c; cf_enable_cors := cf_enable_cors c;
     cf_cors_origins := Some origins; cf_models_dir := cf_models_dir c;
     cf_lazy_load := cf_lazy_load c; cf_idle_ttl_seconds := cf_idle_ttl_seconds c |}.

(** What [__post_init__] asks of the operating system: the environment,
    [Path(d).mkdir(parents=True, exist_ok=True)] ([Some e] when it
    raises) and [str(Path(d) / name)]. *)
Record Os := {
  os_environ : string -> option string;
  os_mkdir : string -> option PyExc;
  os_path_join : string -> string -> string
}.

(** [os.getenv(name, default)] *)
Definition getenv (os : Os) (name default : string) : string :=
  match os_environ os name with
  | Some v => v
  | None => default
  end.

(** [ServerConfig.__post_init__]: the validated fields and the two
    environment variables it sets. *)
Definition __post_init__ (os : Os) (self : ConfigFields)
    : result (ConfigFields * list (string * string)) :=
  let self :=
    match cf_cors_origins self with
    | None => set_cors_origins (PyText.split "," (getenv os "CORS_ORIGINS" "*")) self
    | Some _ => self
    end in
  if cf_max_batch_size self <? MIN_BATCH_SIZE then
    Raise (ValueError "max_batch_size must be at least 1")
  else if cf_max_text_length self <? 1 then
    Raise (ValueError "max_text_length must be positive")
  else if (cf_port self <? 1) || (65535 <? cf_port self) then
    Raise (ValueError "port must be between 1 and 65535")
  else
    match os_mkdir os (cf_models_dir self) with
    | Some e => Raise e
    | None =>
        Ok (self,
            [("HF_HOME", cf_models_dir self);
             ("HUGGINGFACE_HUB_CACHE", os_path_join os (cf_models_dir self) "hub")])
    end.

(** The part of the configuration that the managers read. *)
Definition manager_config (c : ConfigFields) : ServerConfig :=
  {| model_name := cf_model_name c;
     max_text_length := Z.to_nat (cf_max_text_length c);
     lazy_load := cf_lazy_load c;
     idle_ttl_seconds := cf_idle_ttl_seconds c |}.

(** ** The HTTP endpoints *)

(** What an endpoint answers: the response body with status 200, or the
    [HTTPException] it raised. *)
Inductive Http (A : Type) :=
| Http200 (body : A)
| HTTPException (status_code : Z) (detail : string).
Arguments Http200 {A} body.
Arguments HTTPException {A} status_code detail.

Definition HTTP_500_INTERNAL_SERVER_ERROR : Z := 500.
Definition HTTP_400_BAD_REQUEST : Z := 400.

(** The response models.  [processing_time_ms] and [uptime_seconds] are
    floats computed from readings of the clock, held in ticks like
    them (of a millisecond and of a second). *)



Record RerankResponse := {
  rr_results : list Scored;
  rr_model : string;
  rr_query : string;
  rr_count : nat;
  rr_processing_time_ms : Z
}.

Record HealthResponse := {
  hr_status : string;
  hr_model_status : string;
  hr_loaded_model : string;
  hr_embedding_dim : Z;
  hr_models_dir : string;
  hr_memory_usage_mb : option Q;
  hr_uptime_seconds : Z
}.

(** [ModelStatus.value] *)
Definition ModelStatus_value (s : ModelStatus) : string :=
  match s with
  | LOADING => "loading"
  | READY => "ready"
  | ERROR => "error"
  | UNLOADED => "unloaded"
  end.



(** [POST /rerank] *)
Definition rerank_endpoint (E : Engine) (query : string) (documents : list string)
    (model : option string) (instruction : option string) (top_k : option Z)
    (w : World) : World * Http RerankResponse :=
  let start_time := clock w in
  match rerank E query documents model instruction top_k w with
  | (w', Ok results) =>
      let processing_time := (clock w' - start_time) * 1000 in
      match r_resolve_model_name model with
      | Ok name =>
          (w', Http200 {| rr_results := results; rr_model := name; rr_query := query;
                          rr_count := length results;
                          rr_processing_time_ms := processing_time |})
      | Raise e =>
          (w', HTTPException HTTP_500_INTERNAL_SERVER_ERROR
                 ("Reranking failed: " +:+ exc_str e))
      end
  | (w', Raise e) =>
      (w', HTTPException HTTP_500_INTERNAL_SERVER_ERROR
             ("Reranking failed: " +:+ exc_str e))
  end.

(** The three-way test of [health_check]. *)
Definition health_status (default_model_status : ModelStatus) (lazy : bool) : string :=
  if ModelStatus_eqb default_model_status READY then "healthy"
  else if ModelStatus_eqb default_model_status UNLOADED && lazy then "healthy"
  else "degraded".

(** [GET /health]; [memory_mb] is what psutil reports, if installed,
    [start_time] is [app.state.start_time], if set, and [models_dir] is
    [config.models_dir]. *)
Definition health_check (memory_mb : option Q) (start_time : option Z)
    (models_dir : string) (w : World) : Http HealthResponse :=
  let cfg := config (model_manager w) in
  let uptime :=
    match start_time with
    | Some t => clock w - t
    | None => 0
    end in
  let default_model_status :=
    status_or_unloaded (model_status (model_manager w) !! model_name cfg) in
  match OD.get (model_name cfg) AVAILABLE_MODELS with
  | None =>
      HTTPException HTTP_500_INTERNAL_SERVER_ERROR
        ("Health check failed: " +:+ exc_str (KeyError (model_name cfg)))
  | Some info =>
      Http200 {| hr_status := health_status default_model_status (lazy_load cfg);
                 hr_model_status := ModelStatus_value default_model_status;
                 hr_loaded_model := model_name cfg;
                 hr_embedding_dim := embedding_dim info;
                 hr_models_dir := models_dir;
                 hr_memory_usage_mb := memory_mb;
                 hr_uptime_seconds := uptime |}
  end.


(** ** The downloader, [download_model.py] *)

Record DownloadInfo := {
  dl_name : string;
  dl_size : string;
  dl_dims : Z
}.

Definition MODELS : list (string * DownloadInfo) :=
  [("small", {| dl_name := "mlx-community/Qwen3-Embedding-0.6B-4bit-DWQ";
                dl_size := "~1.5GB"; dl_dims := 1024 |});
   ("medium", {| dl_name := "mlx-community/Qwen3-Embedding-4B-4bit-DWQ";
                 dl_size := "~8GB"; dl_dims := 2560 |});
   ("large", {| dl_name := "mlx-community/Qwen3-Embedding-8B-4bit-DWQ";
                dl_size := "~16GB"; dl_dims := 4096 |})].

(** How the [try] block of [main] ends: [load] and [tokenizer.encode]
    return, the user interrupts, or one of them raises. *)
Inductive DownloadOutcome :=
| Downloaded
| Interrupted
| DownloadFailed (e : PyExc).

(** What a run of the script leaves: the lines it printed, the model it
    asked [load] for (if it got that far) and its exit status. *)
Record ScriptRun := {
  sr_stdout : list string;
  sr_loaded : option string;
  sr_exit : Z
}.

Definition rule (c : ascii) : string := PyText.repeat_char c 60.

(** [str(n)] for an integer that is not negative here. *)
Definition str_Z (n : Z) : string := PyText.of_nat (Z.to_nat n).

(** [sys.argv[1] if len(sys.argv) > 1 else "small"] *)
Definition alias_argument (argv : list string) : string :=
  match argv with
  | _ :: a :: _ => a
  | _ => "small"
  end.

(** [main()]; [argv] is [sys.argv], [models_dir] is [str(MODELS_DIR)],
    [fetch] is what the [try] block does for a model name. *)
Definition download_main (argv : list string) (models_dir : string)
    (fetch : string -> DownloadOutcome) : ScriptRun :=
  let model_alias := alias_argument argv in
  match OD.get model_alias MODELS with
  | None =>
      {| sr_stdout :=
           ["Unknown model: " +:+ model_alias;
            "Available: " +:+ PyText.join ", " (OD.keys MODELS)];
         sr_loaded := None;
         sr_exit := 1 |}
  | Some model_info =>
      let model_name := dl_name model_info in
      let banner :=
        [EmptyString;
         rule "=";
         "  AmanMCP MLX Model Downloader";
         rule "=";
         EmptyString;
         "  Model:      " +:+ model_alias +:+ " (" +:+ str_Z (dl_dims model_info)
           +:+ " dimensions)";
         "  Size:       " +:+ dl_size model_info;
         "  Location:   " +:+ models_dir;
         EmptyString;
         "  Downloading from HuggingFace Hub...";
         "  (Progress bar will appear below)";
         EmptyString;
         rule "-"] in
      match fetch model_name with
      | Downloaded =>
          {| sr_stdout :=
               (banner ++
                [rule "-";
                 EmptyString;
                 "  Download complete!";
                 EmptyString;
                 "  Model ready at: " +:+ models_dir;
                 EmptyString;
                 "  To start the server:";
                 "    cd mlx-server && .venv/bin/python server.py";
                 EmptyString;
                 "  Or with amanmcp:";
                 "    amanmcp index --backend=mlx .";
                 EmptyString;
                 rule "="])%list;
             sr_loaded := Some model_name;
             sr_exit := 0 |}
      | Interrupted =>
          {| sr_stdout := (banner ++ [EmptyString; EmptyString; "Download cancelled."])%list;
             sr_loaded := Some model_name;
             sr_exit := 1 |}
      | DownloadFailed e =>
          {| sr_stdout := (banner ++ [EmptyString; "Download failed: " +:+ exc_str e])%list;
             sr_loaded := Some model_name;
             sr_exit := 1 |}
      end
  end.

(** The default configuration with lazy loading switched off. *)
Definition eager_config : ServerConfig :=
  {| model_name := DEFAULT_MODEL;
     max_text_length := Z.to_nat DEFAULT_MAX_LENGTH;
     lazy_load := false;
     idle_ttl_seconds := DEFAULT_IDLE_TTL_SECONDS |}.

(** ** What the embedding manager keeps *)

(** At most two models are resident, every entry of the embedding cache
    is the cache key of a text for a resident model, and every resident
    model has a last-used timestamp. *)
Record resident_ok (w : World) : Prop := {
  ro_max : max_loaded_models (model_manager w) = 2%nat;
  ro_count : (length (models (model_manager w)) <= 2)%nat;
  ro_cache : forall key,
      is_Some (cache_of w !! key) ->
      exists k text nz,
        key = fingerprint k text nz /\ OD.mem k (models (model_manager w)) = true;
  ro_stamped : forall k,
      OD.mem k (models (model_manager w)) = true -> OD.mem k (last_used_of w) = true
}.

(** The same for the reranker: at most one model. *)
Record r_resident_ok (w : World) : Prop := {
  rro_max : r_max_loaded_models (reranker_manager w) = 1%nat;
  rro_count : (length (r_models (reranker_manager w)) <= 1)%nat
}.

(** [del d[name]] for every item of the scan of the idle loop. *)
Definition del_all {V} (items : list (string * Z)) (d : list (string * V))
    : list (string * V) :=
  fold_left (fun d' it => OD.del (fst it) d') items d.

(** The time that a sequence of turns of the idle loop takes: each turn
    sleeps [check_interval] seconds and wakes up [late] ticks later. *)
Definition turns_duration (cfg : ServerConfig) (lates : list N) : Z :=
  fold_right (fun late t => ticks (check_interval cfg) + Z.of_N late + t) 0 lates.

(** Requests to the reranker. *)
Definition is_rerank (o : Op) : bool :=
  match o with
  | OpRerank _ _ _ _ _ => true
  | _ => false
  end.



(** * Properties *)

(** ** Strings *)

Lemma append_cons (c : ascii) (a b : string) :
  String c a +:+ b = String c (a +:+ b).
Proof. reflexivity. Qed.

Lemma append_nil (b : string) : EmptyString +:+ b = b.
Proof. reflexivity. Qed.

Lemma startswith_app (p r : string) : PyStr.startswith (p +:+ r) p = true.
Proof.
  induction p as [|c p IH]; [done|].
  rewrite append_cons. simpl. by rewrite Ascii.eqb_refl, IH.
Qed.

Lemma startswith_inv (s p : string) :
  PyStr.startswith s p = true -> exists r, s = p +:+ r.
Proof.
  revert s. induction p as [|c p IH]; intros s H; simpl in *.
  - by exists s.
  - destruct s as [|d s]; [done|].
    apply andb_true_iff in H as [Hc Hs].
    apply Ascii.eqb_eq in Hc as ->.
    destruct (IH _ Hs) as [r ->]. by exists r.
Qed.

Lemma app_assoc_str (a b c : string) : (a +:+ b) +:+ c = a +:+ (b +:+ c).
Proof.
  induction a as [|x a IH]; [done|].
  rewrite !append_cons. by rewrite IH.
Qed.

Lemma contains_char_cons (c d : ascii) (r : string) :
  PyStr.contains_char c (String d r)
  = if Ascii.eqb c d then true else PyStr.contains_char c r.
Proof. reflexivity. Qed.

(** Two colon-free names followed by a colon: the names are equal as
    soon as the strings are. *)
Lemma colon_split (a b x y : string) :
  PyStr.contains_char ":"%char a = false ->
  PyStr.contains_char ":"%char b = false ->
  a +:+ ":" +:+ x = b +:+ ":" +:+ y -> a = b.
Proof.
  revert b. induction a as [|c a IH]; intros [|d b] Ha Hb Heq;
    rewrite ?append_cons, ?append_nil in Heq.
  - done.
  - injection Heq as Hc _. subst d.
    by rewrite contains_char_cons, Ascii.eqb_refl in Hb.
  - injection Heq as Hc _. subst c.
    by rewrite contains_char_cons, Ascii.eqb_refl in Ha.
  - injection Heq as -> Heq.
    rewrite contains_char_cons in Ha, Hb.
    destruct (Ascii.eqb ":" d) eqn:Hd; [done|].
    f_equal. by apply IH.
Qed.

(** ** Ordered dictionaries *)

Section OD_facts.
Context {V : Type}.
Implicit Types (d : list (string * V)) (k : string) (v : V).

Lemma od_get_set_eq d k v : OD.get k (OD.set k v d) = Some v.
Proof.
  induction d as [|[k' v'] d IH]; simpl.
  - by rewrite String.eqb_refl.
  - destruct (String.eqb k k') eqn:Hk; simpl; rewrite ?String.eqb_refl, ?Hk; done.
Qed.

Lemma od_get_set_ne d k k' v : k <> k' -> OD.get k' (OD.set k v d) = OD.get k' d.
Proof.
  intros Hne. induction d as [|[k0 v0] d IH]; simpl.
  - apply not_eq_sym, String.eqb_neq in Hne. by rewrite Hne.
  - destruct (String.eqb_spec k k0) as [->|Hk0]; simpl.
    + apply not_eq_sym, String.eqb_neq in Hne. by rewrite Hne.
    + by rewrite IH.
Qed.

Lemma od_get_del_ne d k k' : k <> k' -> OD.get k' (OD.del k d) = OD.get k' d.
Proof.
  intros Hne. induction d as [|[k0 v0] d IH]; simpl; [done|].
  destruct (String.eqb_spec k k0) as [->|Hk0]; simpl.
  - apply not_eq_sym, String.eqb_neq in Hne. by rewrite Hne.
  - by rewrite IH.
Qed.

Lemma od_get_None_keys d k : OD.get k d = None <-> ~ In k (OD.keys d).
Proof.
  induction d as [|[k0 v0] d IH]; simpl; [tauto|].
  destruct (String.eqb_spec k k0) as [->|Hk0].
  - split; [done|]. intros H. exfalso. apply H. by left.
  - rewrite IH. split; [intros H [?|?]; [congruence|tauto] | tauto].
Qed.

Lemma od_mem_keys d k : OD.mem k d = true <-> In k (OD.keys d).
Proof.
  unfold OD.mem. destruct (OD.get k d) eqn:Hg.
  - split; [intros _|done].
    destruct (in_dec string_dec k (OD.keys d)) as [?|Hn]; [done|].
    apply od_get_None_keys in Hn. congruence.
  - apply od_get_None_keys in Hg. split; [done|tauto].
Qed.

Lemma od_get_del_eq d k : NoDup (OD.keys d) -> OD.get k (OD.del k d) = None.
Proof.
  induction d as [|[k0 v0] d IH]; simpl; [done|].
  intros Hnd. apply NoDup_cons in Hnd as [Hnin Hnd].
  destruct (String.eqb_spec k k0) as [->|Hk0]; simpl.
  - apply od_get_None_keys. intros Hin. apply Hnin. by apply list_elem_of_In.
  - apply String.eqb_neq in Hk0. rewrite Hk0. by apply IH.
Qed.

Lemma od_keys_del_incl d k x : In x (OD.keys (OD.del k d)) -> In x (OD.keys d).
Proof.
  induction d as [|[k0 v0] d IH]; simpl; [done|].
  destruct (String.eqb k k0); simpl; tauto.
Qed.

Lemma od_NoDup_del d k : NoDup (OD.keys d) -> NoDup (OD.keys (OD.del k d)).
Proof.
  induction d as [|[k0 v0] d IH]; simpl; [done|].
  intros Hnd. apply NoDup_cons in Hnd as [Hnin Hnd].
  destruct (String.eqb k k0); simpl; [done|].
  apply NoDup_cons. split; [|by apply IH].
  intros Hin. apply Hnin. apply list_elem_of_In.
  apply od_keys_del_incl with k. by apply list_elem_of_In.
Qed.

Lemma od_keys_set_incl d k v x : In x (OD.keys (OD.set k v d)) -> x = k \/ In x (OD.keys d).
Proof.
  induction d as [|[k0 v0] d IH]; simpl.
  - intros [?|[]]. by left.
  - destruct (String.eqb_spec k k0) as [->|Hk0]; simpl; [tauto|].
    intros [?|?]; [tauto|]. destruct IH; tauto.
Qed.

Lemma od_NoDup_set d k v : NoDup (OD.keys d) -> NoDup (OD.keys (OD.set k v d)).
Proof.
  induction d as [|[k0 v0] d IH]; simpl.
  - intros _. apply NoDup_singleton.
  - intros Hnd. apply NoDup_cons in Hnd as [Hnin Hnd].
    destruct (String.eqb_spec k k0) as [->|Hk0]; simpl.
    + apply NoDup_cons. done.
    + apply NoDup_cons. split; [|by apply IH].
      intros Hin. apply list_elem_of_In, od_keys_set_incl in Hin as [?|Hin]; [congruence|].
      apply Hnin. by apply list_elem_of_In.
Qed.

Lemma od_length_del d k : OD.mem k d = true -> length d = S (length (OD.del k d)).
Proof.
  unfold OD.mem. induction d as [|[k0 v0] d IH]; simpl; [done|].
  destruct (String.eqb k k0); simpl; [done|].
  intros H. by rewrite IH.
Qed.

Lemma od_length_set d k v :
  length (OD.set k v d) = if OD.mem k d then length d else S (length d).
Proof.
  unfold OD.mem. induction d as [|[k0 v0] d IH]; simpl; [done|].
  destruct (String.eqb k k0); simpl; [done|].
  rewrite IH. by destruct (OD.get k d).
Qed.

End OD_facts.

(** ** What each piece of [ModelManager] touches *)

Lemma forward_pass_mm E k h text nz w :
  model_manager (fst (forward_pass E k h text nz w)) = model_manager w.
Proof. reflexivity. Qed.

Lemma forward_pass_clock E k h text nz w :
  clock w <= clock (fst (forward_pass E k h text nz w)).
Proof. unfold forward_pass. simpl. lia. Qed.

Lemma warmup_texts_mm E k h texts w :
  model_manager (warmup_texts E k h texts w) = model_manager w.
Proof.
  revert w. induction texts as [|t r IH]; intros w; simpl; [done|].
  destruct (eng_embed _ _ _ _ _); [|done].
  by rewrite IH.
Qed.

Lemma warmup_mm E k w : model_manager (_warmup E k w) = model_manager w.
Proof.
  unfold _warmup. destruct (OD.get _ _); [|done]. apply warmup_texts_mm.
Qed.

Lemma warmup_texts_clock E k h texts w :
  clock w <= clock (warmup_texts E k h texts w).
Proof.
  revert w. induction texts as [|t r IH]; intros w; simpl; [lia|].
  destruct (eng_embed _ _ _ _ _); simpl; [|lia].
  etransitivity; [|apply IH]. simpl. lia.
Qed.

Lemma warmup_clock E k w : clock w <= clock (_warmup E k w).
Proof.
  unfold _warmup. destruct (OD.get _ _); [|lia]. apply warmup_texts_clock.
Qed.

Lemma call_load_mm E f k w : model_manager (fst (call_load E f k w)) = model_manager w.
Proof. reflexivity. Qed.

Lemma call_load_snd E f k w :
  snd (call_load E f k w) = eng_load E k (count_events is_load w).
Proof. reflexivity. Qed.

(** [_unload_model] on a resident model. *)
Lemma unload_model_mm k w :
  OD.mem k (models (model_manager w)) = true ->
  model_manager (_unload_model k w)
  = set_embedding_cache (purge_cache k)
      (set_model_status (insert k UNLOADED)
         (set_models (OD.del k) (model_manager w))).
Proof. intros H. unfold _unload_model. by rewrite H. Qed.

Lemma unload_model_absent k w :
  OD.mem k (models (model_manager w)) = false -> _unload_model k w = w.
Proof. intros H. unfold _unload_model. by rewrite H. Qed.

Lemma unload_model_clock k w : clock (_unload_model k w) = clock w.
Proof. unfold _unload_model. by destruct (negb _). Qed.

Lemma manage_memory_victim k w :
  _manage_memory k w
  = match victim k (model_manager w) with
    | Some e => _unload_model e w
    | None => w
    end.
Proof.
  unfold _manage_memory, victim.
  destruct (_ <=? _)%nat; [|done].
  by destruct (List.filter _ _).
Qed.

Lemma victim_resident k m e :
  victim k m = Some e -> OD.mem e (models m) = true /\ e <> k.
Proof.
  unfold victim. destruct (_ <=? _)%nat; [|done].
  destruct (List.filter _ _) as [|x l] eqn:Hf; [done|].
  intros [= ->].
  assert (Hin : In e (List.filter (fun k0 => negb (String.eqb k0 k)) (OD.keys (models m))))
    by (rewrite Hf; by left).
  apply filter_In in Hin as [Hin Hne].
  split; [by apply od_mem_keys|].
  apply negb_true_iff, String.eqb_neq in Hne. done.
Qed.

Lemma manage_memory_clock k w : clock (_manage_memory k w) = clock w.
Proof.
  rewrite manage_memory_victim. destruct (victim _ _); [|done].
  apply unload_model_clock.
Qed.

(** ** The embedding cache *)

Lemma lookup_fold_delete {A} (l : list string) (c : gmap string A) (key : string) :
  fold_left (fun c' x => delete x c') l c !! key
  = if decide (key ∈ l) then None else c !! key.
Proof.
  revert c. induction l as [|x l IH]; intros c; simpl.
  - destruct (decide (key ∈ [])) as [Hin|_]; [|done]. by apply elem_of_nil in Hin.
  - rewrite IH. destruct (decide (key ∈ l)) as [Hin|Hnin].
    + destruct (decide (key ∈ x :: l)) as [_|Hn]; [done|].
      exfalso. apply Hn. apply elem_of_cons; by right.
    + destruct (decide (x = key)) as [->|Hne].
      * rewrite lookup_delete_eq.
        destruct (decide (key ∈ key :: l)) as [_|Hn]; [done|].
        exfalso. apply Hn. apply elem_of_cons; by left.
      * rewrite lookup_delete_ne by done.
        destruct (decide (key ∈ x :: l)) as [Hin|_]; [|done].
        apply elem_of_cons in Hin as [?|?]; congruence.
Qed.

Lemma size_fold_delete {A} (l : list string) (c : gmap string A) :
  (size (fold_left (fun c' x => delete x c') l c) <= size c)%nat.
Proof.
  revert c. induction l as [|x l IH]; intros c; simpl; [lia|].
  etransitivity; [apply IH|].
  rewrite map_size_delete. destruct (c !! x); simpl; lia.
Qed.

Lemma In_cache_keys_to_remove k c key :
  In key (cache_keys_to_remove k c)
  <-> PyStr.startswith key (k +:+ ":") = true /\ is_Some (c !! key).
Proof.
  unfold cache_keys_to_remove. rewrite filter_In, in_map_iff. split.
  - intros [[[key' v] [Hk Hin]] Hs]. simpl in Hk. subst key'.
    split; [done|]. exists v.
    apply elem_of_map_to_list. by apply list_elem_of_In.
  - intros [Hs [v Hv]]. split; [|done].
    exists (key, v). split; [done|].
    apply list_elem_of_In. by apply elem_of_map_to_list.
Qed.

Lemma lookup_purge_cache k c key :
  purge_cache k c !! key
  = if PyStr.startswith key (k +:+ ":") then None else c !! key.
Proof.
  unfold purge_cache. rewrite lookup_fold_delete.
  destruct (decide _) as [Hin|Hnin].
  - apply list_elem_of_In, In_cache_keys_to_remove in Hin as [-> _]. done.
  - destruct (PyStr.startswith key (k +:+ ":")) eqn:Hs; [|done].
    destruct (c !! key) eqn:Hc; [|done].
    exfalso. apply Hnin. apply list_elem_of_In, In_cache_keys_to_remove.
    split; [done|]. by eexists.
Qed.

Lemma size_purge_cache k c : (size (purge_cache k c) <= size c)%nat.
Proof. apply size_fold_delete. Qed.

Lemma size_cache_put key e c :
  (size c <= CACHE_CAPACITY)%nat -> (size (cache_put key e c) <= CACHE_CAPACITY)%nat.
Proof.
  intros Hle. unfold cache_put.
  destruct (Nat.ltb_spec (size c) CACHE_CAPACITY) as [Hlt|Hge]; [|done].
  rewrite map_size_insert. destruct (c !! key); simpl; lia.
Qed.

Lemma cache_put_full key e c :
  (CACHE_CAPACITY <= size c)%nat -> cache_put key e c = c.
Proof.
  intros Hge. unfold cache_put.
  by destruct (Nat.ltb_spec (size c) CACHE_CAPACITY) as [Hlt|_]; [lia|].
Qed.

Lemma cache_put_room key e c :
  (size c < CACHE_CAPACITY)%nat -> cache_put key e c = <[key := e]> c.
Proof.
  intros Hlt. unfold cache_put.
  by destruct (Nat.ltb_spec (size c) CACHE_CAPACITY) as [_|Hge]; [|lia].
Qed.

(** ** [load_model], case by case *)

Lemma mm_load_cases E k w :
  (exists h, eng_load E k (count_events is_load w) = Loaded h true
             /\ mm_load E k w = (store_model k h (fst (call_load E Embedding k w)), None))
  \/ (exists e, mm_load E k w = (fst (call_load E Embedding k w), Some e)
                /\ (eng_load E k (count_events is_load w) = LoadRaises e
                    \/ exists h, eng_load E k (count_events is_load w) = Loaded h false
                                 /\ e = ValueError
                                      "Invalid model architecture: missing 'model' attribute")).
Proof.
  unfold mm_load.
  destruct (call_load E Embedding k w) as [w' out] eqn:Hc.
  assert (Hout : out = eng_load E k (count_events is_load w))
    by (rewrite <- (call_load_snd E Embedding), Hc; done).
  assert (Hw : w' = fst (call_load E Embedding k w)) by (by rewrite Hc).
  rewrite <- Hout. destruct out as [h [|]|e].
  - left. exists h. by rewrite Hw.
  - right. eexists. split; [by rewrite Hw|]. right. by exists h.
  - right. exists e. split; [by rewrite Hw|]. by left.
Qed.

(** The world in which [load] is called on the slow path. *)
Lemma load_model_slow E ident w k :
  _resolve_model_name (config (model_manager w)) ident = Ok k ->
  is_ready k (model_manager w) = false ->
  load_model E ident w
  = match mm_load E k (_manage_memory k
                         (begin_load k (on_mm (set_locks (ensure_lock k)) w))) with
    | (w2, Some e) => fail_load k e w2
    | (w2, None) => (finish_load k (clock w) (_warmup E k w2), Ok k)
    end.
Proof.
  intros Hres Hnr. unfold load_model. rewrite Hres, Hnr.
  replace (is_ready k (model_manager (on_mm (set_locks (ensure_lock k)) w)))
    with (is_ready k (model_manager w)) by done.
  by rewrite Hnr.
Qed.

Lemma load_model_fast E ident w k :
  _resolve_model_name (config (model_manager w)) ident = Ok k ->
  is_ready k (model_manager w) = true ->
  load_model E ident w = (w, Ok k).
Proof. intros Hres Hr. unfold load_model. by rewrite Hres, Hr. Qed.

Lemma load_model_unknown E ident w e :
  _resolve_model_name (config (model_manager w)) ident = Raise e ->
  load_model E ident w = (w, Raise e).
Proof. intros Hres. unfold load_model. by rewrite Hres. Qed.

(** The three ways out of the slow path, with the manager each leaves. *)
Lemma load_model_outcome E ident w k :
  _resolve_model_name (config (model_manager w)) ident = Ok k ->
  is_ready k (model_manager w) = false ->
  let w1 := _manage_memory k (begin_load k (on_mm (set_locks (ensure_lock k)) w)) in
  let n := count_events is_load w1 in
  (exists h,
      eng_load E k n = Loaded h true
      /\ snd (load_model E ident w) = Ok k
      /\ model_manager (fst (load_model E ident w))
         = set_last_used (OD.set k (clock (fst (load_model E ident w))))
             (set_model_status (insert k READY)
                (set_model_load_times
                   (insert k (clock (fst (load_model E ident w)) - clock w))
                   (set_models (OD.set k h) (model_manager w1)))))
  \/ (exists e,
      (eng_load E k n = LoadRaises e
       \/ exists h, eng_load E k n = Loaded h false
                    /\ e = ValueError
                         "Invalid model architecture: missing 'model' attribute")
      /\ snd (load_model E ident w)
         = Raise (RuntimeErrorFrom ("Model loading failed: " +:+ exc_str e) e)
      /\ model_manager (fst (load_model E ident w))
         = set_model_status (insert k ERROR) (model_manager w1)).
Proof.
  intros Hres Hnr w1 n. rewrite (load_model_slow E ident w k) by done.
  fold w1. destruct (mm_load_cases E k w1) as [[h [Hl Hm]]|[e [Hm He]]]; rewrite Hm.
  - left. exists h. split; [done|]. split; [done|].
    unfold finish_load, _update_last_used. simpl.
    rewrite !warmup_mm. done.
  - right. exists e. split; [done|]. split; [done|]. done.
Qed.

(** ** The reranker leaves the embedding manager alone *)

Lemma same_embedding_side_refl w : same_embedding_side w w.
Proof. by split. Qed.

Lemma same_embedding_side_trans w1 w2 w3 :
  same_embedding_side w1 w2 -> same_embedding_side w2 w3 -> same_embedding_side w1 w3.
Proof.
  intros [Hm1 Hl1] [Hm2 Hl2]. split; [congruence|].
  intros k. by rewrite Hl2, Hl1.
Qed.

Lemma r_unload_same e w : same_embedding_side w (r_unload_model e w).
Proof. unfold r_unload_model. by destruct (negb _). Qed.

Lemma r_manage_same k w : same_embedding_side w (r_manage_memory k w).
Proof.
  unfold r_manage_memory. destruct (_ <=? _)%nat; [|done].
  destruct (List.filter _ _); [done|]. apply r_unload_same.
Qed.

Lemma rm_load_same E k w : same_embedding_side w (fst (rm_load E k w)).
Proof.
  unfold rm_load, call_load.
  destruct (eng_load E k _) as [h b|e]; [|done].
  by destruct (eng_token_ids E h).
Qed.

Lemma r_warmup_same E k w : same_embedding_side w (r_warmup E k w).
Proof.
  unfold r_warmup. destruct (OD.get _ _); [|done]. by destruct (_ !! _).
Qed.

Lemma r_load_model_same E ident w : same_embedding_side w (fst (r_load_model E ident w)).
Proof.
  unfold r_load_model. destruct (r_resolve_model_name ident) as [k|e]; [|done].
  destruct (r_is_ready k _); [done|].
  match goal with |- context [rm_load E k ?w1] =>
    assert (H1 : same_embedding_side w w1);
    [eapply same_embedding_side_trans; [|apply r_manage_same]; done|];
    pose proof (rm_load_same E k w1) as H2;
    destruct (rm_load E k w1) as [w2 [e|]] end; simpl in *.
  - eapply same_embedding_side_trans; [exact H1|].
    eapply same_embedding_side_trans; [exact H2|]. done.
  - eapply same_embedding_side_trans; [exact H1|].
    eapply same_embedding_side_trans; [exact H2|].
    eapply same_embedding_side_trans; [apply (r_warmup_same E k)|]. done.
Qed.

Lemma score_documents_same E h ids ml q ins idx docs w :
  same_embedding_side w (fst (score_documents E h ids ml q ins idx docs w)).
Proof.
  revert idx w. induction docs as [|d r IH]; intros idx w; simpl; [done|].
  unfold score_document.
  destruct (eng_score E h _ ids) as [sc|x];
    match goal with |- context [score_documents E h ids ml q ins (S idx) r ?w1] =>
      specialize (IH (S idx) w1);
      destruct (score_documents E h ids ml q ins (S idx) r w1) as [w2 rs] end;
    simpl in *; (eapply same_embedding_side_trans; [|exact IH]); done.
Qed.

Lemma rerank_same E q docs ident ins top_k w :
  same_embedding_side w (fst (rerank E q docs ident ins top_k w)).
Proof.
  unfold rerank. pose proof (r_load_model_same E ident w) as Hl.
  destruct (r_load_model E ident w) as [w1 [k|e]]; simpl in Hl; [|done].
  destruct docs as [|d r]; [done|].
  destruct (OD.get k _) as [h|]; [|done].
  destruct (_ !! k) as [ids|]; [|done].
  destruct (OD.get k AVAILABLE_RERANKER_MODELS) as [info|]; [|done].
  match goal with |- context [score_documents E h ids ?ml q ins 0 (d :: r) ?w2] =>
    pose proof (score_documents_same E h ids ml q ins 0%nat (d :: r) w2) as Hs;
    destruct (score_documents E h ids ml q ins 0 (d :: r) w2) as [w3 rs] end.
  simpl in *. eapply same_embedding_side_trans; [|exact Hs]. done.
Qed.

(** ** The size of the embedding cache *)

Lemma unload_model_cache k w :
  cache_of (_unload_model k w) = cache_of w
  \/ cache_of (_unload_model k w) = purge_cache k (cache_of w).
Proof.
  unfold cache_of.
  destruct (OD.mem k (models (model_manager w))) eqn:Hm.
  - right. by rewrite unload_model_mm.
  - left. by rewrite unload_model_absent.
Qed.

Lemma unload_model_cache_size k w :
  (size (cache_of (_unload_model k w)) <= size (cache_of w))%nat.
Proof.
  destruct (unload_model_cache k w) as [->| ->]; [lia|apply size_purge_cache].
Qed.

Lemma manage_memory_cache_size k w :
  (size (cache_of (_manage_memory k w)) <= size (cache_of w))%nat.
Proof.
  rewrite manage_memory_victim. destruct (victim _ _); [|lia].
  apply unload_model_cache_size.
Qed.

Lemma load_model_cache_size E ident w :
  (size (cache_of (fst (load_model E ident w))) <= size (cache_of w))%nat.
Proof.
  destruct (_resolve_model_name (config (model_manager w)) ident) as [k|e] eqn:Hres.
  2: { rewrite (load_model_unknown E ident w e) by done. simpl. lia. }
  destruct (is_ready k (model_manager w)) eqn:Hr.
  { rewrite (load_model_fast E ident w k) by done. simpl. lia. }
  destruct (load_model_outcome E ident w k Hres Hr) as [[h (_ & _ & Hm)]|[e (_ & _ & Hm)]];
    unfold cache_of at 1; rewrite Hm; simpl;
    apply (manage_memory_cache_size k
             (begin_load k (on_mm (set_locks (ensure_lock k)) w))).
Qed.

Lemma embed_texts_cache_bounded E k h nz texts w :
  cache_bounded w -> cache_bounded (fst (embed_texts E k h nz texts w)).
Proof.
  revert w. induction texts as [|t r IH]; intros w Hb; simpl; [done|].
  destruct (_embedding_cache (model_manager w) !! fingerprint k t nz) as [e|] eqn:Hc.
  - specialize (IH (emit (EvCacheHit k t (clock w)) w) Hb).
    by destruct (embed_texts E k h nz r _) as [w' [es|x]].
  - destruct (eng_embed _ _ _ _ _) as [e|x]; [|done].
    match goal with |- context [embed_texts E k h nz r ?w1] =>
      specialize (IH w1); destruct (embed_texts E k h nz r w1) as [w' [es|x]] end;
      apply IH; unfold cache_bounded, cache_of; simpl; by apply size_cache_put.
Qed.

(** At capacity the whole loop leaves the cache as it found it. *)
Lemma embed_texts_cache_full E k h nz texts w :
  (CACHE_CAPACITY <= size (cache_of w))%nat ->
  cache_of (fst (embed_texts E k h nz texts w)) = cache_of w.
Proof.
  revert w. induction texts as [|t r IH]; intros w Hfull; simpl; [done|].
  destruct (_embedding_cache (model_manager w) !! fingerprint k t nz) as [e|] eqn:Hc.
  - specialize (IH (emit (EvCacheHit k t (clock w)) w) Hfull).
    by destruct (embed_texts E k h nz r _) as [w' [es|x]].
  - destruct (eng_embed _ _ _ _ _) as [e|x]; [|done].
    match goal with |- context [embed_texts E k h nz r ?w1] =>
      assert (Hsame : cache_of w1 = cache_of w)
        by (unfold cache_of; simpl; by apply cache_put_full);
      specialize (IH w1); destruct (embed_texts E k h nz r w1) as [w' [es|x]] end;
      simpl in *; rewrite IH; rewrite ?Hsame; done.
Qed.

Lemma generate_embeddings_cache_bounded E texts ident nz w :
  cache_bounded w -> cache_bounded (fst (generate_embeddings E texts ident nz w)).
Proof.
  intros Hb. unfold generate_embeddings.
  pose proof (load_model_cache_size E ident w) as Hl.
  destruct (load_model E ident w) as [w1 [k|e]]; simpl in Hl.
  2: { unfold cache_bounded in *. simpl. lia. }
  assert (Hb1 : cache_bounded (_update_last_used k w1))
    by (unfold cache_bounded, cache_of in *; simpl; lia).
  destruct (negb _); [done|].
  destruct texts as [|t r].
  { by destruct (OD.get k AVAILABLE_MODELS). }
  destruct (OD.get k (models _)) as [h|]; [|done].
  destruct (OD.get k AVAILABLE_MODELS); [|done].
  pose proof (embed_texts_cache_bounded E k h nz (t :: r) _ Hb1) as He.
  by destruct (embed_texts E k h nz (t :: r) _) as [w' [es|x]].
Qed.

Lemma ttl_check_cache_size w :
  (size (cache_of (ttl_check w)) <= size (cache_of w))%nat.
Proof.
  unfold ttl_check. generalize (models_to_unload w). intros l.
  revert w. induction l as [|it l IH]; intros w; simpl; [lia|].
  etransitivity; [apply IH|].
  unfold unload_idle, cache_of. simpl. apply unload_model_cache_size.
Qed.

Lemma exec_cache_bounded E o w : cache_bounded w -> cache_bounded (exec E o w).
Proof.
  intros Hb. destruct o as [ident|texts ident nz|q docs ident ins top_k|late|d]; simpl.
  - pose proof (load_model_cache_size E ident w). unfold cache_bounded in *. lia.
  - by apply generate_embeddings_cache_bounded.
  - unfold cache_bounded, cache_of.
    by rewrite (proj1 (rerank_same E q docs ident ins top_k w)).
  - unfold ttl_iteration. destruct (0 <? _); [|done].
    match goal with |- cache_bounded (ttl_check ?w1) =>
      pose proof (ttl_check_cache_size w1) as Ht end.
    unfold cache_bounded, cache_of in *. simpl in *. lia.
  - done.
Qed.

Lemma run_invariant (P : World -> Prop) E :
  (forall o w, P w -> P (exec E o w)) ->
  forall ops w, P w -> P (run E ops w).
Proof.
  intros Hstep ops. induction ops as [|o ops IH]; intros w Hw; simpl; [done|].
  apply IH. by apply Hstep.
Qed.

(** C4. The embedding cache never holds more than 1000 entries: in every
    world that a run of requests and idle checks reaches from a fresh
    server, the cache has at most 1000 entries; a put inserts exactly
    when the size is strictly below 1000, and at 1000 entries a put, and
    with it the whole scoring loop of a request, leaves the cache as it
    was. *)
Theorem cache_never_exceeds_capacity (E : Engine) (cfg : ServerConfig) (t0 : Z)
    (ops : list Op) :
  let w := run E ops (World_init cfg t0) in
  (size (cache_of w) <= 1000)%nat
  /\ (forall key e, (size (cache_of w) < 1000)%nat ->
        cache_put key e (cache_of w) = <[key := e]> (cache_of w))
  /\ (forall key e, (1000 <= size (cache_of w))%nat ->
        cache_put key e (cache_of w) = cache_of w)
  /\ (forall k h nz texts, (1000 <= size (cache_of w))%nat ->
        cache_of (fst (embed_texts E k h nz texts w)) = cache_of w).
Proof.
  intros w. split; [|split; [|split]].
  - apply (run_invariant cache_bounded E); [apply exec_cache_bounded|].
    unfold cache_bounded, cache_of. simpl. rewrite map_size_empty.
    unfold CACHE_CAPACITY. lia.
  - intros key e Hlt. by apply cache_put_room.
  - intros key e Hge. by apply cache_put_full.
  - intros k h nz texts Hge. by apply embed_texts_cache_full.
Qed.

Lemma cache_never_exceeds_capacity_witness :
  (1000 <= size (cache_of (run sample_engine [OpEmbed thousand_texts None true]
                             (World_init default_config 100))))%nat
  /\ cache_put "k:late:True" [7]
       (cache_of (run sample_engine [OpEmbed thousand_texts None true]
                    (World_init default_config 100)))
     = cache_of (run sample_engine [OpEmbed thousand_texts None true]
                   (World_init default_config 100)).
Proof.
  assert (Hfull : (1000 <= size (cache_of
            (run sample_engine [OpEmbed thousand_texts None true]
               (World_init default_config 100))))%nat).
  { apply Nat.leb_le. vm_compute. reflexivity. }
  split; [exact Hfull|].
  pose proof (cache_never_exceeds_capacity sample_engine default_config 100
           [OpEmbed thousand_texts None true]) as H.
  cbv zeta in H. destruct H as (_ & _ & H & _).
  exact (H _ _ Hfull).
Defined.

(** ** Eviction and the cache *)

Lemma fingerprint_prefix k text nz :
  fingerprint k text nz = (k +:+ ":") +:+ (text +:+ ":" +:+ PyStr.of_bool nz).
Proof. unfold fingerprint. by rewrite app_assoc_str. Qed.

Lemma fingerprint_startswith_own k text nz :
  PyStr.startswith (fingerprint k text nz) (k +:+ ":") = true.
Proof. rewrite fingerprint_prefix. apply startswith_app. Qed.


Lemma catalog_keys_colon_free k :
  OD.mem k AVAILABLE_MODELS = true -> PyStr.contains_char ":"%char k = false.
Proof.
  intros H. apply od_mem_keys in H. simpl in H.
  destruct H as [<-|[<-|[<-|[<-|[]]]]]; reflexivity.
Qed.



(** ** Capacity eviction *)

Lemma load_model_ok_inv E ident w k :
  snd (load_model E ident w) = Ok k ->
  _resolve_model_name (config (model_manager w)) ident = Ok k.
Proof.
  destruct (_resolve_model_name (config (model_manager w)) ident) as [k'|e] eqn:Hres.
  2: { by rewrite (load_model_unknown E ident w e). }
  destruct (is_ready k' (model_manager w)) eqn:Hr.
  { rewrite (load_model_fast E ident w k') by done. simpl. congruence. }
  destruct (load_model_outcome E ident w k' Hres Hr)
    as [[h (_ & Hs & _)]|[e (_ & Hs & _)]]; rewrite Hs; congruence.
Qed.

(** A successful load on the slow path: the manager it leaves. *)
Lemma load_model_ok_slow E ident w k :
  snd (load_model E ident w) = Ok k ->
  is_ready k (model_manager w) = false ->
  exists h t lt,
    model_manager (fst (load_model E ident w))
    = set_last_used (OD.set k t)
        (set_model_status (insert k READY)
           (set_model_load_times (insert k lt)
              (set_models (OD.set k h)
                 (model_manager
                    (_manage_memory k
                       (begin_load k (on_mm (set_locks (ensure_lock k)) w))))))).
Proof.
  intros Hok Hnr. pose proof (load_model_ok_inv _ _ _ _ Hok) as Hres.
  destruct (load_model_outcome E ident w k Hres Hnr)
    as [[h (_ & _ & Hm)]|[e (_ & Hs & _)]]; [|congruence].
  by eexists h, _, _.
Qed.

Lemma victim_below_capacity k m :
  (length (models m) < max_loaded_models m)%nat -> victim k m = None.
Proof.
  intros Hlt. unfold victim.
  by destruct (Nat.leb_spec (max_loaded_models m) (length (models m))); [lia|].
Qed.

(** A successful load on the slow path, field by field. *)
Lemma load_model_ok_fields E ident w k :
  snd (load_model E ident w) = Ok k ->
  is_ready k (model_manager w) = false ->
  exists h,
    models (model_manager (fst (load_model E ident w)))
    = OD.set k h
        (match victim k (model_manager w) with
         | Some e => OD.del e (models (model_manager w))
         | None => models (model_manager w)
         end)
    /\ model_status (model_manager (fst (load_model E ident w)))
       = <[k := READY]>
           (match victim k (model_manager w) with
            | Some e => <[e := UNLOADED]> (<[k := LOADING]> (model_status (model_manager w)))
            | None => <[k := LOADING]> (model_status (model_manager w))
            end)
    /\ max_loaded_models (model_manager (fst (load_model E ident w)))
       = max_loaded_models (model_manager w).
Proof.
  intros Hok Hnr.
  destruct (load_model_ok_slow E ident w k Hok Hnr) as (h & t & lt & Hm).
  exists h. rewrite Hm. simpl. rewrite manage_memory_victim.
  change (victim k (model_manager (begin_load k (on_mm (set_locks (ensure_lock k)) w))))
    with (victim k (model_manager w)).
  destruct (victim k (model_manager w)) as [e|] eqn:Hv; [|done].
  apply victim_resident in Hv as [He _].
  rewrite unload_model_mm by done. done.
Qed.

(** ** Operations that do not concern a key leave it alone *)

Lemma untouched_refl k w :
  OD.get k (models (model_manager w)) = None -> untouched k w w.
Proof. by intros H. Qed.

Lemma untouched_trans k w1 w2 w3 :
  untouched k w1 w2 -> untouched k w2 w3 -> untouched k w1 w3.
Proof.
  intros (_ & Hs1 & Hl1 & Hc1) (Hp & Hs2 & Hl2 & Hc2).
  repeat split; congruence.
Qed.

Lemma od_get_del_None {V} (d : list (string * V)) k e :
  OD.get k d = None -> OD.get k (OD.del e d) = None.
Proof.
  intros H. apply od_get_None_keys. intros Hin.
  apply od_keys_del_incl in Hin. by apply od_get_None_keys in H.
Qed.

Lemma od_mem_get {V} (d : list (string * V)) k :
  OD.mem k d = true -> OD.get k d <> None.
Proof. unfold OD.mem. by destruct (OD.get k d). Qed.

Lemma unload_untouched k e w :
  OD.get k (models (model_manager w)) = None -> untouched k w (_unload_model e w).
Proof.
  intros Hk. destruct (OD.mem e (models (model_manager w))) eqn:He.
  2: { rewrite unload_model_absent by done. by apply untouched_refl. }
  assert (e <> k) by (intros ->; by apply od_mem_get in He).
  unfold untouched. rewrite unload_model_mm by done. simpl.
  split; [by apply od_get_del_None|]. split; [by rewrite lookup_insert_ne|].
  split; [|done].
  unfold _unload_model. rewrite He. simpl. done.
Qed.

Lemma manage_untouched k k' w :
  OD.get k (models (model_manager w)) = None -> untouched k w (_manage_memory k' w).
Proof.
  intros Hk. rewrite manage_memory_victim. destruct (victim _ _).
  - by apply unload_untouched.
  - by apply untouched_refl.
Qed.

Lemma warmup_texts_loads k k' E h texts w :
  loads_of k (warmup_texts E k' h texts w) = loads_of k w.
Proof.
  revert w. induction texts as [|t r IH]; intros w; simpl; [done|].
  destruct (eng_embed _ _ _ _ _); [|done].
  by rewrite IH.
Qed.

Lemma warmup_loads k k' E w : loads_of k (_warmup E k' w) = loads_of k w.
Proof.
  unfold _warmup. destruct (OD.get _ _); [|done]. apply warmup_texts_loads.
Qed.

Lemma mm_load_untouched E k k' w :
  k' <> k ->
  OD.get k (models (model_manager w)) = None ->
  untouched k w (fst (mm_load E k' w)).
Proof.
  intros Hne Hk. assert (String.eqb k k' = false) as Hb by by apply String.eqb_neq.
  destruct (mm_load_cases E k' w) as [[h [_ ->]]|[e [-> _]]]; unfold untouched; simpl.
  - rewrite od_get_set_ne by done. repeat split; try done.
    unfold loads_of, family_loads_of, count_events. simpl. by rewrite Hb.
  - repeat split; try done.
    unfold loads_of, family_loads_of, count_events. simpl. by rewrite Hb.
Qed.

Lemma load_model_untouched E ident k w :
  _resolve_model_name (config (model_manager w)) ident <> Ok k ->
  OD.get k (models (model_manager w)) = None ->
  untouched k w (fst (load_model E ident w)).
Proof.
  intros Hres Hk.
  destruct (_resolve_model_name (config (model_manager w)) ident) as [k'|e] eqn:Hr.
  2: { rewrite (load_model_unknown E ident w e) by done. by apply untouched_refl. }
  assert (Hne : k' <> k) by congruence.
  destruct (is_ready k' (model_manager w)) eqn:Hrd.
  { rewrite (load_model_fast E ident w k') by done. by apply untouched_refl. }
  rewrite (load_model_slow E ident w k') by done.
  set (wb := begin_load k' (on_mm (set_locks (ensure_lock k')) w)).
  assert (Hb : untouched k w wb).
  { unfold untouched, wb. simpl. by rewrite lookup_insert_ne. }
  assert (Hm : untouched k w (_manage_memory k' wb)).
  { eapply untouched_trans; [exact Hb|]. apply manage_untouched. apply Hb. }
  assert (Hl : untouched k w (fst (mm_load E k' (_manage_memory k' wb)))).
  { eapply untouched_trans; [exact Hm|]. apply mm_load_untouched; [done|apply Hm]. }
  destruct (mm_load E k' (_manage_memory k' wb)) as [w2 [e|]]; simpl in *.
  - destruct Hl as (H1 & H2 & H3 & H4). unfold untouched. simpl.
    by rewrite lookup_insert_ne.
  - destruct Hl as (H1 & H2 & H3 & H4). unfold untouched. simpl.
    rewrite !warmup_mm. rewrite lookup_insert_ne by done.
    repeat split; try done.
    change (loads_of k (_warmup E k' w2) = loads_of k w).
    by rewrite warmup_loads.
Qed.

Lemma embed_texts_untouched E k k' h nz texts w :
  OD.get k (models (model_manager w)) = None ->
  untouched k w (fst (embed_texts E k' h nz texts w)).
Proof.
  revert w. induction texts as [|t r IH]; intros w Hk; simpl.
  { by apply untouched_refl. }
  destruct (_embedding_cache (model_manager w) !! fingerprint k' t nz) as [e|] eqn:Hc.
  - specialize (IH (emit (EvCacheHit k' t (clock w)) w) Hk).
    by destruct (embed_texts E k' h nz r _) as [w' [es|x]].
  - destruct (eng_embed _ _ _ _ _) as [e|x]; [|by repeat split].
    match goal with |- context [embed_texts E k' h nz r ?w1] =>
      specialize (IH w1 Hk); destruct (embed_texts E k' h nz r w1) as [w' [es|x]] end;
      exact IH.
Qed.

Lemma generate_embeddings_untouched E texts ident nz k w :
  _resolve_model_name (config (model_manager w)) ident <> Ok k ->
  OD.get k (models (model_manager w)) = None ->
  untouched k w (fst (generate_embeddings E texts ident nz w)).
Proof.
  intros Hres Hk. unfold generate_embeddings.
  pose proof (load_model_untouched E ident k w Hres Hk) as Hl.
  destruct (load_model E ident w) as [w1 [k'|e]]; simpl in Hl; [|done].
  assert (Hu : untouched k w (_update_last_used k' w1)) by exact Hl.
  destruct (negb _); [done|].
  destruct texts as [|t r].
  { by destruct (OD.get k' AVAILABLE_MODELS). }
  destruct (OD.get k' (models _)) as [h|]; [|done].
  destruct (OD.get k' AVAILABLE_MODELS); [|done].
  assert (He : untouched k w
                 (fst (embed_texts E k' h nz (t :: r) (_update_last_used k' w1)))).
  { eapply untouched_trans; [exact Hu|]. apply embed_texts_untouched. apply Hu. }
  by destruct (embed_texts E k' h nz (t :: r) _) as [w' [es|x]].
Qed.

Lemma ttl_check_untouched k w :
  OD.get k (models (model_manager w)) = None -> untouched k w (ttl_check w).
Proof.
  unfold ttl_check. generalize (models_to_unload w). intros l.
  assert (Hgen : forall w0, untouched k w w0 -> untouched k w (fold_left unload_idle l w0)).
  { induction l as [|it l IH]; intros w0 H0; simpl; [done|].
    apply IH. eapply untouched_trans; [exact H0|].
    pose proof (unload_untouched k (fst it) w0 (proj1 H0)) as Hu.
    exact Hu. }
  intros Hk. apply Hgen. by apply untouched_refl.
Qed.

Lemma exec_untouched E o k w :
  op_key (config (model_manager w)) o <> Some k ->
  OD.get k (models (model_manager w)) = None ->
  untouched k w (exec E o w).
Proof.
  intros Hkey Hk. destruct o as [ident|texts ident nz|q docs ident ins top_k|late|d];
    simpl in *.
  - apply load_model_untouched; [|done].
    intros Hr. by rewrite Hr in Hkey.
  - apply generate_embeddings_untouched; [|done].
    intros Hr. by rewrite Hr in Hkey.
  - destruct (rerank_same E q docs ident ins top_k w) as [Hm Hl].
    unfold untouched. by rewrite Hm, Hl.
  - unfold ttl_iteration. destruct (0 <? _); [|by apply untouched_refl].
    match goal with |- untouched k w (ttl_check ?w1) =>
      apply (untouched_trans k w w1); [by repeat split|by apply ttl_check_untouched]
    end.
  - by repeat split.
Qed.

Lemma run_untouched E ops k w :
  Forall (fun o => op_key (config (model_manager w)) o <> Some k) ops ->
  OD.get k (models (model_manager w)) = None ->
  untouched k w (run E ops w).
Proof.
  revert w. induction ops as [|o ops IH]; intros w Hall Hk; simpl.
  { by apply untouched_refl. }
  apply Forall_cons in Hall as [Ho Hall].
  pose proof (exec_untouched E o k w Ho Hk) as H1.
  eapply untouched_trans; [exact H1|].
  apply IH; [|apply H1].
  destruct H1 as (_ & _ & _ & ->). done.
Qed.

(** ** Resident models are READY *)

Lemma od_mem_del_inv {V} (d : list (string * V)) k e :
  NoDup (OD.keys d) -> OD.mem k (OD.del e d) = true -> k <> e /\ OD.mem k d = true.
Proof.
  intros Hnd Hm. split.
  - intros ->. apply od_mem_get in Hm. by rewrite od_get_del_eq in Hm.
  - apply od_mem_keys. apply od_mem_keys in Hm. by apply od_keys_del_incl in Hm.
Qed.

Lemma od_mem_set_inv {V} (d : list (string * V)) k k' (v : V) :
  OD.mem k (OD.set k' v d) = true -> k = k' \/ OD.mem k d = true.
Proof.
  intros Hm. apply od_mem_keys, od_keys_set_incl in Hm as [?|?]; [by left|].
  right. by apply od_mem_keys.
Qed.

Lemma unload_slots_ok e w : slots_ok w -> slots_ok (_unload_model e w).
Proof.
  intros [Hnd Hco]. destruct (OD.mem e (models (model_manager w))) eqn:He.
  2: { by rewrite unload_model_absent. }
  unfold slots_ok. rewrite unload_model_mm by done. simpl. split.
  - by apply od_NoDup_del.
  - intros k Hk. apply od_mem_del_inv in Hk as [Hne Hk]; [|done].
    rewrite lookup_insert_ne by done. by apply Hco.
Qed.

Lemma manage_slots_ok k w : slots_ok w -> slots_ok (_manage_memory k w).
Proof.
  intros H. rewrite manage_memory_victim. destruct (victim _ _); [|done].
  by apply unload_slots_ok.
Qed.

Lemma not_ready_absent k w :
  slots_ok w -> is_ready k (model_manager w) = false ->
  OD.get k (models (model_manager w)) = None.
Proof.
  intros [_ Hco] Hnr. unfold is_ready in Hnr.
  destruct (OD.mem k (models (model_manager w))) eqn:Hm.
  - rewrite (Hco k Hm) in Hnr. done.
  - unfold OD.mem in Hm. by destruct (OD.get k _).
Qed.

Lemma load_model_slots_ok E ident w : slots_ok w -> slots_ok (fst (load_model E ident w)).
Proof.
  intros Hok.
  destruct (_resolve_model_name (config (model_manager w)) ident) as [k|e] eqn:Hres.
  2: { by rewrite (load_model_unknown E ident w e). }
  destruct (is_ready k (model_manager w)) eqn:Hr.
  { by rewrite (load_model_fast E ident w k). }
  pose proof (not_ready_absent k w Hok Hr) as Habs.
  set (wb := begin_load k (on_mm (set_locks (ensure_lock k)) w)).
  assert (Hwb : slots_ok wb).
  { destruct Hok as [Hnd Hco]. split; [exact Hnd|].
    intros j Hj. unfold wb. simpl.
    assert (j <> k) by (intros ->; by apply od_mem_get in Hj).
    rewrite lookup_insert_ne by done. by apply Hco. }
  pose proof (manage_slots_ok k wb Hwb) as [Hnd Hco].
  assert (Hk : OD.get k (models (model_manager (_manage_memory k wb))) = None).
  { apply (manage_untouched k k wb). exact Habs. }
  destruct (load_model_outcome E ident w k Hres Hr)
    as [[h (_ & _ & Hm)]|[e (_ & _ & Hm)]]; fold wb in Hm;
    unfold slots_ok; rewrite Hm; simpl.
  - split; [by apply od_NoDup_set|].
    intros j Hj. apply od_mem_set_inv in Hj as [->|Hj].
    + by rewrite lookup_insert_eq.
    + assert (j <> k) by (intros ->; by apply od_mem_get in Hj).
      rewrite lookup_insert_ne by done. by apply Hco.
  - split; [done|].
    intros j Hj. assert (j <> k) by (intros ->; by apply od_mem_get in Hj).
    rewrite lookup_insert_ne by done. by apply Hco.
Qed.

Lemma embed_texts_slots E k h nz texts w :
  models (model_manager (fst (embed_texts E k h nz texts w))) = models (model_manager w)
  /\ model_status (model_manager (fst (embed_texts E k h nz texts w)))
     = model_status (model_manager w).
Proof.
  revert w. induction texts as [|t r IH]; intros w; simpl; [done|].
  destruct (_embedding_cache (model_manager w) !! fingerprint k t nz) as [e|] eqn:Hc.
  - specialize (IH (emit (EvCacheHit k t (clock w)) w)).
    by destruct (embed_texts E k h nz r _) as [w' [es|x]].
  - destruct (eng_embed _ _ _ _ _) as [e|x]; [|done].
    match goal with |- context [embed_texts E k h nz r ?w1] =>
      specialize (IH w1); destruct (embed_texts E k h nz r w1) as [w' [es|x]] end;
      exact IH.
Qed.

Lemma generate_embeddings_slots_ok E texts ident nz w :
  slots_ok w -> slots_ok (fst (generate_embeddings E texts ident nz w)).
Proof.
  intros Hok. unfold generate_embeddings.
  pose proof (load_model_slots_ok E ident w Hok) as Hl.
  destruct (load_model E ident w) as [w1 [k|e]]; simpl in Hl; [|done].
  assert (Hu : slots_ok (_update_last_used k w1)) by exact Hl.
  destruct (negb _); [done|].
  destruct texts as [|t r].
  { by destruct (OD.get k AVAILABLE_MODELS). }
  destruct (OD.get k (models _)) as [h|]; [|done].
  destruct (OD.get k AVAILABLE_MODELS); [|done].
  pose proof (embed_texts_slots E k h nz (t :: r) (_update_last_used k w1)) as [Hm Hs].
  destruct (embed_texts E k h nz (t :: r) _) as [w' [es|x]]; simpl in *;
    unfold slots_ok; rewrite Hm, Hs; exact Hu.
Qed.

Lemma unload_idle_slots_ok w it : slots_ok w -> slots_ok (unload_idle w it).
Proof. intros H. apply (unload_slots_ok (fst it)) in H. exact H. Qed.

Lemma ttl_check_slots_ok w : slots_ok w -> slots_ok (ttl_check w).
Proof.
  unfold ttl_check. generalize (models_to_unload w). intros l. revert w.
  induction l as [|it l IH]; intros w H; simpl; [done|].
  apply IH. by apply unload_idle_slots_ok.
Qed.

Lemma exec_slots_ok E o w : slots_ok w -> slots_ok (exec E o w).
Proof.
  intros H. destruct o as [ident|texts ident nz|q docs ident ins top_k|late|d]; simpl.
  - by apply load_model_slots_ok.
  - by apply generate_embeddings_slots_ok.
  - unfold slots_ok. by rewrite (proj1 (rerank_same E q docs ident ins top_k w)).
  - unfold ttl_iteration. destruct (0 <? _); [|done]. by apply ttl_check_slots_ok.
  - done.
Qed.

Lemma init_slots_ok cfg t0 : slots_ok (World_init cfg t0).
Proof. split; [apply NoDup_nil_2|]. intros k Hk. done. Qed.

Lemma run_slots_ok E cfg t0 ops : slots_ok (run E ops (World_init cfg t0)).
Proof. apply run_invariant; [apply exec_slots_ok|apply init_slots_ok]. Qed.

(** ** A failed load *)

Lemma unload_count_loads e w :
  count_events is_load (_unload_model e w) = count_events is_load w.
Proof. unfold _unload_model. by destruct (negb _). Qed.

Lemma manage_count_loads k w :
  count_events is_load (_manage_memory k w) = count_events is_load w.
Proof.
  rewrite manage_memory_victim. destruct (victim _ _); [|done].
  apply unload_count_loads.
Qed.

(** The slow path calls [load] once, whatever comes of it. *)
Lemma load_model_slow_loads E ident w k :
  _resolve_model_name (config (model_manager w)) ident = Ok k ->
  is_ready k (model_manager w) = false ->
  OD.get k (models (model_manager w)) = None ->
  loads_of k (fst (load_model E ident w)) = S (loads_of k w).
Proof.
  intros Hres Hnr Habs. rewrite (load_model_slow E ident w k) by done.
  set (wb := begin_load k (on_mm (set_locks (ensure_lock k)) w)).
  assert (Hl : loads_of k (_manage_memory k wb) = loads_of k w).
  { apply (manage_untouched k k wb). exact Habs. }
  destruct (mm_load_cases E k (_manage_memory k wb)) as [[h [_ ->]]|[e [-> _]]]; simpl.
  - change (loads_of k (_warmup E k (store_model k h
              (fst (call_load E Embedding k (_manage_memory k wb))))) = S (loads_of k w)).
    rewrite warmup_loads. unfold loads_of, family_loads_of, count_events in *. simpl.
    rewrite String.eqb_refl. simpl. by rewrite Hl.
  - unfold loads_of, family_loads_of, count_events in *. simpl.
    rewrite String.eqb_refl. simpl. by rewrite Hl.
Qed.

Lemma load_model_ok_ready E ident w k :
  slots_ok w ->
  snd (load_model E ident w) = Ok k ->
  is_ready k (model_manager (fst (load_model E ident w))) = true.
Proof.
  intros Hok Hr. pose proof (load_model_ok_inv _ _ _ _ Hr) as Hres.
  destruct (is_ready k (model_manager w)) eqn:Hrd.
  { by rewrite (load_model_fast E ident w k). }
  destruct (load_model_ok_fields E ident w k Hr Hrd) as (h & Hm & Hs & _).
  unfold is_ready, OD.mem. rewrite Hm, Hs, od_get_set_eq, lookup_insert_eq. done.
Qed.

(** C3. When the underlying load fails in [load_model] for key [k]: the
    status of [k] becomes ERROR, no handle is stored for [k], the caller
    gets a RuntimeError that wraps the cause, and [load] was called once
    (no retry).  The slot then stays ERROR, without any further load of
    [k], through every request for other keys, idle check and wait; and
    the next [load_model] for [k] takes the slot from ERROR to LOADING
    and calls [load] again, ending READY when it succeeds. *)
Theorem load_failure_marks_error (E : Engine) (cfg : ServerConfig) (t0 : Z)
    (ops : list Op) (ident : option string) (k : string) :
  let w := run E ops (World_init cfg t0) in
  _resolve_model_name (config (model_manager w)) ident = Ok k ->
  is_ready k (model_manager w) = false ->
  (forall h, eng_load E k (count_events is_load w) <> Loaded h true) ->
  let w' := fst (load_model E ident w) in
  model_status (model_manager w') !! k = Some ERROR
  /\ OD.get k (models (model_manager w')) = None
  /\ (exists e,
        snd (load_model E ident w)
        = Raise (RuntimeErrorFrom ("Model loading failed: " +:+ exc_str e) e)
        /\ (eng_load E k (count_events is_load w) = LoadRaises e
            \/ exists h, eng_load E k (count_events is_load w) = Loaded h false
                         /\ e = ValueError
                              "Invalid model architecture: missing 'model' attribute"))
  /\ loads_of k w' = S (loads_of k w)
  /\ (forall ops',
        Forall (fun o => op_key (config (model_manager w')) o <> Some k) ops' ->
        let w2 := run E ops' w' in
        model_status (model_manager w2) !! k = Some ERROR
        /\ OD.get k (models (model_manager w2)) = None
        /\ loads_of k w2 = loads_of k w'
        /\ load_step embedding_ops E (InModelLock k) w2
           = Some (AtManage k (clock w2), begin_load k w2)
        /\ model_status (model_manager (begin_load k w2)) !! k = Some LOADING
        /\ forall ident',
             _resolve_model_name (config (model_manager w2)) ident' = Ok k ->
             loads_of k (fst (load_model E ident' w2)) = S (loads_of k w2)
             /\ (snd (load_model E ident' w2) = Ok k ->
                 is_ready k (model_manager (fst (load_model E ident' w2))) = true)).
Proof.
  intros w Hres Hnr Hfail w'.
  pose proof (run_slots_ok E cfg t0 ops) as Hok. fold w in Hok.
  pose proof (not_ready_absent k w Hok Hnr) as Habs.
  pose proof (load_model_slots_ok E ident w Hok) as Hok'. fold w' in Hok'.
  set (wb := begin_load k (on_mm (set_locks (ensure_lock k)) w)).
  assert (Hn : count_events is_load (_manage_memory k wb) = count_events is_load w)
    by (by rewrite manage_count_loads).
  assert (Hkm : OD.get k (models (model_manager (_manage_memory k wb))) = None).
  { apply (manage_untouched k k wb). exact Habs. }
  destruct (load_model_outcome E ident w k Hres Hnr)
    as [[h (Hl & _ & _)]|[e (Hl & Hs & Hm)]]; fold wb in Hl; rewrite Hn in Hl.
  { exfalso. by apply (Hfail h). }
  fold wb in Hm. fold w' in Hm.
  assert (Hst : model_status (model_manager w') !! k = Some ERROR).
  { rewrite Hm. simpl. by rewrite lookup_insert_eq. }
  assert (Hab' : OD.get k (models (model_manager w')) = None).
  { rewrite Hm. simpl. exact Hkm. }
  split; [exact Hst|]. split; [exact Hab'|].
  split; [by exists e|].
  split; [by apply load_model_slow_loads|].
  intros ops' Hall w2.
  pose proof (run_untouched E ops' k w' Hall Hab') as (Hk2 & Hs2 & Hl2 & Hc2).
  fold w2 in Hk2, Hs2, Hl2, Hc2.
  assert (Hnr2 : is_ready k (model_manager w2) = false).
  { unfold is_ready, OD.mem. by rewrite Hk2. }
  assert (Hok2 : slots_ok w2).
  { apply run_invariant; [apply exec_slots_ok|exact Hok']. }
  split; [by rewrite Hs2|]. split; [exact Hk2|]. split; [exact Hl2|].
  split.
  { simpl. unfold op_is_ready. simpl. fold (is_ready k (model_manager w2)).
    by rewrite Hnr2. }
  split; [simpl; by rewrite lookup_insert_eq|].
  intros ident' Hres'. split.
  - by apply load_model_slow_loads.
  - by apply load_model_ok_ready.
Qed.

Lemma load_failure_marks_error_witness :
  model_status
    (model_manager
       (fst (load_model failing_engine None
               (run failing_engine [] (World_init default_config 100)))))
    !! DEFAULT_MODEL = Some ERROR.
Proof.
  assert (Hres : _resolve_model_name
                   (config (model_manager
                      (run failing_engine [] (World_init default_config 100)))) None
                 = Ok DEFAULT_MODEL) by reflexivity.
  assert (Hnr : is_ready DEFAULT_MODEL
                  (model_manager (run failing_engine [] (World_init default_config 100)))
                = false) by reflexivity.
  assert (Hfail : forall h,
             eng_load failing_engine DEFAULT_MODEL
               (count_events is_load
                  (run failing_engine [] (World_init default_config 100)))
             <> Loaded h true) by (intros h; discriminate).
  pose proof (load_failure_marks_error failing_engine default_config 100 [] None
                DEFAULT_MODEL Hres Hnr Hfail) as H.
  cbv zeta in H. destruct H as (H & _). exact H.
Defined.

(** ** The configuration never changes *)

Lemma unload_config e w :
  config (model_manager (_unload_model e w)) = config (model_manager w).
Proof. unfold _unload_model. by destruct (negb _). Qed.

Lemma manage_config k w :
  config (model_manager (_manage_memory k w)) = config (model_manager w).
Proof.
  rewrite manage_memory_victim. destruct (victim _ _); [|done]. apply unload_config.
Qed.

Lemma load_model_config E ident w :
  config (model_manager (fst (load_model E ident w))) = config (model_manager w).
Proof.
  destruct (_resolve_model_name (config (model_manager w)) ident) as [k|e] eqn:Hres.
  2: { by rewrite (load_model_unknown E ident w e). }
  destruct (is_ready k (model_manager w)) eqn:Hr.
  { by rewrite (load_model_fast E ident w k). }
  destruct (load_model_outcome E ident w k Hres Hr)
    as [[h (_ & _ & Hm)]|[e (_ & _ & Hm)]]; rewrite Hm; simpl; by rewrite manage_config.
Qed.

Lemma embed_texts_config E k h nz texts w :
  config (model_manager (fst (embed_texts E k h nz texts w))) = config (model_manager w).
Proof.
  revert w. induction texts as [|t r IH]; intros w; simpl; [done|].
  destruct (_embedding_cache (model_manager w) !! fingerprint k t nz) as [e|] eqn:Hc.
  - specialize (IH (emit (EvCacheHit k t (clock w)) w)).
    by destruct (embed_texts E k h nz r _) as [w' [es|x]].
  - destruct (eng_embed _ _ _ _ _) as [e|x]; [|done].
    match goal with |- context [embed_texts E k h nz r ?w1] =>
      specialize (IH w1); destruct (embed_texts E k h nz r w1) as [w' [es|x]] end;
      exact IH.
Qed.

Lemma generate_embeddings_config E texts ident nz w :
  config (model_manager (fst (generate_embeddings E texts ident nz w)))
  = config (model_manager w).
Proof.
  unfold generate_embeddings.
  pose proof (load_model_config E ident w) as Hl.
  destruct (load_model E ident w) as [w1 [k|e]]; simpl in Hl; [|done].
  destruct (negb _); [done|].
  destruct texts as [|t r].
  { by destruct (OD.get k AVAILABLE_MODELS). }
  destruct (OD.get k (models _)) as [h|]; [|done].
  destruct (OD.get k AVAILABLE_MODELS); [|done].
  pose proof (embed_texts_config E k h nz (t :: r) (_update_last_used k w1)) as He.
  destruct (embed_texts E k h nz (t :: r) _) as [w' [es|x]]; simpl in *; congruence.
Qed.

Lemma ttl_check_config w :
  config (model_manager (ttl_check w)) = config (model_manager w).
Proof.
  unfold ttl_check. generalize (models_to_unload w). intros l. revert w.
  induction l as [|it l IH]; intros w; simpl; [done|].
  rewrite IH. unfold unload_idle. simpl. apply unload_config.
Qed.

Lemma exec_config E o w :
  config (model_manager (exec E o w)) = config (model_manager w).
Proof.
  destruct o as [ident|texts ident nz|q docs ident ins top_k|late|d]; simpl.
  - apply load_model_config.
  - apply generate_embeddings_config.
  - by rewrite (proj1 (rerank_same E q docs ident ins top_k w)).
  - unfold ttl_iteration. destruct (0 <? _); [|done]. by rewrite ttl_check_config.
  - done.
Qed.

Lemma run_config E ops w :
  config (model_manager (run E ops w)) = config (model_manager w).
Proof.
  revert w. induction ops as [|o ops IH]; intros w; simpl; [done|].
  by rewrite IH, exec_config.
Qed.

(** ** Resolution and the catalog *)

Lemma aliases_in_catalog s k :
  OD.get s MODEL_ALIASES = Some k -> OD.mem k AVAILABLE_MODELS = true.
Proof.
  unfold MODEL_ALIASES. simpl.
  repeat (destruct (String.eqb s _); [intros [= <-]; reflexivity|]).
  done.
Qed.

Lemma resolve_default cfg ident :
  ident = None \/ ident = Some EmptyString ->
  _resolve_model_name cfg ident = Ok (model_name cfg).
Proof. by intros [-> | ->]. Qed.

Lemma resolve_named cfg c r k :
  _resolve_model_name cfg (Some (String c r)) = Ok k ->
  OD.mem k AVAILABLE_MODELS = true.
Proof.
  unfold _resolve_model_name.
  destruct (OD.get (PyStr.lower (String c r)) MODEL_ALIASES) as [k'|] eqn:Ha.
  - intros [= <-]. by apply aliases_in_catalog in Ha.
  - destruct (OD.mem (String c r) AVAILABLE_MODELS) eqn:Hm; [|done].
    by intros [= <-].
Qed.

Lemma resolve_in_catalog cfg ident k :
  OD.mem (model_name cfg) AVAILABLE_MODELS = true ->
  _resolve_model_name cfg ident = Ok k ->
  OD.mem k AVAILABLE_MODELS = true.
Proof.
  intros Hdef. destruct ident as [[|c r]|].
  - simpl. by intros [= <-].
  - apply resolve_named.
  - simpl. by intros [= <-].
Qed.

Lemma load_model_result E ident w :
  (exists k, _resolve_model_name (config (model_manager w)) ident = Ok k
             /\ snd (load_model E ident w) = Ok k)
  \/ (exists e, _resolve_model_name (config (model_manager w)) ident = Raise e
                /\ snd (load_model E ident w) = Raise e)
  \/ (exists k m c, _resolve_model_name (config (model_manager w)) ident = Ok k
                    /\ snd (load_model E ident w) = Raise (RuntimeErrorFrom m c)).
Proof.
  destruct (_resolve_model_name (config (model_manager w)) ident) as [k|e] eqn:Hres.
  2: { right. left. exists e. by rewrite (load_model_unknown E ident w e). }
  destruct (is_ready k (model_manager w)) eqn:Hr.
  { left. exists k. by rewrite (load_model_fast E ident w k). }
  destruct (load_model_outcome E ident w k Hres Hr)
    as [[h (_ & Hs & _)]|[e (_ & Hs & _)]].
  - left. by exists k.
  - right. right. by eexists k, _, _.
Qed.

Lemma od_mem_get_Some {V} (d : list (string * V)) k :
  OD.mem k d = true -> exists v, OD.get k d = Some v.
Proof. unfold OD.mem. destruct (OD.get k d) as [v|]; [by exists v|done]. Qed.

Lemma od_mem_false_get {V} (d : list (string * V)) k :
  OD.mem k d = false -> OD.get k d = None.
Proof. unfold OD.mem. by destruct (OD.get k d). Qed.

(** What a request does once [load_model] has returned [k]. *)
Lemma generate_embeddings_after_load E texts ident nz w k :
  slots_ok w ->
  snd (load_model E ident w) = Ok k ->
  let w1 := _update_last_used k (fst (load_model E ident w)) in
  exists h, OD.get k (models (model_manager w1)) = Some h
  /\ snd (generate_embeddings E texts ident nz w)
     = match OD.get k AVAILABLE_MODELS with
       | None => Raise (KeyError k)
       | Some info =>
           match texts with
           | [] => Ok ([], k, embedding_dim info)
           | _ =>
               match snd (embed_texts E k h nz texts w1) with
               | Ok es => Ok (es, k, embedding_dim info)
               | Raise x => Raise x
               end
           end
       end.
Proof.
  intros Hok Hl w1.
  pose proof (load_model_ok_ready E ident w k Hok Hl) as Hrd.
  unfold is_ready in Hrd. apply andb_true_iff in Hrd as [Hm Hst].
  apply od_mem_get_Some in Hm as [h Hh]. exists h. split; [exact Hh|].
  unfold generate_embeddings.
  destruct (load_model E ident w) as [wl r] eqn:Hlm. simpl in Hl, Hh, Hst, w1.
  subst r. fold w1.
  change (model_status (model_manager w1) !! k)
    with (model_status (model_manager wl) !! k).
  rewrite Hst. cbn [negb].
  change (models (model_manager w1)) with (models (model_manager wl)). rewrite Hh.
  destruct texts as [|t r].
  - by destruct (OD.get k AVAILABLE_MODELS).
  - destruct (OD.get k AVAILABLE_MODELS); [|done].
    by destruct (embed_texts E k h nz (t :: r) w1) as [w' [es|x]].
Qed.

Lemma get_status_no_lookup_error ident w key :
  get_status ident w <> Raise (KeyError key).
Proof.
  unfold get_status. destruct ident as [[|c r]|]; [done| |done].
  destruct (_resolve_model_name _ _) as [k|e] eqn:Hres.
  - apply resolve_named in Hres. apply od_mem_get_Some in Hres as [info ->]. done.
  - unfold _resolve_model_name in Hres.
    destruct (OD.get _ MODEL_ALIASES); [done|].
    destruct (OD.mem _ AVAILABLE_MODELS); [done|].
    injection Hres as <-. done.
Qed.

(** C9. An empty or absent identifier resolves to the configured default
    without a look at the catalog.  When the default is a key of the
    catalog, every key that [load_model] returns is one, so the catalog
    lookups of [generate_embeddings] go through and the request reaches
    its answer or the scoring loop; [get_status] never fails on a
    lookup.  When the default is not in the catalog, a request without
    identifier never succeeds and never fails with the unknown-model
    [ValueError]: it fails with the raw [KeyError] of the lookup once
    the default has loaded, and with the [RuntimeError] of the load when
    the load fails. *)
Theorem default_model_is_not_validated (E : Engine) (cfg : ServerConfig) (t0 : Z)
    (ops : list Op) :
  let w := run E ops (World_init cfg t0) in
  _resolve_model_name (config (model_manager w)) None = Ok (model_name cfg)
  /\ _resolve_model_name (config (model_manager w)) (Some EmptyString)
     = Ok (model_name cfg)
  /\ (forall ident key, get_status ident w <> Raise (KeyError key))
  /\ (OD.mem (model_name cfg) AVAILABLE_MODELS = true ->
      forall texts ident nz k,
        snd (load_model E ident w) = Ok k ->
        exists info h,
          OD.get k AVAILABLE_MODELS = Some info
          /\ snd (generate_embeddings E texts ident nz w)
             = match texts with
               | [] => Ok ([], k, embedding_dim info)
               | _ =>
                   match snd (embed_texts E k h nz texts
                                (_update_last_used k (fst (load_model E ident w)))) with
                   | Ok es => Ok (es, k, embedding_dim info)
                   | Raise x => Raise x
                   end
               end)
  /\ (OD.mem (model_name cfg) AVAILABLE_MODELS = false ->
      forall texts nz,
        (snd (load_model E None w) = Ok (model_name cfg)
         /\ snd (generate_embeddings E texts None nz w) = Raise (KeyError (model_name cfg)))
        \/ (exists m c,
              snd (load_model E None w) = Raise (RuntimeErrorFrom m c)
              /\ snd (generate_embeddings E texts None nz w)
                 = Raise (RuntimeErrorFrom m c))).
Proof.
  intros w.
  assert (Hcfg : config (model_manager w) = cfg) by apply run_config.
  pose proof (run_slots_ok E cfg t0 ops) as Hok. fold w in Hok.
  rewrite Hcfg. split; [done|]. split; [done|].
  split; [intros ident key; apply get_status_no_lookup_error|].
  split.
  - intros Hdef texts ident nz k Hl.
    pose proof (load_model_ok_inv _ _ _ _ Hl) as Hres. rewrite Hcfg in Hres.
    apply (resolve_in_catalog cfg ident k Hdef) in Hres.
    apply od_mem_get_Some in Hres as [info Hinfo].
    destruct (generate_embeddings_after_load E texts ident nz w k Hok Hl) as (h & _ & Hg).
    exists info, h. split; [done|]. by rewrite Hg, Hinfo.
  - intros Hdef texts nz.
    apply od_mem_false_get in Hdef.
    destruct (load_model_result E None w)
      as [(k & Hres & Hl)|[(e & Hres & _)|(k & m & c & _ & Hl)]].
    + rewrite Hcfg in Hres. injection Hres as <-. left. split; [done|].
      destruct (generate_embeddings_after_load E texts None nz w _ Hok Hl) as (h & _ & Hg).
      by rewrite Hg, Hdef.
    + by rewrite Hcfg in Hres.
    + right. exists m, c. split; [done|].
      unfold generate_embeddings. destruct (load_model E None w) as [wl r].
      simpl in Hl. by subst r.
Qed.

Lemma default_model_is_not_validated_witness :
  OD.mem (model_name odd_config) AVAILABLE_MODELS = false
  /\ snd (generate_embeddings sample_engine ["hello"] None true
            (run sample_engine [] (World_init odd_config 100)))
     = Raise (KeyError (model_name odd_config)).
Proof.
  assert (Hdef : OD.mem (model_name odd_config) AVAILABLE_MODELS = false)
    by reflexivity.
  pose proof (default_model_is_not_validated sample_engine odd_config 100 []) as H.
  cbv zeta in H. destruct H as (_ & _ & _ & _ & H).
  destruct (H Hdef ["hello"] true) as [[_ Hg]|(m & c & Hl & _)].
  - split; [exact Hdef|exact Hg].
  - exfalso. vm_compute in Hl. discriminate Hl.
Defined.

(** The claim of C9 as it stands, that a request without identifier
    fails with a lookup error whenever the default is outside the
    catalog, is false where the load of that default fails: the request
    fails with the load's RuntimeError and no lookup is reached. *)
Lemma default_outside_catalog_counterexample :
  OD.mem (model_name odd_config) AVAILABLE_MODELS = false
  /\ snd (generate_embeddings failing_engine ["hello"] None true
            (World_init odd_config 100))
     = Raise (RuntimeErrorFrom "Model loading failed: no such repository"
                (EngineError "no such repository"))
  /\ ~ (exists key,
          snd (generate_embeddings failing_engine ["hello"] None true
                 (World_init odd_config 100))
          = Raise (KeyError key)).
Proof.
  split; [reflexivity|].
  assert (Hr : snd (generate_embeddings failing_engine ["hello"] None true
                      (World_init odd_config 100))
               = Raise (RuntimeErrorFrom "Model loading failed: no such repository"
                          (EngineError "no such repository")))
    by (vm_compute; reflexivity).
  split; [exact Hr|].
  intros [key Hk]. rewrite Hr in Hk. discriminate Hk.
Qed.

(** ** Sorting the scored documents *)

Lemma insert_desc_perm x l : Permutation (insert_desc x l) (x :: l).
Proof.
  induction l as [|y r IH]; simpl; [done|].
  destruct (float_le _ _); [done|].
  etransitivity; [apply perm_skip, IH|]. apply perm_swap.
Qed.

Lemma take_out_perm {A : Type} (n : nat) (l : list A) (y : A) (r : list A) :
  take_out n l = Some (y, r) -> Permutation l (y :: r).
Proof.
  revert n y r. induction l as [|x l IH]; intros n y r H; [done|].
  destruct n as [|n]; simpl in H.
  - by injection H as <- <-.
  - destruct (take_out n l) as [[y' r']|] eqn:Ht; [|done].
    injection H as <- <-.
    etransitivity; [apply perm_skip, (IH _ _ _ Ht)|]. apply perm_swap.
Qed.

Lemma arrange_perm {A : Type} (picks : list nat) (l : list A) :
  Permutation (arrange picks l) l.
Proof.
  revert l. induction picks as [|n picks IH]; intros l; simpl; [done|].
  destruct (take_out n l) as [[y r]|] eqn:Ht; [|apply IH].
  etransitivity; [apply perm_skip, IH|]. symmetry. by eapply take_out_perm.
Qed.

Lemma take_out_In {A : Type} (l : list A) (y : A) :
  In y l -> exists n r, take_out n l = Some (y, r).
Proof.
  induction l as [|x l IH]; [done|]. intros [->|Hin].
  - by exists 0%nat, l.
  - destruct (IH Hin) as (n & r & Ht). exists (S n), (x :: r). simpl. by rewrite Ht.
Qed.

(** Every order of [l] is the answer of [arrange] to some indices. *)
Lemma arrange_any {A : Type} (l p : list A) :
  Permutation l p -> exists picks, arrange picks l = p.
Proof.
  revert l. induction p as [|y p IH]; intros l Hp.
  - apply Permutation_sym, Permutation_nil in Hp as ->. by exists [].
  - assert (Hin : In y l).
    { apply (Permutation_in y (Permutation_sym Hp)). by left. }
    destruct (take_out_In l y Hin) as (n & r & Ht).
    pose proof (take_out_perm n l y r Ht) as Hl.
    assert (Hr : Permutation r p).
    { apply (Permutation_cons_inv (a := y)). etransitivity; [symmetry; exact Hl|done]. }
    destruct (IH r Hr) as [picks Hpicks].
    exists (n :: picks). simpl. by rewrite Ht, Hpicks.
Qed.

Lemma sort_desc_perm E l : Permutation (sort_desc E l) l.
Proof.
  unfold sort_desc. destruct (existsb _ l); [apply arrange_perm|].
  induction l as [|x l IH]; simpl; [done|].
  etransitivity; [apply insert_desc_perm|]. by apply perm_skip.
Qed.









(** ** The scoring loop *)

Lemma score_documents_shape E h ids ml q ins idx docs w :
  map sc_index (snd (score_documents E h ids ml q ins idx docs w))
  = seq idx (length docs)
  /\ map sc_doc (snd (score_documents E h ids ml q ins idx docs w)) = docs.
Proof.
  revert idx w. induction docs as [|d r IH]; intros idx w; simpl; [done|].
  unfold score_document.
  destruct (eng_score E h _ ids) as [sc|x];
    match goal with |- context [score_documents E h ids ml q ins (S idx) r ?w1] =>
      destruct (IH (S idx) w1) as [Hi Hd];
      destruct (score_documents E h ids ml q ins (S idx) r w1) as [w2 rs] end;
    simpl in *; by rewrite Hi, Hd.
Qed.


(** ** The embedding manager leaves the reranker alone *)

Lemma unload_rm e w : reranker_manager (_unload_model e w) = reranker_manager w.
Proof. unfold _unload_model. by destruct (negb _). Qed.

Lemma manage_rm k w : reranker_manager (_manage_memory k w) = reranker_manager w.
Proof.
  rewrite manage_memory_victim. destruct (victim _ _); [|done]. apply unload_rm.
Qed.

Lemma warmup_texts_rm E k h texts w :
  reranker_manager (warmup_texts E k h texts w) = reranker_manager w.
Proof.
  revert w. induction texts as [|t r IH]; intros w; simpl; [done|].
  destruct (eng_embed _ _ _ _ _); [|done]. by rewrite IH.
Qed.

Lemma warmup_rm E k w : reranker_manager (_warmup E k w) = reranker_manager w.
Proof.
  unfold _warmup. destruct (OD.get _ _); [|done]. apply warmup_texts_rm.
Qed.

Lemma load_model_rm E ident w :
  reranker_manager (fst (load_model E ident w)) = reranker_manager w.
Proof.
  destruct (_resolve_model_name (config (model_manager w)) ident) as [k|e] eqn:Hres.
  2: { by rewrite (load_model_unknown E ident w e). }
  destruct (is_ready k (model_manager w)) eqn:Hr.
  { by rewrite (load_model_fast E ident w k). }
  rewrite (load_model_slow E ident w k) by done.
  set (wb := begin_load k (on_mm (set_locks (ensure_lock k)) w)).
  destruct (mm_load_cases E k (_manage_memory k wb)) as [[h [_ ->]]|[e [-> _]]]; simpl.
  - rewrite warmup_rm. simpl. by rewrite manage_rm.
  - by rewrite manage_rm.
Qed.

Lemma embed_texts_rm E k h nz texts w :
  reranker_manager (fst (embed_texts E k h nz texts w)) = reranker_manager w.
Proof.
  revert w. induction texts as [|t r IH]; intros w; simpl; [done|].
  destruct (_embedding_cache (model_manager w) !! fingerprint k t nz) as [e|] eqn:Hc.
  - specialize (IH (emit (EvCacheHit k t (clock w)) w)).
    by destruct (embed_texts E k h nz r _) as [w' [es|x]].
  - destruct (eng_embed _ _ _ _ _) as [e|x]; [|done].
    match goal with |- context [embed_texts E k h nz r ?w1] =>
      specialize (IH w1); destruct (embed_texts E k h nz r w1) as [w' [es|x]] end;
      exact IH.
Qed.

Lemma generate_embeddings_rm E texts ident nz w :
  reranker_manager (fst (generate_embeddings E texts ident nz w)) = reranker_manager w.
Proof.
  unfold generate_embeddings.
  pose proof (load_model_rm E ident w) as Hl.
  destruct (load_model E ident w) as [w1 [k|e]]; simpl in Hl; [|done].
  destruct (negb _); [done|].
  destruct texts as [|t r].
  { by destruct (OD.get k AVAILABLE_MODELS). }
  destruct (OD.get k (models _)) as [h|]; [|done].
  destruct (OD.get k AVAILABLE_MODELS); [|done].
  pose proof (embed_texts_rm E k h nz (t :: r) (_update_last_used k w1)) as He.
  destruct (embed_texts E k h nz (t :: r) _) as [w' [es|x]]; simpl in *; congruence.
Qed.

Lemma ttl_check_rm w : reranker_manager (ttl_check w) = reranker_manager w.
Proof.
  unfold ttl_check. generalize (models_to_unload w). intros l. revert w.
  induction l as [|it l IH]; intros w; simpl; [done|].
  rewrite IH. unfold unload_idle. simpl. apply unload_rm.
Qed.

(** ** The reranker's slots *)

Lemma r_unload_slots_ok e w : r_slots_ok w -> r_slots_ok (r_unload_model e w).
Proof.
  intros [Hnd Hco]. unfold r_unload_model.
  destruct (OD.mem e (r_models (reranker_manager w))) eqn:He; simpl; [|done].
  split; simpl.
  - by apply od_NoDup_del.
  - intros k Hk. apply od_mem_del_inv in Hk as [Hne Hk]; [|done].
    rewrite lookup_delete_ne by done. by apply Hco.
Qed.

Lemma r_manage_slots_ok k w : r_slots_ok w -> r_slots_ok (r_manage_memory k w).
Proof.
  intros H. unfold r_manage_memory. destruct (_ <=? _)%nat; [|done].
  destruct (List.filter _ _); [done|]. by apply r_unload_slots_ok.
Qed.

Lemma rm_load_slots_ok E k w : r_slots_ok w -> r_slots_ok (fst (rm_load E k w)).
Proof.
  intros [Hnd Hco]. unfold rm_load, call_load.
  destruct (eng_load E k _) as [h b|e]; [|done].
  destruct (eng_token_ids E h) as [ids|e]; [|done].
  split; simpl.
  - by apply od_NoDup_set.
  - intros j Hj. apply od_mem_set_inv in Hj as [->|Hj].
    + rewrite lookup_insert_eq. by eexists.
    + destruct (decide (k = j)) as [->|Hne].
      * rewrite lookup_insert_eq. by eexists.
      * rewrite lookup_insert_ne by done. by apply Hco.
Qed.

Lemma r_warmup_rm E k w : reranker_manager (r_warmup E k w) = reranker_manager w.
Proof.
  unfold r_warmup. destruct (OD.get _ _); [|done]. by destruct (_ !! _).
Qed.

(** When the load fails nothing of [k] is stored; when [rm_load]
    succeeds the model and its token ids are. *)
Lemma rm_load_stored E k w :
  snd (rm_load E k w) = None ->
  OD.mem k (r_models (reranker_manager (fst (rm_load E k w)))) = true.
Proof.
  unfold rm_load, call_load.
  destruct (eng_load E k _) as [h b|e]; [|done].
  destruct (eng_token_ids E h) as [ids|e]; [|done].
  intros _. simpl. unfold OD.mem. by rewrite od_get_set_eq.
Qed.

Lemma r_load_model_facts E ident w :
  r_slots_ok w ->
  r_slots_ok (fst (r_load_model E ident w))
  /\ forall k, snd (r_load_model E ident w) = Ok k ->
       r_resolve_model_name ident = Ok k
       /\ OD.mem k (r_models (reranker_manager (fst (r_load_model E ident w)))) = true.
Proof.
  intros Hok. unfold r_load_model.
  destruct (r_resolve_model_name ident) as [k|e]; [|done].
  destruct (r_is_ready k (reranker_manager w)) eqn:Hr.
  { split; [done|]. intros k' [= <-]. split; [done|].
    unfold r_is_ready in Hr. by apply andb_true_iff in Hr as [Hm _]. }
  change (r_is_ready k (reranker_manager (on_rm (r_set_locks (ensure_lock k)) w)))
    with (r_is_ready k (reranker_manager w)).
  rewrite Hr.
  match goal with |- context [rm_load E k ?w1] =>
    assert (H1 : r_slots_ok w1)
      by (apply r_manage_slots_ok; exact Hok);
    pose proof (rm_load_slots_ok E k w1 H1) as H2;
    pose proof (rm_load_stored E k w1) as H3;
    destruct (rm_load E k w1) as [w2 [e|]] end; simpl in *.
  - split; [exact H2|]. done.
  - split.
    + unfold r_slots_ok. simpl. rewrite r_warmup_rm. exact H2.
    + intros k' [= <-]. split; [done|]. rewrite r_warmup_rm. by apply H3.
Qed.

Lemma score_documents_rm E h ids ml q ins idx docs w :
  reranker_manager (fst (score_documents E h ids ml q ins idx docs w))
  = reranker_manager w.
Proof.
  revert idx w. induction docs as [|d r IH]; intros idx w; simpl; [done|].
  unfold score_document.
  destruct (eng_score E h _ ids) as [sc|x];
    match goal with |- context [score_documents E h ids ml q ins (S idx) r ?w1] =>
      specialize (IH (S idx) w1);
      destruct (score_documents E h ids ml q ins (S idx) r w1) as [w2 rs] end;
    simpl in *; by rewrite IH.
Qed.

Lemma rerank_slots_ok E q docs ident ins top_k w :
  r_slots_ok w -> r_slots_ok (fst (rerank E q docs ident ins top_k w)).
Proof.
  intros Hok. unfold rerank.
  destruct (r_load_model_facts E ident w Hok) as [Hl _].
  destruct (r_load_model E ident w) as [w1 [k|e]]; simpl in Hl; [|done].
  assert (Hu : r_slots_ok (on_rm (r_set_last_used (OD.set k (clock w1))) w1))
    by exact Hl.
  destruct docs as [|d r]; [done|].
  destruct (OD.get k _) as [h|]; [|done].
  destruct (_ !! k) as [ids|]; [|done].
  destruct (OD.get k AVAILABLE_RERANKER_MODELS) as [info|]; [|done].
  match goal with |- context [score_documents E h ids ?ml q ins 0 (d :: r) ?w2] =>
    pose proof (score_documents_rm E h ids ml q ins 0%nat (d :: r) w2) as Hs;
    destruct (score_documents E h ids ml q ins 0 (d :: r) w2) as [w3 rs] end.
  simpl in *. unfold r_slots_ok. rewrite Hs. exact Hu.
Qed.

Lemma exec_r_slots_ok E o w : r_slots_ok w -> r_slots_ok (exec E o w).
Proof.
  intros H. destruct o as [ident|texts ident nz|q docs ident ins top_k|late|d]; simpl.
  - unfold r_slots_ok. by rewrite load_model_rm.
  - unfold r_slots_ok. by rewrite generate_embeddings_rm.
  - by apply rerank_slots_ok.
  - unfold ttl_iteration. destruct (0 <? _); [|done].
    unfold r_slots_ok. by rewrite ttl_check_rm.
  - done.
Qed.

Lemma run_r_slots_ok E cfg t0 ops : r_slots_ok (run E ops (World_init cfg t0)).
Proof.
  apply run_invariant; [apply exec_r_slots_ok|].
  split; [apply NoDup_nil_2|]. intros k Hk. done.
Qed.

Lemma reranker_aliases_in_catalog s k :
  OD.get s RERANKER_ALIASES = Some k -> OD.mem k AVAILABLE_RERANKER_MODELS = true.
Proof.
  unfold RERANKER_ALIASES. simpl.
  repeat (destruct (String.eqb s _); [intros [= <-]; reflexivity|]).
  done.
Qed.

Lemma r_resolve_in_catalog ident k :
  r_resolve_model_name ident = Ok k -> OD.mem k AVAILABLE_RERANKER_MODELS = true.
Proof.
  destruct ident as [[|c r]|]; [by intros [= <-]| |by intros [= <-]].
  unfold r_resolve_model_name.
  destruct (OD.get (PyStr.lower (String c r)) RERANKER_ALIASES) as [k'|] eqn:Ha.
  - intros [= <-]. by apply reranker_aliases_in_catalog in Ha.
  - destruct (OD.mem (String c r) AVAILABLE_RERANKER_MODELS) eqn:Hm; [|done].
    by intros [= <-].
Qed.

(** Once [load_model] has returned, a rerank call goes through: every
    lookup finds its key, and the answer is the sorted and truncated
    list of the scored documents. *)
Lemma rerank_after_load E q docs ident ins top_k w k :
  r_slots_ok w ->
  snd (r_load_model E ident w) = Ok k ->
  exists h ids info,
    snd (rerank E q docs ident ins top_k w)
    = Ok (apply_top_k top_k
            (sort_desc E
               (snd (score_documents E h ids (max_length info) q ins 0 docs
                       (on_rm (r_set_last_used
                                 (OD.set k (clock (fst (r_load_model E ident w)))))
                              (fst (r_load_model E ident w))))))).
Proof.
  intros Hok Hl.
  destruct (r_load_model_facts E ident w Hok) as [[_ Hco] Hf].
  destruct (Hf k Hl) as [Hres Hm].
  apply r_resolve_in_catalog, od_mem_get_Some in Hres as [info Hinfo].
  destruct (Hco k Hm) as [ids Hids].
  apply od_mem_get_Some in Hm as [h Hh].
  exists h, ids, info. unfold rerank.
  destruct (r_load_model E ident w) as [w1 r]. simpl in *. subst r.
  destruct docs as [|d r].
  { simpl. destruct top_k as [z|]; simpl; [|done].
    destruct (0 <? z); [by rewrite firstn_nil|done]. }
  rewrite Hh, Hids, Hinfo.
  by destruct (score_documents E h ids (max_length info) q ins 0 (d :: r) _) as [w3 rs].
Qed.

Lemma score_documents_lookup E h ids ml q ins idx docs w :
  Forall (fun r => (idx <= sc_index r)%nat
                   /\ docs !! (sc_index r - idx)%nat = Some (sc_doc r))
         (snd (score_documents E h ids ml q ins idx docs w)).
Proof.
  revert idx w. induction docs as [|d r IH]; intros idx w; simpl; [apply Forall_nil_2|].
  unfold score_document.
  destruct (eng_score E h _ ids) as [sc|x];
    match goal with |- context [score_documents E h ids ml q ins (S idx) r ?w1] =>
      specialize (IH (S idx) w1);
      destruct (score_documents E h ids ml q ins (S idx) r w1) as [w2 rs] end;
    simpl in *; (apply Forall_cons; split;
      [unfold sc_index, sc_doc; simpl; split; [lia|by rewrite Nat.sub_diag]|]);
    (eapply Forall_impl; [exact IH|]); intros y [Hy1 Hy2]; simpl in *;
    (split; [lia|]);
    replace (sc_index y - idx)%nat with (S (sc_index y - S idx)) by lia; done.
Qed.

(** Whatever order a list with a NaN score is left in, it is not a
    descending one: with NaN on one side, [>=] is false. *)
Lemma nan_is_never_in_order (a b : PyFloat) :
  a = NaN \/ b = NaN -> ~ float_ge a b.
Proof. intros [-> | ->] H; [exact H|]. by destruct a. Qed.



(** C10. With [top_k] absent, a rerank call that got past the loading of
    its model returns exactly one tuple per input document, whatever the
    engine did on each of them: the original indices of the answer are a
    permutation of [0 .. len(documents)-1], and every tuple carries the
    document found at its index. *)
Theorem rerank_one_tuple_per_document (E : Engine) (cfg : ServerConfig) (t0 : Z)
    (ops : list Op) (q : string) (docs : list string) (ident ins : option string)
    (k : string) :
  let w := run E ops (World_init cfg t0) in
  snd (r_load_model E ident w) = Ok k ->
  exists res : list Scored,
    snd (rerank E q docs ident ins None w) = Ok res
    /\ length res = length docs
    /\ Permutation (map sc_index res) (seq 0 (length docs))
    /\ Forall (fun r => docs !! sc_index r = Some (sc_doc r)) res.
Proof.
  intros w Hl.
  pose proof (run_r_slots_ok E cfg t0 ops) as Hok. fold w in Hok.
  destruct (rerank_after_load E q docs ident ins None w k Hok Hl)
    as (h & ids & info & Hr).
  set (w1 := on_rm _ _) in Hr.
  set (scored := snd (score_documents E h ids (max_length info) q ins 0 docs w1)) in *.
  destruct (score_documents_shape E h ids (max_length info) q ins 0%nat docs w1)
    as [Hidx Hdocs].
  fold scored in Hidx, Hdocs.
  pose proof (sort_desc_perm E scored) as Hperm.
  exists (sort_desc E scored). split; [exact Hr|]. split; [|split].
  - rewrite (Permutation_length Hperm). rewrite <- Hdocs. by rewrite length_map.
  - rewrite <- Hidx. by apply Permutation_map.
  - pose proof (score_documents_lookup E h ids (max_length info) q ins 0%nat docs w1)
      as Hlook.
    fold scored in Hlook.
    apply Forall_forall. intros r Hin.
    apply list_elem_of_In in Hin.
    apply (Permutation_in _ Hperm) in Hin.
    eapply Forall_forall in Hlook; [|by apply list_elem_of_In].
    destruct Hlook as [_ Hd]. by rewrite Nat.sub_0_r in Hd.
Qed.




Lemma rerank_one_tuple_per_document_witness :
  exists res : list Scored,
    snd (rerank sample_engine "query" sample_documents None None None
           (run sample_engine [] (World_init default_config 100))) = Ok res
    /\ length res = length sample_documents.
Proof.
  assert (Hl : snd (r_load_model sample_engine None
                      (run sample_engine [] (World_init default_config 100)))
               = Ok DEFAULT_RERANKER_MODEL) by (vm_compute; reflexivity).
  destruct (rerank_one_tuple_per_document sample_engine default_config 100 []
              "query" sample_documents None None DEFAULT_RERANKER_MODEL Hl)
    as (res & Hr & Hlen & _).
  exists res. split; [exact Hr|exact Hlen].
Defined.

(** ** A request, once its model is loaded *)

Lemma generate_embeddings_loaded E texts ident nz w k :
  slots_ok w ->
  snd (load_model E ident w) = Ok k ->
  let w1 := _update_last_used k (fst (load_model E ident w)) in
  exists h, OD.get k (models (model_manager w1)) = Some h
  /\ generate_embeddings E texts ident nz w
     = match texts with
       | [] =>
           match OD.get k AVAILABLE_MODELS with
           | None => (w1, Raise (KeyError k))
           | Some info => (w1, Ok ([], k, embedding_dim info))
           end
       | _ =>
           match OD.get k AVAILABLE_MODELS with
           | None => (w1, Raise (KeyError k))
           | Some info =>
               match embed_texts E k h nz texts w1 with
               | (w', Raise x) => (w', Raise x)
               | (w', Ok es) => (w', Ok (es, k, embedding_dim info))
               end
           end
       end.
Proof.
  intros Hok Hl w1.
  pose proof (load_model_ok_ready E ident w k Hok Hl) as Hrd.
  unfold is_ready in Hrd. apply andb_true_iff in Hrd as [Hm Hst].
  apply od_mem_get_Some in Hm as [h Hh]. exists h. split; [exact Hh|].
  unfold generate_embeddings.
  destruct (load_model E ident w) as [wl r] eqn:Hlm. simpl in Hl, Hh, Hst, w1.
  subst r. fold w1.
  change (model_status (model_manager w1) !! k)
    with (model_status (model_manager wl) !! k).
  rewrite Hst. cbn [negb].
  change (models (model_manager w1)) with (models (model_manager wl)). rewrite Hh.
  done.
Qed.

(** The loop on a single text. *)
Lemma embed_texts_single E k h nz text w :
  embed_texts E k h nz [text] w
  = match cache_of w !! fingerprint k text nz with
    | Some e => (emit (EvCacheHit k text (clock w)) w, Ok [e])
    | None =>
        match forward_pass E k h text nz w with
        | (w1, Raise x) => (w1, Raise x)
        | (w1, Ok e) =>
            (emit (EvCacheMiss k text (clock w1))
               (on_mm (set_embedding_cache (cache_put (fingerprint k text nz) e)) w1),
             Ok [e])
        end
    end.
Proof.
  unfold cache_of. simpl.
  destruct (_embedding_cache (model_manager w) !! fingerprint k text nz); [done|].
  by destruct (eng_embed _ _ _ _ _).
Qed.

Lemma tuple5_inv {A B C D F : Type} (a a' : A) (b b' : B) (c c' : C) (d d' : D)
    (e e' : F) :
  (a, b, c, d, e) = (a', b', c', d', e') ->
  a = a' /\ b = b' /\ c = c' /\ d = d' /\ e = e'.
Proof. intros H. by injection H. Qed.

Lemma head_Some_In {A} (l : list A) (x : A) : head l = Some x -> In x l.
Proof. destruct l as [|y l]; [done|]. intros [= ->]. by left. Qed.

Lemma generate_embeddings_ok_load E texts ident nz w v k d :
  snd (generate_embeddings E texts ident nz w) = Ok (v, k, d) ->
  snd (load_model E ident w) = Ok k.
Proof.
  unfold generate_embeddings.
  destruct (load_model E ident w) as [wl [k'|e]]; cbn [fst snd]; [|done].
  destruct (negb _); [done|].
  destruct texts as [|t r].
  { destruct (OD.get k' AVAILABLE_MODELS); [|done]. cbn [snd]. congruence. }
  destruct (OD.get k' (models _)) as [h|]; [|done].
  destruct (OD.get k' AVAILABLE_MODELS); [|done].
  destruct (embed_texts E k' h nz (t :: r) _) as [w' [es|x]]; cbn [snd]; congruence.
Qed.

(** ** The cache across the loop over the texts *)

Lemma embed_texts_cons E k h nz t r w :
  embed_texts E k h nz (t :: r) w
  = match cache_of w !! fingerprint k t nz with
    | Some e =>
        match embed_texts E k h nz r (emit (EvCacheHit k t (clock w)) w) with
        | (w', Ok es) => (w', Ok (e :: es))
        | (w', Raise x) => (w', Raise x)
        end
    | None =>
        match forward_pass E k h t nz w with
        | (w1, Raise x) => (w1, Raise x)
        | (w1, Ok e) =>
            let w2 := on_mm (set_embedding_cache
                               (cache_put (fingerprint k t nz) e)) w1 in
            match embed_texts E k h nz r (emit (EvCacheMiss k t (clock w2)) w2) with
            | (w', Ok es) => (w', Ok (e :: es))
            | (w', Raise x) => (w', Raise x)
            end
        end
    end.
Proof. reflexivity. Qed.

Lemma cache_put_keeps key e c key' e' :
  c !! key = None -> c !! key' = Some e' -> cache_put key e c !! key' = Some e'.
Proof.
  intros Hnone Hsome. unfold cache_put. destruct (size c <? CACHE_CAPACITY)%nat; [|done].
  rewrite lookup_insert_ne; [done|]. intros ->. congruence.
Qed.

(** The loop never removes or overwrites an entry of the cache. *)
Lemma embed_texts_cache_mono E k h nz texts w key e :
  cache_of w !! key = Some e ->
  cache_of (fst (embed_texts E k h nz texts w)) !! key = Some e.
Proof.
  revert w. induction texts as [|t r IH]; intros w Hc; [done|].
  rewrite embed_texts_cons.
  destruct (cache_of w !! fingerprint k t nz) as [e0|] eqn:Ht.
  - specialize (IH (emit (EvCacheHit k t (clock w)) w) Hc).
    by destruct (embed_texts E k h nz r _) as [w' [es|x]].
  - unfold forward_pass.
    destruct (eng_embed _ _ _ _ _) as [e0|x]; [|done]. cbv zeta.
    match goal with |- context [embed_texts E k h nz r ?w1] =>
      assert (Hc1 : cache_of w1 !! key = Some e)
        by (unfold cache_of in *; simpl; by apply cache_put_keeps);
      specialize (IH w1 Hc1); by destruct (embed_texts E k h nz r w1) as [w' [es|x]] end.
Qed.

Lemma size_cache_put_le key e (c : gmap string ndarray) :
  (size (cache_put key e c) <= S (size c))%nat.
Proof.
  unfold cache_put. destruct (size c <? CACHE_CAPACITY)%nat; [|lia].
  destruct (c !! key) eqn:Hk.
  - rewrite map_size_insert_Some by done. lia.
  - rewrite map_size_insert_None by done. lia.
Qed.

(** With room for all its texts, a loop that succeeds leaves the
    fingerprint of each of them in the cache. *)
Lemma embed_texts_stores E k h nz texts w es text :
  (size (cache_of w) + length texts <= CACHE_CAPACITY)%nat ->
  In text texts ->
  snd (embed_texts E k h nz texts w) = Ok es ->
  is_Some (cache_of (fst (embed_texts E k h nz texts w)) !! fingerprint k text nz).
Proof.
  revert w es. induction texts as [|t r IH]; intros w es Hroom Hin; [done|].
  rewrite embed_texts_cons. simpl in Hroom.
  destruct (cache_of w !! fingerprint k t nz) as [e0|] eqn:Ht.
  - pose proof (embed_texts_cache_mono E k h nz r (emit (EvCacheHit k t (clock w)) w)
                  (fingerprint k t nz) e0 Ht) as Hmono.
    specialize (IH (emit (EvCacheHit k t (clock w)) w)).
    destruct (embed_texts E k h nz r _) as [w' [es'|x]]; [|done].
    simpl in *. intros _. destruct Hin as [<-|Hin]; [by eexists|].
    apply (IH es'); [unfold cache_of in *; simpl; lia|done|done].
  - unfold forward_pass.
    destruct (eng_embed _ _ _ _ _) as [e0|x]; [|done]. cbv zeta.
    match goal with |- context [embed_texts E k h nz r ?w1] =>
      assert (Hc1 : cache_of w1 !! fingerprint k t nz = Some e0);
      [|assert (Hs1 : (size (cache_of w1) <= S (size (cache_of w)))%nat);
        [|pose proof (embed_texts_cache_mono E k h nz r w1 _ _ Hc1) as Hmono;
          specialize (IH w1); destruct (embed_texts E k h nz r w1) as [w' [es'|x]]]]
    end.
    + unfold cache_of in *. simpl. rewrite cache_put_room by lia.
      by rewrite lookup_insert_eq.
    + unfold cache_of in *. simpl. apply size_cache_put_le.
    + simpl in *. intros _. destruct Hin as [<-|Hin]; [by eexists|].
      apply (IH es'); [lia|done|done].
    + done.
Qed.

(** A vector found in the cache after the loop is the one the loop
    returned for its text. *)
Lemma embed_texts_returns_cached E k h nz texts w es text e i :
  snd (embed_texts E k h nz texts w) = Ok es ->
  cache_of (fst (embed_texts E k h nz texts w)) !! fingerprint k text nz = Some e ->
  texts !! i = Some text ->
  es !! i = Some e.
Proof.
  revert w es i. induction texts as [|t r IH]; intros w es i; [done|].
  rewrite embed_texts_cons.
  destruct (cache_of w !! fingerprint k t nz) as [e0|] eqn:Ht.
  - pose proof (embed_texts_cache_mono E k h nz r (emit (EvCacheHit k t (clock w)) w)
                  (fingerprint k t nz) e0 Ht) as Hmono.
    specialize (IH (emit (EvCacheHit k t (clock w)) w)).
    destruct (embed_texts E k h nz r _) as [w' [es'|x]]; [|done].
    simpl in *. intros [= <-] Hc Hi. destruct i as [|i]; simpl in *.
    + injection Hi as ->. congruence.
    + by apply (IH es').
  - unfold forward_pass.
    destruct (eng_embed _ _ _ _ _) as [e0|x]; [|done]. cbv zeta.
    match goal with |- context [embed_texts E k h nz r ?w1] =>
      set (w2 := w1);
      pose proof (embed_texts_cache_mono E k h nz r w2 (fingerprint k t nz) e0) as Hmono;
      pose proof (embed_texts_cache_full E k h nz r w2) as Hfull;
      specialize (IH w2); destruct (embed_texts E k h nz r w2) as [w' [es'|x]] eqn:Hrest
    end; [|done].
    simpl in *. intros [= <-] Hc Hi. destruct i as [|i]; simpl in *.
    + injection Hi as ->. f_equal.
      destruct (Nat.ltb_spec (size (cache_of w)) CACHE_CAPACITY) as [Hlt|Hge].
      * assert (Hc2 : cache_of w2 !! fingerprint k text nz = Some e0).
        { unfold w2, cache_of in *. simpl. rewrite cache_put_room by done.
          by rewrite lookup_insert_eq. }
        specialize (Hmono Hc2). congruence.
      * assert (Hc2 : cache_of w2 = cache_of w).
        { unfold w2, cache_of in *. simpl. by rewrite cache_put_full. }
        rewrite Hfull in Hc by (rewrite Hc2; done). congruence.
    + by apply (IH es').
Qed.

Lemma count_forward_emit e w :
  is_forward e = false -> count_events is_forward (emit e w) = count_events is_forward w.
Proof. intros He. unfold count_events. simpl. by rewrite He. Qed.

(** With the fingerprint of [text] in the cache, the loop runs a forward
    pass for other texts only. *)
Lemma embed_texts_forward_bound E k h nz texts w text e :
  cache_of w !! fingerprint k text nz = Some e ->
  (count_events is_forward (fst (embed_texts E k h nz texts w))
   <= count_events is_forward w
      + length (List.filter (fun t => negb (String.eqb t text)) texts))%nat.
Proof.
  set (f := fun t => negb (String.eqb t text)).
  revert w. induction texts as [|t r IH]; intros w Hc; [simpl; lia|].
  rewrite embed_texts_cons.
  assert (Hlen : (length (List.filter f r) <= length (List.filter f (t :: r)))%nat).
  { cbn [List.filter]. destruct (f t); simpl; lia. }
  destruct (cache_of w !! fingerprint k t nz) as [e0|] eqn:Ht.
  - specialize (IH (emit (EvCacheHit k t (clock w)) w) Hc).
    rewrite count_forward_emit in IH by done.
    destruct (embed_texts E k h nz r _) as [w' [es'|x]]; cbn [fst] in *; lia.
  - assert (Hne : f t = true).
    { unfold f. apply negb_true_iff, String.eqb_neq. intros ->. congruence. }
    assert (Hlen1 : length (List.filter f (t :: r)) = S (length (List.filter f r))).
    { cbn [List.filter]. by rewrite Hne. }
    unfold forward_pass.
    destruct (eng_embed _ _ _ _ _) as [e0|x].
    + cbv zeta.
      match goal with |- context [embed_texts E k h nz r ?w1] =>
        assert (Hc1 : cache_of w1 !! fingerprint k text nz = Some e)
          by (unfold cache_of in *; simpl; by apply cache_put_keeps);
        assert (Hn1 : count_events is_forward w1 = S (count_events is_forward w))
          by reflexivity;
        specialize (IH w1 Hc1); destruct (embed_texts E k h nz r w1) as [w' [es'|x]]
      end; cbn [fst] in *; lia.
    + cbn [fst].
      match goal with |- (count_events is_forward ?w1 <= _)%nat =>
        assert (Hn1 : count_events is_forward w1 = S (count_events is_forward w))
          by reflexivity end.
      lia.
Qed.

Lemma forward_pass_count E k h text nz w :
  (count_events is_forward w
   <= count_events is_forward (fst (forward_pass E k h text nz w)))%nat.
Proof. unfold forward_pass, count_events. simpl. lia. Qed.

(** The count of forward passes never goes down. *)
Lemma embed_texts_forward_mono E k h nz texts w :
  (count_events is_forward w
   <= count_events is_forward (fst (embed_texts E k h nz texts w)))%nat.
Proof.
  revert w. induction texts as [|t r IH]; intros w; [done|].
  rewrite embed_texts_cons.
  destruct (cache_of w !! fingerprint k t nz) as [e0|] eqn:Ht.
  - specialize (IH (emit (EvCacheHit k t (clock w)) w)).
    rewrite count_forward_emit in IH by done.
    by destruct (embed_texts E k h nz r _) as [w' [es'|x]].
  - unfold forward_pass.
    destruct (eng_embed _ _ _ _ _) as [e0|x].
    + cbv zeta.
      match goal with |- context [embed_texts E k h nz r ?w1] =>
        assert (Hn1 : count_events is_forward w1 = S (count_events is_forward w))
          by reflexivity;
        specialize (IH w1); destruct (embed_texts E k h nz r w1) as [w' [es'|x]]
      end; cbn [fst] in *; lia.
    + cbn [fst].
      match goal with |- (_ <= count_events is_forward ?w1)%nat =>
        assert (Hn1 : count_events is_forward w1 = S (count_events is_forward w))
          by reflexivity end.
      lia.
Qed.

(** A request for cached texts only is answered from the cache. *)
Lemma embed_texts_all_cached E k h nz texts w text e :
  cache_of w !! fingerprint k text nz = Some e ->
  Forall (fun t => t = text) texts ->
  snd (embed_texts E k h nz texts w) = Ok (map (fun _ => e) texts).
Proof.
  intros Hc Hall. revert w Hc.
  induction Hall as [|t r -> Hr IH]; intros w Hc; [done|].
  rewrite embed_texts_cons, Hc.
  specialize (IH (emit (EvCacheHit k text (clock w)) w) Hc).
  destruct (embed_texts E k h nz r _) as [w' [es'|x]]; simpl in *; congruence.
Qed.

(** C8, as the code has it.  Two requests in a row, single or batch,
    whose identifiers resolve to the same model, with the same flag, the
    first of which succeeds.  A text of the first request is in the
    cache after it whenever the cache had room for all the texts of that
    request when it arrived.  For a text whose fingerprint the first
    request leaves in the cache: the cached vector is the one the first
    request returned for it; the second request keeps it in the cache,
    returns the very same vector for it when it succeeds, and runs
    forward passes for its other texts only; a second request for
    nothing but this text succeeds and runs no forward pass. *)
Theorem repeated_embedding_served_from_cache (E : Engine) (cfg : ServerConfig)
    (t0 : Z) (ops : list Op) (texts1 texts2 : list string)
    (ident1 ident2 : option string) (text : string) (nz : bool)
    (v1 : list ndarray) (k : string) (d : Z) :
  let w := run E ops (World_init cfg t0) in
  let w1 := fst (generate_embeddings E texts1 ident1 nz w) in
  let w2 := fst (generate_embeddings E texts2 ident2 nz w1) in
  snd (generate_embeddings E texts1 ident1 nz w) = Ok (v1, k, d) ->
  _resolve_model_name cfg ident2 = Ok k ->
  ((size (cache_of w) + length texts1 <= CACHE_CAPACITY)%nat ->
   In text texts1 ->
   is_Some (cache_of w1 !! fingerprint k text nz))
  /\ forall e,
       cache_of w1 !! fingerprint k text nz = Some e ->
       (forall i, texts1 !! i = Some text -> v1 !! i = Some e)
       /\ cache_of w2 !! fingerprint k text nz = Some e
       /\ (count_events is_forward w2
           <= count_events is_forward w1
              + length (List.filter (fun t => negb (String.eqb t text)) texts2))%nat
       /\ (forall v2 k2 d2,
             snd (generate_embeddings E texts2 ident2 nz w1) = Ok (v2, k2, d2) ->
             k2 = k /\ d2 = d
             /\ forall j, texts2 !! j = Some text -> v2 !! j = Some e)
       /\ (Forall (fun t => t = text) texts2 ->
           snd (generate_embeddings E texts2 ident2 nz w1)
           = Ok (map (fun _ => e) texts2, k, d)
           /\ count_events is_forward w2 = count_events is_forward w1).
Proof.
  intros w w1 w2 Hg Hres2.
  pose proof (run_slots_ok E cfg t0 ops) as Hok. fold w in Hok.
  assert (Hcfg : config (model_manager w) = cfg) by apply run_config.
  pose proof (generate_embeddings_ok_load _ _ _ _ _ _ _ _ Hg) as Hl.
  pose proof (load_model_ok_ready E ident1 w k Hok Hl) as Hrd.
  pose proof (load_model_cache_size E ident1 w) as Hsz.
  assert (Hok1 : slots_ok w1) by apply (exec_slots_ok E (OpEmbed texts1 ident1 nz) w Hok).
  assert (Hcfg1 : config (model_manager w1) = cfg).
  { unfold w1. by rewrite generate_embeddings_config. }
  destruct (generate_embeddings_loaded E texts1 ident1 nz w k Hok Hl) as (h & Hh & Hgen).
  set (wl := _update_last_used k (fst (load_model E ident1 w))) in *.
  destruct (OD.get k AVAILABLE_MODELS) as [info|] eqn:Hinfo.
  2: { rewrite Hgen in Hg. by destruct texts1. }
  (* the first request *)
  assert (Hfirst : is_ready k (model_manager w1) = true
            /\ d = embedding_dim info
            /\ ((size (cache_of w) + length texts1 <= CACHE_CAPACITY)%nat ->
                In text texts1 ->
                is_Some (cache_of w1 !! fingerprint k text nz))
            /\ (forall e i, cache_of w1 !! fingerprint k text nz = Some e ->
                  texts1 !! i = Some text -> v1 !! i = Some e)).
  { unfold w1. rewrite Hgen in Hg |- *. destruct texts1 as [|t1 r1].
    { simpl in Hg. injection Hg as <- <-. simpl. repeat split; done. }
    pose proof (embed_texts_stores E k h nz (t1 :: r1) wl) as Hst.
    pose proof (embed_texts_returns_cached E k h nz (t1 :: r1) wl) as Hret.
    pose proof (embed_texts_slots E k h nz (t1 :: r1) wl) as [Hm1 Hs1].
    destruct (embed_texts E k h nz (t1 :: r1) wl) as [w' [es|x]]; [|done].
    simpl in Hg. injection Hg as <- <-. cbn [fst snd] in *.
    split.
    { unfold is_ready in *. rewrite Hm1, Hs1. exact Hrd. }
    split; [done|]. split.
    - intros Hroom Hin. apply (Hst es text); [|done|done].
      change (cache_of wl) with (cache_of (fst (load_model E ident1 w))). lia.
    - intros e i Hc Hi. by apply (Hret es text e i). }
  destruct Hfirst as (Hrd1 & -> & Hroom & Hvals).
  split; [exact Hroom|].
  intros e Hc.
  split; [intros i Hi; by apply (Hvals e i)|].
  (* the second request finds the model READY *)
  assert (Hl2 : load_model E ident2 w1 = (w1, Ok k)).
  { apply load_model_fast; [by rewrite Hcfg1|exact Hrd1]. }
  assert (Hl2' : snd (load_model E ident2 w1) = Ok k) by (by rewrite Hl2).
  destruct (generate_embeddings_loaded E texts2 ident2 nz w1 k Hok1 Hl2')
    as (h2 & Hh2 & Hgen2).
  rewrite Hl2 in Hgen2. simpl fst in Hgen2. rewrite Hinfo in Hgen2.
  set (wu := _update_last_used k w1) in *.
  assert (Hcu : cache_of wu !! fingerprint k text nz = Some e) by exact Hc.
  assert (Hnu : count_events is_forward wu = count_events is_forward w1) by reflexivity.
  unfold w2. rewrite Hgen2.
  destruct texts2 as [|t2 r2].
  { simpl. split; [done|]. split; [lia|]. split.
    - intros va ka da [= <- <- <-]. done.
    - done. }
  pose proof (embed_texts_cache_mono E k h2 nz (t2 :: r2) wu _ _ Hcu) as Hmono.
  pose proof (embed_texts_forward_bound E k h2 nz (t2 :: r2) wu text e Hcu) as Hfw.
  pose proof (embed_texts_forward_mono E k h2 nz (t2 :: r2) wu) as Hge.
  pose proof (embed_texts_returns_cached E k h2 nz (t2 :: r2) wu) as Hret.
  pose proof (embed_texts_all_cached E k h2 nz (t2 :: r2) wu text e Hcu) as Hall.
  destruct (embed_texts E k h2 nz (t2 :: r2) wu) as [w' [es|x]]; cbn [fst snd] in *.
  - split; [exact Hmono|]. split; [lia|]. split.
    + intros va ka da [= <- <- <-]. split; [done|]. split; [done|].
      intros j Hj. by apply (Hret es text e j).
    + intros Hf. specialize (Hall Hf). injection Hall as ->. split; [done|].
      assert (Hz : List.filter (fun t => negb (String.eqb t text)) (t2 :: r2) = []).
      { clear -Hf. induction Hf as [|t r -> Hr IH]; [done|].
        simpl. by rewrite String.eqb_refl. }
      rewrite Hz in Hfw. simpl in Hfw.
      lia.
  - split; [exact Hmono|]. split; [lia|]. split; [done|].
    intros Hf. by specialize (Hall Hf).
Qed.

Lemma repeated_embedding_served_from_cache_witness :
  snd (generate_embeddings sample_engine ["hello"] (Some "small") true
         (fst (generate_embeddings sample_engine ["hello"; "world"] None true
                 (run sample_engine [] (World_init default_config 100)))))
  = Ok ([[2]], DEFAULT_MODEL, 1024).
Proof.
  assert (Hg : snd (generate_embeddings sample_engine ["hello"; "world"] None true
                      (run sample_engine [] (World_init default_config 100)))
               = Ok ([[2]; [3]], DEFAULT_MODEL, 1024)) by (vm_compute; reflexivity).
  assert (Hres : _resolve_model_name default_config (Some "small") = Ok DEFAULT_MODEL)
    by reflexivity.
  pose proof (repeated_embedding_served_from_cache sample_engine default_config 100 []
                ["hello"; "world"] ["hello"] None (Some "small") "hello" true
                [[2]; [3]] DEFAULT_MODEL 1024 Hg Hres) as H.
  cbv zeta in H. destruct H as [Hroom Hsecond].
  assert (Hsz : (size (cache_of (run sample_engine [] (World_init default_config 100)))
                 + length ["hello"; "world"] <= CACHE_CAPACITY)%nat).
  { apply Nat.leb_le. vm_compute. reflexivity. }
  destruct (Hroom Hsz ltac:(by left)) as [e He].
  destruct (Hsecond e He) as (Hv & _ & _ & _ & Hall).
  pose proof (Hv 0%nat eq_refl) as H0. injection H0 as <-.
  exact (proj1 (Hall ltac:(by repeat constructor))).
Defined.

(** The claim of C8 as it stands is false when the cache is full: the
    first request computes its vector and cannot store it, so the second
    request runs the forward pass again (1004 forward passes after it,
    1003 before) and here gets another vector. *)
Lemma repeated_embedding_counterexample :
  let w := full_cache_world in
  let w1 := fst (generate_embeddings sample_engine ["zz"] None true w) in
  let w2 := fst (generate_embeddings sample_engine ["zz"] None true w1) in
  size (cache_of w) = 1000%nat
  /\ snd (generate_embeddings sample_engine ["zz"] None true w)
     = Ok ([[1002]], DEFAULT_MODEL, 1024)
  /\ snd (generate_embeddings sample_engine ["zz"] None true w1)
     = Ok ([[1003]], DEFAULT_MODEL, 1024)
  /\ count_events is_forward w1 = 1003%nat
  /\ count_events is_forward w2 = 1004%nat.
Proof.
  intros w w1 w2.
  assert (H : (size (cache_of w),
               snd (generate_embeddings sample_engine ["zz"] None true w),
               snd (generate_embeddings sample_engine ["zz"] None true w1),
               count_events is_forward w1, count_events is_forward w2)
              = (1000%nat, Ok ([[1002]], DEFAULT_MODEL, 1024),
                 Ok ([[1003]], DEFAULT_MODEL, 1024), 1003%nat, 1004%nat))
    by (vm_compute; reflexivity).
  apply tuple5_inv in H. destruct H as (H1 & H2 & H3 & H4 & H5).
  split; [exact H1|]. split; [exact H2|]. split; [exact H3|].
  split; [exact H4|exact H5].
Qed.


(** ** Stamps, the clock and the idle loop *)

Lemma quiet_step_refl w : quiet_step w w.
Proof. repeat split; try lia. by exists []. Qed.

Lemma quiet_step_trans w1 w2 w3 :
  quiet_step w1 w2 -> quiet_step w2 w3 -> quiet_step w1 w3.
Proof.
  intros (Hc1 & Hl1 & Hg1 & evs1 & Ht1 & Hq1) (Hc2 & Hl2 & Hg2 & evs2 & Ht2 & Hq2).
  split; [lia|]. split; [congruence|]. split; [congruence|].
  exists (evs2 ++ evs1)%list. split.
  - by rewrite Ht2, Ht1, app_assoc.
  - rewrite forallb_app. by rewrite Hq1, Hq2.
Qed.

Lemma quiet_emit e w : quiet e = true -> quiet_step w (emit e w).
Proof.
  intros He. repeat split; simpl; try lia. exists [e]. simpl. by rewrite He.
Qed.

Lemma quiet_advance d w : quiet_step w (advance d w).
Proof. repeat split; simpl; try lia. by exists []. Qed.

Lemma idle_ok_quiet ttl evs tr :
  forallb quiet evs = true -> idle_ok ttl tr -> idle_ok ttl (evs ++ tr)%list.
Proof.
  induction evs as [|e evs IH]; intros Hq Htr; simpl; [done|].
  simpl in Hq. apply andb_true_iff in Hq as [He Hq].
  split; [|by apply IH]. by destruct e.
Qed.

Lemma In_stamp_quiet k t evs tr :
  forallb quiet evs = true -> In (EvStamp k t) (evs ++ tr)%list -> In (EvStamp k t) tr.
Proof.
  induction evs as [|e evs IH]; intros Hq Hin; simpl in *; [done|].
  apply andb_true_iff in Hq as [He Hq].
  destruct Hin as [->|Hin]; [done|]. by apply IH.
Qed.

Lemma time_ok_quiet w w' : time_ok w -> quiet_step w w' -> time_ok w'.
Proof.
  intros [Hnd Hpast Hst Hidle] (Hc & Hl & Hg & evs & Ht & Hq).
  split.
  - by rewrite Hl.
  - intros k lu Hk. rewrite Hl in Hk. specialize (Hpast k lu Hk). lia.
  - intros k t Hin. rewrite Ht in Hin. apply (In_stamp_quiet k t evs) in Hin; [|done].
    destruct (Hst k t Hin) as [H1 H2]. split; [lia|]. by rewrite Hl.
  - unfold ttl_of. rewrite Hg, Ht. by apply idle_ok_quiet.
Qed.

Lemma time_ok_stamp k w : time_ok w -> time_ok (_update_last_used k w).
Proof.
  intros [Hnd Hpast Hst Hidle]. split; unfold last_used_of in *; simpl.
  - by apply od_NoDup_set.
  - intros k' lu Hk'. destruct (decide (k = k')) as [->|Hne].
    + rewrite od_get_set_eq in Hk'. injection Hk' as <-. lia.
    + rewrite od_get_set_ne in Hk' by done. by apply (Hpast k' lu).
  - intros k' t [Heq|Hin].
    + injection Heq as <- <-. split; [lia|].
      intros lu. rewrite od_get_set_eq. intros [= <-]. lia.
    + destruct (Hst k' t Hin) as [H1 H2]. split; [done|].
      intros lu. destruct (decide (k = k')) as [->|Hne].
      * rewrite od_get_set_eq. by intros [= <-].
      * rewrite od_get_set_ne by done. apply H2.
  - split; [done|exact Hidle].
Qed.

Lemma quiet_mm_only f w :
  _last_used (f (model_manager w)) = _last_used (model_manager w) ->
  config (f (model_manager w)) = config (model_manager w) ->
  quiet_step w (on_mm f w).
Proof.
  intros Hl Hc. unfold quiet_step, last_used_of. simpl.
  split; [lia|]. split; [done|]. split; [done|]. by exists [].
Qed.

Lemma quiet_rm_only f w : quiet_step w (on_rm f w).
Proof. unfold quiet_step, last_used_of. simpl. repeat split; try lia. by exists []. Qed.

Lemma unload_quiet e w : quiet_step w (_unload_model e w).
Proof.
  unfold _unload_model. destruct (negb _); [apply quiet_step_refl|].
  unfold quiet_step, last_used_of. simpl.
  split; [lia|]. split; [done|]. split; [done|]. by eexists [_].
Qed.

Lemma manage_quiet k w : quiet_step w (_manage_memory k w).
Proof.
  rewrite manage_memory_victim. destruct (victim _ _); [|apply quiet_step_refl].
  apply unload_quiet.
Qed.

Lemma mm_load_quiet E k w : quiet_step w (fst (mm_load E k w)).
Proof.
  destruct (mm_load_cases E k w) as [[h [_ ->]]|[e [-> _]]];
    unfold quiet_step, last_used_of; simpl.
  - split; [lia|]. split; [done|]. split; [done|]. by eexists [_; _].
  - split; [lia|]. split; [done|]. split; [done|]. by eexists [_].
Qed.

Lemma forward_pass_quiet E k h text nz w :
  quiet_step w (fst (forward_pass E k h text nz w)).
Proof.
  unfold quiet_step, last_used_of, forward_pass. simpl.
  split; [lia|]. split; [done|]. split; [done|]. by eexists [_].
Qed.

Lemma warmup_texts_quiet E k h texts w : quiet_step w (warmup_texts E k h texts w).
Proof.
  revert w. induction texts as [|t r IH]; intros w; simpl; [apply quiet_step_refl|].
  pose proof (forward_pass_quiet E k h t false w) as Hf.
  unfold forward_pass in Hf. simpl in Hf.
  destruct (eng_embed _ _ _ _ _); [|exact Hf].
  eapply quiet_step_trans; [exact Hf|apply IH].
Qed.

Lemma warmup_quiet E k w : quiet_step w (_warmup E k w).
Proof.
  unfold _warmup. destruct (OD.get _ _); [|apply quiet_step_refl].
  apply warmup_texts_quiet.
Qed.

Lemma embed_texts_quiet E k h nz texts w :
  quiet_step w (fst (embed_texts E k h nz texts w)).
Proof.
  revert w. induction texts as [|t r IH]; intros w; simpl; [apply quiet_step_refl|].
  destruct (_embedding_cache (model_manager w) !! fingerprint k t nz) as [e|] eqn:Hc.
  - specialize (IH (emit (EvCacheHit k t (clock w)) w)).
    assert (Hq : quiet_step w (emit (EvCacheHit k t (clock w)) w)) by by apply quiet_emit.
    destruct (embed_texts E k h nz r _) as [w' [es|x]]; simpl in *;
      by eapply quiet_step_trans.
  - pose proof (forward_pass_quiet E k h t nz w) as Hf.
    unfold forward_pass in Hf. simpl in Hf.
    destruct (eng_embed _ _ _ _ _) as [e|x]; [|exact Hf].
    match goal with |- context [embed_texts E k h nz r ?w1] =>
      assert (Hq : quiet_step w w1);
      [eapply quiet_step_trans; [exact Hf|];
       unfold quiet_step, last_used_of; simpl;
       split; [lia|]; split; [done|]; split; [done|]; by eexists [_]|];
      specialize (IH w1); destruct (embed_texts E k h nz r w1) as [w' [es|x]] end;
      simpl in *; by eapply quiet_step_trans.
Qed.

Lemma load_model_time_ok E ident w : time_ok w -> time_ok (fst (load_model E ident w)).
Proof.
  intros Hok.
  destruct (_resolve_model_name (config (model_manager w)) ident) as [k|e] eqn:Hres.
  2: { by rewrite (load_model_unknown E ident w e). }
  destruct (is_ready k (model_manager w)) eqn:Hr.
  { by rewrite (load_model_fast E ident w k). }
  rewrite (load_model_slow E ident w k) by done.
  set (wb := begin_load k (on_mm (set_locks (ensure_lock k)) w)).
  assert (Hb : quiet_step w wb).
  { unfold quiet_step, last_used_of, wb. simpl.
    split; [lia|]. split; [done|]. split; [done|]. by exists []. }
  assert (Hm : quiet_step w (_manage_memory k wb)).
  { eapply quiet_step_trans; [exact Hb|apply manage_quiet]. }
  assert (Hl : quiet_step w (fst (mm_load E k (_manage_memory k wb)))).
  { eapply quiet_step_trans; [exact Hm|apply mm_load_quiet]. }
  destruct (mm_load E k (_manage_memory k wb)) as [w2 [e|]]; simpl in *.
  - eapply time_ok_quiet; [exact Hok|].
    eapply quiet_step_trans; [exact Hl|].
    unfold quiet_step, last_used_of. simpl.
    split; [lia|]. split; [done|]. split; [done|]. by exists [].
  - unfold finish_load. apply time_ok_stamp.
    eapply time_ok_quiet; [exact Hok|].
    eapply quiet_step_trans; [exact Hl|].
    eapply quiet_step_trans; [apply (warmup_quiet E k)|].
    unfold quiet_step, last_used_of. simpl.
    split; [lia|]. split; [done|]. split; [done|]. by exists [].
Qed.

Lemma generate_embeddings_time_ok E texts ident nz w :
  time_ok w -> time_ok (fst (generate_embeddings E texts ident nz w)).
Proof.
  intros Hok. unfold generate_embeddings.
  pose proof (load_model_time_ok E ident w Hok) as Hl.
  destruct (load_model E ident w) as [w1 [k|e]]; simpl in Hl; [|done].
  pose proof (time_ok_stamp k w1 Hl) as Hu.
  destruct (negb _); [done|].
  destruct texts as [|t r].
  { by destruct (OD.get k AVAILABLE_MODELS). }
  destruct (OD.get k (models _)) as [h|]; [|done].
  destruct (OD.get k AVAILABLE_MODELS); [|done].
  pose proof (embed_texts_quiet E k h nz (t :: r) (_update_last_used k w1)) as He.
  destruct (embed_texts E k h nz (t :: r) _) as [w' [es|x]]; simpl in *;
    by eapply time_ok_quiet.
Qed.

Lemma od_get_del_Some {V} (d : list (string * V)) k e v :
  NoDup (OD.keys d) -> OD.get k (OD.del e d) = Some v -> OD.get k d = Some v.
Proof.
  intros Hnd Hg. destruct (decide (e = k)) as [->|Hne].
  - by rewrite od_get_del_eq in Hg.
  - by rewrite od_get_del_ne in Hg.
Qed.

Lemma od_In_get {V} (d : list (string * V)) k v :
  NoDup (OD.keys d) -> In (k, v) d -> OD.get k d = Some v.
Proof.
  induction d as [|[k0 v0] d IH]; simpl; [done|].
  intros Hnd [Heq|Hin].
  - injection Heq as -> ->. by rewrite String.eqb_refl.
  - apply NoDup_cons in Hnd as [Hnin Hnd].
    destruct (String.eqb_spec k k0) as [->|Hne]; [|by apply IH].
    exfalso. apply Hnin. apply list_elem_of_In.
    change k0 with (fst (k0, v)). by apply in_map.
Qed.

(** What the scan of the idle loop selects: resident models whose stamp
    is at least the TTL old. *)
Lemma models_to_unload_spec w name idle :
  NoDup (OD.keys (last_used_of w)) ->
  In (name, idle) (models_to_unload w) ->
  exists lu, OD.get name (last_used_of w) = Some lu
             /\ ttl_of w <= clock w - lu
             /\ OD.mem name (models (model_manager w)) = true.
Proof.
  intros Hnd Hin. unfold models_to_unload in Hin.
  apply in_flat_map in Hin as [[n lu] [Hitem Hsel]].
  destruct (OD.mem n (models (model_manager w))) eqn:Hm; [|done].
  destruct (Z.leb_spec (ticks (idle_ttl_seconds (config (model_manager w))))
              (clock w - lu))
    as [Hle|Hgt]; [|done].
  destruct Hsel as [Heq|[]]. injection Heq as -> <-.
  exists lu. split; [by apply od_In_get|]. split; [exact Hle|exact Hm].
Qed.

Lemma unload_idle_time_ok w0 item lu :
  time_ok w0 ->
  ttl_of w0 <= clock w0 - lu ->
  (forall t, In (EvStamp (fst item) t) (trace w0) -> t <= lu) ->
  time_ok (unload_idle w0 item).
Proof.
  intros Hok Httl Hst.
  pose proof (unload_quiet (fst item) w0) as Hq.
  pose proof (time_ok_quiet _ _ Hok Hq) as [Hnd Hpast Hstamps Hidle].
  destruct Hq as (Hc & Hl & Hg & evs & Ht & Hqe).
  unfold unload_idle. split; unfold last_used_of, ttl_of in *; simpl.
  - by apply od_NoDup_del.
  - intros k lu' Hk. apply od_get_del_Some in Hk; [|done]. by apply (Hpast k lu').
  - intros k t [Heq|Hin]; [done|].
    destruct (Hstamps k t Hin) as [H1 H2]. split; [done|].
    intros lu' Hk. apply od_get_del_Some in Hk; [|done]. by apply H2.
  - split; [|exact Hidle].
    intros t Hin. rewrite Ht in Hin.
    apply (In_stamp_quiet _ t evs) in Hin; [|done].
    specialize (Hst t Hin). rewrite unload_model_clock, Hg. lia.
Qed.

Lemma unload_idle_frame w0 item :
  clock (unload_idle w0 item) = clock w0
  /\ ttl_of (unload_idle w0 item) = ttl_of w0
  /\ forall k t, In (EvStamp k t) (trace (unload_idle w0 item)) ->
                 In (EvStamp k t) (trace w0).
Proof.
  destruct (unload_quiet (fst item) w0) as (Hc & Hl & Hg & evs & Ht & Hqe).
  unfold unload_idle, ttl_of. simpl.
  split; [apply unload_model_clock|]. split; [by rewrite Hg|].
  intros k t [Heq|Hin]; [done|].
  rewrite Ht in Hin. by apply (In_stamp_quiet k t evs) in Hin.
Qed.

Lemma ttl_check_time_ok w : time_ok w -> time_ok (ttl_check w).
Proof.
  intros Hok. unfold ttl_check.
  assert (Hsel : forall item, In item (models_to_unload w) ->
            exists lu, ttl_of w <= clock w - lu
                       /\ forall t, In (EvStamp (fst item) t) (trace w) -> t <= lu).
  { intros [name idle] Hin.
    destruct (models_to_unload_spec w name idle (time_nodup w Hok) Hin)
      as (lu & Hlu & Httl & _).
    exists lu. split; [done|]. intros t Ht.
    by apply (time_stamps w Hok name t Ht). }
  revert Hsel. generalize (models_to_unload w). intros l Hsel.
  assert (Hgen : forall w0,
            time_ok w0 -> clock w0 = clock w -> ttl_of w0 = ttl_of w ->
            (forall k t, In (EvStamp k t) (trace w0) -> In (EvStamp k t) (trace w)) ->
            time_ok (fold_left unload_idle l w0)).
  { induction l as [|item l IH]; intros w0 H0 Hc Ht Hs; simpl; [done|].
    destruct (Hsel item (or_introl eq_refl)) as (lu & Httl & Hlu).
    destruct (unload_idle_frame w0 item) as (Hc' & Ht' & Hs').
    apply IH.
    - intros it Hit. apply Hsel. by right.
    - apply (unload_idle_time_ok w0 item lu); [done|rewrite Hc, Ht; done|].
      intros t Hin. apply Hlu. by apply Hs.
    - congruence.
    - congruence.
    - intros k t Hin. apply Hs. by apply Hs'. }
  by apply Hgen.
Qed.

(** The reranker takes no stamp of the embedding manager. *)
Ltac quiet_by_computation :=
  unfold quiet_step, last_used_of; simpl;
  split; [lia|]; split; [done|]; split; [done|];
  first [by exists [] | by eexists [_] | by eexists [_; _]].

Lemma r_unload_quiet e w : quiet_step w (r_unload_model e w).
Proof.
  unfold r_unload_model. destruct (negb _); [apply quiet_step_refl|].
  quiet_by_computation.
Qed.

Lemma r_manage_quiet k w : quiet_step w (r_manage_memory k w).
Proof.
  unfold r_manage_memory. destruct (_ <=? _)%nat; [|apply quiet_step_refl].
  destruct (List.filter _ _); [apply quiet_step_refl|]. apply r_unload_quiet.
Qed.

Lemma rm_load_quiet E k w : quiet_step w (fst (rm_load E k w)).
Proof.
  unfold rm_load, call_load.
  destruct (eng_load E k _) as [h b|e]; [|quiet_by_computation].
  destruct (eng_token_ids E h); quiet_by_computation.
Qed.

Lemma r_warmup_quiet E k w : quiet_step w (r_warmup E k w).
Proof.
  unfold r_warmup. destruct (OD.get _ _); [|apply quiet_step_refl].
  destruct (_ !! _); [|apply quiet_step_refl]. quiet_by_computation.
Qed.

Lemma r_load_model_quiet E ident w : quiet_step w (fst (r_load_model E ident w)).
Proof.
  unfold r_load_model.
  destruct (r_resolve_model_name ident) as [k|e]; [|apply quiet_step_refl].
  destruct (r_is_ready k _); [apply quiet_step_refl|].
  match goal with |- context [rm_load E k ?w1] =>
    assert (H1 : quiet_step w w1);
    [eapply quiet_step_trans; [|apply r_manage_quiet]; quiet_by_computation|];
    pose proof (rm_load_quiet E k w1) as H2;
    destruct (rm_load E k w1) as [w2 [e|]] end; simpl in *.
  - eapply quiet_step_trans; [exact H1|].
    eapply quiet_step_trans; [exact H2|]. quiet_by_computation.
  - eapply quiet_step_trans; [exact H1|].
    eapply quiet_step_trans; [exact H2|].
    eapply quiet_step_trans; [apply (r_warmup_quiet E k)|].
    unfold r_finish_load. quiet_by_computation.
Qed.

Lemma score_documents_quiet E h ids ml q ins idx docs w :
  quiet_step w (fst (score_documents E h ids ml q ins idx docs w)).
Proof.
  revert idx w. induction docs as [|d r IH]; intros idx w; simpl;
    [apply quiet_step_refl|].
  unfold score_document.
  destruct (eng_score E h _ ids) as [sc|x];
    match goal with |- context [score_documents E h ids ml q ins (S idx) r ?w1] =>
      specialize (IH (S idx) w1);
      destruct (score_documents E h ids ml q ins (S idx) r w1) as [w2 rs] end;
    simpl in *; (eapply quiet_step_trans; [|exact IH]); quiet_by_computation.
Qed.

Lemma rerank_quiet E q docs ident ins top_k w :
  quiet_step w (fst (rerank E q docs ident ins top_k w)).
Proof.
  unfold rerank. pose proof (r_load_model_quiet E ident w) as Hl.
  destruct (r_load_model E ident w) as [w1 [k|e]]; simpl in Hl; [|done].
  assert (Hu : quiet_step w (on_rm (r_set_last_used (OD.set k (clock w1))) w1)).
  { eapply quiet_step_trans; [exact Hl|]. quiet_by_computation. }
  destruct docs as [|d r]; [done|].
  destruct (OD.get k _) as [h|]; [|done].
  destruct (_ !! k) as [ids|]; [|done].
  destruct (OD.get k AVAILABLE_RERANKER_MODELS) as [info|]; [|done].
  match goal with |- context [score_documents E h ids ?ml q ins 0 (d :: r) ?w2] =>
    pose proof (score_documents_quiet E h ids ml q ins 0%nat (d :: r) w2) as Hs;
    destruct (score_documents E h ids ml q ins 0 (d :: r) w2) as [w3 rs] end.
  simpl in *. by eapply quiet_step_trans.
Qed.

Lemma exec_time_ok E o w : time_ok w -> time_ok (exec E o w).
Proof.
  intros H. destruct o as [ident|texts ident nz|q docs ident ins top_k|late|d]; simpl.
  - by apply load_model_time_ok.
  - by apply generate_embeddings_time_ok.
  - eapply time_ok_quiet; [exact H|apply rerank_quiet].
  - unfold ttl_iteration. destruct (0 <? _); [|done].
    apply ttl_check_time_ok. eapply time_ok_quiet; [exact H|apply quiet_advance].
  - eapply time_ok_quiet; [exact H|apply quiet_advance].
Qed.

Lemma init_time_ok cfg t0 : time_ok (World_init cfg t0).
Proof.
  split; unfold last_used_of; simpl; try done.
  apply NoDup_nil_2.
Qed.

Lemma run_time_ok E cfg t0 ops : time_ok (run E ops (World_init cfg t0)).
Proof. apply run_invariant; [apply exec_time_ok|apply init_time_ok]. Qed.

Lemma idle_ok_split ttl l1 k t' l2 t :
  idle_ok ttl (l1 ++ EvIdleUnload k t' :: l2)%list ->
  In (EvStamp k t) l2 -> ttl <= t' - t.
Proof.
  induction l1 as [|e l1 IH]; simpl.
  - intros [H _] Hin. by apply H.
  - intros [_ H] Hin. by apply IH.
Qed.

Lemma load_model_stamp E ident w k :
  snd (load_model E ident w) = Ok k ->
  is_ready k (model_manager w) = false ->
  OD.get k (last_used_of (fst (load_model E ident w)))
  = Some (clock (fst (load_model E ident w)))
  /\ In (EvStamp k (clock (fst (load_model E ident w))))
        (trace (fst (load_model E ident w))).
Proof.
  intros Hl Hnr. pose proof (load_model_ok_inv _ _ _ _ Hl) as Hres.
  revert Hl. rewrite (load_model_slow E ident w k) by done.
  destruct (mm_load E k _) as [w2 [e|]]; [done|]. intros _. simpl.
  unfold last_used_of. simpl. rewrite od_get_set_eq. split; [done|]. by left.
Qed.

Lemma generate_embeddings_stamp E texts ident nz w k :
  slots_ok w ->
  snd (load_model E ident w) = Ok k ->
  OD.get k (last_used_of (fst (generate_embeddings E texts ident nz w)))
  = Some (clock (fst (load_model E ident w)))
  /\ In (EvStamp k (clock (fst (load_model E ident w))))
        (trace (fst (generate_embeddings E texts ident nz w))).
Proof.
  intros Hok Hl.
  destruct (generate_embeddings_loaded E texts ident nz w k Hok Hl) as (h & _ & Hg).
  set (wl := _update_last_used k (fst (load_model E ident w))) in *.
  assert (Hbase : OD.get k (last_used_of wl) = Some (clock (fst (load_model E ident w)))
                  /\ In (EvStamp k (clock (fst (load_model E ident w)))) (trace wl)).
  { unfold wl, last_used_of. simpl. rewrite od_get_set_eq. split; [done|]. by left. }
  assert (Hq : forall w', quiet_step wl w' ->
            OD.get k (last_used_of w') = Some (clock (fst (load_model E ident w)))
            /\ In (EvStamp k (clock (fst (load_model E ident w)))) (trace w')).
  { intros w' (_ & Hlu & _ & evs & Ht & _). rewrite Hlu, Ht.
    split; [apply Hbase|]. apply in_or_app. right. apply Hbase. }
  rewrite Hg. destruct texts as [|t r].
  - destruct (OD.get k AVAILABLE_MODELS); exact Hbase.
  - destruct (OD.get k AVAILABLE_MODELS); [|exact Hbase].
    pose proof (embed_texts_quiet E k h nz (t :: r) wl) as He.
    destruct (embed_texts E k h nz (t :: r) wl) as [w' [es|x]]; by apply Hq.
Qed.

(** C2, as the code has it.  The timestamp of a model is taken when a
    load of it completes and when a request for it is admitted (right
    after [load_model] returns), not at the cache hits and misses that
    follow in the request.  In every world that a run reaches: a stamp
    is never ahead of the clock and never later than the recorded
    timestamp of its model; every idle unload of a model comes at least
    [idle_ttl_seconds] after every earlier stamp of that model; a
    completed load leaves the timestamp at the time of its completion;
    and a request leaves the timestamp at the time of its admission,
    whatever it does afterwards. *)
Theorem last_used_is_stamped_at_admission (E : Engine) (cfg : ServerConfig)
    (t0 : Z) (ops : list Op) :
  let w := run E ops (World_init cfg t0) in
  (forall k t, In (EvStamp k t) (trace w) ->
     t <= clock w
     /\ forall lu, OD.get k (last_used_of w) = Some lu -> t <= lu /\ lu <= clock w)
  /\ (forall l1 l2 k t',
        trace w = (l1 ++ EvIdleUnload k t' :: l2)%list ->
        forall t, In (EvStamp k t) l2 -> ticks (idle_ttl_seconds cfg) <= t' - t)
  /\ (forall ident k,
        snd (load_model E ident w) = Ok k ->
        is_ready k (model_manager w) = false ->
        OD.get k (last_used_of (fst (load_model E ident w)))
        = Some (clock (fst (load_model E ident w)))
        /\ In (EvStamp k (clock (fst (load_model E ident w))))
              (trace (fst (load_model E ident w))))
  /\ (forall texts ident nz k,
        snd (load_model E ident w) = Ok k ->
        OD.get k (last_used_of (fst (generate_embeddings E texts ident nz w)))
        = Some (clock (fst (load_model E ident w)))
        /\ In (EvStamp k (clock (fst (load_model E ident w))))
              (trace (fst (generate_embeddings E texts ident nz w)))).
Proof.
  intros w.
  pose proof (run_time_ok E cfg t0 ops) as Hok. fold w in Hok.
  pose proof (run_slots_ok E cfg t0 ops) as Hslots. fold w in Hslots.
  assert (Hcfg : config (model_manager w) = cfg) by apply run_config.
  split; [|split; [|split]].
  - intros k t Hin. destruct (time_stamps w Hok k t Hin) as [H1 H2].
    split; [exact H1|]. intros lu Hlu. split; [by apply H2|].
    by apply (time_past w Hok k lu).
  - intros l1 l2 k t' Htr t Hin.
    pose proof (time_idle w Hok) as Hidle. unfold ttl_of in Hidle.
    rewrite Hcfg, Htr in Hidle. by apply (idle_ok_split _ l1 k t' l2 t).
  - intros ident k Hl Hnr. by apply load_model_stamp.
  - intros texts ident nz k Hl. by apply generate_embeddings_stamp.
Qed.

Lemma last_used_is_stamped_at_admission_witness :
  ticks (idle_ttl_seconds default_config) <= (100 + ticks 468) - (100 + ticks 7).
Proof.
  pose proof (last_used_is_stamped_at_admission sample_engine default_config 100
                [OpEmbed ["a"] None true; OpWait (secs 400); OpTtl 0]) as H.
  cbv zeta in H. destruct H as (_ & H & _).
  apply (H [] (tl (trace (run sample_engine
                            [OpEmbed ["a"] None true; OpWait (secs 400); OpTtl 0]
                            (World_init default_config 100))))
           DEFAULT_MODEL).
  - vm_compute. reflexivity.
  - vm_compute. do 4 right. left. reflexivity.
Defined.

(** The claim of C2 as it stands is false for the cache accesses of a
    long request.  The server starts at time 100 (in ticks).  A request
    for 300 new texts is admitted 7 seconds later and its last
    cache-populating miss happens 307 seconds after the start; the
    recorded timestamp is then the time of the admission, earlier than
    that access; and the next turn of the idle loop, 367 seconds after
    the start, unloads the model 60 seconds after that access, with an
    idle TTL of 300 seconds. *)
Lemma stamp_precedes_cache_access_counterexample :
  let w1 := run sample_engine [OpEmbed three_hundred_texts None true] sample_world in
  let w2 := run sample_engine [OpEmbed three_hundred_texts None true; OpTtl 0]
              sample_world in
  In (EvCacheMiss DEFAULT_MODEL "9;" (100 + ticks 307)) (trace w1)
  /\ OD.get DEFAULT_MODEL (last_used_of w1) = Some (100 + ticks 7)
  /\ ~ (100 + ticks 307 <= 100 + ticks 7)
  /\ In (EvIdleUnload DEFAULT_MODEL (100 + ticks 367)) (trace w2)
  /\ OD.mem DEFAULT_MODEL (models (model_manager w2)) = false
  /\ ~ (ticks (idle_ttl_seconds (config (model_manager w2)))
        <= (100 + ticks 367) - (100 + ticks 307)).
Proof.
  intros w1 w2.
  assert (H : (head (trace w1), OD.get DEFAULT_MODEL (last_used_of w1),
               head (trace w2), OD.mem DEFAULT_MODEL (models (model_manager w2)),
               idle_ttl_seconds (config (model_manager w2)))
              = (Some (EvCacheMiss DEFAULT_MODEL "9;" (100 + ticks 307)),
                 Some (100 + ticks 7),
                 Some (EvIdleUnload DEFAULT_MODEL (100 + ticks 367)), false, 300))
    by (vm_compute; reflexivity).
  apply tuple5_inv in H. destruct H as (H1 & H2 & H3 & H4 & H5).
  split; [by apply head_Some_In|]. split; [exact H2|].
  split; [unfold ticks, TICKS_PER_SECOND; lia|].
  split; [by apply head_Some_In|]. split; [exact H4|]. rewrite H5.
  unfold ticks, TICKS_PER_SECOND. lia.
Qed.

(** ** Single flight: the invariant *)

Section SingleFlight.
Context (ops : LoadOps) (laws : LoadLaws ops) (E : Engine) (k : string) (g0 : nat).

Local Abbreviation G w := (good_loads_of (op_family ops) k w).

Lemma good_loads_trace w w' : trace w' = trace w -> G w' = G w.
Proof. intros H. unfold good_loads_of, count_events. by rewrite H. Qed.

Lemma ready_same w w' :
  OD.get k (op_models ops w') = OD.get k (op_models ops w) ->
  op_status ops w' !! k = op_status ops w !! k ->
  op_is_ready ops k w' = op_is_ready ops k w.
Proof. intros Hm Hs. unfold op_is_ready, OD.mem. by rewrite Hm, Hs. Qed.

(** A task keeps what it knows when what it looks at is unchanged and
    the lock table only grows. *)
Lemma task_ok_same w w' pc :
  op_resolve ops w' = op_resolve ops w ->
  (forall b, op_locks ops w !! k = Some b -> op_locks ops w' !! k = Some b) ->
  op_status ops w' !! k = op_status ops w !! k ->
  OD.get k (op_models ops w') = OD.get k (op_models ops w) ->
  G w' = G w ->
  task_ok ops k g0 w pc -> task_ok ops k g0 w' pc.
Proof.
  intros Hr Hl Hs Hm Hg.
  pose proof (ready_same w w' Hm Hs) as Hrd.
  destruct pc as [ident|k'|k'|k'|k'|k' st|k' st|k' st|k' st|r]; simpl;
    rewrite ?Hr, ?Hs, ?Hg, ?Hrd; unfold OD.mem; rewrite ?Hm; try done.
  - intros [-> [b Hb]]. split; [done|]. exists b. by apply Hl.
  - intros [-> Hb]. split; [done|]. by apply Hl.
  - intros (-> & Hb & H1 & H2). repeat split; try done. by apply Hl.
  - intros (-> & Hb & H1 & H2). repeat split; try done. by apply Hl.
  - intros (-> & Hb & H1 & H2 & H3). repeat split; try done. by apply Hl.
  - intros (-> & Hb & H1 & H2 & H3). repeat split; try done. by apply Hl.
Qed.

(** A task outside the critical section only looks at the resolution,
    at the presence of the lock and, once returned, at readiness. *)
Lemma task_ok_outside w w' pc :
  in_cs pc = false ->
  op_resolve ops w' = op_resolve ops w ->
  (is_Some (op_locks ops w !! k) -> is_Some (op_locks ops w' !! k)) ->
  (op_is_ready ops k w = true -> op_is_ready ops k w' = true) ->
  task_ok ops k g0 w pc -> task_ok ops k g0 w' pc.
Proof.
  intros Hcs Hr Hl Hrd.
  destruct pc as [ident|k'|k'|k'|k'|k' st|k' st|k' st|k' st|r]; simpl in *;
    try done; rewrite ?Hr; try done.
  - intros [-> Hb]. split; [done|]. by apply Hl.
  - intros [[-> Hready]|Hraise]; [left|by right]. split; [done|]. by apply Hrd.
Qed.

Lemma holder_excludes s i pc :
  single_flight ops k g0 s ->
  tasks s !! i = Some pc -> in_cs pc = true ->
  forall j pcj, j <> i -> tasks s !! j = Some pcj -> in_cs pcj = false.
Proof.
  intros Hinv Hi Hcs j pcj Hne Hj.
  destruct (in_cs pcj) eqn:Hcj; [|done].
  exfalso. apply Hne. by apply (sf_excl _ _ _ _ Hinv j i pcj pc).
Qed.

Lemma in_cs_locked w pc :
  task_ok ops k g0 w pc -> in_cs pc = true -> op_locks ops w !! k = Some true.
Proof.
  destruct pc as [ident|k'|k'|k'|k'|k' st|k' st|k' st|k' st|r]; simpl; try done;
    intros H _; apply H.
Qed.

Lemma free_excludes s :
  single_flight ops k g0 s ->
  op_locks ops (world s) !! k <> Some true ->
  forall j pcj, tasks s !! j = Some pcj -> in_cs pcj = false.
Proof.
  intros Hinv Hfree j pcj Hj.
  destruct (in_cs pcj) eqn:Hcj; [|done].
  exfalso. apply Hfree.
  apply (in_cs_locked _ pcj); [|done]. by apply (sf_tasks _ _ _ _ Hinv j).
Qed.

(** The shape of every step of the proof: task [i] moves from [pc] to
    [pc'] and the world from [world s] to [w']. *)
Lemma single_flight_update s i pc pc' w' :
  single_flight ops k g0 s ->
  tasks s !! i = Some pc ->
  task_ok ops k g0 w' pc' ->
  (forall j pcj, j <> i -> tasks s !! j = Some pcj -> task_ok ops k g0 w' pcj) ->
  (in_cs pc' = true ->
   forall j pcj, j <> i -> tasks s !! j = Some pcj -> in_cs pcj = false) ->
  (G w' = g0
   \/ (G w' = S g0
       /\ (op_is_ready ops k w' = true
           \/ is_post pc' = true
           \/ exists j pcj, j <> i /\ tasks s !! j = Some pcj /\ is_post pcj = true))) ->
  single_flight ops k g0 {| world := w'; tasks := <[i := pc']> (tasks s) |}.
Proof.
  intros Hinv Hi Hme Hothers Hexcl Hgood.
  assert (Hlt : (i < length (tasks s))%nat) by (by eapply lookup_lt_Some).
  split; simpl.
  - intros j pcj Hj. destruct (decide (j = i)) as [->|Hne].
    + rewrite list_lookup_insert_eq in Hj by done. by injection Hj as <-.
    + rewrite list_lookup_insert_ne in Hj by done. by apply (Hothers j).
  - intros j1 j2 p1 p2 H1 H2 Hc1 Hc2.
    destruct (decide (j1 = i)) as [->|Hn1], (decide (j2 = i)) as [->|Hn2]; [done| | |].
    + rewrite list_lookup_insert_eq in H1 by done. injection H1 as <-.
      rewrite list_lookup_insert_ne in H2 by done.
      rewrite (Hexcl Hc1 j2 p2 Hn2 H2) in Hc2. done.
    + rewrite list_lookup_insert_eq in H2 by done. injection H2 as <-.
      rewrite list_lookup_insert_ne in H1 by done.
      rewrite (Hexcl Hc2 j1 p1 Hn1 H1) in Hc1. done.
    + rewrite list_lookup_insert_ne in H1, H2 by done.
      by apply (sf_excl _ _ _ _ Hinv j1 j2 p1 p2).
  - destruct Hgood as [Hg|[Hg [Hr|[Hp|(j & pcj & Hne & Hj & Hp)]]]].
    + by left.
    + right. split; [done|]. by left.
    + right. split; [done|]. right. exists i, pc'.
      split; [by rewrite list_lookup_insert_eq|done].
    + right. split; [done|]. right. exists j, pcj.
      split; [by rewrite list_lookup_insert_ne|done].
Qed.

(** When task [i] is not past the store, whatever witnesses the state of
    the stores is not task [i]. *)
Lemma good_not_me s i pc w' :
  single_flight ops k g0 s ->
  tasks s !! i = Some pc -> is_post pc = false ->
  G w' = G (world s) ->
  (op_is_ready ops k (world s) = true -> op_is_ready ops k w' = true) ->
  forall pc',
  G w' = g0
  \/ (G w' = S g0
      /\ (op_is_ready ops k w' = true
          \/ is_post pc' = true
          \/ exists j pcj, j <> i /\ tasks s !! j = Some pcj /\ is_post pcj = true)).
Proof.
  intros Hinv Hi Hnp Hg Hrd pc'. rewrite Hg.
  destruct (sf_good _ _ _ _ Hinv) as [H0|[H1 [Hr|(j & pcj & Hj & Hp)]]].
  - by left.
  - right. split; [done|]. left. by apply Hrd.
  - right. split; [done|]. right. right. exists j, pcj.
    split; [|done]. intros ->. rewrite Hi in Hj. injection Hj as <-. congruence.
Qed.

End SingleFlight.

Section SingleFlightStep.
Context (ops : LoadOps) (laws : LoadLaws ops) (E : Engine) (k : string) (g0 : nat).

Local Abbreviation G w := (good_loads_of (op_family ops) k w).

(** One step of one task keeps the invariant. *)
Lemma sched_step_single_flight s i :
  single_flight ops k g0 s -> single_flight ops k g0 (sched_step ops E s i).
Proof.
  intros Hinv. unfold sched_step.
  destruct (tasks s !! i) as [pc|] eqn:Hi; [|done].
  pose proof (sf_tasks _ _ _ _ Hinv i pc Hi) as Hpc.
  assert (Hold : forall j pcj, tasks s !! j = Some pcj -> task_ok ops k g0 (world s) pcj)
    by (intros j pcj Hj; by apply (sf_tasks _ _ _ _ Hinv j)).
  destruct pc as [ident|k'|k'|k'|k'|k' st|k' st|k' st|k' st|r]; simpl in Hpc |- *.
  - (* AtStart: resolution and the first look at the slot *)
    rewrite Hpc.
    destruct (op_is_ready ops k (world s)) eqn:Hrd.
    + apply (single_flight_update ops k g0 s i (AtStart ident) _ _ Hinv Hi).
      * simpl. by left.
      * intros j pcj _ Hj. by apply (Hold j).
      * done.
      * by apply (good_not_me ops k g0 s i (AtStart ident)).
    + apply (single_flight_update ops k g0 s i (AtStart ident) _ _ Hinv Hi).
      * done.
      * intros j pcj _ Hj. by apply (Hold j).
      * done.
      * by apply (good_not_me ops k g0 s i (AtStart ident)).
  - (* AtGlobalLock *)
    subst k'. destruct (op_global_lock ops (world s)); [done|].
    destruct (law_set_global _ laws true (world s)) as (Hr & Hl & Hm & Hs & Ht).
    set (w' := op_set_global_lock ops true (world s)) in *.
    assert (Hg' : G w' = G (world s)) by by apply good_loads_trace.
    assert (Hrd' : op_is_ready ops k w' = op_is_ready ops k (world s))
      by (apply ready_same; congruence).
    apply (single_flight_update ops k g0 s i (AtGlobalLock k) _ _ Hinv Hi).
    + done.
    + intros j pcj _ Hj.
      apply (task_ok_same ops k g0 (world s) w' pcj);
        [done|intros b; by rewrite Hl|by rewrite Hs|by rewrite Hm|done|by apply (Hold j)].
    + done.
    + apply (good_not_me ops k g0 s i (AtGlobalLock k)); [done|done|done|done|].
      by rewrite Hrd'.
  - (* InGlobalLock: the lock of the model is made if it is missing *)
    subst k'.
    destruct (law_set_locks _ laws (ensure_lock k) (world s)) as (Hr & Hl & Hm & Hs & Ht).
    destruct (law_set_global _ laws false (op_set_locks ops (ensure_lock k) (world s)))
      as (Hr2 & Hl2 & Hm2 & Hs2 & Ht2).
    set (w' := op_set_global_lock ops false
                 (op_set_locks ops (ensure_lock k) (world s))) in *.
    assert (Hg' : G w' = G (world s)) by (apply good_loads_trace; congruence).
    assert (Hrd' : op_is_ready ops k w' = op_is_ready ops k (world s))
      by (apply ready_same; congruence).
    assert (Hgrow : forall b, op_locks ops (world s) !! k = Some b ->
              op_locks ops w' !! k = Some b).
    { intros b Hb. rewrite Hl2, Hl. unfold ensure_lock. by rewrite Hb. }
    apply (single_flight_update ops k g0 s i (InGlobalLock k) _ _ Hinv Hi).
    + simpl. split; [done|]. rewrite Hl2, Hl. unfold ensure_lock.
      destruct (op_locks ops (world s) !! k) eqn:Hb; [by rewrite Hb|].
      by rewrite lookup_insert_eq.
    + intros j pcj _ Hj.
      apply (task_ok_same ops k g0 (world s) w' pcj);
        [congruence|done|congruence|congruence|done|by apply (Hold j)].
    + done.
    + apply (good_not_me ops k g0 s i (InGlobalLock k)); [done|done|done|done|].
      by rewrite Hrd'.
  - (* AtModelLock: wait, or take the lock *)
    destruct Hpc as [-> [b Hb]]. rewrite Hb. destruct b; [done|].
    destruct (law_set_locks _ laws (insert k true) (world s)) as (Hr & Hl & Hm & Hs & Ht).
    set (w' := op_set_locks ops (insert k true) (world s)) in *.
    assert (Hg' : G w' = G (world s)) by by apply good_loads_trace.
    assert (Hrd' : op_is_ready ops k w' = op_is_ready ops k (world s))
      by (apply ready_same; congruence).
    assert (Hfree : forall j pcj, tasks s !! j = Some pcj -> in_cs pcj = false).
    { apply (free_excludes ops k g0); [done|]. by rewrite Hb. }
    apply (single_flight_update ops k g0 s i (AtModelLock k) _ _ Hinv Hi).
    + simpl. split; [done|]. by rewrite Hl, lookup_insert_eq.
    + intros j pcj _ Hj.
      apply (task_ok_outside ops k g0 (world s) w' pcj);
        [by apply (Hfree j)|done| |by rewrite Hrd'|by apply (Hold j)].
      intros _. rewrite Hl, lookup_insert_eq. by eexists.
    + intros _ j pcj _ Hj. by apply (Hfree j).
    + apply (good_not_me ops k g0 s i (AtModelLock k)); [done|done|done|done|].
      by rewrite Hrd'.
  - (* InModelLock: the second look at the slot *)
    destruct Hpc as [-> Hlk].
    pose proof (holder_excludes ops k g0 s i (InModelLock k) Hinv Hi eq_refl) as Hothers.
    destruct (op_is_ready ops k (world s)) eqn:Hrd.
    + destruct (law_set_locks _ laws (insert k false) (world s))
        as (Hr & Hl & Hm & Hs & Ht).
      unfold release. set (w' := op_set_locks ops (insert k false) (world s)) in *.
      assert (Hg' : G w' = G (world s)) by by apply good_loads_trace.
      assert (Hrd' : op_is_ready ops k w' = true).
      { rewrite <- Hrd. apply ready_same; congruence. }
      apply (single_flight_update ops k g0 s i (InModelLock k) _ _ Hinv Hi).
      * simpl. by left.
      * intros j pcj Hne Hj.
        apply (task_ok_outside ops k g0 (world s) w' pcj);
          [by apply (Hothers j)|done| |done|by apply (Hold j)].
        intros _. rewrite Hl, lookup_insert_eq. by eexists.
      * done.
      * apply (good_not_me ops k g0 s i (InModelLock k)); done.
    + destruct (law_begin _ laws k (world s)) as (Hr & Hl & Hm & Hs & Ht).
      set (w' := op_begin_load ops k (world s)) in *.
      assert (Hg' : G w' = G (world s)) by by apply good_loads_trace.
      assert (Hg0 : G (world s) = g0).
      { destruct (sf_good _ _ _ _ Hinv) as [H0|[_ [Hr1|(j & pcj & Hj & Hp)]]].
        - done.
        - congruence.
        - destruct (decide (j = i)) as [->|Hne].
          + rewrite Hi in Hj. by injection Hj as <-.
          + pose proof (Hothers j pcj Hne Hj) as Hc. by destruct pcj. }
      apply (single_flight_update ops k g0 s i (InModelLock k) _ _ Hinv Hi).
      * simpl. split; [done|]. rewrite Hl, Hs, lookup_insert_eq.
        repeat split; try done. congruence.
      * intros j pcj Hne Hj.
        apply (task_ok_outside ops k g0 (world s) w' pcj);
          [by apply (Hothers j)|done|by rewrite Hl|congruence|by apply (Hold j)].
      * intros _. exact Hothers.
      * left. congruence.
  - (* AtManage *)
    destruct Hpc as (-> & Hlk & Hst & Hg).
    pose proof (holder_excludes ops k g0 s i (AtManage k st) Hinv Hi eq_refl) as Hothers.
    destruct (law_manage _ laws k (world s)) as (Hr & Hl & Hm & Hs & Hgm).
    set (w' := op_manage_memory ops k (world s)) in *.
    apply (single_flight_update ops k g0 s i (AtManage k st) _ _ Hinv Hi).
    + simpl. rewrite Hl, Hs, Hgm. done.
    + intros j pcj Hne Hj.
      apply (task_ok_outside ops k g0 (world s) w' pcj);
        [by apply (Hothers j)|done|by rewrite Hl| |by apply (Hold j)].
      intros H. rewrite <- H. by apply ready_same.
    + intros _. exact Hothers.
    + left. by rewrite Hgm.
  - (* AtLoad: the call of load *)
    destruct Hpc as (-> & Hlk & Hst & Hg).
    pose proof (holder_excludes ops k g0 s i (AtLoad k st) Hinv Hi eq_refl) as Hothers.
    assert (Hnr : op_is_ready ops k (world s) = false).
    { unfold op_is_ready. rewrite Hst. simpl. apply andb_false_r. }
    destruct (law_load _ laws E k (world s)) as (Hr & Hl & Hs & Hout).
    destruct (op_load ops E k (world s)) as [w1 [e|]] eqn:Hload; simpl in *.
    + destruct Hout as [Hm Hg1].
      destruct (law_fail _ laws k e w1) as (Hr2 & Hl2 & Hm2 & Hs2 & Ht2 & m & Hres).
      destruct (op_fail_load ops k e w1) as [w2 r] eqn:Hfail. simpl in *.
      destruct (law_set_locks _ laws (insert k false) w2) as (Hr3 & Hl3 & Hm3 & Hs3 & Ht3).
      unfold release. set (w' := op_set_locks ops (insert k false) w2) in *.
      assert (Hg' : G w' = g0).
      { rewrite (good_loads_trace ops k w2 w' Ht3).
        rewrite (good_loads_trace ops k w1 w2 Ht2). congruence. }
      apply (single_flight_update ops k g0 s i (AtLoad k st) _ _ Hinv Hi).
      * simpl. right. subst r. by eexists _, _.
      * intros j pcj Hne Hj.
        apply (task_ok_outside ops k g0 (world s) w' pcj);
          [by apply (Hothers j)|congruence| |congruence|by apply (Hold j)].
        intros _. rewrite Hl3, lookup_insert_eq. by eexists.
      * done.
      * by left.
    + destruct Hout as [Hm Hg1].
      apply (single_flight_update ops k g0 s i (AtLoad k st) _ _ Hinv Hi).
      * simpl. rewrite Hl, Hs, Hg1, Hg. done.
      * intros j pcj Hne Hj.
        apply (task_ok_outside ops k g0 (world s) w1 pcj);
          [by apply (Hothers j)|done|by rewrite Hl|congruence|by apply (Hold j)].
      * intros _. exact Hothers.
      * right. split; [congruence|]. right. by left.
  - (* AtWarmup *)
    destruct Hpc as (-> & Hlk & Hst & Hmem & Hg).
    pose proof (holder_excludes ops k g0 s i (AtWarmup k st) Hinv Hi eq_refl) as Hothers.
    destruct (law_warmup _ laws E k (world s)) as (Hr & Hl & Hm & Hs & Hgw).
    set (w' := op_warmup ops E k (world s)) in *.
    apply (single_flight_update ops k g0 s i (AtWarmup k st) _ _ Hinv Hi).
    + simpl. rewrite Hl, Hs, Hm, Hgw. done.
    + intros j pcj Hne Hj.
      apply (task_ok_outside ops k g0 (world s) w' pcj);
        [by apply (Hothers j)|done|by rewrite Hl| |by apply (Hold j)].
      intros H. rewrite <- H. apply ready_same; congruence.
    + intros _. exact Hothers.
    + right. split; [congruence|]. right. by left.
  - (* AtFinish: READY, and the lock is given back *)
    destruct Hpc as (-> & Hlk & Hst & Hmem & Hg).
    pose proof (holder_excludes ops k g0 s i (AtFinish k st) Hinv Hi eq_refl) as Hothers.
    destruct (law_finish _ laws k st (world s)) as (Hr & Hl & Hm & Hs & Hgf).
    destruct (law_set_locks _ laws (insert k false) (op_finish_load ops k st (world s)))
      as (Hr3 & Hl3 & Hm3 & Hs3 & Ht3).
    unfold release.
    set (w' := op_set_locks ops (insert k false) (op_finish_load ops k st (world s))) in *.
    assert (Hrd' : op_is_ready ops k w' = true).
    { unfold op_is_ready. rewrite Hm3, Hs3, Hm, Hs, Hmem, lookup_insert_eq. done. }
    assert (Hg' : G w' = S g0).
    { rewrite (good_loads_trace ops k _ w' Ht3). congruence. }
    apply (single_flight_update ops k g0 s i (AtFinish k st) _ _ Hinv Hi).
    + simpl. by left.
    + intros j pcj Hne Hj.
      apply (task_ok_outside ops k g0 (world s) w' pcj);
        [by apply (Hothers j)|congruence| |done|by apply (Hold j)].
      intros _. rewrite Hl3, lookup_insert_eq. by eexists.
    + done.
    + right. split; [done|]. by left.
  - (* Returned *)
    done.
Qed.

End SingleFlightStep.

Lemma run_sched_single_flight ops (laws : LoadLaws ops) E k g0 sched s :
  single_flight ops k g0 s -> single_flight ops k g0 (run_sched ops E sched s).
Proof.
  revert s. induction sched as [|i sched IH]; intros s Hinv; simpl; [done|].
  apply IH. by apply sched_step_single_flight.
Qed.

(** All callers at the start, for identifiers that resolve to [k], with
    the lock of [k] not held. *)
Lemma spawn_single_flight ops k idents w :
  Forall (fun ident => op_resolve ops w ident = Ok k) idents ->
  single_flight ops k (good_loads_of (op_family ops) k w) (spawn idents w).
Proof.
  intros Hall. split; simpl.
  - intros i pc Hi. apply list_lookup_fmap_Some in Hi as (ident & -> & Hid).
    simpl. eapply Forall_forall in Hall; [exact Hall|].
    by eapply list_elem_of_lookup_2.
  - intros i j pc pc' Hi _ Hc.
    apply list_lookup_fmap_Some in Hi as (ident & -> & Hid). done.
  - by left.
Qed.

(** Once the model is READY no caller changes it any more: every
    further step only works on locks. *)
Lemma ready_is_stable ops (laws : LoadLaws ops) E k g0 s i :
  single_flight ops k g0 s ->
  op_is_ready ops k (world s) = true ->
  op_models ops (world (sched_step ops E s i)) = op_models ops (world s)
  /\ op_status ops (world (sched_step ops E s i)) = op_status ops (world s).
Proof.
  intros Hinv Hrd. unfold sched_step.
  destruct (tasks s !! i) as [pc|] eqn:Hi; [|done].
  pose proof (sf_tasks _ _ _ _ Hinv i pc Hi) as Hpc.
  assert (Hnl : op_status ops (world s) !! k <> Some LOADING).
  { intros Hl. unfold op_is_ready in Hrd. rewrite Hl in Hrd. simpl in Hrd.
    by rewrite andb_false_r in Hrd. }
  destruct pc as [ident|k'|k'|k'|k'|k' st|k' st|k' st|k' st|r]; simpl in Hpc |- *.
  - rewrite Hpc, Hrd. done.
  - destruct (op_global_lock ops (world s)); [done|]. simpl.
    by destruct (law_set_global _ laws true (world s)) as (_ & _ & -> & -> & _).
  - simpl.
    destruct (law_set_global _ laws false (op_set_locks ops (ensure_lock k') (world s)))
      as (_ & _ & -> & -> & _).
    by destruct (law_set_locks _ laws (ensure_lock k') (world s)) as (_ & _ & -> & -> & _).
  - destruct (op_locks ops (world s) !! k') as [[|]|]; try done. simpl.
    by destruct (law_set_locks _ laws (insert k' true) (world s)) as (_ & _ & -> & -> & _).
  - destruct Hpc as [-> _]. rewrite Hrd. simpl. unfold release.
    by destruct (law_set_locks _ laws (insert k false) (world s)) as (_ & _ & -> & -> & _).
  - by destruct Hpc as (_ & _ & Hl & _).
  - by destruct Hpc as (_ & _ & Hl & _).
  - by destruct Hpc as (_ & _ & Hl & _).
  - by destruct Hpc as (_ & _ & Hl & _).
  - done.
Qed.

(** ** The two managers satisfy the laws *)

Lemma warmup_texts_good f k k' E h texts w :
  good_loads_of f k (warmup_texts E k' h texts w) = good_loads_of f k w.
Proof.
  revert w. induction texts as [|t r IH]; intros w; simpl; [done|].
  destruct (eng_embed _ _ _ _ _); [|done]. by rewrite IH.
Qed.

Lemma embedding_manage_law k w :
  op_resolve embedding_ops (_manage_memory k w) = op_resolve embedding_ops w
  /\ _locks (model_manager (_manage_memory k w)) = _locks (model_manager w)
  /\ OD.get k (models (model_manager (_manage_memory k w)))
     = OD.get k (models (model_manager w))
  /\ model_status (model_manager (_manage_memory k w)) !! k
     = model_status (model_manager w) !! k
  /\ good_loads_of Embedding k (_manage_memory k w) = good_loads_of Embedding k w.
Proof.
  simpl. rewrite manage_config. rewrite manage_memory_victim.
  destruct (victim k (model_manager w)) as [e|] eqn:Hv; [|done].
  apply victim_resident in Hv as [He Hne].
  rewrite unload_model_mm by done. simpl.
  rewrite od_get_del_ne by done. rewrite lookup_insert_ne by done.
  repeat split; try done.
  unfold _unload_model. by rewrite He.
Qed.

Lemma embedding_laws : LoadLaws embedding_ops.
Proof.
  split; simpl.
  - done.
  - done.
  - done.
  - intros k w. apply embedding_manage_law.
  - intros E k w.
    destruct (mm_load_cases E k w) as [[h [_ ->]]|[e [-> _]]]; simpl.
    + repeat split; try done.
      * unfold OD.mem. by rewrite od_get_set_eq.
      * unfold good_loads_of, count_events. simpl. by rewrite String.eqb_refl.
    + done.
  - intros E k w. rewrite warmup_mm. repeat split; try done.
    unfold _warmup. destruct (OD.get _ _); [|done]. apply warmup_texts_good.
  - done.
  - intros k e w. repeat split; try done. by eexists.
  - intros k w. rewrite manage_memory_victim.
    destruct (victim k (model_manager w)) as [e|]; [|done].
    unfold _unload_model. by destruct (negb _).
  - intros E k w.
    destruct (mm_load_cases E k w) as [[h [_ ->]]|[e [-> _]]];
      unfold family_loads_of, count_events; simpl; by rewrite String.eqb_refl.
  - intros E k w. apply (warmup_loads k k E w).
  - done.
Qed.

Lemma reranker_manage_law k w :
  r_locks (reranker_manager (r_manage_memory k w)) = r_locks (reranker_manager w)
  /\ OD.get k (r_models (reranker_manager (r_manage_memory k w)))
     = OD.get k (r_models (reranker_manager w))
  /\ r_model_status (reranker_manager (r_manage_memory k w)) !! k
     = r_model_status (reranker_manager w) !! k
  /\ good_loads_of Reranker k (r_manage_memory k w) = good_loads_of Reranker k w.
Proof.
  unfold r_manage_memory. destruct (_ <=? _)%nat; [|done].
  destruct (List.filter _ _) as [|e l] eqn:Hf; [done|].
  assert (Hin : In e (List.filter (fun k0 => negb (String.eqb k0 k))
                        (OD.keys (r_models (reranker_manager w)))))
    by (rewrite Hf; by left).
  apply filter_In in Hin as [Hin Hne].
  apply negb_true_iff, String.eqb_neq in Hne.
  apply od_mem_keys in Hin. unfold r_unload_model. rewrite Hin. simpl.
  rewrite od_get_del_ne by done. rewrite lookup_insert_ne by done. done.
Qed.

Lemma reranker_laws : LoadLaws reranker_ops.
Proof.
  split; simpl.
  - done.
  - done.
  - done.
  - intros k w. split; [done|]. apply reranker_manage_law.
  - intros E k w. unfold rm_load, call_load.
    destruct (eng_load E k _) as [h b|e]; [|done].
    destruct (eng_token_ids E h) as [ids|e]; [|done]. simpl.
    repeat split; try done.
    + unfold OD.mem. by rewrite od_get_set_eq.
    + unfold good_loads_of, count_events. simpl. by rewrite String.eqb_refl.
  - intros E k w. rewrite r_warmup_rm. repeat split; try done.
    unfold r_warmup. destruct (OD.get _ _); [|done]. by destruct (_ !! _).
  - done.
  - intros k e w. repeat split; try done. by eexists.
  - intros k w. unfold r_manage_memory. destruct (_ <=? _)%nat; [|done].
    destruct (List.filter _ _); [done|].
    unfold r_unload_model. by destruct (negb _).
  - intros E k w. unfold rm_load, call_load.
    destruct (eng_load E k _) as [h b|e];
      [destruct (eng_token_ids E h)|];
      unfold family_loads_of, count_events; simpl; by rewrite String.eqb_refl.
  - intros E k w. unfold r_warmup. destruct (OD.get _ _); [|done].
    by destruct (_ !! _).
  - done.
Qed.

(** ** Every call of [load] is accounted for *)

Lemma raised_count_insert (l : list LoadPc) i pc pc' :
  l !! i = Some pc -> has_raised pc = false ->
  length (List.filter has_raised (<[i := pc']> l))
  = (length (List.filter has_raised l) + if has_raised pc' then 1 else 0)%nat.
Proof.
  revert i. induction l as [|x l IH]; intros i Hi Hpc; [done|].
  destruct i as [|i]; simpl in *.
  - injection Hi as ->. rewrite Hpc. destruct (has_raised pc'); simpl; lia.
  - destruct (has_raised x); simpl; rewrite (IH i Hi Hpc); lia.
Qed.

Lemma loads_trace f k w w' :
  trace w' = trace w -> family_loads_of f k w' = family_loads_of f k w.
Proof. intros H. unfold family_loads_of, count_events. by rewrite H. Qed.

Lemma stores_trace f k w w' :
  trace w' = trace w -> good_loads_of f k w' = good_loads_of f k w.
Proof. intros H. unfold good_loads_of, count_events. by rewrite H. Qed.

Lemma sched_step_accounted ops (laws : LoadLaws ops) E k l0 g0 s i :
  single_flight ops k g0 s ->
  accounted ops k l0 g0 s -> accounted ops k l0 g0 (sched_step ops E s i).
Proof.
  intros Hinv Hacc. unfold sched_step.
  destruct (tasks s !! i) as [pc|] eqn:Hi; [|done].
  pose proof (sf_tasks _ _ _ _ Hinv i pc Hi) as Hpc.
  assert (Hmove : forall pc' w',
            has_raised pc = false -> has_raised pc' = false ->
            family_loads_of (op_family ops) k w'
            = family_loads_of (op_family ops) k (world s) ->
            good_loads_of (op_family ops) k w'
            = good_loads_of (op_family ops) k (world s) ->
            accounted ops k l0 g0 {| world := w'; tasks := <[i := pc']> (tasks s) |}).
  { intros pc' w' Hp Hp' Hl Hg. unfold accounted, raised_count in *. simpl.
    rewrite (raised_count_insert _ i pc pc' Hi Hp), Hp', Hl, Hg. lia. }
  destruct pc as [ident|k'|k'|k'|k'|k' st|k' st|k' st|k' st|r]; simpl in Hpc |- *.
  - rewrite Hpc. destruct (op_is_ready ops k (world s)); by apply Hmove.
  - destruct (op_global_lock ops (world s)); [done|].
    destruct (law_set_global _ laws true (world s)) as (_ & _ & _ & _ & Ht).
    apply Hmove; [done|done|by apply loads_trace|by apply stores_trace].
  - destruct (law_set_locks _ laws (ensure_lock k') (world s)) as (_ & _ & _ & _ & Ht).
    destruct (law_set_global _ laws false (op_set_locks ops (ensure_lock k') (world s)))
      as (_ & _ & _ & _ & Ht2).
    apply Hmove; [done|done|apply loads_trace; congruence|apply stores_trace; congruence].
  - destruct Hpc as [-> [b Hb]]. rewrite Hb. destruct b; [done|].
    destruct (law_set_locks _ laws (insert k true) (world s)) as (_ & _ & _ & _ & Ht).
    apply Hmove; [done|done|by apply loads_trace|by apply stores_trace].
  - destruct Hpc as [-> _]. destruct (op_is_ready ops k (world s)).
    + destruct (law_set_locks _ laws (insert k false) (world s)) as (_ & _ & _ & _ & Ht).
      apply Hmove; [done|done|by apply loads_trace|by apply stores_trace].
    + destruct (law_begin _ laws k (world s)) as (_ & _ & _ & _ & Ht).
      apply Hmove; [done|done|by apply loads_trace|by apply stores_trace].
  - destruct Hpc as [-> _].
    destruct (law_manage _ laws k (world s)) as (_ & _ & _ & _ & Hg).
    apply Hmove; [done|done|apply (law_calls_manage _ laws)|done].
  - destruct Hpc as [-> _].
    pose proof (law_calls_load _ laws E k (world s)) as Hcalls.
    destruct (law_load _ laws E k (world s)) as (_ & _ & _ & Hout).
    destruct (op_load ops E k (world s)) as [w1 [e|]]; simpl in *.
    + destruct Hout as [_ Hg1].
      destruct (law_fail _ laws k e w1) as (_ & _ & _ & _ & Ht2 & m & Hres).
      destruct (op_fail_load ops k e w1) as [w2 r]. simpl in *. subst r.
      destruct (law_set_locks _ laws (insert k false) w2) as (_ & _ & _ & _ & Ht3).
      unfold accounted, raised_count, release in *. simpl.
      rewrite (raised_count_insert _ i (AtLoad k st) _ Hi eq_refl). simpl.
      rewrite (loads_trace _ k w2 _ Ht3), (loads_trace _ k w1 _ Ht2), Hcalls.
      rewrite (stores_trace _ k w2 _ Ht3), (stores_trace _ k w1 _ Ht2), Hg1. lia.
    + destruct Hout as [_ Hg1].
      unfold accounted, raised_count in *. simpl.
      rewrite (raised_count_insert _ i (AtLoad k st) _ Hi eq_refl). simpl.
      rewrite Hcalls, Hg1. lia.
  - destruct Hpc as [-> _].
    destruct (law_warmup _ laws E k (world s)) as (_ & _ & _ & _ & Hg).
    apply Hmove; [done|done|apply (law_calls_warmup _ laws)|done].
  - destruct Hpc as [-> _].
    destruct (law_finish _ laws k st (world s)) as (_ & _ & _ & _ & Hg).
    destruct (law_set_locks _ laws (insert k false) (op_finish_load ops k st (world s)))
      as (_ & _ & _ & _ & Ht3).
    apply Hmove; [done|done| |].
    + unfold release. rewrite (loads_trace _ k _ _ Ht3). apply (law_calls_finish _ laws).
    + unfold release. by rewrite (stores_trace _ k _ _ Ht3).
  - done.
Qed.

Lemma run_sched_accounted ops (laws : LoadLaws ops) E k l0 g0 sched s :
  single_flight ops k g0 s ->
  accounted ops k l0 g0 s -> accounted ops k l0 g0 (run_sched ops E sched s).
Proof.
  revert s. induction sched as [|i sched IH]; intros s Hinv Hacc; simpl; [done|].
  apply IH; [by apply sched_step_single_flight|by apply sched_step_accounted].
Qed.

Lemma spawn_accounted ops k idents w :
  accounted ops k (family_loads_of (op_family ops) k w)
    (good_loads_of (op_family ops) k w) (spawn idents w).
Proof.
  unfold accounted, raised_count. simpl.
  assert (Hz : length (List.filter has_raised (map AtStart idents)) = 0%nat).
  { induction idents as [|x l IH]; simpl; [done|exact IH]. }
  rewrite Hz. lia.
Qed.

Lemma run_ready_is_stable ops (laws : LoadLaws ops) E k g0 sched s :
  single_flight ops k g0 s ->
  op_is_ready ops k (world s) = true ->
  op_models ops (world (run_sched ops E sched s)) = op_models ops (world s)
  /\ op_is_ready ops k (world (run_sched ops E sched s)) = true.
Proof.
  revert s. induction sched as [|i sched IH]; intros s Hinv Hrd; simpl; [done|].
  destruct (ready_is_stable ops laws E k g0 s i Hinv Hrd) as [Hm Hs].
  assert (Hrd' : op_is_ready ops k (world (sched_step ops E s i)) = true).
  { rewrite <- Hrd. unfold op_is_ready. by rewrite Hm, Hs. }
  destruct (IH (sched_step ops E s i)) as [Hm' Hr'];
    [by apply sched_step_single_flight|done|].
  split; [congruence|done].
Qed.

(** ** No deadlock among the callers of [load_model] *)

Lemma embedding_lock_laws : LockLaws embedding_ops.
Proof.
  split; simpl; try done.
  - intros k w. rewrite manage_memory_victim.
    destruct (victim k (model_manager w)) as [e|]; [|done].
    unfold _unload_model. by destruct (negb _).
  - intros E k w. by destruct (mm_load_cases E k w) as [[h [_ ->]]|[e [-> _]]].
  - intros E k w. by rewrite warmup_mm.
Qed.

Lemma reranker_lock_laws : LockLaws reranker_ops.
Proof.
  split; simpl; try done.
  - intros k w. unfold r_manage_memory. destruct (_ <=? _)%nat; [|done].
    destruct (List.filter _ _) as [|e l]; [done|].
    unfold r_unload_model. by destruct (negb _).
  - intros E k w. unfold rm_load, call_load.
    destruct (eng_load E k _) as [h b|e]; [|done].
    by destruct (eng_token_ids E h) as [ids|e].
  - intros E k w. by rewrite r_warmup_rm.
Qed.

Lemma exists_after_insert (P : LoadPc -> bool) (l : list LoadPc) i pc pc' :
  l !! i = Some pc -> (P pc = true -> P pc' = true) ->
  (exists j q, l !! j = Some q /\ P q = true) ->
  exists j q, <[i := pc']> l !! j = Some q /\ P q = true.
Proof.
  intros Hi Himp (j & q & Hj & HP).
  destruct (decide (j = i)) as [-> | Hne].
  - exists i, pc'. split.
    + apply list_lookup_insert_eq. by eapply lookup_lt_Some.
    + apply Himp. congruence.
  - exists j, q. split; [|done]. by rewrite list_lookup_insert_ne.
Qed.

Lemma exists_at_insert (P : LoadPc -> bool) (l : list LoadPc) i pc pc' :
  l !! i = Some pc -> P pc' = true ->
  exists j q, <[i := pc']> l !! j = Some q /\ P q = true.
Proof.
  intros Hi HP. exists i, pc'. split; [|done].
  apply list_lookup_insert_eq. by eapply lookup_lt_Some.
Qed.

Lemma ensure_lock_held k (locks : gmap string bool) :
  ensure_lock k locks !! k = Some true -> locks !! k = Some true.
Proof.
  unfold ensure_lock. destruct (locks !! k) as [b|] eqn:Hl; [congruence|].
  by rewrite lookup_insert_eq.
Qed.

Lemma sched_step_locks_owned ops (laws : LoadLaws ops) (llaws : LockLaws ops)
    E k g0 s i :
  single_flight ops k g0 s ->
  locks_owned ops k s -> locks_owned ops k (sched_step ops E s i).
Proof.
  intros Hinv Hown. pose proof Hown as [Hglob Hmod]. unfold sched_step.
  destruct (tasks s !! i) as [pc|] eqn:Hi; [|done].
  pose proof (sf_tasks _ _ _ _ Hinv i pc Hi) as Hpc.
  (* a step that leaves both locks as they are *)
  assert (Hkeep : forall pc' w',
            (in_global pc = true -> in_global pc' = true) ->
            (in_cs pc = true -> in_cs pc' = true) ->
            op_global_lock ops w' = op_global_lock ops (world s) ->
            op_locks ops w' = op_locks ops (world s) ->
            locks_owned ops k {| world := w'; tasks := <[i := pc']> (tasks s) |}).
  { intros pc' w' Hg Hc Hgl Hl. split; simpl.
    - rewrite Hgl. intros H. by eapply exists_after_insert; [| |apply Hglob].
    - rewrite Hl. intros H. by eapply exists_after_insert; [| |apply Hmod]. }
  (* a step that ends with the lock of [k] released *)
  assert (Hrel : forall pc' w',
            in_global pc = false ->
            op_global_lock ops w' = op_global_lock ops (world s) ->
            locks_owned ops k
              {| world := release ops k w'; tasks := <[i := pc']> (tasks s) |}).
  { intros pc' w' Hg Hgl. unfold release.
    destruct (law_set_locks _ laws (insert k false) w') as (_ & Hl & _).
    split; simpl.
    - rewrite (lock_set_locks _ llaws), Hgl. intros H.
      eapply exists_after_insert; [done| |by apply Hglob]. by rewrite Hg.
    - rewrite Hl, lookup_insert_eq. done. }
  destruct pc as [ident|k'|k'|k'|k'|k' st|k' st|k' st|k' st|r]; simpl in Hpc |- *.
  - rewrite Hpc. destruct (op_is_ready ops k (world s)); by apply Hkeep.
  - destruct (op_global_lock ops (world s)) eqn:Hg; [done|].
    destruct (law_set_global _ laws true (world s)) as (_ & Hl & _).
    split; simpl.
    + intros _. by eapply exists_at_insert.
    + rewrite Hl. intros H. by eapply exists_after_insert; [| |apply Hmod].
  - destruct (law_set_locks _ laws (ensure_lock k') (world s)) as (_ & Hl & _).
    destruct (law_set_global _ laws false (op_set_locks ops (ensure_lock k') (world s)))
      as (_ & Hl2 & _).
    split; simpl.
    + by rewrite (lock_set_global _ llaws).
    + rewrite Hl2, Hl. subst k'. intros H%ensure_lock_held.
      by eapply exists_after_insert; [| |apply Hmod].
  - destruct Hpc as [-> [b Hb]]. rewrite Hb. destruct b; [done|].
    split; simpl.
    + rewrite (lock_set_locks _ llaws). intros H.
      by eapply exists_after_insert; [| |apply Hglob].
    + intros _. by eapply exists_at_insert.
  - destruct Hpc as [-> _]. destruct (op_is_ready ops k (world s)).
    + by apply Hrel.
    + destruct (law_begin _ laws k (world s)) as (_ & Hl & _).
      apply Hkeep; [done|done|apply (lock_begin _ llaws)|done].
  - destruct Hpc as [-> _].
    destruct (law_manage _ laws k (world s)) as (_ & Hl & _).
    apply Hkeep; [done|done|apply (lock_manage _ llaws)|done].
  - destruct Hpc as [-> _].
    pose proof (lock_load _ llaws E k (world s)) as Hg.
    destruct (law_load _ laws E k (world s)) as (_ & Hl & _).
    destruct (op_load ops E k (world s)) as [w1 [e|]]; simpl in *.
    + pose proof (lock_fail _ llaws k e w1) as Hg2.
      destruct (op_fail_load ops k e w1) as [w2 r]. simpl in *.
      apply Hrel; [done|congruence].
    + by apply Hkeep.
  - destruct Hpc as [-> _].
    destruct (law_warmup _ laws E k (world s)) as (_ & Hl & _).
    apply Hkeep; [done|done|apply (lock_warmup _ llaws)|done].
  - destruct Hpc as [-> _]. apply Hrel; [done|apply (lock_finish _ llaws)].
  - done.
Qed.

Lemma spawn_locks_owned ops k idents w :
  op_global_lock ops w = false -> op_locks ops w !! k <> Some true ->
  locks_owned ops k (spawn idents w).
Proof. intros Hg Hl. split; simpl; [by rewrite Hg|done]. Qed.

Lemma rank_le pc : (rank pc <= 9)%nat.
Proof. destruct pc; simpl; lia. Qed.

Lemma load_step_rank ops E pc w pc' w' :
  load_step ops E pc w = Some (pc', w') -> (rank pc < rank pc')%nat.
Proof.
  destruct pc as [ident|k'|k'|k'|k'|k' st|k' st|k' st|k' st|r]; simpl; intros H.
  - destruct (op_resolve ops w ident) as [k|e]; [|injection H as <- _; simpl; lia].
    destruct (op_is_ready ops k w); injection H as <- _; simpl; lia.
  - destruct (op_global_lock ops w); [done|]. injection H as <- _; simpl; lia.
  - injection H as <- _; simpl; lia.
  - destruct (op_locks ops w !! k') as [[|]|]; [done| |];
      injection H as <- _; simpl; lia.
  - destruct (op_is_ready ops k' w); injection H as <- _; simpl; lia.
  - injection H as <- _; simpl; lia.
  - destruct (op_load ops E k' w) as [w1 [e|]].
    + destruct (op_fail_load ops k' e w1) as [w2 r]. injection H as <- _; simpl; lia.
    + injection H as <- _; simpl; lia.
  - injection H as <- _; simpl; lia.
  - injection H as <- _; simpl; lia.
  - done.
Qed.

Lemma todo_insert (l : list LoadPc) i pc pc' :
  l !! i = Some pc -> (rank pc < rank pc')%nat ->
  (todo (<[i := pc']> l) < todo l)%nat.
Proof.
  revert i. induction l as [|x l IH]; intros i Hi Hlt; [done|].
  pose proof (rank_le pc').
  destruct i as [|i]; simpl in *.
  - injection Hi as ->. lia.
  - specialize (IH i Hi Hlt). lia.
Qed.

Lemma todo_pending (l : list LoadPc) :
  (0 < todo l)%nat -> exists i pc, l !! i = Some pc /\ has_returned pc = false.
Proof.
  induction l as [|x l IH]; simpl; [lia|]. intros H.
  destruct (has_returned x) eqn:Hx.
  - destruct x; try done. simpl in H.
    destruct IH as (i & pc & Hi & Hp); [lia|]. by exists (S i), pc.
  - by exists 0%nat, x.
Qed.

Lemma todo_zero (l : list LoadPc) :
  todo l = 0%nat -> Forall (fun pc => has_returned pc = true) l.
Proof.
  induction l as [|x l IH]; simpl; intros H; constructor.
  - destruct x; simpl in *; lia || done.
  - apply IH. lia.
Qed.

(** While a caller has not returned, some caller can take a step. *)
Lemma some_task_can_step ops E k g0 s :
  single_flight ops k g0 s -> locks_owned ops k s ->
  (0 < todo (tasks s))%nat ->
  exists i pc pc' w', tasks s !! i = Some pc
                      /\ load_step ops E pc (world s) = Some (pc', w').
Proof.
  intros Hinv [Hglob Hmod] Htodo.
  assert (Hcs : forall j q, tasks s !! j = Some q -> in_cs q = true ->
                exists pc' w', load_step ops E q (world s) = Some (pc', w')).
  { intros j q Hj Hq. destruct q; try done; simpl.
    - destruct (op_is_ready ops k0 (world s)); by eexists _, _.
    - by eexists _, _.
    - destruct (op_load ops E k0 (world s)) as [w1 [e|]].
      + destruct (op_fail_load ops k0 e w1) as [w2 r]. by eexists _, _.
      + by eexists _, _.
    - by eexists _, _.
    - by eexists _, _. }
  destruct (todo_pending _ Htodo) as (i & pc & Hi & Hp).
  pose proof (sf_tasks _ _ _ _ Hinv i pc Hi) as Hpc.
  destruct pc as [ident|k'|k'|k'|k'|k' st|k' st|k' st|k' st|r]; try done.
  - exists i, (AtStart ident). simpl in *. rewrite Hpc.
    destruct (op_is_ready ops k (world s)); by eexists _, _.
  - destruct (op_global_lock ops (world s)) eqn:Hg.
    + destruct (Hglob eq_refl) as (j & q & Hj & Hq).
      destruct q; try done. exists j, (InGlobalLock k0). by eexists _, _.
    + exists i, (AtGlobalLock k'). simpl. rewrite Hg. by eexists _, _.
  - exists i, (InGlobalLock k'). by eexists _, _.
  - simpl in Hpc. destruct Hpc as [-> [b Hb]]. destruct b.
    + destruct (Hmod Hb) as (j & q & Hj & Hq).
      destruct (Hcs j q Hj Hq) as (pc' & w' & Hstep). by exists j, q, pc', w'.
    + exists i, (AtModelLock k). simpl. rewrite Hb. by eexists _, _.
  - destruct (Hcs i _ Hi eq_refl) as (pc' & w' & Hstep). by eexists i, _, pc', w'.
  - destruct (Hcs i _ Hi eq_refl) as (pc' & w' & Hstep). by eexists i, _, pc', w'.
  - destruct (Hcs i _ Hi eq_refl) as (pc' & w' & Hstep). by eexists i, _, pc', w'.
  - destruct (Hcs i _ Hi eq_refl) as (pc' & w' & Hstep). by eexists i, _, pc', w'.
  - destruct (Hcs i _ Hi eq_refl) as (pc' & w' & Hstep). by eexists i, _, pc', w'.
Qed.

(** Every caller returns under a schedule that keeps picking a caller
    that can take a step. *)
Lemma all_callers_return ops (laws : LoadLaws ops) (llaws : LockLaws ops) E k g0 n :
  forall s, (todo (tasks s) <= n)%nat ->
  single_flight ops k g0 s -> locks_owned ops k s ->
  exists sched,
    Forall (fun pc => has_returned pc = true) (tasks (run_sched ops E sched s)).
Proof.
  induction n as [|n IH]; intros s Hn Hinv Hown.
  - exists []. simpl. apply todo_zero. lia.
  - destruct (Nat.eq_dec (todo (tasks s)) 0%nat) as [Hz|Hnz].
    { exists []. simpl. by apply todo_zero. }
    destruct (some_task_can_step ops E k g0 s Hinv Hown) as (i & pc & pc' & w' & Hi & Hstep);
      [lia|].
    destruct (IH (sched_step ops E s i)) as [sched Hall].
    + unfold sched_step. rewrite Hi, Hstep. simpl.
      pose proof (todo_insert (tasks s) i pc pc' Hi (load_step_rank _ _ _ _ _ _ Hstep)).
      lia.
    + by apply sched_step_single_flight.
    + by eapply sched_step_locks_owned.
    + exists (i :: sched). exact Hall.
Qed.

Lemma run_sched_locks_owned ops (laws : LoadLaws ops) (llaws : LockLaws ops)
    E k g0 sched s :
  single_flight ops k g0 s -> locks_owned ops k s ->
  locks_owned ops k (run_sched ops E sched s).
Proof.
  revert s. induction sched as [|i sched IH]; intros s Hinv Hown; simpl; [done|].
  apply IH; [by apply sched_step_single_flight|by eapply sched_step_locks_owned].
Qed.

(** ** One caller alone runs [load_model] *)

Lemma unload_model_locks g k w :
  _unload_model k (on_mm (set_locks g) w) = on_mm (set_locks g) (_unload_model k w).
Proof. unfold _unload_model. simpl. by destruct (negb _). Qed.

Lemma manage_memory_locks g k w :
  _manage_memory k (on_mm (set_locks g) w) = on_mm (set_locks g) (_manage_memory k w).
Proof.
  unfold _manage_memory. simpl. destruct (_ <=? _)%nat; [|done].
  destruct (List.filter _ _); [done|]. apply unload_model_locks.
Qed.

Lemma mm_load_locks g E k w :
  mm_load E k (on_mm (set_locks g) w)
  = (on_mm (set_locks g) (fst (mm_load E k w)), snd (mm_load E k w)).
Proof.
  unfold mm_load, call_load, count_events. simpl.
  destruct (eng_load E k _) as [h [|]|e]; done.
Qed.

Lemma warmup_texts_locks g E k h texts w :
  warmup_texts E k h texts (on_mm (set_locks g) w)
  = on_mm (set_locks g) (warmup_texts E k h texts w).
Proof.
  revert w. induction texts as [|t texts IH]; intros w; simpl; [done|].
  unfold count_events. simpl. destruct (eng_embed E h _ false _); [|done].
  apply (IH (advance _ (emit _ w))).
Qed.

Lemma warmup_locks g E k w :
  _warmup E k (on_mm (set_locks g) w) = on_mm (set_locks g) (_warmup E k w).
Proof.
  unfold _warmup. cbn [on_mm set_locks model_manager models].
  destruct (OD.get _ _); [|done]. apply warmup_texts_locks.
Qed.

Lemma set_locks_id g w :
  g (_locks (model_manager w)) = _locks (model_manager w) ->
  on_mm (set_locks g) w = w.
Proof. destruct w as [[] ? ? ?]. unfold on_mm, set_locks. simpl. by intros ->. Qed.

Lemma set_locks_twice g g' w :
  on_mm (set_locks g') (on_mm (set_locks g) w)
  = on_mm (set_locks (fun l => g' (g l))) w.
Proof. done. Qed.

Lemma run_solo_cons ops E l pc w :
  run_sched ops E (0%nat :: l) {| world := w; tasks := [pc] |}
  = match load_step ops E pc w with
    | Some (pc', w') => run_sched ops E l {| world := w'; tasks := [pc'] |}
    | None => run_sched ops E l {| world := w; tasks := [pc] |}
    end.
Proof.
  unfold run_sched. simpl. unfold sched_step. simpl.
  by destruct (load_step ops E pc w) as [[pc' w']|].
Qed.

Lemma run_solo_returned ops E l r w :
  run_sched ops E l {| world := w; tasks := [Returned r] |}
  = {| world := w; tasks := [Returned r] |}.
Proof.
  induction l as [|i l IH]; [done|].
  unfold run_sched in *. simpl. unfold sched_step at 2. simpl.
  destruct i as [|i]; simpl; exact IH.
Qed.

Lemma solo_caller_is_load_model E ident w :
  _global_lock (model_manager w) = false ->
  (forall k, _locks (model_manager w) !! k <> Some true) ->
  run_sched embedding_ops E solo_schedule (spawn [ident] w)
  = {| world := fst (load_model E ident w);
       tasks := [Returned (snd (load_model E ident w))] |}.
Proof.
  intros Hg Hl. unfold solo_schedule, spawn, load_model. cbn [map].
  rewrite run_solo_cons. cbn [load_step op_resolve embedding_ops].
  destruct (_resolve_model_name (config (model_manager w)) ident) as [k|e];
    [|apply run_solo_returned].
  unfold op_is_ready. cbn [op_models op_status embedding_ops].
  fold (is_ready k (model_manager w)).
  destruct (is_ready k (model_manager w)) eqn:Hrd; [apply run_solo_returned|].
  (* the global lock *)
  rewrite run_solo_cons. cbn [load_step op_global_lock embedding_ops]. rewrite Hg.
  rewrite run_solo_cons.
  cbn [load_step op_set_global_lock op_set_locks embedding_ops].
  assert (Hround : on_mm (set_global_lock false)
                     (on_mm (set_locks (ensure_lock k)) (on_mm (set_global_lock true) w))
                   = on_mm (set_locks (ensure_lock k)) w).
  { destruct w as [[] ? ? ?]. unfold on_mm, set_locks, set_global_lock. simpl in *.
    by rewrite Hg. }
  rewrite Hround. clear Hround.
  set (w2 := on_mm (set_locks (ensure_lock k)) w).
  assert (Hfree : _locks (model_manager w2) !! k = Some false).
  { unfold w2. simpl. unfold ensure_lock.
    destruct (_locks (model_manager w) !! k) as [[|]|] eqn:Hk.
    - by destruct (Hl k).
    - done.
    - by rewrite lookup_insert_eq. }
  assert (Hrd2 : is_ready k (model_manager w2) = false) by exact Hrd.
  rewrite Hrd2.
  (* the lock of the key *)
  rewrite run_solo_cons. cbn [load_step op_locks embedding_ops]. rewrite Hfree.
  rewrite run_solo_cons. cbn [load_step op_set_locks op_begin_load embedding_ops].
  unfold op_is_ready. cbn [op_models op_status embedding_ops].
  change (OD.mem k (models (model_manager (on_mm (set_locks (insert k true)) w2)))
          && status_is READY
               (model_status (model_manager (on_mm (set_locks (insert k true)) w2)) !! k))
    with (is_ready k (model_manager w2)).
  rewrite Hrd2.
  assert (Hback : forall w', _locks (model_manager w') = _locks (model_manager w2) ->
            release embedding_ops k (on_mm (set_locks (insert k true)) w') = w').
  { intros w' Hw'. unfold release. cbn [op_set_locks embedding_ops].
    rewrite set_locks_twice. apply set_locks_id. rewrite Hw'.
    rewrite insert_insert_eq. by apply insert_id. }
  change (clock (on_mm (set_locks (insert k true)) w2)) with (clock (begin_load k w2)).
  change (begin_load k (on_mm (set_locks (insert k true)) w2))
    with (on_mm (set_locks (insert k true)) (begin_load k w2)).
  rewrite run_solo_cons. cbn [load_step op_manage_memory embedding_ops].
  rewrite manage_memory_locks.
  rewrite run_solo_cons. cbn [load_step op_load op_fail_load embedding_ops].
  rewrite mm_load_locks.
  pose proof (law_manage _ embedding_laws k (begin_load k w2)) as (_ & Hlm & _).
  pose proof (law_load _ embedding_laws E k (_manage_memory k (begin_load k w2)))
    as (_ & Hll & _).
  cbn [op_locks op_manage_memory op_load op_begin_load embedding_ops] in Hlm, Hll.
  destruct (mm_load E k (_manage_memory k (begin_load k w2))) as [w5 [e|]];
    cbn [fst snd] in *.
  all: assert (H5 : _locks (model_manager w5) = _locks (model_manager w2))
         by (rewrite Hll, Hlm; done).
  - unfold fail_load at 1.
    change (on_mm (set_model_status (insert k ERROR)) (on_mm (set_locks (insert k true)) w5))
      with (on_mm (set_locks (insert k true)) (fst (fail_load k e w5))).
    rewrite Hback by exact H5.
    rewrite run_solo_returned. done.
  - rewrite run_solo_cons. cbn [load_step op_warmup embedding_ops].
    rewrite warmup_locks.
    rewrite run_solo_cons. cbn [load_step op_finish_load embedding_ops].
    change (finish_load k (clock (begin_load k w2))
              (on_mm (set_locks (insert k true)) (_warmup E k w5)))
      with (on_mm (set_locks (insert k true))
              (finish_load k (clock (begin_load k w2)) (_warmup E k w5))).
    rewrite Hback.
    + rewrite run_solo_returned. done.
    + pose proof (law_warmup _ embedding_laws E k w5) as (_ & Hlw & _).
      cbn [op_locks op_warmup embedding_ops] in Hlw.
      simpl. by rewrite Hlw.
Qed.

Lemma r_unload_model_locks g k w :
  r_unload_model k (on_rm (r_set_locks g) w)
  = on_rm (r_set_locks g) (r_unload_model k w).
Proof. unfold r_unload_model. simpl. by destruct (negb _). Qed.

Lemma r_manage_memory_locks g k w :
  r_manage_memory k (on_rm (r_set_locks g) w)
  = on_rm (r_set_locks g) (r_manage_memory k w).
Proof.
  unfold r_manage_memory. simpl. destruct (_ <=? _)%nat; [|done].
  destruct (List.filter _ _); [done|]. apply r_unload_model_locks.
Qed.

Lemma rm_load_locks g E k w :
  rm_load E k (on_rm (r_set_locks g) w)
  = (on_rm (r_set_locks g) (fst (rm_load E k w)), snd (rm_load E k w)).
Proof.
  unfold rm_load, call_load, count_events. simpl.
  destruct (eng_load E k _) as [h b|e]; [|done].
  by destruct (eng_token_ids E h).
Qed.

Lemma r_warmup_locks g E k w :
  r_warmup E k (on_rm (r_set_locks g) w) = on_rm (r_set_locks g) (r_warmup E k w).
Proof.
  unfold r_warmup. cbn [on_rm r_set_locks reranker_manager r_models _token_ids].
  destruct (OD.get _ _); [|done]. by destruct (_ !! _).
Qed.

Lemma r_set_locks_id g w :
  g (r_locks (reranker_manager w)) = r_locks (reranker_manager w) ->
  on_rm (r_set_locks g) w = w.
Proof. destruct w as [? [] ? ?]. unfold on_rm, r_set_locks. simpl. by intros ->. Qed.

Lemma solo_caller_is_r_load_model E ident w :
  r_global_lock (reranker_manager w) = false ->
  (forall k, r_locks (reranker_manager w) !! k <> Some true) ->
  run_sched reranker_ops E solo_schedule (spawn [ident] w)
  = {| world := fst (r_load_model E ident w);
       tasks := [Returned (snd (r_load_model E ident w))] |}.
Proof.
  intros Hg Hl. unfold solo_schedule, spawn, r_load_model. cbn [map].
  rewrite run_solo_cons. cbn [load_step op_resolve reranker_ops].
  destruct (r_resolve_model_name ident) as [k|e]; [|apply run_solo_returned].
  unfold op_is_ready. cbn [op_models op_status reranker_ops].
  fold (r_is_ready k (reranker_manager w)).
  destruct (r_is_ready k (reranker_manager w)) eqn:Hrd; [apply run_solo_returned|].
  (* the global lock *)
  rewrite run_solo_cons. cbn [load_step op_global_lock reranker_ops]. rewrite Hg.
  rewrite run_solo_cons.
  cbn [load_step op_set_global_lock op_set_locks reranker_ops].
  assert (Hround : on_rm (r_set_global_lock false)
                     (on_rm (r_set_locks (ensure_lock k))
                        (on_rm (r_set_global_lock true) w))
                   = on_rm (r_set_locks (ensure_lock k)) w).
  { destruct w as [? [] ? ?]. unfold on_rm, r_set_locks, r_set_global_lock.
    simpl in *. by rewrite Hg. }
  rewrite Hround. clear Hround.
  set (w2 := on_rm (r_set_locks (ensure_lock k)) w).
  assert (Hfree : r_locks (reranker_manager w2) !! k = Some false).
  { unfold w2. simpl. unfold ensure_lock.
    destruct (r_locks (reranker_manager w) !! k) as [[|]|] eqn:Hk.
    - by destruct (Hl k).
    - done.
    - by rewrite lookup_insert_eq. }
  assert (Hrd2 : r_is_ready k (reranker_manager w2) = false) by exact Hrd.
  rewrite Hrd2.
  (* the lock of the key *)
  rewrite run_solo_cons. cbn [load_step op_locks reranker_ops]. rewrite Hfree.
  rewrite run_solo_cons. cbn [load_step op_set_locks op_begin_load reranker_ops].
  unfold op_is_ready. cbn [op_models op_status reranker_ops].
  change (OD.mem k (r_models (reranker_manager (on_rm (r_set_locks (insert k true)) w2)))
          && status_is READY
               (r_model_status
                  (reranker_manager (on_rm (r_set_locks (insert k true)) w2)) !! k))
    with (r_is_ready k (reranker_manager w2)).
  rewrite Hrd2.
  assert (Hback : forall w',
            r_locks (reranker_manager w') = r_locks (reranker_manager w2) ->
            release reranker_ops k (on_rm (r_set_locks (insert k true)) w') = w').
  { intros w' Hw'. unfold release. cbn [op_set_locks reranker_ops].
    change (on_rm (r_set_locks (insert k false)) (on_rm (r_set_locks (insert k true)) w'))
      with (on_rm (r_set_locks (fun l => <[k := false]> (<[k := true]> l))) w').
    apply r_set_locks_id. rewrite Hw'.
    rewrite insert_insert_eq. by apply insert_id. }
  set (w3 := on_rm (r_set_model_status (insert k LOADING)) w2).
  change (clock (on_rm (r_set_locks (insert k true)) w2)) with (clock w3).
  change (on_rm (r_set_model_status (insert k LOADING))
            (on_rm (r_set_locks (insert k true)) w2))
    with (on_rm (r_set_locks (insert k true)) w3).
  rewrite run_solo_cons. cbn [load_step op_manage_memory reranker_ops].
  rewrite r_manage_memory_locks.
  rewrite run_solo_cons. cbn [load_step op_load op_fail_load reranker_ops].
  rewrite rm_load_locks.
  pose proof (law_manage _ reranker_laws k w3) as (_ & Hlm & _).
  pose proof (law_load _ reranker_laws E k (r_manage_memory k w3)) as (_ & Hll & _).
  cbn [op_locks op_manage_memory op_load op_begin_load reranker_ops] in Hlm, Hll.
  destruct (rm_load E k (r_manage_memory k w3)) as [w5 [e|]]; cbn [fst snd] in *.
  all: assert (H5 : r_locks (reranker_manager w5) = r_locks (reranker_manager w2))
         by (rewrite Hll, Hlm; done).
  - unfold r_fail_load at 1.
    change (on_rm (r_set_model_status (insert k ERROR))
              (on_rm (r_set_locks (insert k true)) w5))
      with (on_rm (r_set_locks (insert k true)) (fst (r_fail_load k e w5))).
    rewrite Hback by exact H5.
    rewrite run_solo_returned. done.
  - rewrite run_solo_cons. cbn [load_step op_warmup reranker_ops].
    rewrite r_warmup_locks.
    rewrite run_solo_cons. cbn [load_step op_finish_load reranker_ops].
    change (r_finish_load k (clock w3)
              (on_rm (r_set_locks (insert k true)) (r_warmup E k w5)))
      with (on_rm (r_set_locks (insert k true))
              (r_finish_load k (clock w3) (r_warmup E k w5))).
    rewrite Hback.
    + rewrite run_solo_returned. done.
    + pose proof (law_warmup _ reranker_laws E k w5) as (_ & Hlw & _).
      cbn [op_locks op_warmup reranker_ops] in Hlw.
      simpl. by rewrite Hlw.
Qed.

(** ** Concurrent callers of [load_model] *)

Lemma manager_laws ops :
  ops = embedding_ops \/ ops = reranker_ops -> LoadLaws ops.
Proof. intros [-> | ->]; [exact embedding_laws|exact reranker_laws]. Qed.

Lemma manager_lock_laws ops :
  ops = embedding_ops \/ ops = reranker_ops -> LockLaws ops.
Proof. intros [-> | ->]; [exact embedding_lock_laws|exact reranker_lock_laws]. Qed.

(** Claim C1, as amended.  Callers of [load_model] of one manager for one
    key [k], interleaved in any way at the suspension points of the
    coroutine:
    - the model is stored at most once;
    - [load(k)] is called once for the stored model and once more for every
      caller that was given an exception, so at most once when no caller
      was;
    - a caller that has returned either returned normally, with [k] READY
      and the table of handles fixed from then on, whatever runs later, or
      was given the RuntimeError that wraps the failure of a load;
    - when no lock was held at the start, the callers can always be run
      to the point where all of them have returned. *)
Theorem concurrent_loads_store_once
    (ops : LoadOps) (E : Engine) (k : string) (idents : list (option string))
    (w : World) (sched more : list nat) :
  ops = embedding_ops \/ ops = reranker_ops ->
  Forall (fun ident => op_resolve ops w ident = Ok k) idents ->
  (good_loads_of (op_family ops) k
     (world (run_sched ops E sched (spawn idents w)))
   <= S (good_loads_of (op_family ops) k w))%nat
  /\ (family_loads_of (op_family ops) k
        (world (run_sched ops E sched (spawn idents w)))
      + good_loads_of (op_family ops) k w
      = family_loads_of (op_family ops) k w
        + good_loads_of (op_family ops) k
            (world (run_sched ops E sched (spawn idents w)))
        + raised_count (run_sched ops E sched (spawn idents w)))%nat
  /\ (raised_count (run_sched ops E sched (spawn idents w)) = 0%nat ->
      (family_loads_of (op_family ops) k
         (world (run_sched ops E sched (spawn idents w)))
       <= S (family_loads_of (op_family ops) k w))%nat)
  /\ (forall i r,
      tasks (run_sched ops E sched (spawn idents w)) !! i = Some (Returned r) ->
      (r = Ok k
       /\ op_is_ready ops k (world (run_sched ops E sched (spawn idents w))) = true
       /\ op_models ops
            (world (run_sched ops E more (run_sched ops E sched (spawn idents w))))
          = op_models ops (world (run_sched ops E sched (spawn idents w)))
       /\ op_is_ready ops k
            (world (run_sched ops E more (run_sched ops E sched (spawn idents w))))
          = true)
      \/ exists m c, r = Raise (RuntimeErrorFrom m c))
  /\ (op_global_lock ops w = false -> op_locks ops w !! k <> Some true ->
      exists rest,
        Forall (fun pc => has_returned pc = true)
          (tasks (run_sched ops E rest (run_sched ops E sched (spawn idents w))))).
Proof.
  intros Hops Hall.
  pose proof (manager_laws ops Hops) as laws.
  pose proof (manager_lock_laws ops Hops) as llaws.
  pose proof (run_sched_single_flight ops laws E k _ sched _
                (spawn_single_flight ops k idents w Hall)) as Hinv.
  pose proof (run_sched_accounted ops laws E k _ _ sched _
                (spawn_single_flight ops k idents w Hall)
                (spawn_accounted ops k idents w)) as Hacc.
  unfold accounted in Hacc.
  assert (Hle : (good_loads_of (op_family ops) k
                   (world (run_sched ops E sched (spawn idents w)))
                 <= S (good_loads_of (op_family ops) k w))%nat).
  { destruct (sf_good _ _ _ _ Hinv) as [-> | [-> _]]; lia. }
  split; [exact Hle|]. split; [exact Hacc|]. split; [lia|]. split.
  - intros i r Hi.
    destruct (sf_tasks _ _ _ _ Hinv i _ Hi) as [[-> Hrd] | Hraise]; [left|by right].
    destruct (run_ready_is_stable ops laws E k _ more _ Hinv Hrd) as [Hm Hr].
    done.
  - intros Hg Hl.
    apply (all_callers_return ops laws llaws E k _ _ _ (Nat.le_refl _) Hinv).
    apply (run_sched_locks_owned ops laws llaws E k _ sched _
             (spawn_single_flight ops k idents w Hall)
             (spawn_locks_owned ops k idents w Hg Hl)).
Qed.

Lemma concurrent_loads_store_once_witness :
  (good_loads_of Embedding DEFAULT_MODEL
     (world (run_sched embedding_ops sample_engine waiting_schedule
               (spawn [None; None] (World_init default_config 100))))
   <= 1)%nat
  /\ tasks (run_sched embedding_ops sample_engine waiting_schedule
              (spawn [None; None] (World_init default_config 100)))
     = [Returned (Ok DEFAULT_MODEL); Returned (Ok DEFAULT_MODEL)]
  /\ op_models embedding_ops
       (world (run_sched embedding_ops sample_engine [0; 1; 1; 0]%nat
                 (run_sched embedding_ops sample_engine waiting_schedule
                    (spawn [None; None] (World_init default_config 100)))))
     = op_models embedding_ops
         (world (run_sched embedding_ops sample_engine waiting_schedule
                   (spawn [None; None] (World_init default_config 100))))
  /\ exists rest,
       Forall (fun pc => has_returned pc = true)
         (tasks (run_sched embedding_ops sample_engine rest
                   (run_sched embedding_ops sample_engine waiting_schedule
                      (spawn [None; None] (World_init default_config 100))))).
Proof.
  assert (Hops : embedding_ops = embedding_ops \/ embedding_ops = reranker_ops)
    by (left; reflexivity).
  assert (Hall : Forall (fun ident =>
                   op_resolve embedding_ops (World_init default_config 100) ident
                   = Ok DEFAULT_MODEL) [None; None])
    by (repeat constructor).
  assert (Hi : tasks (run_sched embedding_ops sample_engine waiting_schedule
                        (spawn [None; None] (World_init default_config 100)))
               = [Returned (Ok DEFAULT_MODEL); Returned (Ok DEFAULT_MODEL)])
    by (vm_compute; reflexivity).
  pose proof (concurrent_loads_store_once embedding_ops sample_engine DEFAULT_MODEL
                [None; None] (World_init default_config 100) waiting_schedule
                [0; 1; 1; 0]%nat Hops Hall) as H.
  destruct H as (Hle & _ & _ & Hret & Hlive).
  split; [exact Hle|]. split; [exact Hi|]. split.
  - destruct (Hret 1%nat (Ok DEFAULT_MODEL)) as [(_ & _ & Hm & _) | (m & c & Hr)].
    + rewrite Hi. reflexivity.
    + exact Hm.
    + discriminate Hr.
  - apply Hlive; [reflexivity|].
    intros Hheld. vm_compute in Hheld. discriminate Hheld.
Defined.

(** Claim C1 as written does not hold: after a failed load the slot is
    ERROR, not READY, so the next caller calls [load] again, whether it
    started after the first caller ended ([serial_schedule], and
    [load_model] called twice) or waited for the lock of the key
    ([waiting_schedule]); it may then succeed where the first caller was
    given an exception. *)
Lemma second_caller_loads_again_counterexample :
  loads_of DEFAULT_MODEL
    (fst (load_model failing_engine None
       (fst (load_model failing_engine None sample_world)))) = 2%nat
  /\ family_loads_of Embedding DEFAULT_MODEL
       (world (run_sched embedding_ops failing_engine serial_schedule
                 (spawn [None; None] sample_world))) = 2%nat
  /\ family_loads_of Embedding DEFAULT_MODEL
       (world (run_sched embedding_ops failing_engine waiting_schedule
                 (spawn [None; None] sample_world))) = 2%nat
  /\ tasks (run_sched embedding_ops flaky_engine serial_schedule
              (spawn [None; None] sample_world))
     = [Returned (Raise (RuntimeErrorFrom "Model loading failed: connection reset"
                           (EngineError "connection reset")));
        Returned (Ok DEFAULT_MODEL)]
  /\ tasks (run_sched embedding_ops flaky_engine waiting_schedule
              (spawn [None; None] sample_world))
     = [Returned (Raise (RuntimeErrorFrom "Model loading failed: connection reset"
                           (EngineError "connection reset")));
        Returned (Ok DEFAULT_MODEL)]
  /\ family_loads_of Reranker DEFAULT_RERANKER_MODEL
       (world (run_sched reranker_ops failing_engine serial_schedule
                 (spawn [None; None] sample_world))) = 2%nat.
Proof. repeat split; vm_compute; reflexivity. Qed.

(** * The rest of the server: properties *)

(** ** Substrings, splitting and joining *)

Lemma length_app_str (a b : string) :
  String.length (a +:+ b) = (String.length a + String.length b)%nat.
Proof. induction a as [|c a IH]; [done|]. rewrite append_cons. simpl. by rewrite IH. Qed.

Lemma app_nil_r_str (a : string) : a +:+ EmptyString = a.
Proof. induction a as [|c a IH]; [done|]. by rewrite append_cons, IH. Qed.

Lemma startswith_empty (pat : string) :
  PyStr.startswith EmptyString pat = true -> pat = EmptyString.
Proof. by destruct pat. Qed.

Lemma contains_intro (a pat b : string) :
  PyText.contains (a +:+ pat +:+ b) pat = true.
Proof.
  induction a as [|c a IH].
  - rewrite append_nil. destruct (pat +:+ b) as [|d r] eqn:Hs.
    + destruct pat; [done|]. by rewrite append_cons in Hs.
    + simpl. rewrite <- Hs. by rewrite startswith_app.
  - rewrite append_cons. simpl. rewrite IH. apply orb_true_r.
Qed.

Lemma contains_elim (s pat : string) :
  PyText.contains s pat = true -> exists a b, s = a +:+ pat +:+ b.
Proof.
  induction s as [|c s IH]; simpl; intros H.
  - apply startswith_empty in H as ->. by exists EmptyString, EmptyString.
  - apply orb_true_iff in H as [H|H].
    + apply (startswith_inv (String c s) pat) in H as [r Hr].
      exists EmptyString, r. by rewrite append_nil.
    + destruct (IH H) as (a & b & ->). exists (String c a), b.
      by rewrite append_cons.
Qed.

(** [lower] works on a string piece by piece wherever a piece starts
    with an ASCII character. *)
Lemma lower_eq (c : ascii) (r : string) :
  PyStr.lower (String c r)
  = match r with
    | String c1 r1 =>
        if PyStr.is_byte 196 c && PyStr.is_byte 176 c1
        then PyStr.dotted_i +:+ PyStr.lower r1
        else
          match r1 with
          | String c2 r2 =>
              if PyStr.is_byte 226 c && PyStr.is_byte 132 c1 && PyStr.is_byte 170 c2
              then String "k" (PyStr.lower r2)
              else String (PyStr.lower_ascii c) (PyStr.lower r)
          | EmptyString => String (PyStr.lower_ascii c) (PyStr.lower r)
          end
    | EmptyString => String (PyStr.lower_ascii c) (PyStr.lower r)
    end.
Proof. by destruct r as [|c1 [|c2 r2]]. Qed.

Lemma is_byte_ascii (n : nat) (c : ascii) :
  (nat_of_ascii c < 128)%nat -> (128 <= n)%nat -> PyStr.is_byte n c = false.
Proof. intros Hc Hn. unfold PyStr.is_byte. apply Nat.eqb_neq. lia. Qed.

Lemma lower_cons_ascii (c : ascii) (r : string) :
  (nat_of_ascii c < 128)%nat ->
  PyStr.lower (String c r) = String (PyStr.lower_ascii c) (PyStr.lower r).
Proof.
  intros Hc. rewrite lower_eq.
  destruct r as [|c1 r1]; [done|].
  rewrite (is_byte_ascii 196 c) by lia. cbn [andb].
  destruct r1 as [|c2 r2]; [done|].
  by rewrite (is_byte_ascii 226 c) by lia.
Qed.

Lemma lower_app_ascii (a : string) (c : ascii) (r : string) :
  (nat_of_ascii c < 128)%nat ->
  PyStr.lower (a +:+ String c r) = PyStr.lower a +:+ PyStr.lower (String c r).
Proof.
  intros Hc. remember (String.length a) as n eqn:Hn. revert a Hn.
  induction n as [n IH] using lt_wf_ind. intros a Hn.
  destruct a as [|x [|y [|z a]]].
  - done.
  - rewrite append_cons, append_nil, (lower_eq x (String c r)).
    rewrite (is_byte_ascii 176 c) by lia. rewrite andb_false_r.
    destruct r as [|c2 r2]; [done|].
    rewrite (is_byte_ascii 132 c) by lia. by rewrite andb_false_r.
  - rewrite !append_cons, append_nil, (lower_eq x (String y (String c r))).
    rewrite (lower_eq x (String y EmptyString)).
    destruct (PyStr.is_byte 196 x && PyStr.is_byte 176 y).
    { by rewrite app_assoc_str. }
    rewrite (is_byte_ascii 170 c) by lia. rewrite andb_false_r.
    pose proof (IH 1%nat ltac:(simpl in Hn; lia) (String y EmptyString) eq_refl) as H1.
    rewrite append_cons, append_nil in H1. by rewrite H1.
  - rewrite !append_cons, (lower_eq x (String y (String z (a +:+ String c r)))).
    rewrite (lower_eq x (String y (String z a))).
    pose proof (IH (String.length a) ltac:(simpl in Hn; lia) a eq_refl) as H0.
    pose proof (IH (String.length (String z a)) ltac:(simpl in Hn |- *; lia)
                  (String z a) eq_refl) as H1.
    pose proof (IH (String.length (String y (String z a))) ltac:(simpl in Hn |- *; lia)
                  (String y (String z a)) eq_refl) as H2.
    rewrite !append_cons in H1, H2.
    destruct (PyStr.is_byte 196 x && PyStr.is_byte 176 y).
    { rewrite H1. by rewrite app_assoc_str. }
    destruct (PyStr.is_byte 226 x && PyStr.is_byte 132 y && PyStr.is_byte 170 z).
    { by rewrite H0. }
    change (String z a +:+ String c r) with (String z (a +:+ String c r)) in H2.
    by rewrite H2.
Qed.

Lemma lower_ascii_is_ascii (c : ascii) :
  (nat_of_ascii (PyStr.lower_ascii c) < 128)%nat -> (nat_of_ascii c < 128)%nat.
Proof.
  unfold PyStr.lower_ascii.
  destruct ((65 <=? nat_of_ascii c)%nat && (nat_of_ascii c <=? 90)%nat) eqn:H; [|done].
  apply andb_true_iff in H as [_ H]. apply Nat.leb_le in H. lia.
Qed.

Lemma ascii_lower_all_ascii (v : string) :
  all_ascii (ascii_lower v) = true -> all_ascii v = true.
Proof.
  induction v as [|c v IH]; [done|]. cbn [ascii_lower all_ascii].
  intros [Hc Hv]%andb_true_iff. apply Nat.ltb_lt in Hc.
  apply andb_true_iff. split; [|by apply IH].
  apply Nat.ltb_lt. by apply lower_ascii_is_ascii.
Qed.

Lemma lower_ascii_prefix (v b : string) :
  all_ascii v = true -> PyStr.lower (v +:+ b) = ascii_lower v +:+ PyStr.lower b.
Proof.
  induction v as [|c v IH]; [done|]. cbn [all_ascii].
  intros [Hc Hv]%andb_true_iff. apply Nat.ltb_lt in Hc.
  rewrite append_cons, lower_cons_ascii by done. cbn [ascii_lower].
  by rewrite append_cons, IH.
Qed.

Lemma lower_around (a v b : string) :
  all_ascii v = true -> v <> EmptyString ->
  PyStr.lower (a +:+ v +:+ b) = PyStr.lower a +:+ ascii_lower v +:+ PyStr.lower b.
Proof.
  intros Hv Hne. destruct v as [|c v]; [done|].
  assert (Hc : (nat_of_ascii c < 128)%nat).
  { cbn [all_ascii] in Hv. apply andb_true_iff in Hv as [Hc _]. by apply Nat.ltb_lt. }
  rewrite append_cons, lower_app_ascii by done.
  by rewrite <- append_cons, lower_ascii_prefix.
Qed.

Lemma lower_kelvin (b : string) :
  PyStr.lower (KELVIN_SIGN +:+ b) = String "k" (PyStr.lower b).
Proof. unfold KELVIN_SIGN. rewrite !append_cons, append_nil. by rewrite lower_eq. Qed.

Lemma no_pattern_in_false (msg : string) (patterns : list string) :
  no_pattern_in msg patterns = false <->
  exists pattern, In pattern patterns /\ PyText.contains msg pattern = true.
Proof.
  induction patterns as [|p ps IH]; simpl.
  - split; [done|]. by intros (? & [] & _).
  - destruct (PyText.contains msg p) eqn:Hp.
    + split; [|done]. intros _. exists p. by split; [left|].
    + rewrite IH. split.
      * intros (q & Hq & Hc). exists q. by split; [right|].
      * intros (q & [<-|Hq] & Hc); [congruence|]. by exists q.
Qed.

Lemma split_nonempty (sep : ascii) (s : string) : PyText.split sep s <> [].
Proof.
  induction s as [|c s IH]; simpl; [done|].
  destruct (Ascii.eqb c sep); [done|]. by destruct (PyText.split sep s).
Qed.

Lemma join_cons2 (sep x y : string) (r : list string) :
  PyText.join sep (x :: y :: r) = x +:+ sep +:+ PyText.join sep (y :: r).
Proof. reflexivity. Qed.

Lemma join_cons_piece (sep : string) (c : ascii) (piece : string) (rest : list string) :
  PyText.join sep (String c piece :: rest) = String c (PyText.join sep (piece :: rest)).
Proof. destruct rest; [done|]. by rewrite !join_cons2, append_cons. Qed.

Lemma join_split (sep : ascii) (s : string) :
  PyText.join (String sep EmptyString) (PyText.split sep s) = s.
Proof.
  induction s as [|c s IH]; simpl; [done|].
  destruct (Ascii.eqb c sep) eqn:Hc.
  - apply Ascii.eqb_eq in Hc as ->.
    pose proof (split_nonempty sep s) as Hne.
    destruct (PyText.split sep s) as [|p r] eqn:Hs; [done|].
    rewrite join_cons2, append_nil, append_cons, append_nil.
    by rewrite IH.
  - pose proof (split_nonempty sep s) as Hne.
    destruct (PyText.split sep s) as [|p r] eqn:Hs; [done|].
    rewrite join_cons_piece. by rewrite IH.
Qed.

Lemma split_pieces (sep : ascii) (s : string) :
  Forall (fun piece => PyStr.contains_char sep piece = false) (PyText.split sep s).
Proof.
  induction s as [|c s IH]; simpl.
  - by constructor.
  - destruct (Ascii.eqb c sep) eqn:Hc.
    + by constructor.
    + destruct (PyText.split sep s) as [|p r].
      { repeat constructor. by rewrite contains_char_cons, Ascii.eqb_sym, Hc. }
      inversion IH as [|? ? Hp Hr]; subst. constructor; [|done].
      rewrite contains_char_cons. rewrite Ascii.eqb_sym, Hc. exact Hp.
Qed.

Lemma validate_items_none (what : string) (i : nat) (v : list string) :
  validate_items what i v = None <-> Forall (fun t => is_blank t = false) v.
Proof.
  revert i. induction v as [|t v IH]; intros i; simpl.
  - split; [by constructor|done].
  - destruct (is_blank t) eqn:Ht.
    + split; [done|]. inversion 1; congruence.
    + rewrite IH. split; [by constructor|]. by inversion 1.
Qed.

Lemma validate_items_first (what : string) (i0 : nat) (v : list string) i text :
  v !! i = Some text -> is_blank text = true ->
  (forall j t, (j < i)%nat -> v !! j = Some t -> is_blank t = false) ->
  validate_items what i0 v
  = Some (ValueError (what +:+ " at index " +:+ PyText.of_nat (i0 + i)
                      +:+ " cannot be empty or whitespace only")).
Proof.
  revert i0 i. induction v as [|t v IH]; intros i0 i Hi Hb Hbefore; [done|].
  destruct i as [|i]; simpl in *.
  - injection Hi as ->. rewrite Hb. by rewrite Nat.add_0_r.
  - rewrite (Hbefore 0%nat t) by (lia || done).
    rewrite (IH (S i0) i Hi Hb).
    + by replace (S i0 + i)%nat with (i0 + S i)%nat by lia.
    + intros j t' Hj Hl. apply (Hbefore (S j) t'); [lia|done].
Qed.

Lemma app_inv_tail_str (a b c : string) : a +:+ c = b +:+ c -> a = b.
Proof.
  revert b. induction a as [|x a IH]; intros [|y b] H;
    rewrite ?append_cons, ?append_nil in H.
  - done.
  - apply (f_equal String.length) in H. simpl in H. rewrite length_app_str in H. lia.
  - apply (f_equal String.length) in H. simpl in H. rewrite length_app_str in H. lia.
  - injection H as -> H. f_equal. by apply IH.
Qed.

Lemma flag_suffix_differs (t1 t2 : string) : t1 +:+ ":True" <> t2 +:+ ":False".
Proof.
  revert t2. induction t1 as [|x t1 IH]; intros [|y t2] H;
    rewrite ?append_cons, ?append_nil in H.
  - done.
  - apply (f_equal String.length) in H. simpl in H. rewrite length_app_str in H.
    simpl in H. lia.
  - injection H as -> H.
    assert (Hl : String.length t1 = 0%nat).
    { apply (f_equal String.length) in H. rewrite length_app_str in H. simpl in H. lia. }
    destruct t1; [|done]. done.
  - injection H as -> H. by apply (IH t2).
Qed.

Lemma text_flag_inj (t1 t2 : string) (n1 n2 : bool) :
  t1 +:+ ":" +:+ PyStr.of_bool n1 = t2 +:+ ":" +:+ PyStr.of_bool n2 ->
  t1 = t2 /\ n1 = n2.
Proof.
  destruct n1, n2; simpl; intros H.
  - split; [|done]. by apply app_inv_tail_str in H.
  - by apply flag_suffix_differs in H.
  - symmetry in H. by apply flag_suffix_differs in H.
  - split; [|done]. by apply app_inv_tail_str in H.
Qed.

(** X1. The cache key [f"{model_name}:{text}:{normalize}"] determines the
    model, the text and the flag, for model names without a colon (the
    names of the catalog): two different requests never share an entry of
    the embedding cache. *)
Theorem fingerprint_injective (k1 k2 t1 t2 : string) (n1 n2 : bool) :
  PyStr.contains_char ":"%char k1 = false ->
  PyStr.contains_char ":"%char k2 = false ->
  fingerprint k1 t1 n1 = fingerprint k2 t2 n2 ->
  k1 = k2 /\ t1 = t2 /\ n1 = n2.
Proof.
  intros H1 H2 Heq. unfold fingerprint in Heq.
  pose proof (colon_split k1 k2 _ _ H1 H2 Heq) as ->.
  split; [done|].
  apply (inj (String.append k2)) in Heq.
  rewrite !append_cons, !append_nil in Heq. injection Heq as Heq.
  by apply text_flag_inj.
Qed.

Lemma fingerprint_injective_witness :
  DEFAULT_MODEL = DEFAULT_MODEL /\ "a:b" = "a:b" /\ true = true.
Proof.
  exact (fingerprint_injective DEFAULT_MODEL DEFAULT_MODEL "a:b" "a:b" true true
           eq_refl eq_refl eq_refl).
Defined.

(** X2. [HealthCheckFilter] drops a record exactly when its message, in
    lower case, contains one of the three patterns.  So it drops every
    message in which a pattern is written in any mix of upper and lower
    case letters, among them every record that [UvicornHealthFilter]
    drops (which looks for "/health" as written), and also a message
    that writes the [k] of "health check" as the Kelvin sign. *)
Theorem health_filter_drops_mentions (message : string) :
  (HealthCheckFilter_filter message = false <->
   exists pattern a b,
     In pattern HEALTH_PATTERNS /\ PyStr.lower message = a +:+ pattern +:+ b)
  /\ (UvicornHealthFilter_filter message = false <->
      exists a b, message = a +:+ "/health" +:+ b)
  /\ (UvicornHealthFilter_filter message = false ->
      HealthCheckFilter_filter message = false)
  /\ (forall pattern written a b,
        In pattern HEALTH_PATTERNS -> ascii_lower written = pattern ->
        message = a +:+ written +:+ b ->
        HealthCheckFilter_filter message = false)
  /\ (forall a b,
        message = a +:+ "health chec" +:+ KELVIN_SIGN +:+ b ->
        HealthCheckFilter_filter message = false).
Proof.
  assert (Hfile : HealthCheckFilter_filter message = false <->
            exists pattern a b,
              In pattern HEALTH_PATTERNS /\ PyStr.lower message = a +:+ pattern +:+ b).
  { unfold HealthCheckFilter_filter. rewrite no_pattern_in_false. split.
    - intros (p & Hp & Hc). apply contains_elim in Hc as (a & b & Hc). by exists p, a, b.
    - intros (p & a & b & Hp & ->). exists p. split; [done|]. apply contains_intro. }
  assert (Huv : UvicornHealthFilter_filter message = false <->
            exists a b, message = a +:+ "/health" +:+ b).
  { unfold UvicornHealthFilter_filter.
    destruct (PyText.contains message "/health") eqn:Hc.
    - split; [|done]. intros _. by apply contains_elim.
    - split; [done|]. intros (a & b & ->). by rewrite contains_intro in Hc. }
  assert (Hany : forall pattern written a b,
            In pattern HEALTH_PATTERNS -> ascii_lower written = pattern ->
            message = a +:+ written +:+ b ->
            HealthCheckFilter_filter message = false).
  { intros pattern written a b Hp Hw ->. apply Hfile.
    exists pattern, (PyStr.lower a), (PyStr.lower b). split; [done|].
    assert (Hpa : all_ascii pattern = true /\ pattern <> EmptyString).
    { simpl in Hp. destruct Hp as [<-|[<-|[<-|[]]]]; (split; [reflexivity|done]). }
    destruct Hpa as [Hascii Hne].
    rewrite lower_around; [by rewrite Hw| |].
    - apply ascii_lower_all_ascii. by rewrite Hw.
    - intros ->. by apply Hne. }
  split; [exact Hfile|]. split; [exact Huv|]. split; [|split; [exact Hany|]].
  - intros (a & b & ->)%Huv.
    apply (Hany "/health" "/health" a b); [by left|done|done].
  - intros a b ->. apply Hfile.
    exists "health check", (PyStr.lower a), (PyStr.lower b). split; [by right; left|].
    rewrite (lower_around a "health chec" (KELVIN_SIGN +:+ b)); [|reflexivity|done].
    rewrite lower_kelvin. done.
Qed.

Lemma is_blank_all_space (v : string) : is_blank v = PyText.all_space v.
Proof. by destruct v. Qed.

(** Whitespace, character by character. *)
Lemma is_byte_eq (n : nat) (c : ascii) :
  PyStr.is_byte n c = true -> c = ascii_of_nat n.
Proof.
  unfold PyStr.is_byte. intros H%Nat.eqb_eq. rewrite <- H.
  by rewrite ascii_nat_embedding.
Qed.

Lemma nat_of_ascii_eq (n : nat) (c : ascii) :
  nat_of_ascii c = n -> c = ascii_of_nat n.
Proof. intros <-. by rewrite ascii_nat_embedding. Qed.

Ltac find_in := repeat (first [left; reflexivity | right]).

Lemma isspace_char_in (c : ascii) :
  PyText.isspace_char c = true -> In (String c EmptyString) WHITESPACE.
Proof.
  unfold PyText.isspace_char. intros H.
  assert (Hn : (nat_of_ascii c = 9 \/ nat_of_ascii c = 10 \/ nat_of_ascii c = 11
                \/ nat_of_ascii c = 12 \/ nat_of_ascii c = 13 \/ nat_of_ascii c = 28
                \/ nat_of_ascii c = 29 \/ nat_of_ascii c = 30 \/ nat_of_ascii c = 31
                \/ nat_of_ascii c = 32)%nat).
  { apply orb_true_iff in H as [H|H]; apply andb_true_iff in H as [H1 H2];
      apply Nat.leb_le in H1, H2; lia. }
  repeat (destruct Hn as [Hn|Hn]; [apply nat_of_ascii_eq in Hn as ->; find_in|]).
  apply nat_of_ascii_eq in Hn as ->; find_in.
Qed.

Lemma isspace_2_in (c c1 : ascii) :
  PyText.isspace_2 c c1 = true -> In (String c (String c1 EmptyString)) WHITESPACE.
Proof.
  unfold PyText.isspace_2. intros [H H1]%andb_true_iff.
  apply is_byte_eq in H as ->.
  apply orb_true_iff in H1 as [H1|H1]; apply is_byte_eq in H1 as ->; find_in.
Qed.

Lemma isspace_3_in (c c1 c2 : ascii) :
  PyText.isspace_3 c c1 c2 = true ->
  In (String c (String c1 (String c2 EmptyString))) WHITESPACE.
Proof.
  unfold PyText.isspace_3. intros H.
  repeat (apply orb_true_iff in H as [H|H]).
  - apply andb_true_iff in H as [[H H1]%andb_true_iff H2].
    apply is_byte_eq in H as ->. apply is_byte_eq in H1 as ->.
    apply is_byte_eq in H2 as ->. find_in.
  - apply andb_true_iff in H as [[H H1]%andb_true_iff H2].
    apply is_byte_eq in H as ->. apply is_byte_eq in H1 as ->.
    repeat (apply orb_true_iff in H2 as [H2|H2]).
    + apply andb_true_iff in H2 as [Ha Hb]. apply Nat.leb_le in Ha, Hb.
      assert (Hn : (nat_of_ascii c2 = 128 \/ nat_of_ascii c2 = 129
                    \/ nat_of_ascii c2 = 130 \/ nat_of_ascii c2 = 131
                    \/ nat_of_ascii c2 = 132 \/ nat_of_ascii c2 = 133
                    \/ nat_of_ascii c2 = 134 \/ nat_of_ascii c2 = 135
                    \/ nat_of_ascii c2 = 136 \/ nat_of_ascii c2 = 137
                    \/ nat_of_ascii c2 = 138)%nat) by lia.
      repeat (destruct Hn as [Hn|Hn]; [apply nat_of_ascii_eq in Hn as ->; find_in|]).
      apply nat_of_ascii_eq in Hn as ->; find_in.
    + apply is_byte_eq in H2 as ->. find_in.
    + apply is_byte_eq in H2 as ->. find_in.
    + apply is_byte_eq in H2 as ->. find_in.
  - apply andb_true_iff in H as [[H H1]%andb_true_iff H2].
    apply is_byte_eq in H as ->. apply is_byte_eq in H1 as ->.
    apply is_byte_eq in H2 as ->. find_in.
  - apply andb_true_iff in H as [[H H1]%andb_true_iff H2].
    apply is_byte_eq in H as ->. apply is_byte_eq in H1 as ->.
    apply is_byte_eq in H2 as ->. find_in.
Qed.

Lemma all_space_concat (s : string) :
  PyText.all_space s = true ->
  exists l, Forall (fun x => In x WHITESPACE) l /\ s = concat_str l.
Proof.
  remember (String.length s) as n eqn:Hn. revert s Hn.
  induction n as [n IH] using lt_wf_ind. intros s Hn H.
  destruct s as [|c r]; [by exists []|].
  cbn [PyText.all_space] in H.
  destruct (PyText.isspace_char c) eqn:H1.
  { destruct (IH (String.length r) ltac:(simpl in Hn; lia) r eq_refl H) as (l & Hl & ->).
    exists (String c EmptyString :: l). split; [|done].
    constructor; [by apply isspace_char_in|done]. }
  destruct r as [|c1 r1]; [done|].
  destruct (PyText.isspace_2 c c1) eqn:H2.
  { destruct (IH (String.length r1) ltac:(simpl in Hn; lia) r1 eq_refl H) as (l & Hl & ->).
    exists (String c (String c1 EmptyString) :: l). split; [|done].
    constructor; [by apply isspace_2_in|done]. }
  destruct r1 as [|c2 r2]; [done|].
  destruct (PyText.isspace_3 c c1 c2) eqn:H3; [|done].
  destruct (IH (String.length r2) ltac:(simpl in Hn; lia) r2 eq_refl H) as (l & Hl & ->).
  exists (String c (String c1 (String c2 EmptyString)) :: l). split; [|done].
  constructor; [by apply isspace_3_in|done].
Qed.

Lemma all_space_whitespace (x r : string) :
  In x WHITESPACE -> PyText.all_space (x +:+ r) = PyText.all_space r.
Proof.
  intros H. unfold WHITESPACE in H. cbn [map In] in H.
  repeat (destruct H as [<-|H]; [reflexivity|]). done.
Qed.

Lemma concat_all_space (l : list string) :
  Forall (fun x => In x WHITESPACE) l -> PyText.all_space (concat_str l) = true.
Proof.
  induction 1 as [|x l Hx Hl IH]; [done|].
  simpl. by rewrite all_space_whitespace.
Qed.

Lemma is_blank_iff (t : string) :
  is_blank t = true <->
  exists l, Forall (fun x => In x WHITESPACE) l /\ t = concat_str l.
Proof.
  rewrite is_blank_all_space. split; [apply all_space_concat|].
  intros (l & Hl & ->). by apply concat_all_space.
Qed.

(** X3. The two list validators accept a list exactly when it is not empty
    and none of its elements is blank; what they return is then the list
    itself.  A string is blank when it is empty or made of whitespace
    only: when it is a sequence of characters of [WHITESPACE], the
    characters for which [str.isspace] holds, those outside ASCII
    included. *)
Theorem list_validators_accept_iff (v : list string) :
  (validate_texts v = Ok v <-> v <> [] /\ Forall (fun t => is_blank t = false) v)
  /\ (validate_documents v = Ok v <-> v <> [] /\ Forall (fun t => is_blank t = false) v)
  /\ (forall v', validate_texts v = Ok v' \/ validate_documents v = Ok v' -> v' = v)
  /\ (forall t,
        is_blank t = true <->
        exists l, Forall (fun x => In x WHITESPACE) l /\ t = concat_str l).
Proof.
  assert (Hblank : forall t,
            is_blank t = true <->
            exists l, Forall (fun x => In x WHITESPACE) l /\ t = concat_str l)
    by apply is_blank_iff.
  unfold validate_texts, validate_documents.
  destruct v as [|t v].
  { split; [|split; [|split; [|exact Hblank]]].
    - split; [done|]. by intros [? _].
    - split; [done|]. by intros [? _].
    - by intros v' [H|H]. }
  split; [|split; [|split; [|exact Hblank]]].
  - destruct (validate_items "Text" 0 (t :: v)) as [e|] eqn:Hv.
    + split; [done|]. intros [_ Hall]. apply (validate_items_none "Text" 0) in Hall.
      congruence.
    + split; [|done]. intros _. split; [done|]. by apply (validate_items_none "Text" 0).
  - destruct (validate_items "Document" 0 (t :: v)) as [e|] eqn:Hv.
    + split; [done|]. intros [_ Hall]. apply (validate_items_none "Document" 0) in Hall.
      congruence.
    + split; [|done]. intros _. split; [done|].
      by apply (validate_items_none "Document" 0).
  - intros v' [H|H].
    + destruct (validate_items "Text" 0 (t :: v)); [done|]. by injection H.
    + destruct (validate_items "Document" 0 (t :: v)); [done|]. by injection H.
Qed.

(** X4. When an element is empty or whitespace only, the list validators
    raise a ValueError that names the index of the first such element. *)
Theorem list_validators_name_first_blank (v : list string) (i : nat) (text : string) :
  v !! i = Some text -> is_blank text = true ->
  (forall j t, (j < i)%nat -> v !! j = Some t -> is_blank t = false) ->
  validate_texts v
  = Raise (ValueError ("Text at index " +:+ PyText.of_nat i
                       +:+ " cannot be empty or whitespace only"))
  /\ validate_documents v
     = Raise (ValueError ("Document at index " +:+ PyText.of_nat i
                          +:+ " cannot be empty or whitespace only")).
Proof.
  intros Hi Hb Hbefore. unfold validate_texts, validate_documents.
  destruct v as [|t v]; [done|].
  rewrite (validate_items_first "Text" 0 (t :: v) i text Hi Hb Hbefore).
  rewrite (validate_items_first "Document" 0 (t :: v) i text Hi Hb Hbefore).
  done.
Qed.

Lemma list_validators_name_first_blank_witness :
  validate_texts ["a"; "b c"; NO_BREAK_SPACE; ""]
  = Raise (ValueError "Text at index 2 cannot be empty or whitespace only").
Proof.
  assert (Hi : ["a"; "b c"; NO_BREAK_SPACE; ""] !! 2%nat = Some NO_BREAK_SPACE)
    by reflexivity.
  assert (Hb : is_blank NO_BREAK_SPACE = true) by reflexivity.
  assert (Hbefore : forall j t, (j < 2)%nat ->
                      ["a"; "b c"; NO_BREAK_SPACE; ""] !! j = Some t ->
                      is_blank t = false).
  { intros [|[|j]] t Hj Hl; [by injection Hl as <-|by injection Hl as <-|lia]. }
  exact (proj1 (list_validators_name_first_blank _ 2 NO_BREAK_SPACE Hi Hb Hbefore)).
Defined.

(** ** The configuration *)

(** X5. [__post_init__] checks the batch size, the text length and the port,
    in this order, and raises for the first that fails without touching
    the file system; then it creates the models directory, and an error
    of that is what it raises.  A configuration it accepts satisfies the
    three bounds and is the given one in every field but [cors_origins];
    the environment gets HF_HOME and HUGGINGFACE_HUB_CACHE, and nothing
    else.  When no origins were given they are the comma-separated
    pieces of CORS_ORIGINS (of "*" when it is not set): at least one
    piece, none with a comma, and joined by commas they give the
    variable back. *)
Theorem post_init_validates (os : Os) (self : ConfigFields) :
  (cf_max_batch_size self < 1 ->
   __post_init__ os self = Raise (ValueError "max_batch_size must be at least 1"))
  /\ (1 <= cf_max_batch_size self -> cf_max_text_length self < 1 ->
      __post_init__ os self = Raise (ValueError "max_text_length must be positive"))
  /\ (1 <= cf_max_batch_size self -> 1 <= cf_max_text_length self ->
      cf_port self < 1 \/ 65535 < cf_port self ->
      __post_init__ os self = Raise (ValueError "port must be between 1 and 65535"))
  /\ (forall e,
        1 <= cf_max_batch_size self -> 1 <= cf_max_text_length self ->
        1 <= cf_port self <= 65535 ->
        os_mkdir os (cf_models_dir self) = Some e ->
        __post_init__ os self = Raise e)
  /\ (forall c env,
        __post_init__ os self = Ok (c, env) ->
        1 <= cf_max_batch_size c /\ 1 <= cf_max_text_length c
        /\ 1 <= cf_port c <= 65535
        /\ os_mkdir os (cf_models_dir self) = None
        /\ cf_model_name c = cf_model_name self
        /\ cf_max_batch_size c = cf_max_batch_size self
        /\ cf_max_text_length c = cf_max_text_length self
        /\ cf_port c = cf_port self
        /\ cf_host c = cf_host self
        /\ cf_enable_cors c = cf_enable_cors self
        /\ cf_models_dir c = cf_models_dir self
        /\ cf_lazy_load c = cf_lazy_load self
        /\ cf_idle_ttl_seconds c = cf_idle_ttl_seconds self
        /\ env = [("HF_HOME", cf_models_dir self);
                  ("HUGGINGFACE_HUB_CACHE", os_path_join os (cf_models_dir self) "hub")]
        /\ match cf_cors_origins self with
           | Some origins => cf_cors_origins c = Some origins
           | None =>
               exists origins,
                 cf_cors_origins c = Some origins
                 /\ origins <> []
                 /\ Forall (fun o => PyStr.contains_char ","%char o = false) origins
                 /\ PyText.join "," origins = getenv os "CORS_ORIGINS" "*"
           end).
Proof.
  unfold __post_init__, MIN_BATCH_SIZE.
  set (self' := match cf_cors_origins self with
                | Some _ => self
                | None => set_cors_origins
                            (PyText.split "," (getenv os "CORS_ORIGINS" "*")) self
                end).
  assert (Hb : cf_max_batch_size self' = cf_max_batch_size self)
    by (unfold self'; by destruct (cf_cors_origins self)).
  assert (Ht : cf_max_text_length self' = cf_max_text_length self)
    by (unfold self'; by destruct (cf_cors_origins self)).
  assert (Hp : cf_port self' = cf_port self)
    by (unfold self'; by destruct (cf_cors_origins self)).
  assert (Hd : cf_models_dir self' = cf_models_dir self)
    by (unfold self'; by destruct (cf_cors_origins self)).
  assert (Hrest : cf_model_name self' = cf_model_name self
                  /\ cf_host self' = cf_host self
                  /\ cf_enable_cors self' = cf_enable_cors self
                  /\ cf_lazy_load self' = cf_lazy_load self
                  /\ cf_idle_ttl_seconds self' = cf_idle_ttl_seconds self)
    by (unfold self'; by destruct (cf_cors_origins self)).
  destruct Hrest as (Hn & Hh & Hc & Hl & Hi).
  rewrite Hb, Ht, Hp, Hd.
  split; [|split; [|split; [|split]]].
  - intros H. apply Z.ltb_lt in H. by rewrite H.
  - intros H1 H2. apply Z.ltb_ge in H1. apply Z.ltb_lt in H2. by rewrite H1, H2.
  - intros H1 H2 H3. apply Z.ltb_ge in H1, H2. rewrite H1, H2.
    destruct H3 as [H3|H3]; apply Z.ltb_lt in H3; rewrite H3; [done|].
    by rewrite orb_true_r.
  - intros e H1 H2 [H3 H4] Hm. apply Z.ltb_ge in H1, H2, H3, H4.
    by rewrite H1, H2, H3, H4, Hm.
  - intros c env.
    destruct (cf_max_batch_size self <? 1) eqn:H1; [done|].
    destruct (cf_max_text_length self <? 1) eqn:H2; [done|].
    destruct (cf_port self <? 1) eqn:H3; [done|].
    destruct (65535 <? cf_port self) eqn:H4; [done|]. simpl.
    destruct (os_mkdir os (cf_models_dir self)); [done|].
    intros [= <- <-].
    apply Z.ltb_ge in H1, H2, H3, H4.
    rewrite Hb, Ht, Hp, Hd, Hn, Hh, Hc, Hl, Hi. repeat split; try lia; try done.
    unfold self'. destruct (cf_cors_origins self) as [origins|] eqn:Hco; [done|].
    eexists. split; [reflexivity|]. split; [apply split_nonempty|].
    split; [apply split_pieces|]. apply (join_split ","%char).
Qed.

(** ** Names *)

Lemma catalog_names k :
  OD.mem k AVAILABLE_MODELS = true ->
  k = DEFAULT_MODEL \/ k = MEDIUM_MODEL \/ k = LARGE_MODEL
  \/ k = "mlx-community/embeddinggemma-300m-4bit".
Proof.
  intros H. apply od_mem_keys in H. simpl in H.
  destruct H as [<-|[<-|[<-|[<-|[]]]]]; auto.
Qed.

Lemma reranker_catalog_names k :
  OD.mem k AVAILABLE_RERANKER_MODELS = true ->
  k = DEFAULT_RERANKER_MODEL \/ k = "Qwen/Qwen3-Reranker-4B"
  \/ k = "Qwen/Qwen3-Reranker-8B".
Proof.
  intros H. apply od_mem_keys in H. simpl in H.
  destruct H as [<-|[<-|[<-|[]]]]; auto.
Qed.

(** X6. A name that [_resolve_model_name] returns resolves to itself: no
    full name of a catalog is, in lower case, an alias of another model.
    For the embedding manager this needs the configured default to be a
    name of the catalog. *)
Theorem resolved_names_are_fixed_points (cfg : ServerConfig) :
  (OD.mem (model_name cfg) AVAILABLE_MODELS = true ->
   forall ident k,
     _resolve_model_name cfg ident = Ok k -> _resolve_model_name cfg (Some k) = Ok k)
  /\ (forall ident k,
        r_resolve_model_name ident = Ok k -> r_resolve_model_name (Some k) = Ok k).
Proof.
  split.
  - intros Hdef ident k Hres.
    pose proof (resolve_in_catalog cfg ident k Hdef Hres) as Hk.
    destruct (catalog_names k Hk) as [->|[->|[->| ->]]]; reflexivity.
  - intros ident k Hres.
    pose proof (r_resolve_in_catalog ident k Hres) as Hk.
    destruct (reranker_catalog_names k Hk) as [->|[->| ->]]; reflexivity.
Qed.

(** ** The downloader *)

(** X7. The script exits with 0 exactly when the alias is one of its three
    and the download went through; for an unknown alias it exits with 1
    without asking for any model.  The model it asks for is the one the
    server resolves the same alias to, with the same dimension. *)
Theorem downloader_agrees_with_server (argv : list string) (models_dir : string)
    (fetch : string -> DownloadOutcome) (cfg : ServerConfig) :
  (sr_exit (download_main argv models_dir fetch) = 0 <->
   exists info, OD.get (alias_argument argv) MODELS = Some info
                /\ fetch (dl_name info) = Downloaded)
  /\ (OD.get (alias_argument argv) MODELS = None ->
      sr_loaded (download_main argv models_dir fetch) = None
      /\ sr_exit (download_main argv models_dir fetch) = 1)
  /\ (forall name,
        sr_loaded (download_main argv models_dir fetch) = Some name ->
        _resolve_model_name cfg (Some (alias_argument argv)) = Ok name
        /\ exists info minfo,
             OD.get (alias_argument argv) MODELS = Some info
             /\ OD.get name AVAILABLE_MODELS = Some minfo
             /\ embedding_dim minfo = dl_dims info).
Proof.
  unfold download_main.
  destruct (OD.get (alias_argument argv) MODELS) as [info|] eqn:Hget.
  2:{ simpl. split; [|split]; [|done|done].
      split; [done|]. by intros (? & ? & _). }
  assert (Hcases : (alias_argument argv = "small" /\ info = {| dl_name := DEFAULT_MODEL; dl_size := "~1.5GB"; dl_dims := 1024 |})
                   \/ (alias_argument argv = "medium" /\ info = {| dl_name := MEDIUM_MODEL; dl_size := "~8GB"; dl_dims := 2560 |})
                   \/ (alias_argument argv = "large" /\ info = {| dl_name := LARGE_MODEL; dl_size := "~16GB"; dl_dims := 4096 |})).
  { unfold MODELS in Hget. simpl in Hget.
    destruct (String.eqb_spec (alias_argument argv) "small") as [->|_];
      [left; by injection Hget|].
    destruct (String.eqb_spec (alias_argument argv) "medium") as [->|_];
      [right; left; by injection Hget|].
    destruct (String.eqb_spec (alias_argument argv) "large") as [->|_];
      [right; right; by injection Hget|].
    done. }
  split; [|split].
  - destruct (fetch (dl_name info)) eqn:Hf; simpl.
    + split; [|done]. intros _. by exists info.
    + split; [done|]. intros (i & [= <-] & Hi). congruence.
    + split; [done|]. intros (i & [= <-] & Hi). congruence.
  - done.
  - intros name Hname.
    assert (name = dl_name info) as ->.
    { destruct (fetch (dl_name info)); simpl in Hname; by injection Hname. }
    destruct Hcases as [[Ha ->]|[[Ha ->]|[Ha ->]]]; rewrite Ha;
      (split; [reflexivity|]); eexists _, _;
      (split; [reflexivity|]); (split; [reflexivity|]); reflexivity.
Qed.

(** ** What the pipelines return *)

Lemma embed_texts_length E k h nz texts w es :
  snd (embed_texts E k h nz texts w) = Ok es -> length es = length texts.
Proof.
  revert w es. induction texts as [|t texts IH]; intros w es; cbn [embed_texts].
  - simpl. by intros [= <-].
  - destruct (_embedding_cache (model_manager w) !! fingerprint k t nz) as [e|].
    + match goal with
      | |- context [embed_texts E k h nz texts ?w0] => pose proof (IH w0) as IH1
      end.
      destruct (embed_texts E k h nz texts _) as [w' [es'|x]]; [|done].
      simpl in *. intros [= <-]. simpl. f_equal. exact (IH1 es' eq_refl).
    + destruct (forward_pass E k h t nz w) as [w1 [e|x]]; [|by simpl].
      match goal with
      | |- context [embed_texts E k h nz texts ?w0] => pose proof (IH w0) as IH1
      end.
      destruct (embed_texts E k h nz texts _) as [w' [es'|x]]; [|done].
      simpl in *. intros [= <-]. simpl. f_equal. exact (IH1 es' eq_refl).
Qed.

(** X8. A successful [generate_embeddings] returns one vector for each text,
    the name that the identifier resolves to, and the dimension that the
    catalog gives for that name. *)
Theorem generate_embeddings_one_vector_per_text
    (E : Engine) (texts : list string) (ident : option string) (normalize : bool)
    (w : World) (es : list ndarray) (k : string) (d : Z) :
  snd (generate_embeddings E texts ident normalize w) = Ok (es, k, d) ->
  length es = length texts
  /\ _resolve_model_name (config (model_manager w)) ident = Ok k
  /\ exists info, OD.get k AVAILABLE_MODELS = Some info /\ d = embedding_dim info.
Proof.
  unfold generate_embeddings.
  destruct (load_model_result E ident w)
    as [(k' & Hres & Hl)|[(e & Hres & Hl)|(k' & m & c & Hres & Hl)]];
    destruct (load_model E ident w) as [w1 r]; simpl in Hl; subst r; [|done|done].
  destruct (negb _); [done|].
  destruct texts as [|t texts].
  - destruct (OD.get k' AVAILABLE_MODELS) as [info|] eqn:Hinfo; [|done].
    simpl. intros [= <- <- <-]. split; [done|]. split; [done|]. by exists info.
  - destruct (OD.get k' (models _)) as [h|]; [|done].
    destruct (OD.get k' AVAILABLE_MODELS) as [info|] eqn:Hinfo; [|done].
    destruct (embed_texts E k' h normalize (t :: texts) _) as [w' [es'|x]] eqn:Hemb;
      [|done].
    simpl. intros [= <- <- <-].
    split; [|split; [done|by exists info]].
    apply (embed_texts_length E k' h normalize (t :: texts)
             (_update_last_used k' w1) es'). by rewrite Hemb.
Qed.

Lemma generate_embeddings_one_vector_per_text_witness :
  length [[2%Z]; [3%Z]; [2%Z]] = length ["a"; "b"; "a"].
Proof.
  assert (H : snd (generate_embeddings sample_engine ["a"; "b"; "a"] None true
                     (World_init default_config 100))
              = Ok ([[2]; [3]; [2]], DEFAULT_MODEL, 1024))
    by (vm_compute; reflexivity).
  exact (proj1 (generate_embeddings_one_vector_per_text sample_engine ["a"; "b"; "a"]
                  None true (World_init default_config 100) _ _ _ H)).
Defined.

Lemma r_load_model_resolves E ident w k :
  snd (r_load_model E ident w) = Ok k -> r_resolve_model_name ident = Ok k.
Proof.
  unfold r_load_model. destruct (r_resolve_model_name ident) as [k'|e]; [|done].
  destruct (r_is_ready k' (reranker_manager w)); [by intros [= <-]|].
  cbv zeta.
  match goal with
  | |- context [r_is_ready k' ?m] => destruct (r_is_ready k' m); [by intros [= <-]|]
  end.
  match goal with
  | |- context [rm_load E k' ?w1] => destruct (rm_load E k' w1) as [w2 [e|]]
  end; [done|]. by intros [= <-].
Qed.

Lemma score_documents_length E h ids ml q ins idx docs w :
  length (snd (score_documents E h ids ml q ins idx docs w)) = length docs.
Proof.
  destruct (score_documents_shape E h ids ml q ins idx docs w) as [_ Hd].
  rewrite <- Hd at 2. by rewrite length_map.
Qed.

(** X9. A successful [rerank] returns [min(top_k, len(documents))] tuples
    when [top_k] is positive and one tuple per document otherwise: a
    [top_k] of zero or below is read as no limit, and no documents give
    no tuples.  The model it used is the one the identifier resolves
    to. *)
Theorem rerank_result_count
    (E : Engine) (query : string) (documents : list string) (ident : option string)
    (instruction : option string) (top_k : option Z) (w : World)
    (results : list Scored) :
  snd (rerank E query documents ident instruction top_k w) = Ok results ->
  length results
  = match top_k with
    | Some n =>
        if 0 <? n then Nat.min (Z.to_nat n) (length documents) else length documents
    | None => length documents
    end
  /\ exists k, r_resolve_model_name ident = Ok k
               /\ snd (r_load_model E ident w) = Ok k.
Proof.
  unfold rerank.
  pose proof (r_load_model_resolves E ident w) as Hres.
  destruct (r_load_model E ident w) as [w1 [k|e]]; [|done].
  specialize (Hres k eq_refl).
  destruct documents as [|d docs].
  - simpl. intros [= <-]. split; [|by exists k]. simpl.
    destruct top_k as [n|]; [|done]. destruct (0 <? n); [|done].
    by rewrite Nat.min_0_r.
  - destruct (OD.get k _) as [h|]; [|done].
    destruct (_ !! k) as [ids|]; [|done].
    destruct (OD.get k AVAILABLE_RERANKER_MODELS) as [info|]; [|done].
    match goal with
    | |- context [score_documents E h ids ?ml query instruction 0 ?ds ?w0] =>
        pose proof (score_documents_length E h ids ml query instruction 0 ds w0) as Hlen;
        destruct (score_documents E h ids ml query instruction 0 ds w0) as [w' rs]
    end.
    simpl in Hlen |- *. intros [= <-]. split; [|by exists k].
    unfold apply_top_k. destruct top_k as [n|].
    + destruct (0 <? n).
      * rewrite length_firstn. by rewrite (Permutation_length (sort_desc_perm E rs)), Hlen.
      * by rewrite (Permutation_length (sort_desc_perm E rs)), Hlen.
    + by rewrite (Permutation_length (sort_desc_perm E rs)), Hlen.
Qed.

Lemma rerank_result_count_witness :
  length [(1%nat, Finite (1 # 2), "b"); (3%nat, Finite (1 # 2), "d")] = 2%nat.
Proof.
  assert (H : snd (rerank sample_engine "query" sample_documents None None (Some 2)
                     (World_init default_config 100))
              = Ok [(1%nat, Finite (1 # 2), "b"); (3%nat, Finite (1 # 2), "d")])
    by (vm_compute; reflexivity).
  exact (proj1 (rerank_result_count sample_engine "query" sample_documents None None
                  (Some 2) (World_init default_config 100) _ H)).
Defined.

(** ** The endpoints *)




(** X11. [POST /rerank] answers 200 exactly when [rerank] succeeds: the
    results are its tuples, [count] is their number and [model] is the
    name of the model that scored them; every exception becomes a 500. *)
Theorem rerank_endpoint_answers_200_or_500
    (E : Engine) (query : string) (documents : list string) (model : option string)
    (instruction : option string) (top_k : option Z) (w : World) :
  (forall results,
     snd (rerank E query documents model instruction top_k w) = Ok results ->
     exists k,
       snd (r_load_model E model w) = Ok k
       /\ snd (rerank_endpoint E query documents model instruction top_k w)
          = Http200 {| rr_results := results; rr_model := k; rr_query := query;
                       rr_count := length results;
                       rr_processing_time_ms :=
                         (clock (fst (rerank E query documents model instruction
                                        top_k w))
                          - clock w) * 1000 |})
  /\ (forall x,
        snd (rerank E query documents model instruction top_k w) = Raise x ->
        snd (rerank_endpoint E query documents model instruction top_k w)
        = HTTPException 500 ("Reranking failed: " +:+ exc_str x))
  /\ (forall x,
        r_resolve_model_name model = Raise x ->
        rerank_endpoint E query documents model instruction top_k w
        = (w, HTTPException 500 ("Reranking failed: " +:+ exc_str x))).
Proof.
  split; [|split].
  - intros results H.
    destruct (rerank_result_count E query documents model instruction top_k w results H)
      as (_ & k & Hres & Hl).
    exists k. split; [done|]. unfold rerank_endpoint.
    destruct (rerank E query documents model instruction top_k w) as [w' r].
    simpl in H. subst r. by rewrite Hres.
  - intros x H. unfold rerank_endpoint.
    destruct (rerank E query documents model instruction top_k w) as [w' r].
    simpl in H. by subst r.
  - intros x Hres. unfold rerank_endpoint, rerank, r_load_model. by rewrite Hres.
Qed.

(** An alias is found whatever the case of its letters, also when its
    [k] is written as the Kelvin sign, which [str.lower] turns into
    [k]. *)
Lemma alias_with_kelvin_sign_resolves :
  r_resolve_model_name (Some ("RERAN" +:+ KELVIN_SIGN +:+ "ER-Small"))
  = Ok DEFAULT_RERANKER_MODEL.
Proof. reflexivity. Qed.

Lemma rerank_endpoint_answers_200_or_500_witness :
  rerank_endpoint sample_engine "query" sample_documents (Some "tiny") None None
    (World_init default_config 100)
  = (World_init default_config 100,
     HTTPException 500
       ("Reranking failed: " +:+ exc_str (ValueError (unknown_reranker_msg "tiny")))).
Proof.
  assert (Hres : r_resolve_model_name (Some "tiny")
                 = Raise (ValueError (unknown_reranker_msg "tiny")))
    by reflexivity.
  pose proof (rerank_endpoint_answers_200_or_500 sample_engine "query" sample_documents
                (Some "tiny") None None (World_init default_config 100)) as H.
  destruct H as (_ & _ & H).
  exact (H _ Hres).
Defined.

(** ** Health *)





(** ** Residents, cache entries and stamps *)

Lemma od_mem_del_ne {V} (d : list (string * V)) k e :
  k <> e -> OD.mem k (OD.del e d) = OD.mem k d.
Proof. intros Hne. unfold OD.mem. rewrite od_get_del_ne; [done|congruence]. Qed.

Lemma od_mem_set_ne {V} (d : list (string * V)) k k' (v : V) :
  k <> k' -> OD.mem k (OD.set k' v d) = OD.mem k d.
Proof. intros Hne. unfold OD.mem. rewrite od_get_set_ne; [done|congruence]. Qed.

Lemma od_mem_set_eq {V} (d : list (string * V)) k (v : V) :
  OD.mem k (OD.set k v d) = true.
Proof. unfold OD.mem. by rewrite od_get_set_eq. Qed.

Lemma od_mem_set_mono {V} (d : list (string * V)) k k' (v : V) :
  OD.mem k d = true -> OD.mem k (OD.set k' v d) = true.
Proof.
  intros H. destruct (decide (k = k')) as [->|Hne]; [apply od_mem_set_eq|].
  by rewrite od_mem_set_ne.
Qed.

Lemma od_del_absent {V} (d : list (string * V)) k :
  OD.mem k d = false -> OD.del k d = d.
Proof.
  unfold OD.mem. induction d as [|[k0 v0] d IH]; simpl; [done|].
  destruct (String.eqb k k0); [done|]. intros H. by rewrite IH.
Qed.

Lemma od_length_del_le {V} (d : list (string * V)) k :
  (length (OD.del k d) <= length d)%nat.
Proof.
  induction d as [|[k0 v0] d IH]; simpl; [done|].
  destruct (String.eqb k k0); simpl; lia.
Qed.

(** The victim exists as soon as the manager is full and the new model is
    not resident. *)
Lemma victim_exists k m :
  (max_loaded_models m <= length (models m))%nat ->
  (0 < length (models m))%nat ->
  OD.get k (models m) = None ->
  exists e, victim k m = Some e.
Proof.
  intros Hfull Hpos Habs. unfold victim.
  apply Nat.leb_le in Hfull. rewrite Hfull.
  destruct (models m) as [|[k0 v0] d] eqn:Hm; [simpl in Hpos; lia|].
  simpl in *. destruct (String.eqb_spec k k0) as [->|Hne]; [done|].
  destruct (String.eqb_spec k0 k) as [->|_]; [done|]. simpl. by eexists.
Qed.

(** The manager after [_unload_model] of a resident model. *)
Lemma unload_resident_ok e w :
  slots_ok w -> resident_ok w -> resident_ok (_unload_model e w).
Proof.
  intros [Hnd _] [Hmax Hcount Hcache Hst].
  destruct (OD.mem e (models (model_manager w))) eqn:He.
  2:{ rewrite unload_model_absent by done. by split. }
  split; unfold cache_of, last_used_of in *; rewrite unload_model_mm by done; simpl.
  - done.
  - pose proof (od_length_del_le (models (model_manager w)) e). lia.
  - intros key Hkey. rewrite lookup_purge_cache in Hkey.
    destruct (PyStr.startswith key (e +:+ ":")) eqn:Hp; [by destruct Hkey|].
    destruct (Hcache key Hkey) as (k & text & nz & -> & Hk).
    exists k, text, nz. split; [done|].
    assert (k <> e).
    { intros ->. by rewrite fingerprint_startswith_own in Hp. }
    by rewrite od_mem_del_ne.
  - intros k Hk. apply od_mem_del_inv in Hk as [_ Hk]; [|done]. by apply Hst.
Qed.

Lemma resident_ok_same w w' :
  model_manager w' = model_manager w -> resident_ok w -> resident_ok w'.
Proof.
  intros Hm [Hmax Hcount Hcache Hst].
  split; unfold cache_of, last_used_of in *; rewrite Hm; done.
Qed.

Lemma resident_ok_fields w w' :
  max_loaded_models (model_manager w') = max_loaded_models (model_manager w) ->
  models (model_manager w') = models (model_manager w) ->
  cache_of w' = cache_of w ->
  last_used_of w' = last_used_of w ->
  resident_ok w -> resident_ok w'.
Proof.
  intros H1 H2 H3 H4 [Hmax Hcount Hcache Hst].
  split; rewrite ?H1, ?H2, ?H3, ?H4; done.
Qed.

Lemma manage_resident_ok k w :
  slots_ok w -> resident_ok w -> resident_ok (_manage_memory k w).
Proof.
  intros Hs Hr. rewrite manage_memory_victim.
  destruct (victim k (model_manager w)); [by apply unload_resident_ok|done].
Qed.

(** After [_manage_memory] there is room for the new model. *)
Lemma manage_makes_room k w :
  slots_ok w -> resident_ok w ->
  OD.get k (models (model_manager w)) = None ->
  (length (models (model_manager (_manage_memory k w))) <= 1)%nat.
Proof.
  intros [Hnd _] [Hmax Hcount _ _] Habs.
  destruct (decide (length (models (model_manager w)) = 2%nat)) as [H2|Hlt].
  - destruct (victim_exists k (model_manager w)) as [e He]; [lia|lia|done|].
    rewrite manage_memory_victim, He.
    destruct (victim_resident _ _ _ He) as [Hres _].
    rewrite unload_model_mm by done. simpl.
    pose proof (od_length_del (models (model_manager w)) e Hres). lia.
  - rewrite manage_memory_victim. unfold victim.
    assert (Hb : (max_loaded_models (model_manager w) <=? length (models (model_manager w)))%nat = false)
      by (apply Nat.leb_gt; lia).
    rewrite Hb. lia.
Qed.

Lemma load_model_resident_ok E ident w :
  slots_ok w -> resident_ok w -> resident_ok (fst (load_model E ident w)).
Proof.
  intros Hok Hr.
  destruct (_resolve_model_name (config (model_manager w)) ident) as [k|e] eqn:Hres.
  2: { by rewrite (load_model_unknown E ident w e). }
  destruct (is_ready k (model_manager w)) eqn:Hrd.
  { by rewrite (load_model_fast E ident w k). }
  pose proof (not_ready_absent k w Hok Hrd) as Habs.
  set (wb := begin_load k (on_mm (set_locks (ensure_lock k)) w)).
  assert (Hwb : slots_ok wb).
  { destruct Hok as [Hnd Hco]. split; [exact Hnd|].
    intros j Hj. unfold wb. simpl.
    assert (j <> k) by (intros ->; by apply od_mem_get in Hj).
    rewrite lookup_insert_ne by done. by apply Hco. }
  assert (Hrb : resident_ok wb) by (by apply (resident_ok_fields w wb)).
  pose proof (manage_resident_ok k wb Hwb Hrb) as [Hmax Hcount Hcache Hst].
  pose proof (manage_makes_room k wb Hwb Hrb Habs) as Hroom.
  destruct (load_model_outcome E ident w k Hres Hrd)
    as [[h (_ & _ & Hm)]|[e (_ & _ & Hm)]]; fold wb in Hm;
    split; unfold cache_of, last_used_of in *; rewrite Hm; simpl; try done.
  - rewrite od_length_set. destruct (OD.mem k _); lia.
  - intros key Hkey. destruct (Hcache key Hkey) as (k0 & text & nz & -> & Hk0).
    exists k0, text, nz. split; [done|]. by apply od_mem_set_mono.
  - intros j Hj. apply od_mem_set_inv in Hj as [->|Hj]; [apply od_mem_set_eq|].
    apply od_mem_set_mono. by apply Hst.
Qed.

Lemma cache_put_resident_ok k text nz e w :
  OD.mem k (models (model_manager w)) = true ->
  resident_ok w ->
  resident_ok (on_mm (set_embedding_cache (cache_put (fingerprint k text nz) e)) w).
Proof.
  intros Hk [Hmax Hcount Hcache Hst]. split; try done.
  unfold cache_of in *. simpl. intros key Hkey. unfold cache_put in Hkey.
  destruct (size _ <? CACHE_CAPACITY)%nat; [|by apply Hcache].
  destruct (decide (key = fingerprint k text nz)) as [->|Hne].
  - by exists k, text, nz.
  - rewrite lookup_insert_ne in Hkey by done. by apply Hcache.
Qed.

Lemma embed_texts_resident_ok E k h nz texts w :
  OD.mem k (models (model_manager w)) = true ->
  resident_ok w -> resident_ok (fst (embed_texts E k h nz texts w)).
Proof.
  revert w. induction texts as [|t texts IH]; intros w Hk Hr; cbn [embed_texts];
    [done|].
  destruct (_embedding_cache (model_manager w) !! fingerprint k t nz) as [e|].
  - match goal with
    | |- context [embed_texts E k h nz texts ?w0] =>
        pose proof (IH w0 Hk (resident_ok_same w w0 eq_refl Hr)) as IH1;
        destruct (embed_texts E k h nz texts w0) as [w' [es|x]]
    end; exact IH1.
  - pose proof (forward_pass_mm E k h t nz w) as Hfm.
    destruct (forward_pass E k h t nz w) as [w1 [e|x]]; simpl in Hfm.
    2:{ by apply (resident_ok_same w w1). }
    assert (Hk1 : OD.mem k (models (model_manager w1)) = true) by (by rewrite Hfm).
    pose proof (cache_put_resident_ok k t nz e w1 Hk1
                  (resident_ok_same w w1 Hfm Hr)) as Hr2.
    match goal with
    | |- context [embed_texts E k h nz texts ?w0] =>
        assert (Hk0 : OD.mem k (models (model_manager w0)) = true) by (simpl; by rewrite Hfm);
        pose proof (IH w0 Hk0
                      (resident_ok_same
                         (on_mm (set_embedding_cache (cache_put (fingerprint k t nz) e)) w1)
                         w0 eq_refl Hr2)) as IH1;
        destruct (embed_texts E k h nz texts w0) as [w' [es|x]]
    end; exact IH1.
Qed.

Lemma update_last_used_resident_ok k w :
  resident_ok w -> resident_ok (_update_last_used k w).
Proof.
  intros [Hmax Hcount Hcache Hst]. split; try done.
  unfold last_used_of. simpl. intros j Hj. apply od_mem_set_mono. by apply Hst.
Qed.

Lemma generate_embeddings_resident_ok E texts ident nz w :
  slots_ok w -> resident_ok w ->
  resident_ok (fst (generate_embeddings E texts ident nz w)).
Proof.
  intros Hok Hr. unfold generate_embeddings.
  pose proof (load_model_resident_ok E ident w Hok Hr) as Hl.
  destruct (load_model E ident w) as [w1 [k|e]]; simpl in Hl; [|done].
  pose proof (update_last_used_resident_ok k w1 Hl) as Hu.
  destruct (negb _); [done|].
  destruct texts as [|t r].
  { by destruct (OD.get k AVAILABLE_MODELS). }
  destruct (OD.get k (models _)) as [h|] eqn:Hh; [|done].
  destruct (OD.get k AVAILABLE_MODELS); [|done].
  assert (Hk : OD.mem k (models (model_manager (_update_last_used k w1))) = true)
    by (unfold OD.mem; by rewrite Hh).
  pose proof (embed_texts_resident_ok E k h nz (t :: r) _ Hk Hu) as He.
  by destruct (embed_texts E k h nz (t :: r) _) as [w' [es|x]].
Qed.

Lemma unload_idle_resident_ok w it :
  slots_ok w -> resident_ok w -> resident_ok (unload_idle w it).
Proof.
  intros Hok Hr. unfold unload_idle.
  pose proof (unload_resident_ok (fst it) w Hok Hr) as [Hmax Hcount Hcache Hst].
  pose proof (unload_slots_ok (fst it) w Hok) as [Hnd _].
  split; try done.
  unfold last_used_of in *. simpl. intros k Hk.
  assert (k <> fst it).
  { intros ->. destruct (OD.mem (fst it) (models (model_manager w))) eqn:He.
    - rewrite unload_model_mm in Hk by done. simpl in Hk.
      unfold OD.mem in Hk. rewrite od_get_del_eq in Hk; [done|by destruct Hok].
    - rewrite unload_model_absent in Hk by done. congruence. }
  rewrite od_mem_del_ne by done. by apply Hst.
Qed.

Lemma ttl_check_resident_ok w :
  slots_ok w -> resident_ok w -> resident_ok (ttl_check w).
Proof.
  unfold ttl_check. generalize (models_to_unload w). intros l. revert w.
  induction l as [|it l IH]; intros w Hok Hr; simpl; [done|].
  apply IH; [by apply unload_idle_slots_ok|by apply unload_idle_resident_ok].
Qed.

Lemma exec_resident_ok E o w :
  slots_ok w -> resident_ok w -> resident_ok (exec E o w).
Proof.
  intros Hok Hr. destruct o as [ident|texts ident nz|q docs ident ins top_k|late|d];
    simpl.
  - by apply load_model_resident_ok.
  - by apply generate_embeddings_resident_ok.
  - apply (resident_ok_same w); [|done].
    apply (proj1 (rerank_same E q docs ident ins top_k w)).
  - unfold ttl_iteration. destruct (0 <? _); [|done].
    apply ttl_check_resident_ok; [done|]. by apply (resident_ok_same w).
  - by apply (resident_ok_same w).
Qed.

Lemma init_resident_ok cfg t0 : resident_ok (World_init cfg t0).
Proof.
  split; simpl; try done; try lia.
  intros key Hkey. unfold cache_of in Hkey. simpl in Hkey.
  rewrite lookup_empty in Hkey. by destruct Hkey.
Qed.

Lemma run_resident_ok E cfg t0 ops : resident_ok (run E ops (World_init cfg t0)).
Proof.
  apply (run_invariant (fun w => slots_ok w /\ resident_ok w) E).
  - intros o w [Hok Hr]. split; [by apply exec_slots_ok|by apply exec_resident_ok].
  - split; [apply init_slots_ok|apply init_resident_ok].
Qed.

(** ** Three loads in a row, from any state of the server *)

Lemma od_keys_set_new {V} (d : list (string * V)) k (v : V) :
  OD.mem k d = false -> OD.keys (OD.set k v d) = (OD.keys d ++ [k])%list.
Proof.
  unfold OD.mem. induction d as [|[k0 v0] d IH]; simpl; [done|].
  destruct (String.eqb k k0); [done|]. intros H. simpl. by rewrite (IH H).
Qed.

Lemma od_keys_del_head {V} (d : list (string * V)) e :
  head (OD.keys d) = Some e -> OD.keys (OD.del e d) = tail (OD.keys d).
Proof.
  destruct d as [|[k0 v0] d]; [done|]. simpl. intros [= ->].
  by rewrite String.eqb_refl.
Qed.

Lemma victim_new k m e :
  OD.mem k (models m) = false ->
  victim k m = Some e ->
  head (OD.keys (models m)) = Some e
  /\ (max_loaded_models m <= length (models m))%nat.
Proof.
  intros Hk. unfold victim.
  destruct (Nat.leb_spec (max_loaded_models m) (length (models m))) as [Hle|]; [|done].
  intros Hv. split; [|done].
  destruct (models m) as [|[k0 v0] d]; [done|]. simpl in *.
  unfold OD.mem in Hk. simpl in Hk.
  destruct (String.eqb_spec k k0) as [->|Hne]; [done|].
  destruct (String.eqb_spec k0 k) as [->|_]; [done|]. exact Hv.
Qed.

(** One successful load, seen from the other keys: on the fast path
    nothing moves; on the slow path the key goes last, the victim (the
    first key, when two models are resident) is evicted, and every other
    key keeps its place and its status. *)
Lemma load_model_step E k w :
  slots_ok w -> resident_ok w ->
  snd (load_model E (Some k) w) = Ok k ->
  let w' := fst (load_model E (Some k) w) in
  is_ready k (model_manager w') = true
  /\ ((is_ready k (model_manager w) = true /\ w' = w)
      \/ (OD.mem k (models (model_manager w)) = false
          /\ last (OD.keys (models (model_manager w'))) = Some k
          /\ (forall j, j <> k -> victim k (model_manager w) <> Some j ->
                OD.get j (models (model_manager w')) = OD.get j (models (model_manager w))
                /\ model_status (model_manager w') !! j
                   = model_status (model_manager w) !! j)
          /\ (forall e, victim k (model_manager w) = Some e ->
                evicted e w'
                /\ head (OD.keys (models (model_manager w))) = Some e
                /\ length (models (model_manager w)) = 2%nat))).
Proof.
  intros Hok Hres Hl w'.
  split; [by apply load_model_ok_ready|].
  pose proof (load_model_ok_inv _ _ _ _ Hl) as Hname.
  destruct (is_ready k (model_manager w)) eqn:Hr.
  { left. split; [done|]. unfold w'. by rewrite (load_model_fast E (Some k) w k). }
  right.
  assert (Hk : OD.mem k (models (model_manager w)) = false).
  { destruct (OD.mem k (models (model_manager w))) eqn:Hm; [|done].
    destruct Hok as [_ Hst]. unfold is_ready in Hr. by rewrite Hm, (Hst k Hm) in Hr. }
  destruct (load_model_ok_fields E (Some k) w k Hl Hr) as (h & Hm & Hs & Hx).
  fold w' in Hm, Hs, Hx.
  split; [exact Hk|].
  destruct Hok as [Hnd Hst].
  destruct (victim k (model_manager w)) as [e|] eqn:Hv.
  - destruct (victim_new _ _ _ Hk Hv) as [Hhead Hlen].
    pose proof (victim_resident _ _ _ Hv) as [He Hek].
    assert (Hke : OD.mem k (OD.del e (models (model_manager w))) = false).
    { unfold OD.mem in *. rewrite od_get_del_ne by done. exact Hk. }
    split; [|split].
    + rewrite Hm, od_keys_set_new by done. by rewrite last_snoc.
    + intros j Hjk Hje.
      assert (Hej : e <> j) by congruence.
      rewrite Hm, Hs. rewrite od_get_set_ne by done. rewrite od_get_del_ne by done.
      split; [done|].
      rewrite lookup_insert_ne by done. rewrite lookup_insert_ne by done.
      by rewrite lookup_insert_ne by done.
    + intros e' [= <-]. split; [|split; [done|]].
      * unfold evicted. rewrite Hm, Hs. rewrite od_get_set_ne by done.
        rewrite od_get_del_eq by done. split; [done|].
        rewrite lookup_insert_ne by done. by rewrite lookup_insert_eq.
      * pose proof (ro_max w Hres) as Hmax. pose proof (ro_count w Hres) as Hcnt. lia.
  - split; [|split].
    + rewrite Hm, od_keys_set_new by done. by rewrite last_snoc.
    + intros j Hjk _. rewrite Hm, Hs. rewrite od_get_set_ne by done.
      split; [done|]. rewrite lookup_insert_ne by done.
      by rewrite lookup_insert_ne by done.
    + done.
Qed.

Lemma two_keys (l : list string) (a b : string) :
  NoDup l -> (length l <= 2)%nat -> In a l -> In b l -> a <> b ->
  l = [a; b] \/ l = [b; a].
Proof.
  intros Hnd Hlen Ha Hb Hab.
  destruct l as [|x [|y [|z l]]]; simpl in *; [done| |  |lia].
  - destruct Ha as [<-|[]], Hb as [<-|[]]. done.
  - destruct Ha as [<-|[<-|[]]], Hb as [<-|[<-|[]]]; try done; auto.
Qed.

Lemma ready_resident k m : is_ready k m = true -> OD.mem k (models m) = true.
Proof. unfold is_ready. by intros [H _]%andb_true_iff. Qed.

Lemma evicted_not_ready k w : evicted k w -> is_ready k (model_manager w) = false.
Proof. intros [Hg _]. unfold is_ready, OD.mem. by rewrite Hg. Qed.

Lemma resident_is_ready k w :
  slots_ok w -> OD.mem k (models (model_manager w)) = true ->
  is_ready k (model_manager w) = true.
Proof. intros [_ Hst] Hm. unfold is_ready. by rewrite Hm, (Hst k Hm). Qed.

Lemma od_mem_get_eq {V} (d d' : list (string * V)) k :
  OD.get k d' = OD.get k d -> OD.mem k d' = OD.mem k d.
Proof. unfold OD.mem. by intros ->. Qed.

(** A key other than the one loaded is afterwards either as it was, or
    evicted (and then it was the first key of a full dictionary). *)
Lemma load_model_other E k w j :
  slots_ok w -> resident_ok w ->
  snd (load_model E (Some k) w) = Ok k -> j <> k ->
  let w' := fst (load_model E (Some k) w) in
  (OD.get j (models (model_manager w')) = OD.get j (models (model_manager w))
   /\ model_status (model_manager w') !! j = model_status (model_manager w) !! j)
  \/ (evicted j w'
      /\ OD.mem k (models (model_manager w)) = false
      /\ head (OD.keys (models (model_manager w))) = Some j
      /\ last (OD.keys (models (model_manager w'))) = Some k).
Proof.
  intros Hok Hres Hl Hjk w'.
  destruct (load_model_step E k w Hok Hres Hl) as [_ [[_ Hsame]|(Hk & Hlast & Hkeep & Hvic)]].
  { left. fold w' in Hsame. by rewrite Hsame. }
  fold w' in Hlast, Hkeep, Hvic.
  destruct (victim k (model_manager w)) as [e|] eqn:Hv.
  - destruct (String.eqb_spec e j) as [->|Hne].
    + right. destruct (Hvic j eq_refl) as (Hev & Hhead & _). done.
    + left. apply Hkeep; [done|congruence].
  - left. by apply Hkeep.
Qed.

Lemma head_last_two (l : list string) (a b : string) :
  NoDup l -> length l = 2%nat -> head l = Some a -> last l = Some b -> a <> b.
Proof.
  destruct l as [|x [|y [|z l]]]; simpl; try done.
  intros Hnd _ [= <-] [= <-]. apply NoDup_cons in Hnd as [Hx _].
  intros ->. apply Hx. by left.
Qed.

(** C5. Whatever the server did before, after three distinct keys A, B
    and C have been loaded with success one after the other, exactly one
    of A and B is evicted (no handle, status UNLOADED) and the other is
    READY; C is READY.  When neither A nor B was resident before the
    three loads, the evicted one is A, the first key of the
    dictionary. *)
Theorem third_load_evicts_exactly_one (E : Engine) (cfg : ServerConfig) (t0 : Z)
    (ops : list Op) (A B C : string) :
  A <> B -> A <> C -> B <> C ->
  let w0 := run E ops (World_init cfg t0) in
  let w1 := fst (load_model E (Some A) w0) in
  let w2 := fst (load_model E (Some B) w1) in
  let w3 := fst (load_model E (Some C) w2) in
  snd (load_model E (Some A) w0) = Ok A ->
  snd (load_model E (Some B) w1) = Ok B ->
  snd (load_model E (Some C) w2) = Ok C ->
  ((evicted A w3 /\ is_ready B (model_manager w3) = true)
   \/ (evicted B w3 /\ is_ready A (model_manager w3) = true))
  /\ ~ (evicted A w3 /\ evicted B w3)
  /\ is_ready C (model_manager w3) = true
  /\ (OD.mem A (models (model_manager w0)) = false ->
      OD.mem B (models (model_manager w0)) = false ->
      evicted A w3).
Proof.
  intros HAB HAC HBC w0 w1 w2 w3 HA HB HC.
  assert (Hok0 : slots_ok w0) by apply run_slots_ok.
  assert (Hres0 : resident_ok w0) by apply run_resident_ok.
  assert (Hok1 : slots_ok w1) by (by apply load_model_slots_ok).
  assert (Hres1 : resident_ok w1) by (by apply load_model_resident_ok).
  assert (Hok2 : slots_ok w2) by (by apply load_model_slots_ok).
  assert (Hres2 : resident_ok w2) by (by apply load_model_resident_ok).
  assert (Hok3 : slots_ok w3) by (by apply load_model_slots_ok).
  assert (Hres3 : resident_ok w3) by (by apply load_model_resident_ok).
  destruct (load_model_step E A w0 Hok0 Hres0 HA) as [HrA HstepA]. fold w1 in HrA, HstepA.
  destruct (load_model_step E B w1 Hok1 Hres1 HB) as [HrB HstepB]. fold w2 in HrB, HstepB.
  destruct (load_model_step E C w2 Hok2 Hres2 HC) as [HrC HstepC]. fold w3 in HrC, HstepC.
  (* what the third load does, given the dictionary it finds *)
  assert (Hthird :
    (OD.keys (models (model_manager w2)) = [A; B] ->
     evicted A w3 /\ is_ready B (model_manager w3) = true)
    /\ (OD.keys (models (model_manager w2)) = [B; A] ->
        evicted B w3 /\ is_ready A (model_manager w3) = true)
    /\ (evicted A w2 -> last (OD.keys (models (model_manager w2))) = Some B ->
        evicted A w3 /\ is_ready B (model_manager w3) = true)).
  { destruct HstepC as [[HrC2 Hsame]|(HkC & HlastC & HkeepC & HvicC)].
    { (* C was resident *)
      pose proof (ready_resident _ _ HrC2) as HmC. apply od_mem_keys in HmC.
      split; [|split].
      - intros Hk. rewrite Hk in HmC. simpl in HmC. by destruct HmC as [?|[?|[]]].
      - intros Hk. rewrite Hk in HmC. simpl in HmC. by destruct HmC as [?|[?|[]]].
      - intros Hev _. by rewrite Hsame. }
    assert (Hvictim : forall x y, OD.keys (models (model_manager w2)) = [x; y] ->
                       victim C (model_manager w2) = Some x).
    { intros x y Hk. unfold victim.
      rewrite (ro_max w2 Hres2).
      assert (Hlen : length (models (model_manager w2)) = 2%nat).
      { unfold OD.keys in Hk. apply (f_equal length) in Hk.
        by rewrite length_map in Hk. }
      rewrite Hlen. simpl. rewrite Hk. simpl.
      assert (Hx : x <> C).
      { intros ->. assert (In C (OD.keys (models (model_manager w2))))
          by (rewrite Hk; by left).
        apply od_mem_keys in H. congruence. }
      apply String.eqb_neq in Hx. by rewrite Hx. }
    assert (Hkept : forall j, j <> C -> victim C (model_manager w2) <> Some j ->
              is_ready j (model_manager w2) = true ->
              is_ready j (model_manager w3) = true).
    { intros j Hj Hv Hr. destruct (HkeepC j Hj Hv) as [Hg Hs].
      unfold is_ready in *. by rewrite (od_mem_get_eq _ _ _ Hg), Hs. }
    split; [|split].
    - intros Hk. pose proof (Hvictim A B Hk) as Hv.
      destruct (HvicC A Hv) as (Hev & _). split; [done|].
      apply Hkept; [done|rewrite Hv; congruence|done].
    - intros Hk. pose proof (Hvictim B A Hk) as Hv.
      destruct (HvicC B Hv) as (Hev & _). split; [done|].
      apply Hkept; [done|rewrite Hv; congruence|].
      apply resident_is_ready; [done|]. apply od_mem_keys. rewrite Hk. by right; left.
    - intros [HgA HsA] HlastB.
      assert (HvA : victim C (model_manager w2) <> Some A).
      { intros Hv. apply victim_resident in Hv as [Hm _].
        unfold OD.mem in Hm. by rewrite HgA in Hm. }
      assert (HvB : victim C (model_manager w2) <> Some B).
      { intros Hv. destruct (HvicC B Hv) as (_ & Hhead & Hlen).
        destruct Hok2 as [Hnd _].
        eapply (head_last_two _ B B Hnd); [|done|done|done].
        unfold OD.keys. by rewrite length_map. }
      split.
      + destruct (HkeepC A HAC HvA) as [Hg Hs]. unfold evicted. by rewrite Hg, Hs.
      + by apply Hkept. }
  destruct Hthird as (HAB3 & HBA3 & Hgone3).
  (* where A is after the second load *)
  assert (Hsecond :
    OD.keys (models (model_manager w2)) = [A; B]
    \/ OD.keys (models (model_manager w2)) = [B; A]
    \/ (evicted A w2 /\ last (OD.keys (models (model_manager w2))) = Some B)).
  { pose proof (load_model_other E B w1 A Hok1 Hres1 HB HAB) as Hother.
    fold w2 in Hother. cbv zeta in Hother.
    destruct Hother as [[Hg Hs]|(Hev & _ & _ & Hlast)].
    - assert (HmA : OD.mem A (models (model_manager w2)) = true).
      { rewrite (od_mem_get_eq _ _ _ Hg). by apply ready_resident. }
      pose proof (ready_resident _ _ HrB) as HmB.
      apply od_mem_keys in HmA, HmB. destruct Hok2 as [Hnd _].
      pose proof (ro_count w2 Hres2) as Hcnt.
      destruct (two_keys _ A B Hnd) as [H|H]; auto.
      unfold OD.keys. by rewrite length_map.
    - right. right. done. }
  assert (Hfinal : (evicted A w3 /\ is_ready B (model_manager w3) = true)
                   \/ (evicted B w3 /\ is_ready A (model_manager w3) = true)).
  { destruct Hsecond as [Hk|[Hk|[Hev Hlast]]]; [left|right|left]; auto. }
  split; [exact Hfinal|]. split; [|split; [exact HrC|]].
  - intros [HeA HeB]. apply evicted_not_ready in HeA, HeB.
    destruct Hfinal as [[_ H]|[_ H]]; congruence.
  - intros HnA HnB.
    (* A goes last, B is loaded after it *)
    destruct HstepA as [[HrA0 _]|(_ & HlastA & HkeepA & HvicA)].
    { apply ready_resident in HrA0. congruence. }
    assert (HnB1 : OD.mem B (models (model_manager w1)) = false).
    { pose proof (load_model_other E A w0 B Hok0 Hres0 HA ltac:(congruence)) as Hother.
      fold w1 in Hother. cbv zeta in Hother.
      destruct Hother as [[Hg _]|([Hg _] & _)].
      - by rewrite (od_mem_get_eq _ _ _ Hg).
      - unfold OD.mem. by rewrite Hg. }
    destruct HstepB as [[HrB1 _]|(_ & HlastB & HkeepB & HvicB)].
    { apply ready_resident in HrB1. congruence. }
    assert (HvA : victim B (model_manager w1) <> Some A).
    { intros Hv. destruct (HvicB A Hv) as (_ & Hhead & Hlen).
      destruct Hok1 as [Hnd _].
      eapply (head_last_two _ A A Hnd); [|done|done|done].
      unfold OD.keys. by rewrite length_map. }
    destruct (HkeepB A HAB HvA) as [Hg Hs].
    assert (HmA : OD.mem A (models (model_manager w2)) = true).
    { rewrite (od_mem_get_eq _ _ _ Hg). by apply ready_resident. }
    pose proof (ready_resident _ _ HrB) as HmB.
    apply od_mem_keys in HmA, HmB. destruct Hok2 as [Hnd _].
    pose proof (ro_count w2 Hres2) as Hcnt.
    destruct (two_keys _ A B Hnd) as [H|H]; auto.
    + unfold OD.keys. by rewrite length_map.
    + by apply HAB3.
    + rewrite H in HlastB. simpl in HlastB. congruence.
Qed.

Lemma third_load_evicts_exactly_one_witness :
  let w0 := run sample_engine [OpLoad (Some LARGE_MODEL)] (World_init default_config 100) in
  let w3 := fst (load_model sample_engine (Some LARGE_MODEL)
              (fst (load_model sample_engine (Some MEDIUM_MODEL)
                 (fst (load_model sample_engine (Some DEFAULT_MODEL) w0))))) in
  (evicted DEFAULT_MODEL w3 /\ is_ready MEDIUM_MODEL (model_manager w3) = true)
  \/ (evicted MEDIUM_MODEL w3 /\ is_ready DEFAULT_MODEL (model_manager w3) = true).
Proof.
  intros w0 w3.
  assert (HAB : DEFAULT_MODEL <> MEDIUM_MODEL) by discriminate.
  assert (HAC : DEFAULT_MODEL <> LARGE_MODEL) by discriminate.
  assert (HBC : MEDIUM_MODEL <> LARGE_MODEL) by discriminate.
  assert (HA : snd (load_model sample_engine (Some DEFAULT_MODEL) w0) = Ok DEFAULT_MODEL)
    by (vm_compute; reflexivity).
  assert (HB : snd (load_model sample_engine (Some MEDIUM_MODEL)
                 (fst (load_model sample_engine (Some DEFAULT_MODEL) w0)))
               = Ok MEDIUM_MODEL)
    by (vm_compute; reflexivity).
  assert (HC : snd (load_model sample_engine (Some LARGE_MODEL)
                 (fst (load_model sample_engine (Some MEDIUM_MODEL)
                    (fst (load_model sample_engine (Some DEFAULT_MODEL) w0)))))
               = Ok LARGE_MODEL)
    by (vm_compute; reflexivity).
  pose proof (third_load_evicts_exactly_one sample_engine default_config 100
                [OpLoad (Some LARGE_MODEL)]
                DEFAULT_MODEL MEDIUM_MODEL LARGE_MODEL HAB HAC HBC HA HB HC) as H.
  cbv zeta in H. destruct H as (H & _). exact H.
Defined.

(** ** The reranker holds one model *)

Lemma r_manage_makes_room k w :
  r_resident_ok w ->
  r_resident_ok (r_manage_memory k w)
  /\ (OD.mem k (r_models (reranker_manager (r_manage_memory k w))) = false ->
      r_models (reranker_manager (r_manage_memory k w)) = []).
Proof.
  intros [Hmax Hcount]. unfold r_manage_memory. rewrite Hmax.
  destruct (r_models (reranker_manager w)) as [|[k0 v0] [|p d]] eqn:Hm;
    simpl in Hcount; [| |exfalso; lia].
  - simpl. split; [split; [done|rewrite Hm; simpl; lia]|done].
  - simpl. destruct (String.eqb_spec k0 k) as [->|Hne]; simpl.
    + split; [split; [done|rewrite Hm; simpl; lia]|].
      rewrite Hm. unfold OD.mem. simpl. by rewrite String.eqb_refl.
    + unfold r_unload_model. rewrite Hm. unfold OD.mem. simpl.
      rewrite String.eqb_refl. simpl.
      split; [split; simpl; [done|]|].
      * rewrite Hm. simpl. rewrite String.eqb_refl. simpl. lia.
      * intros _. rewrite Hm. simpl. by rewrite String.eqb_refl.
Qed.

Lemma r_load_model_resident_ok E ident w :
  r_resident_ok w -> r_resident_ok (fst (r_load_model E ident w)).
Proof.
  intros Hr. unfold r_load_model.
  destruct (r_resolve_model_name ident) as [k|e]; [|done].
  destruct (r_is_ready k (reranker_manager w)) eqn:Hrd; [done|].
  change (r_is_ready k (reranker_manager (on_rm (r_set_locks (ensure_lock k)) w)))
    with (r_is_ready k (reranker_manager w)).
  rewrite Hrd.
  match goal with
  | |- context [rm_load E k (r_manage_memory k ?w1)] =>
      assert (H1 : r_resident_ok w1) by (destruct Hr; by split);
      destruct (r_manage_makes_room k w1 H1) as [[Hmax Hcount] Hroom];
      set (w2 := r_manage_memory k w1) in *
  end.
  unfold rm_load, call_load.
  destruct (eng_load E k _) as [h b|e]; [|by split].
  destruct (eng_token_ids E h) as [ids|e]; [|by split].
  simpl. split; simpl; rewrite r_warmup_rm; simpl; [done|].
  rewrite od_length_set.
  destruct (OD.mem k (r_models (reranker_manager w2))) eqn:Hk; [done|].
  by rewrite (Hroom eq_refl).
Qed.

Lemma rerank_resident_ok E q docs ident ins top_k w :
  r_resident_ok w -> r_resident_ok (fst (rerank E q docs ident ins top_k w)).
Proof.
  intros Hr. unfold rerank.
  pose proof (r_load_model_resident_ok E ident w Hr) as Hl.
  destruct (r_load_model E ident w) as [w1 [k|e]]; simpl in Hl; [|done].
  assert (Hu : r_resident_ok (on_rm (r_set_last_used (OD.set k (clock w1))) w1))
    by (destruct Hl; by split).
  destruct docs as [|d r]; [done|].
  destruct (OD.get k _) as [h|]; [|done].
  destruct (_ !! k) as [ids|]; [|done].
  destruct (OD.get k AVAILABLE_RERANKER_MODELS) as [info|]; [|done].
  match goal with
  | |- context [score_documents E h ids ?ml q ins 0 ?ds ?w0] =>
      pose proof (score_documents_rm E h ids ml q ins 0 ds w0) as Hs;
      destruct (score_documents E h ids ml q ins 0 ds w0) as [w' rs]
  end.
  simpl in *. destruct Hu as [Hmax Hcount]. split; rewrite Hs; done.
Qed.

Lemma exec_r_resident_ok E o w : r_resident_ok w -> r_resident_ok (exec E o w).
Proof.
  intros [Hmax Hcount].
  destruct o as [ident|texts ident nz|q docs ident ins top_k|late|d]; simpl.
  - split; by rewrite load_model_rm.
  - split; by rewrite generate_embeddings_rm.
  - by apply rerank_resident_ok.
  - unfold ttl_iteration. destruct (0 <? _); [|done]. split; by rewrite ttl_check_rm.
  - done.
Qed.

(** X13. However the requests, the waits and the turns of the idle loop
    follow one another from a fresh server, at most two embedding models
    and at most one reranker model are resident. *)
Theorem resident_models_bounded (E : Engine) (cfg : ServerConfig) (t0 : Z)
    (ops : list Op) :
  (length (models (model_manager (run E ops (World_init cfg t0)))) <= 2)%nat
  /\ (length (r_models (reranker_manager (run E ops (World_init cfg t0)))) <= 1)%nat.
Proof.
  split.
  - apply (ro_count _ (run_resident_ok E cfg t0 ops)).
  - apply rro_count. apply run_invariant; [apply exec_r_resident_ok|].
    split; simpl; [done|lia].
Qed.

(** X14. From a fresh server on, every entry of the embedding cache is
    the cache key of some text for a model that is resident and READY:
    no vector of an unloaded model stays in the cache. *)
Theorem cache_holds_resident_models_only (E : Engine) (cfg : ServerConfig) (t0 : Z)
    (ops : list Op) (key : string) (e : ndarray) :
  cache_of (run E ops (World_init cfg t0)) !! key = Some e ->
  exists k text nz,
    key = fingerprint k text nz
    /\ OD.mem k (models (model_manager (run E ops (World_init cfg t0)))) = true
    /\ model_status (model_manager (run E ops (World_init cfg t0))) !! k = Some READY.
Proof.
  intros Hkey.
  destruct (ro_cache _ (run_resident_ok E cfg t0 ops) key) as (k & text & nz & -> & Hk);
    [by rewrite Hkey|].
  exists k, text, nz. split; [done|]. split; [done|].
  by apply (proj2 (run_slots_ok E cfg t0 ops)).
Qed.

Lemma cache_holds_resident_models_only_witness :
  exists k text nz,
    fingerprint DEFAULT_MODEL "a" true = fingerprint k text nz
    /\ OD.mem k (models (model_manager
                           (run sample_engine [OpEmbed ["a"] None true]
                              (World_init default_config 100)))) = true
    /\ model_status (model_manager
                       (run sample_engine [OpEmbed ["a"] None true]
                          (World_init default_config 100))) !! k = Some READY.
Proof.
  assert (H : cache_of (run sample_engine [OpEmbed ["a"] None true]
                          (World_init default_config 100))
              !! fingerprint DEFAULT_MODEL "a" true = Some [2])
    by (vm_compute; reflexivity).
  exact (cache_holds_resident_models_only sample_engine default_config 100
           [OpEmbed ["a"] None true] _ _ H).
Defined.

(** ** Which model goes, and what it leaves behind *)

(** X15. With two models resident, a load of a third one unloads the
    model that was stored first and keeps the other, whatever their
    last-used times are: the order is that of the loads, not of the
    requests.  The eviction comes before the load, so the first model is
    gone also when the load of the third fails. *)
Theorem eviction_takes_the_oldest
    (E : Engine) (ident : option string) (w : World)
    (A B C : string) (hA hB : Handle) :
  max_loaded_models (model_manager w) = 2%nat ->
  models (model_manager w) = [(A, hA); (B, hB)] ->
  A <> B -> C <> A -> C <> B ->
  _resolve_model_name (config (model_manager w)) ident = Ok C ->
  model_status (model_manager (fst (load_model E ident w))) !! A = Some UNLOADED
  /\ ((exists h, snd (load_model E ident w) = Ok C
                 /\ models (model_manager (fst (load_model E ident w)))
                    = [(B, hB); (C, h)])
      \/ (exists m c, snd (load_model E ident w) = Raise (RuntimeErrorFrom m c)
                      /\ models (model_manager (fst (load_model E ident w)))
                         = [(B, hB)])).
Proof.
  intros Hmax Hm HAB HCA HCB Hres.
  assert (eCA : String.eqb C A = false) by (by apply String.eqb_neq).
  assert (eCB : String.eqb C B = false) by (by apply String.eqb_neq).
  assert (eAC : String.eqb A C = false) by (apply String.eqb_neq; congruence).
  assert (eBC : String.eqb B C = false) by (apply String.eqb_neq; congruence).
  assert (eBA : String.eqb B A = false) by (apply String.eqb_neq; congruence).
  assert (eAB : String.eqb A B = false) by (by apply String.eqb_neq).
  assert (Hrd : is_ready C (model_manager w) = false).
  { unfold is_ready, OD.mem. rewrite Hm. simpl. by rewrite eCA, eCB. }
  set (wb := begin_load C (on_mm (set_locks (ensure_lock C)) w)).
  assert (Hv : victim C (model_manager wb) = Some A).
  { unfold victim, wb. simpl. rewrite Hmax, Hm. simpl. by rewrite eAC. }
  assert (HA : OD.mem A (models (model_manager wb)) = true).
  { unfold wb, OD.mem. simpl. rewrite Hm. simpl. by rewrite String.eqb_refl. }
  assert (Hw1 : model_manager (_manage_memory C wb)
                = set_embedding_cache (purge_cache A)
                    (set_model_status (insert A UNLOADED)
                       (set_models (OD.del A) (model_manager wb)))).
  { rewrite manage_memory_victim, Hv. by apply unload_model_mm. }
  destruct (load_model_outcome E ident w C Hres Hrd)
    as [[h (_ & Hok & Hmm)]|[e (_ & Hfail & Hmm)]]; fold wb in Hmm;
    rewrite Hmm, Hw1; simpl; rewrite Hm; simpl; rewrite String.eqb_refl; simpl.
  - split.
    + rewrite lookup_insert_ne by congruence. by rewrite lookup_insert_eq.
    + left. exists h. split; [done|]. by rewrite eCB.
  - split.
    + rewrite lookup_insert_ne by congruence. by rewrite lookup_insert_eq.
    + right. by eexists _, _.
Qed.

Lemma eviction_takes_the_oldest_witness :
  model_status
    (model_manager
       (fst (load_model failing_engine (Some "large")
               (fst (generate_embeddings sample_engine ["again"] (Some "small") true
                       two_model_world))))) !! DEFAULT_MODEL
  = Some UNLOADED.
Proof.
  assert (Hmax : max_loaded_models
                   (model_manager
                      (fst (generate_embeddings sample_engine ["again"] (Some "small")
                              true two_model_world))) = 2%nat)
    by (vm_compute; reflexivity).
  assert (Hm : models
                 (model_manager
                    (fst (generate_embeddings sample_engine ["again"] (Some "small")
                            true two_model_world)))
               = [(DEFAULT_MODEL, 0%nat); (MEDIUM_MODEL, 1%nat)])
    by (vm_compute; reflexivity).
  assert (HAB : DEFAULT_MODEL <> MEDIUM_MODEL) by discriminate.
  assert (HCA : LARGE_MODEL <> DEFAULT_MODEL) by discriminate.
  assert (HCB : LARGE_MODEL <> MEDIUM_MODEL) by discriminate.
  assert (Hres : _resolve_model_name
                   (config (model_manager
                              (fst (generate_embeddings sample_engine ["again"]
                                      (Some "small") true two_model_world))))
                   (Some "large") = Ok LARGE_MODEL)
    by reflexivity.
  exact (proj1 (eviction_takes_the_oldest failing_engine (Some "large") _
                  DEFAULT_MODEL MEDIUM_MODEL LARGE_MODEL 0%nat 1%nat
                  Hmax Hm HAB HCA HCB Hres)).
Defined.

(** X16. [_unload_model] of a model that is not resident changes
    nothing.  For a resident model it removes the handle and sets the
    status to UNLOADED; the handles and statuses of the other models,
    the clock, and every load time and last-used timestamp, those of
    the unloaded model included, stay as they were. *)
Theorem unload_model_frame (k : string) (w : World) :
  NoDup (OD.keys (models (model_manager w))) ->
  (OD.mem k (models (model_manager w)) = false -> _unload_model k w = w)
  /\ (OD.mem k (models (model_manager w)) = true ->
      OD.get k (models (model_manager (_unload_model k w))) = None
      /\ model_status (model_manager (_unload_model k w)) !! k = Some UNLOADED
      /\ length (models (model_manager w))
         = S (length (models (model_manager (_unload_model k w))))
      /\ (forall k', k' <> k ->
            OD.get k' (models (model_manager (_unload_model k w)))
            = OD.get k' (models (model_manager w))
            /\ model_status (model_manager (_unload_model k w)) !! k'
               = model_status (model_manager w) !! k')
      /\ model_load_times (model_manager (_unload_model k w))
         = model_load_times (model_manager w)
      /\ last_used_of (_unload_model k w) = last_used_of w
      /\ clock (_unload_model k w) = clock w).
Proof.
  intros Hnd. split; [apply unload_model_absent|].
  intros Hk. unfold last_used_of. rewrite unload_model_mm by done. simpl.
  split; [by apply od_get_del_eq|].
  split; [by rewrite lookup_insert_eq|].
  split; [by apply od_length_del|].
  split.
  - intros k' Hne. split; [apply od_get_del_ne; congruence|].
    by rewrite lookup_insert_ne by congruence.
  - repeat split. unfold _unload_model. by rewrite Hk.
Qed.

Lemma unload_model_frame_witness :
  OD.get DEFAULT_MODEL (models (model_manager (_unload_model DEFAULT_MODEL two_model_world)))
  = None
  /\ OD.get MEDIUM_MODEL
       (models (model_manager (_unload_model DEFAULT_MODEL two_model_world)))
     = OD.get MEDIUM_MODEL (models (model_manager two_model_world)).
Proof.
  assert (Hnd : NoDup (OD.keys (models (model_manager two_model_world))))
    by (apply (proj1 (run_slots_ok _ _ _ _))).
  assert (Hk : OD.mem DEFAULT_MODEL (models (model_manager two_model_world)) = true)
    by (vm_compute; reflexivity).
  destruct (proj2 (unload_model_frame DEFAULT_MODEL two_model_world Hnd) Hk)
    as (H1 & _ & _ & H2 & _).
  split; [exact H1|]. apply (H2 MEDIUM_MODEL). discriminate.
Defined.

Lemma r_load_model_ready E ident w k :
  snd (r_load_model E ident w) = Ok k ->
  r_is_ready k (reranker_manager (fst (r_load_model E ident w))) = true.
Proof.
  unfold r_load_model.
  destruct (r_resolve_model_name ident) as [k'|e]; [|done].
  destruct (r_is_ready k' (reranker_manager w)) eqn:Hrd; [by intros [= <-]|].
  change (r_is_ready k' (reranker_manager (on_rm (r_set_locks (ensure_lock k')) w)))
    with (r_is_ready k' (reranker_manager w)).
  rewrite Hrd.
  match goal with
  | |- context [rm_load E k' ?w1] =>
      pose proof (rm_load_stored E k' w1) as Hst;
      destruct (rm_load E k' w1) as [w2 [e|]]
  end; [done|].
  simpl in *. intros [= <-]. unfold r_is_ready. simpl. rewrite r_warmup_rm.
  rewrite (Hst eq_refl). simpl. by rewrite lookup_insert_eq.
Qed.

(** X17. Loading a model that is loaded is free: after a successful
    [load_model], the same call again returns the same name and leaves
    the world as it is, without a call of [load], a warmup or a new
    timestamp.  This holds for both managers. *)
Theorem second_load_is_free (E : Engine) (ident : option string) (w : World) :
  (slots_ok w ->
   forall k, snd (load_model E ident w) = Ok k ->
             load_model E ident (fst (load_model E ident w))
             = (fst (load_model E ident w), Ok k))
  /\ (forall k, snd (r_load_model E ident w) = Ok k ->
                r_load_model E ident (fst (r_load_model E ident w))
                = (fst (r_load_model E ident w), Ok k)).
Proof.
  split.
  - intros Hok k Hl.
    pose proof (load_model_ok_ready E ident w k Hok Hl) as Hrd.
    apply load_model_fast; [|done].
    rewrite load_model_config.
    destruct (load_model_result E ident w)
      as [(k' & Hres & Hl')|[(e & Hres & Hl')|(k' & m & c & Hres & Hl')]];
      congruence.
  - intros k Hl.
    pose proof (r_load_model_ready E ident w k Hl) as Hrd.
    pose proof (r_load_model_resolves E ident w k Hl) as Hres.
    set (w' := fst (r_load_model E ident w)) in *.
    unfold r_load_model at 1. by rewrite Hres, Hrd.
Qed.

Lemma second_load_is_free_witness :
  load_model sample_engine (Some "small")
    (fst (load_model sample_engine (Some "small") (World_init default_config 100)))
  = (fst (load_model sample_engine (Some "small") (World_init default_config 100)),
     Ok DEFAULT_MODEL).
Proof.
  assert (Hl : snd (load_model sample_engine (Some "small")
                      (World_init default_config 100)) = Ok DEFAULT_MODEL)
    by (vm_compute; reflexivity).
  exact (proj1 (second_load_is_free sample_engine (Some "small")
                  (World_init default_config 100))
           (init_slots_ok default_config 100) DEFAULT_MODEL Hl).
Defined.

(** ** The scan of the idle loop *)

Lemma od_get_In {V} (d : list (string * V)) k v : OD.get k d = Some v -> In (k, v) d.
Proof.
  induction d as [|[k0 v0] d IH]; simpl; [done|].
  destruct (String.eqb_spec k k0) as [->|Hne].
  - intros [= ->]. by left.
  - intros H. right. by apply IH.
Qed.

Lemma models_to_unload_complete w name lu :
  OD.get name (last_used_of w) = Some lu ->
  OD.mem name (models (model_manager w)) = true ->
  ttl_of w <= clock w - lu ->
  In (name, clock w - lu) (models_to_unload w).
Proof.
  intros Hlu Hres Hidle. unfold models_to_unload. apply in_flat_map.
  exists (name, lu). split; [by apply od_get_In|].
  rewrite Hres. unfold ttl_of in Hidle. apply Z.leb_le in Hidle. rewrite Hidle.
  by left.
Qed.

(** What one unload of the scan does to the two dictionaries. *)
Lemma unload_idle_fields w it :
  models (model_manager (unload_idle w it)) = OD.del (fst it) (models (model_manager w))
  /\ last_used_of (unload_idle w it) = OD.del (fst it) (last_used_of w)
  /\ clock (unload_idle w it) = clock w
  /\ config (model_manager (unload_idle w it)) = config (model_manager w)
  /\ forall k, k <> fst it ->
       model_status (model_manager (unload_idle w it)) !! k
       = model_status (model_manager w) !! k.
Proof.
  unfold unload_idle, last_used_of. simpl.
  destruct (OD.mem (fst it) (models (model_manager w))) eqn:He.
  - pose proof (unload_model_clock (fst it) w) as Hc.
    rewrite unload_model_mm by done. simpl.
    split; [done|]. split; [done|]. split; [done|]. split; [done|].
    intros k Hne. by rewrite lookup_insert_ne by congruence.
  - rewrite unload_model_absent by done.
    split; [by rewrite od_del_absent|]. done.
Qed.

Lemma unload_idle_status w it :
  OD.mem (fst it) (models (model_manager w)) = true ->
  model_status (model_manager (unload_idle w it)) !! fst it = Some UNLOADED.
Proof.
  intros He. unfold unload_idle. simpl. rewrite unload_model_mm by done. simpl.
  by rewrite lookup_insert_eq.
Qed.

Lemma fold_unload_idle_fields items w :
  models (model_manager (fold_left unload_idle items w))
  = del_all items (models (model_manager w))
  /\ last_used_of (fold_left unload_idle items w) = del_all items (last_used_of w)
  /\ clock (fold_left unload_idle items w) = clock w
  /\ config (model_manager (fold_left unload_idle items w)) = config (model_manager w).
Proof.
  revert w. induction items as [|it items IH]; intros w; simpl; [done|].
  destruct (IH (unload_idle w it)) as (H1 & H2 & H3 & H4).
  destruct (unload_idle_fields w it) as (F1 & F2 & F3 & F4 & _).
  rewrite H1, H2, H3, H4, F1, F2, F3, F4. done.
Qed.

Lemma od_NoDup_del_all {V} (items : list (string * Z)) (d : list (string * V)) :
  NoDup (OD.keys d) -> NoDup (OD.keys (del_all items d)).
Proof.
  revert d. induction items as [|it items IH]; intros d Hnd; [done|].
  apply (IH (OD.del (fst it) d)). by apply od_NoDup_del.
Qed.

Lemma od_get_del_all_in {V} (items : list (string * Z)) (d : list (string * V)) k :
  NoDup (OD.keys d) -> In k (map fst items) -> OD.get k (del_all items d) = None.
Proof.
  revert d. induction items as [|it items IH]; intros d Hnd Hin; [done|].
  change (del_all (it :: items) d) with (del_all items (OD.del (fst it) d)).
  destruct (in_dec string_dec k (map fst items)) as [Hin'|Hnin].
  - apply IH; [by apply od_NoDup_del|done].
  - destruct Hin as [<-|Hin]; [|done].
    clear IH. revert Hnin. generalize (od_get_del_eq d (fst it) Hnd).
    generalize (OD.del (fst it) d). clear.
    induction items as [|it' items IH]; intros d' Hd' Hnin; [done|].
    change (del_all (it' :: items) d') with (del_all items (OD.del (fst it') d')).
    apply IH; [by apply od_get_del_None|]. intros ?. apply Hnin. by right.
Qed.

Lemma od_get_del_all_out {V} (items : list (string * Z)) (d : list (string * V)) k :
  ~ In k (map fst items) -> OD.get k (del_all items d) = OD.get k d.
Proof.
  revert d. induction items as [|it items IH]; intros d Hnin; [done|].
  change (del_all (it :: items) d) with (del_all items (OD.del (fst it) d)).
  rewrite IH by (intros ?; apply Hnin; by right).
  apply od_get_del_ne. intros Heq. apply Hnin. by left.
Qed.

Lemma fold_unload_idle_status_stable items w k :
  model_status (model_manager w) !! k = Some UNLOADED ->
  model_status (model_manager (fold_left unload_idle items w)) !! k = Some UNLOADED.
Proof.
  revert w. induction items as [|it items IH]; intros w Hs; simpl; [done|].
  apply IH. destruct (decide (k = fst it)) as [->|Hne].
  - destruct (OD.mem (fst it) (models (model_manager w))) eqn:He.
    + by apply unload_idle_status.
    + unfold unload_idle. simpl. by rewrite unload_model_absent.
  - destruct (unload_idle_fields w it) as (_ & _ & _ & _ & F). by rewrite F.
Qed.

Lemma fold_unload_idle_status items w k :
  In k (map fst items) ->
  OD.mem k (models (model_manager w)) = true ->
  model_status (model_manager (fold_left unload_idle items w)) !! k = Some UNLOADED.
Proof.
  revert w. induction items as [|it items IH]; intros w Hin Hres; simpl; [done|].
  destruct (decide (fst it = k)) as [<-|Hne].
  - apply fold_unload_idle_status_stable. by apply unload_idle_status.
  - destruct Hin as [?|Hin]; [done|]. apply IH; [done|].
    destruct (unload_idle_fields w it) as (F1 & _). rewrite F1.
    by rewrite od_mem_del_ne by congruence.
Qed.

Lemma fold_unload_idle_status_other items w k :
  ~ In k (map fst items) ->
  model_status (model_manager (fold_left unload_idle items w)) !! k
  = model_status (model_manager w) !! k.
Proof.
  revert w. induction items as [|it items IH]; intros w Hnin; simpl; [done|].
  rewrite IH by (intros ?; apply Hnin; by right).
  destruct (unload_idle_fields w it) as (_ & _ & _ & _ & F). apply F.
  intros ->. apply Hnin. by left.
Qed.

Lemma models_to_unload_names w k :
  NoDup (OD.keys (last_used_of w)) ->
  In k (map fst (models_to_unload w)) <->
  OD.mem k (models (model_manager w)) = true
  /\ exists lu, OD.get k (last_used_of w) = Some lu /\ ttl_of w <= clock w - lu.
Proof.
  intros Hnd. split.
  - intros Hin. apply in_map_iff in Hin as ([name idle] & <- & Hin).
    destruct (models_to_unload_spec w name idle Hnd Hin) as (lu & Hlu & Hidle & Hres).
    split; [done|]. by exists lu.
  - intros (Hres & lu & Hlu & Hidle).
    apply in_map_iff. exists (k, clock w - lu). split; [done|].
    by apply models_to_unload_complete.
Qed.

Lemma ttl_check_idle w k lu :
  NoDup (OD.keys (models (model_manager w))) ->
  NoDup (OD.keys (last_used_of w)) ->
  OD.mem k (models (model_manager w)) = true ->
  OD.get k (last_used_of w) = Some lu ->
  ttl_of w <= clock w - lu ->
  OD.get k (models (model_manager (ttl_check w))) = None
  /\ OD.get k (last_used_of (ttl_check w)) = None
  /\ model_status (model_manager (ttl_check w)) !! k = Some UNLOADED.
Proof.
  intros Hnm Hnl Hres Hlu Hidle. unfold ttl_check.
  destruct (fold_unload_idle_fields (models_to_unload w) w) as (H1 & H2 & _ & _).
  rewrite H1, H2.
  assert (Hin : In k (map fst (models_to_unload w))).
  { apply (models_to_unload_names w k Hnl). split; [done|]. by exists lu. }
  rewrite !od_get_del_all_in by done. split; [done|]. split; [done|].
  by apply fold_unload_idle_status.
Qed.

Lemma ttl_check_busy w k :
  NoDup (OD.keys (last_used_of w)) ->
  ~ (exists lu, OD.mem k (models (model_manager w)) = true
                /\ OD.get k (last_used_of w) = Some lu
                /\ ttl_of w <= clock w - lu) ->
  OD.get k (models (model_manager (ttl_check w))) = OD.get k (models (model_manager w))
  /\ OD.get k (last_used_of (ttl_check w)) = OD.get k (last_used_of w)
  /\ model_status (model_manager (ttl_check w)) !! k
     = model_status (model_manager w) !! k.
Proof.
  intros Hnl Hno. unfold ttl_check.
  destruct (fold_unload_idle_fields (models_to_unload w) w) as (H1 & H2 & _ & _).
  rewrite H1, H2.
  assert (Hnin : ~ In k (map fst (models_to_unload w))).
  { intros Hin. apply (models_to_unload_names w k Hnl) in Hin as (Hres & lu & Hlu & Hidle).
    apply Hno. by exists lu. }
  rewrite !od_get_del_all_out by done. split; [done|]. split; [done|].
  by apply fold_unload_idle_status_other.
Qed.

Lemma ttl_check_clock w : clock (ttl_check w) = clock w.
Proof.
  unfold ttl_check.
  by destruct (fold_unload_idle_fields (models_to_unload w) w) as (_ & _ & H3 & _).
Qed.

(** X18. One scan of the idle loop unloads exactly the resident models
    whose timestamp is at least [idle_ttl_seconds] old: such a model
    loses its handle and its timestamp and gets the status UNLOADED;
    every other model keeps its handle, its status and its timestamp.
    The scan leaves the clock and the configuration alone. *)
Theorem ttl_check_unloads_exactly_the_idle (w : World) (k : string) :
  NoDup (OD.keys (models (model_manager w))) ->
  NoDup (OD.keys (last_used_of w)) ->
  ((exists lu, OD.mem k (models (model_manager w)) = true
               /\ OD.get k (last_used_of w) = Some lu
               /\ ttl_of w <= clock w - lu) ->
   OD.get k (models (model_manager (ttl_check w))) = None
   /\ OD.get k (last_used_of (ttl_check w)) = None
   /\ model_status (model_manager (ttl_check w)) !! k = Some UNLOADED)
  /\ (~ (exists lu, OD.mem k (models (model_manager w)) = true
                    /\ OD.get k (last_used_of w) = Some lu
                    /\ ttl_of w <= clock w - lu) ->
      OD.get k (models (model_manager (ttl_check w)))
      = OD.get k (models (model_manager w))
      /\ OD.get k (last_used_of (ttl_check w)) = OD.get k (last_used_of w)
      /\ model_status (model_manager (ttl_check w)) !! k
         = model_status (model_manager w) !! k)
  /\ clock (ttl_check w) = clock w
  /\ config (model_manager (ttl_check w)) = config (model_manager w).
Proof.
  intros Hnm Hnl. split; [|split; [|split]].
  - intros (lu & Hres & Hlu & Hidle). by apply (ttl_check_idle w k lu).
  - intros Hno. by apply ttl_check_busy.
  - apply ttl_check_clock.
  - apply ttl_check_config.
Qed.

Lemma ttl_check_unloads_exactly_the_idle_witness :
  OD.get DEFAULT_MODEL
    (models (model_manager
               (ttl_check (run sample_engine [OpLoad None; OpWait (secs 400)]
                             (World_init default_config 100)))))
  = None.
Proof.
  assert (Hnm : NoDup (OD.keys (models (model_manager
                         (run sample_engine [OpLoad None; OpWait (secs 400)]
                            (World_init default_config 100))))))
    by (apply (proj1 (run_slots_ok _ _ _ _))).
  assert (Hnl : NoDup (OD.keys (last_used_of
                         (run sample_engine [OpLoad None; OpWait (secs 400)]
                            (World_init default_config 100)))))
    by (apply time_nodup, run_time_ok).
  assert (Hidle : exists lu,
             OD.mem DEFAULT_MODEL
               (models (model_manager
                          (run sample_engine [OpLoad None; OpWait (secs 400)]
                             (World_init default_config 100)))) = true
             /\ OD.get DEFAULT_MODEL
                  (last_used_of (run sample_engine [OpLoad None; OpWait (secs 400)]
                                   (World_init default_config 100))) = Some lu
             /\ ttl_of (run sample_engine [OpLoad None; OpWait (secs 400)]
                          (World_init default_config 100))
                <= clock (run sample_engine [OpLoad None; OpWait (secs 400)]
                            (World_init default_config 100)) - lu).
  { exists (100 + ticks 7). split; [by vm_compute|]. split; [by vm_compute|].
    apply Z.leb_le. by vm_compute. }
  exact (proj1 (proj1 (ttl_check_unloads_exactly_the_idle _ DEFAULT_MODEL Hnm Hnl)
                  Hidle)).
Defined.

(** ** Turns of the idle loop *)

Lemma run_app E ops1 ops2 w : run E (ops1 ++ ops2) w = run E ops2 (run E ops1 w).
Proof. unfold run. by rewrite fold_left_app. Qed.

Lemma check_interval_bounds cfg :
  0 < idle_ttl_seconds cfg ->
  0 <= check_interval cfg <= 60 /\ 2 * check_interval cfg <= idle_ttl_seconds cfg.
Proof.
  intros Hpos. unfold check_interval.
  pose proof (Z.div_pos (idle_ttl_seconds cfg) 2).
  pose proof (Z.mul_div_le (idle_ttl_seconds cfg) 2). lia.
Qed.

Lemma ticks_pos x : 0 < ticks x <-> 0 < x.
Proof. unfold ticks, TICKS_PER_SECOND. lia. Qed.

Lemma ticks_nonneg x : 0 <= x -> 0 <= ticks x.
Proof. unfold ticks, TICKS_PER_SECOND. lia. Qed.

Lemma ttl_of_pos w : 0 < ttl_of w <-> 0 < idle_ttl_seconds (config (model_manager w)).
Proof. apply ticks_pos. Qed.

Lemma ttl_iteration_fields late w :
  0 < ttl_of w ->
  clock (ttl_iteration late w)
  = clock w + ticks (check_interval (config (model_manager w))) + Z.of_N late
  /\ config (model_manager (ttl_iteration late w)) = config (model_manager w).
Proof.
  intros Hpos. unfold ttl_iteration. apply ttl_of_pos in Hpos.
  assert (Hb : (0 <? idle_ttl_seconds (config (model_manager w))) = true)
    by (by apply Z.ltb_lt).
  rewrite Hb. rewrite ttl_check_clock, ttl_check_config. simpl. split; [|done].
  destruct (check_interval_bounds (config (model_manager w)) Hpos) as [[H0 _] _].
  rewrite N2Z.inj_add, Z2N.id by (by apply ticks_nonneg). lia.
Qed.

Lemma run_turns_fields E lates w :
  0 < ttl_of w ->
  clock (run E (map OpTtl lates) w)
  = clock w + turns_duration (config (model_manager w)) lates
  /\ config (model_manager (run E (map OpTtl lates) w)) = config (model_manager w).
Proof.
  revert w. induction lates as [|late lates IH]; intros w Hpos; simpl.
  - split; [lia|done].
  - destruct (ttl_iteration_fields late w Hpos) as [Hc Hcfg].
    destruct (IH (ttl_iteration late w)) as [Hc' Hcfg'].
    { unfold ttl_of. by rewrite Hcfg. }
    unfold run in *. simpl. rewrite Hc', Hcfg', Hc, Hcfg. split; [lia|done].
Qed.

(** What a run of turns keeps of one model: it is gone, or it still has
    the timestamp it had. *)
Lemma run_turns_keep E lates w k lu :
  NoDup (OD.keys (models (model_manager w))) ->
  NoDup (OD.keys (last_used_of w)) ->
  OD.get k (models (model_manager w)) = None \/ OD.get k (last_used_of w) = Some lu ->
  NoDup (OD.keys (models (model_manager (run E (map OpTtl lates) w))))
  /\ NoDup (OD.keys (last_used_of (run E (map OpTtl lates) w)))
  /\ (OD.get k (models (model_manager (run E (map OpTtl lates) w))) = None
      \/ OD.get k (last_used_of (run E (map OpTtl lates) w)) = Some lu).
Proof.
  revert w. induction lates as [|late lates IH]; intros w Hnm Hnl Hk; [done|].
  change (run E (map OpTtl (late :: lates)) w)
    with (run E (map OpTtl lates) (ttl_iteration late w)).
  apply IH; unfold ttl_iteration; destruct (0 <? _); try done.
  - unfold ttl_check.
    destruct (fold_unload_idle_fields (models_to_unload (advance (Z.to_N (ticks (check_interval (config (model_manager w)))) + late) w)) (advance (Z.to_N (ticks (check_interval (config (model_manager w)))) + late) w)) as (H1 & _).
    rewrite H1. by apply od_NoDup_del_all.
  - unfold ttl_check.
    destruct (fold_unload_idle_fields (models_to_unload (advance (Z.to_N (ticks (check_interval (config (model_manager w)))) + late) w)) (advance (Z.to_N (ticks (check_interval (config (model_manager w)))) + late) w)) as (_ & H2 & _).
    rewrite H2. by apply od_NoDup_del_all.
  - set (w1 := advance (Z.to_N (ticks (check_interval (config (model_manager w)))) + late) w).
    destruct (OD.mem k (models (model_manager w1))) eqn:Hres.
    + destruct Hk as [Hk|Hk]; [unfold OD.mem in Hres; simpl in Hres; by rewrite Hk in Hres|].
      destruct (Z_le_gt_dec (ttl_of w1) (clock w1 - lu)) as [Hidle|Hbusy].
      * left. by apply (ttl_check_idle w1 k lu).
      * right. destruct (ttl_check_busy w1 k) as (_ & H2 & _); [done| |by rewrite H2].
        intros (lu' & _ & Hlu' & Hidle).
        assert (lu' = lu) by (unfold last_used_of in *; simpl in *; congruence).
        subst lu'. lia.
    + left. destruct (ttl_check_busy w1 k) as (H1 & _); [done| |].
      * intros (lu' & Hres' & _). congruence.
      * rewrite H1. by apply od_mem_false_get.
Qed.

(** X19. A model that gets no request is unloaded by the idle loop: if
    the loop is running ([idle_ttl_seconds] is positive) and its last
    turn ends at least [idle_ttl_seconds] after the model's timestamp,
    the model is no longer resident.  The turns take the sleeps of
    [check_interval] seconds, between 0 and 60 and at most half of
    [idle_ttl_seconds], plus the time each wake-up is late.  Times are
    in ticks; [ttl_of] is [idle_ttl_seconds] in ticks. *)
Theorem idle_model_is_unloaded
    (E : Engine) (w : World) (k : string) (lu : Z) (lates : list N) :
  NoDup (OD.keys (models (model_manager w))) ->
  NoDup (OD.keys (last_used_of w)) ->
  0 < ttl_of w ->
  lates <> [] ->
  OD.get k (last_used_of w) = Some lu ->
  ttl_of w <= clock w + turns_duration (config (model_manager w)) lates - lu ->
  OD.get k (models (model_manager (run E (map OpTtl lates) w))) = None
  /\ clock (run E (map OpTtl lates) w)
     = clock w + turns_duration (config (model_manager w)) lates
  /\ 0 <= check_interval (config (model_manager w)) <= 60
  /\ 2 * check_interval (config (model_manager w))
     <= idle_ttl_seconds (config (model_manager w)).
Proof.
  intros Hnm Hnl Hpos Hne Hlu Hidle.
  split; [|split; [apply (run_turns_fields E lates w Hpos)|
                   apply (check_interval_bounds _ (proj1 (ttl_of_pos w) Hpos))]].
  destruct (exists_last Hne) as (lates' & late & ->).
  rewrite map_app, run_app. simpl map.
  destruct (run_turns_keep E lates' w k lu Hnm Hnl (or_intror Hlu)) as (Hnm1 & Hnl1 & Hk1).
  destruct (run_turns_fields E lates' w Hpos) as [Hc1 Hcfg1].
  destruct (run_turns_fields E (lates' ++ [late]) w Hpos) as [Hc2 _].
  rewrite map_app, run_app in Hc2. simpl map in Hc2.
  set (w1 := run E (map OpTtl lates') w) in *.
  change (run E [OpTtl late] w1) with (ttl_iteration late w1) in *.
  unfold ttl_iteration in *. apply ttl_of_pos in Hpos.
  assert (Hb : (0 <? idle_ttl_seconds (config (model_manager w1))) = true)
    by (rewrite Hcfg1; by apply Z.ltb_lt).
  rewrite Hb in *. rewrite ttl_check_clock in Hc2.
  set (w2 := advance (Z.to_N (ticks (check_interval (config (model_manager w1)))) + late)
               w1) in *.
  destruct (OD.mem k (models (model_manager w2))) eqn:Hres.
  - destruct Hk1 as [Hk1|Hk1];
      [unfold OD.mem in Hres; simpl in Hres; by rewrite Hk1 in Hres|].
    apply (ttl_check_idle w2 k lu); try done.
    unfold ttl_of in *.
    change (config (model_manager w2)) with (config (model_manager w1)).
    rewrite Hcfg1, Hc2. lia.
  - destruct (ttl_check_busy w2 k) as (H1 & _); [done| |].
    + intros (lu' & Hres' & _). congruence.
    + rewrite H1. by apply od_mem_false_get.
Qed.

Lemma idle_model_is_unloaded_witness :
  OD.get DEFAULT_MODEL
    (models (model_manager
               (run sample_engine (map OpTtl [0; 0; 0; 0; 0]%N)
                  (run sample_engine [OpLoad None] (World_init default_config 100)))))
  = None.
Proof.
  assert (Hnm : NoDup (OD.keys (models (model_manager
                         (run sample_engine [OpLoad None]
                            (World_init default_config 100))))))
    by (apply (proj1 (run_slots_ok _ _ _ _))).
  assert (Hnl : NoDup (OD.keys (last_used_of
                         (run sample_engine [OpLoad None]
                            (World_init default_config 100)))))
    by (apply time_nodup, run_time_ok).
  assert (Hpos : 0 < ttl_of (run sample_engine [OpLoad None]
                               (World_init default_config 100)))
    by (apply Z.ltb_lt; by vm_compute).
  assert (Hne : [0; 0; 0; 0; 0]%N <> []) by discriminate.
  assert (Hlu : OD.get DEFAULT_MODEL
                  (last_used_of (run sample_engine [OpLoad None]
                                   (World_init default_config 100)))
                = Some (100 + ticks 7))
    by (by vm_compute).
  assert (Hidle : ttl_of (run sample_engine [OpLoad None]
                            (World_init default_config 100))
                  <= clock (run sample_engine [OpLoad None]
                              (World_init default_config 100))
                     + turns_duration
                         (config (model_manager
                                    (run sample_engine [OpLoad None]
                                       (World_init default_config 100))))
                         [0; 0; 0; 0; 0]%N - (100 + ticks 7))
    by (apply Z.leb_le; by vm_compute).
  exact (proj1 (idle_model_is_unloaded sample_engine _ DEFAULT_MODEL (100 + ticks 7)
                  [0; 0; 0; 0; 0]%N Hnm Hnl Hpos Hne Hlu Hidle)).
Defined.

(** X20. When the idle loop unloads the default model, [/health] keeps
    answering 200 with the model status unloaded; the server counts as
    healthy only under lazy loading.  A server started with
    [lazy_load] off therefore turns degraded once its model has been
    idle for [idle_ttl_seconds], until the next request loads the model
    again. *)
Theorem health_after_idle_unload
    (memory_mb : option Q) (start_time : option Z) (models_dir : string)
    (w : World) (lu : Z) :
  NoDup (OD.keys (models (model_manager w))) ->
  NoDup (OD.keys (last_used_of w)) ->
  OD.mem (model_name (config (model_manager w))) AVAILABLE_MODELS = true ->
  OD.mem (model_name (config (model_manager w))) (models (model_manager w)) = true ->
  OD.get (model_name (config (model_manager w))) (last_used_of w) = Some lu ->
  ttl_of w <= clock w - lu ->
  exists body,
    health_check memory_mb start_time models_dir (ttl_check w) = Http200 body
    /\ hr_model_status body = "unloaded"
    /\ hr_status body
       = if lazy_load (config (model_manager w)) then "healthy" else "degraded".
Proof.
  intros Hnm Hnl Hcat Hres Hlu Hidle.
  destruct (ttl_check_idle w _ lu Hnm Hnl Hres Hlu Hidle) as (_ & _ & Hst).
  unfold health_check. rewrite ttl_check_config, Hst.
  destruct (OD.get (model_name (config (model_manager w))) AVAILABLE_MODELS)
    as [info|] eqn:Hinfo; [|by unfold OD.mem in Hcat; rewrite Hinfo in Hcat].
  eexists. split; [reflexivity|]. simpl. split; [done|].
  unfold health_status. simpl. by destruct (lazy_load _).
Qed.

Lemma health_after_idle_unload_witness :
  exists body,
    health_check None None "/models"
      (ttl_check (run sample_engine [OpLoad None; OpWait (secs 400)]
                    (World_init eager_config 100)))
    = Http200 body
    /\ hr_status body = "degraded".
Proof.
  assert (Hnm : NoDup (OD.keys (models (model_manager
                         (run sample_engine [OpLoad None; OpWait (secs 400)]
                            (World_init eager_config 100))))))
    by (apply (proj1 (run_slots_ok _ _ _ _))).
  assert (Hnl : NoDup (OD.keys (last_used_of
                         (run sample_engine [OpLoad None; OpWait (secs 400)]
                            (World_init eager_config 100)))))
    by (apply time_nodup, run_time_ok).
  assert (Hcat : OD.mem (model_name (config (model_manager
                           (run sample_engine [OpLoad None; OpWait (secs 400)]
                              (World_init eager_config 100)))))
                   AVAILABLE_MODELS = true) by (by vm_compute).
  assert (Hres : OD.mem (model_name (config (model_manager
                           (run sample_engine [OpLoad None; OpWait (secs 400)]
                              (World_init eager_config 100)))))
                   (models (model_manager
                              (run sample_engine [OpLoad None; OpWait (secs 400)]
                                 (World_init eager_config 100)))) = true)
    by (by vm_compute).
  assert (Hlu : OD.get (model_name (config (model_manager
                          (run sample_engine [OpLoad None; OpWait (secs 400)]
                             (World_init eager_config 100)))))
                  (last_used_of (run sample_engine [OpLoad None; OpWait (secs 400)]
                                   (World_init eager_config 100)))
                = Some (100 + ticks 7))
    by (by vm_compute).
  assert (Hidle : ttl_of (run sample_engine [OpLoad None; OpWait (secs 400)]
                            (World_init eager_config 100))
                  <= clock (run sample_engine [OpLoad None; OpWait (secs 400)]
                              (World_init eager_config 100)) - (100 + ticks 7))
    by (apply Z.leb_le; by vm_compute).
  destruct (health_after_idle_unload None None "/models" _ (100 + ticks 7)
              Hnm Hnl Hcat Hres Hlu Hidle) as (body & Hb & _ & Hs).
  exists body. split; [exact Hb|]. rewrite Hs. by vm_compute.
Defined.

(** ** The reranker and the idle loop *)

Lemma exec_rm E o w :
  is_rerank o = false -> reranker_manager (exec E o w) = reranker_manager w.
Proof.
  destruct o as [ident|texts ident nz|q docs ident ins top_k|late|d]; simpl;
    intros Ho; try done.
  - apply load_model_rm.
  - apply generate_embeddings_rm.
  - unfold ttl_iteration. destruct (0 <? _); [|done]. by rewrite ttl_check_rm.
Qed.

(** X21. Only requests to the reranker change the reranker manager: the
    idle loop never looks at it, so a reranker model, once loaded, stays
    resident however long it is idle, and loads and evictions of
    embedding models do not touch it. *)
Theorem reranker_is_never_idle_unloaded (E : Engine) (ops : list Op) (w : World) :
  forallb (fun o => negb (is_rerank o)) ops = true ->
  reranker_manager (run E ops w) = reranker_manager w.
Proof.
  revert w. induction ops as [|o ops IH]; intros w Hall; [done|].
  simpl in Hall. apply andb_true_iff in Hall as [Ho Hall].
  apply negb_true_iff in Ho.
  change (run E (o :: ops) w) with (run E ops (exec E o w)).
  rewrite (IH _ Hall). by apply exec_rm.
Qed.

Lemma reranker_is_never_idle_unloaded_witness :
  OD.keys (r_models (reranker_manager
                       (run sample_engine
                          [OpWait (secs 4000); OpTtl 0; OpEmbed ["a"] (Some "large") true;
                           OpTtl (secs 5000)]
                          (run sample_engine
                             [OpRerank "query" sample_documents None None None]
                             (World_init default_config 100)))))
  = [DEFAULT_RERANKER_MODEL].
Proof.
  assert (Hall : forallb (fun o => negb (is_rerank o))
                   [OpWait (secs 4000); OpTtl 0; OpEmbed ["a"] (Some "large") true; OpTtl (secs 5000)]
                 = true) by reflexivity.
  rewrite (reranker_is_never_idle_unloaded sample_engine _ _ Hall).
  by vm_compute.
Defined.

(** ** The status report *)





(** ** Truncation *)




















(** ** What decides a load *)

Lemma r_manage_count_loads k w :
  count_events is_load (r_manage_memory k w) = count_events is_load w.
Proof.
  unfold r_manage_memory. destruct (_ <=? _)%nat; [|done].
  destruct (List.filter _ _) as [|e l]; [done|].
  unfold r_unload_model. by destruct (negb _).
Qed.

(** X24. Whether [load_model] succeeds is decided by [load] alone: for a
    model that is not ready, the embedding manager returns the name
    exactly when [load] returns a model with a [model] attribute, and the
    reranker manager exactly when [load] returns and the two answer
    tokens are found.  What the warmup does, failures included, has no
    part in it. *)
Theorem load_succeeds_iff_load_does
    (E : Engine) (ident : option string) (w : World) (k : string) :
  (_resolve_model_name (config (model_manager w)) ident = Ok k ->
   is_ready k (model_manager w) = false ->
   (snd (load_model E ident w) = Ok k <->
    exists h, eng_load E k (count_events is_load w) = Loaded h true))
  /\ (r_resolve_model_name ident = Ok k ->
      r_is_ready k (reranker_manager w) = false ->
      (snd (r_load_model E ident w) = Ok k <->
       exists h b ids, eng_load E k (count_events is_load w) = Loaded h b
                       /\ eng_token_ids E h = Ok ids)).
Proof.
  split.
  - intros Hres Hrd.
    set (wb := begin_load k (on_mm (set_locks (ensure_lock k)) w)).
    assert (Hn : count_events is_load (_manage_memory k wb) = count_events is_load w)
      by (by rewrite manage_count_loads).
    destruct (load_model_outcome E ident w k Hres Hrd)
      as [(h & Hload & Hok & _)|(e & Hload & Hfail & _)]; fold wb in Hload;
      rewrite Hn in Hload.
    + split; [|done]. intros _. by exists h.
    + rewrite Hfail. split; [done|]. intros (h & Hh).
      destruct Hload as [Hload|(h' & Hload & _)]; congruence.
  - intros Hres Hrd. unfold r_load_model. rewrite Hres, Hrd.
    change (r_is_ready k (reranker_manager (on_rm (r_set_locks (ensure_lock k)) w)))
      with (r_is_ready k (reranker_manager w)).
    rewrite Hrd. unfold rm_load, call_load. rewrite r_manage_count_loads.
    change (count_events is_load
              (on_rm (r_set_model_status (insert k LOADING))
                 (on_rm (r_set_locks (ensure_lock k)) w)))
      with (count_events is_load w).
    destruct (eng_load E k (count_events is_load w)) as [h b|e].
    + destruct (eng_token_ids E h) as [ids|e] eqn:Hids; simpl.
      * split; [|done]. intros _. by exists h, b, ids.
      * split; [done|]. intros (h' & b' & ids & [= <- <-] & Hi). congruence.
    + simpl. split; [done|]. by intros (h' & b' & ids & ? & _).
Qed.

Lemma load_succeeds_iff_load_does_witness :
  snd (load_model sample_engine None (World_init default_config 100))
  = Ok DEFAULT_MODEL.
Proof.
  assert (Hres : _resolve_model_name
                   (config (model_manager (World_init default_config 100))) None
                 = Ok DEFAULT_MODEL) by reflexivity.
  assert (Hrd : is_ready DEFAULT_MODEL (model_manager (World_init default_config 100))
                = false) by reflexivity.
  apply (proj1 (load_succeeds_iff_load_does sample_engine None
                  (World_init default_config 100) DEFAULT_MODEL) Hres Hrd).
  by exists 0%nat.
Defined.
